(* ===== verification/_CoqProject ===== *)
-Q . S2P
Prelude.v
JsString.v
Ui.v
StateM.v
Heap.v
LineClassifier.v
ParserState.v
ContentGroup.v
ModeController.v
DeckAssembler.v
ParserInvariants.v
ParserExamples.v
ParserDefects.v
ContentDelivery.v
Host.v
Render.v
RenderExamples.v
MarkdownShown.v
Config.v
Logging.v
ChatRequest.v
Assistant.v
JsonRender.v
ImagePath.v
HttpClient.v
Roundtrip.v
ParsedRoundtrip.v
