(* ===== verification/Prelude.v ===== *)
(** * gpt-slide: a verification development of the outline-to-slides add-on

    The repository is a Google Apps Script add-on for Google Slides.  It
    has two source files:
    - [src/code2.js]: [parseMarkdownToSlides], a line-oriented parser that
      turns outline text (headings, bullet lists, fenced code, [---]
      separators, plain paragraphs) into a deck value
      [{title, slides: [{title, points, code?, sectionHeader?}]}], and
      [createSlidesFromMarkdown], which renders that value into the host
      presentation;
    - [src/code.js]: the language-model client (requests, logging), the
      JSON-outline renderer [createSlidesInCurrentPresentation], the
      code-box helper [insertCodeBlockText_], the fence remover
      [removeJsonCodeBlock_], the slide-index lookup
      [getSlideIndexByObjectId_] and the text rewriting of a selection
      [generateTextInCurrentElement].

    The parser is the core.  Inside one call it keeps, as local [let]s,
    the deck title, the array [slides] of object references, the
    reference [currentSlide], the flag [inCodeBlock], the string
    [codeBuffer] and the array [contentGroup].  Slide objects are shared:
    [currentSlide] may also sit in [slides], the flat branch of
    [flushContentGroup] mutates [slides[slides.length-1]], and the final
    [slides.includes(currentSlide)] compares references.  The model
    therefore keeps an explicit object store and references into it.

    ** Files, in dependency order
    - [Prelude]: this header, the [gslide] hint databases, the tactic
      [simpl_bind] and the generic list lemmas the components share.
    - [StateM]: the state-and-exception monad [StE] the scripts run in
      (an exception is a [None] outcome with the state reached), its
      laws, loops ([forM_], [mapH]) with a loop-invariant lemma, the
      lifting of a script to one component of a pair of states
      ([on_fst], [on_snd]), and [keeps], the invariants kept on every
      outcome.
    - [JsString]: JavaScript strings as lists of UTF-16 code units
      ([N]), with [trim], [startsWith], [split] on one character,
      [join] and [replace] of the first occurrence, and the ECMAScript
      classes of white space and line terminators.
    - [Ui]: [onOpen] and [showSidebar] ([code.js] 7-19) on a record of
      the host's UI state (the add-on menu, the sidebar shown).
    - [Heap]: the object store: references are indices into a list of
      objects, allocation appends, field updates are [option]-valued
      (a dangling reference is the model of a [TypeError]).
    - [LineClassifier]: the guards of the loop body of
      [parseMarkdownToSlides] ([code2.js] lines 158-232) as a classifier
      [classify] into [line_kind], the bullet regular expression of
      line 223 and the unused helper [getIndent].
    - [ParserState]: slide objects, content items, the parser's locals
      as the record [PState] and its store operations.
    - [ContentGroup]: [flushContentGroup] (lines 110-156), its
      hierarchical and flat branches.
    - [ModeController]: the loop body [step_line] and the loop
      [run_lines]; the code-block flag as the step relation [mode_step].
    - [DeckAssembler]: the end of input and the post-pass [finish]
      (lines 233-246) and [parseMarkdownToSlides].
    - [ParserInvariants]: invariants of the store along a run (a Section
      over any slide predicate kept by the three slide updates), the
      [sectionHeader] post-pass, monotonicity of slides and points.
    - [ParserExamples]: the spec's examples and the divergences found,
      each by evaluation.
    - [ParserDefects]: the two reference defects of the parser stated
      over every state: a [---] line loses the slide a level-1 heading
      opened, whatever follows ([separator_drops_current_slide], by the
      relation [fresh_refs] every step satisfies), and the placeholder
      slide of a flat group is pushed twice
      ([placeholder_slide_pushed_twice]).
    - [ContentDelivery]: where each content line goes: [held] (in the
      content group, in a pushed slide or in the current slide) is kept
      by every handler but the separator's, and [finish] turns it into a
      title or point of the deck.
    - [Host]: the host presentation: the interface [SlideOrder] with its
      law [SlideOrderLaws] for [Slide.move], a concrete presentation
      [Pres] (slides with ids, a layout and shapes of paragraphs with
      the left position and width set on them) that
      satisfies it, the host calls the scripts make, the script monad
      [HostM] (state and exception: an exception stops the script and
      keeps what the host already did), [getSlideIndexByObjectId_] and
      the placement theorem of the reverse move loop, proved against the
      interface only.
    - [Render]: [insertCodeBlockText_] ([code.js] 305-327) and
      [createSlidesFromMarkdown] ([code2.js] 11-65).
    - [RenderExamples]: end-to-end runs of the markdown path showing the
      renderer's findings.
    - [MarkdownShown]: the parser composed with [createSlidesFromMarkdown]:
      the texts [ContentDelivery] delivers to the deck are paragraphs of
      the slides the script adds.
    - [Config]: the script properties read at load time ([code.js]
      1-5) with their [||] defaults, and [Number.parseInt],
      [Number.parseFloat], [*] and [Math.round] on JavaScript numbers
      ([jsnum], kept exact) for the numbers of the image request, and
      [Number::toString] ([number_to_string]) for their JSON text.
    - [Logging]: [log_] ([code.js] 433-437) on a log state of console
      lines, the rows of the spreadsheets by id and a clock for
      [new Date()]: the console line, then the row of the sheet
      [SHEET_ID] names, or the exception of [openById]; [logged], the
      relation between a log and the log after a list of messages.
    - [ChatRequest]: the [data] object of the three chat requests
      (model, messages with the exact prompt texts, [max_tokens],
      temperature, [response_format]) and [JSON.stringify] of the slides
      template and of the [data] object that [log_] records.
    - [Assistant]: [removeJsonCodeBlock_] and its global replace; [ask],
      the request-and-log core of the three request functions (log the
      request, read the answer's first choice, log the answer);
      [getTextResponse_]; [generateTextInCurrentElement] as a script on
      the log and the selected elements, written in place; and
      [getAllTextFromActiveSlide_].  The configuration, the text of the
      dates and the chat endpoint (from a request to the content of the
      first choice, [None] when there is none) are section variables.
    - [JsonRender]: [createSlidesInCurrentPresentation] ([code.js]
      36-87), a script on the log and the presentation, with
      [getSlidesResponse_] (232-288) and its [【ERR_1】] path; the chat
      endpoint and [JSON.parse] are section variables; the
      well-formedness of the presentation along both scripts.
    - [ImagePath]: [generateImageInCurrentSlide] ([code.js] 97-103) on
      the log and the placed images, with [getImagePrompt_],
      [generateImageFromDallE_] (the image endpoint a section variable
      returning an abstract blob, or [None]) and
      [insertImageBlobToActiveSlide_]; the run of the three assistant
      scripts without a log sheet.
    - [HttpClient]: the HTTP layer under the chat and image endpoints:
      the [options] of each [UrlFetchApp.fetch] (method, the bearer
      header, the payload, [muteHttpExceptions]), the values
      [JSON.parse] returns ([jvalue]) and JavaScript's property reads on
      them ([get_prop]: [TypeError] on [undefined] and [null], the last
      of repeated keys, array and string indices), hence
      [chat_endpoint] and [image_endpoint], the instances of the
      endpoints the other files take as section variables.
    - [Roundtrip]: the serialisation of a deck the spec describes (spec
      8) and the theorem that parsing it gives the deck back, proved by a
      simulation [RT] between the parser's state and an abstract list of
      slides with pending bullets; the counterexample of empty titles.
    - [ParsedRoundtrip]: a text invariant of the parser's state ([text_inv]:
      titles, points and content items trimmed and free of line
      terminators, the code buffer a sequence of non-blank, non-fence
      lines) kept by every handler, and the round trip on the parser's own
      decks ([parse_idempotent]).

    ** What is proved
    - Parser: totality ([parse_total]: no dangling reference on any
      input), the [sectionHeader] invariant, the deck title against a
      reference definition, the mode machine refinement, the hierarchical
      and flat branches of the flush, monotonicity of slide objects along
      a run, the invariant of the content group along reachable states,
      the classification of heading
      and bullet lines, the handling
      of fenced code (an unterminated fence drops all that follows it),
      and the spec examples (1-3 hold, 4 does not); the two defects of
      [ParserDefects], from any state where their guards hold;
      re-parsing a serialised deck gives it back ([parse_serialize]) when
      its titles are non-empty, and not otherwise; a deck the parser
      returns from [\n]-terminated lines is such a deck when its slides
      have titles ([parse_idempotent]); liveness of the content
      ([content_delivered]): without [---] lines the text of every
      heading (but the one giving the deck title), bullet and plain line
      read outside a fenced block ends up in the deck, whatever the
      lines after it are.  Composed with the renderer
      ([createSlidesFromMarkdown_shows_content]): each such line is the
      text of a title or bullet paragraph of a slide the script adds.
    - Renderers: the exact shapes of each rendered slide, the code box,
      and the placement of the new slides right after the selected one
      (both paths), [getSlideIndexByObjectId_]: an index of the
      presentation, the first slide with the id when there is one, [0]
      otherwise; the crash of
      section-header slides with code on a theme whose section-header
      layout has only a title placeholder; an answer without a [slides]
      array leaves a stray title slide at the end.
    - Configuration and requests: [IMAGE_MAX_WORDS] set to the numeral
      of [n] (default 40) with [3 n <= 2^53] gives [max_tokens] [3 n],
      whose JSON text is the numeral of [3 n], through a round trip of
      [parseInt] with a decimal printer; the image request is given
      field by field, and its JSON text is that of [JSON.stringify].
      Over HTTP ([ask_over_http]) the request line of the log is exactly
      the payload sent, and the answer's first-choice content is
      returned and logged, and an answer without a first choice (an
      error answer of the API) makes [ask] throw after the request line.
    - Assistant: no triple backtick survives [removeJsonCodeBlock_];
      [generateTextInCurrentElement] refines the pure rewrite of the
      selection by the answers and logs each request and answer in loop
      order ([generateTextInCurrentElement_refines]), which keeps row 0
      of a table and rewrites its column 0; [getSlidesResponse_] logs, parses
      or logs the parse error and rethrows; the image path adds one image
      to the current page from the request it builds, whose user message
      falls back to a fixed sentence exactly on slides without a text
      box; without a log sheet each of the three scripts throws before
      its first request and changes no slide
      ([assistant_scripts_without_log_sheet]).

    ** Bounds, fuel and parameters
    The parser's loop is structural over the list of lines; the only fuel
    is that of [replace_all] (global [replace]), the length of the input,
    which is enough since each step consumes a character
    ([replace_all_terminates] compares it with a definition by
    well-founded recursion).  The decimal digits of a number
    ([digits_fuel]) take the number of bits of the number as fuel, enough
    since each division by 10 at least halves it ([decimal_digits_lt]);
    [decimal_shift] looks for the power of 10 a denominator divides up to
    the number of its bits, enough for the denominators [2^a 5^b] of
    decimal literals.  JavaScript numbers are exact rationals: the
    model agrees with binary64 on integers below 2^53 and on short decimal
    literals, which is what the configuration holds; the [max_tokens]
    theorem assumes [3 n <= 2^53], where the two agree (above it, e.g.
    for [n = 2^53 + 1], binary64 rounds the product).  The theme is a parameter
    [placeholders : Layout -> nat]: the renderer theorems assume the
    numbers of placeholders they need (one for [TITLE], two for the body
    layouts), and the crash theorem assumes a single one for
    [SECTION_HEADER].  Slide ids are natural numbers below [next_id].

    ** Not modelled
    The network ([UrlFetchApp.fetch] returning the text of an answer,
    or throwing) and [JSON.parse] (a library) are section variables of
    [HttpClient]; the other files take the endpoints built from them as
    section variables, and the image is an abstract blob.  Property reads
    see only own properties: the keys the code reads name none of the
    prototypes'.  The reads of the JSON outline ([json.title],
    [slideData.points], ...) are part of the [JSON_parse] variable of
    [JsonRender], which returns them as strings, options and lists: how
    the Slides API treats fields of other types ([setText] of a number,
    [appendParagraph] of [null]) is not specified by its documentation.  The page
    [sidebar.html] the sidebar shows is not among the sources.
    The value an exception carries (the message of
    [generateTextInCurrentElement], a [TypeError]) is not kept: an
    exception is a [None] outcome.  The text of a date
    ([toLocaleString]) is a parameter of the clock.  The theme is
    abstracted as the number of placeholders of each layout: where it puts
    them (the [None] left and width of a shape) is not modelled; the left
    position and width the code box is given ([setLeft(200)],
    [setWidth(500)]) and the style of its paragraphs are.  Three host
    behaviours are fixed by the model rather than verified: [setText]
    starts a paragraph at each newline ([Host.text_paras]); the copy
    [duplicate()] makes is the last shape of [getShapes()]; and
    [appendParagraph] of an object point receives its string form
    ["[object Object]"].  [getText()] of a shape is a [TextRange]
    object, so the guard of line 125 holds on every shape.  See
    PROJECT.json.
*)

From Stdlib Require Export NArith.
From stdpp Require Export numbers base options decidable list.

Declare Scope gslide_scope.
Delimit Scope gslide_scope with gs.

(** The development's hint database. *)
Create HintDb gslide discriminated.
Create Rewrite HintDb gslide_rw.

(** Destruct an [option] bind in a hypothesis. *)
Ltac simpl_bind :=
  repeat match goal with
  | H : mbind _ ?o = Some _ |- _ =>
      let E := fresh "E" in destruct o eqn:E; simpl in H; [|discriminate H]
  | H : Some _ = Some _ |- _ => injection H as H
  | H : mret _ = Some _ |- _ => injection H as H
  end.

(** ** Generic list lemmas *)

Lemma Forall_snoc {A} (P : A → Prop) (l : list A) (x : A) :
  Forall P (l ++ [x]) ↔ Forall P l ∧ P x.
Proof. rewrite Forall_app, Forall_singleton. done. Qed.

Lemma last_Some_in {A} (l : list A) (x : A) : last l = Some x → x ∈ l.
Proof. apply last_Some_elem_of. Qed.

Lemma forallb_elem {A} (f : A → bool) (l : list A) x : forallb f l = true → x ∈ l → f x = true.
Proof. intros Hl Hx%list_elem_of_In. by apply (proj1 (forallb_forall f l)). Qed.

Lemma insert_app_length {A} (l r : list A) x y : <[length l := x]> (l ++ y :: r) = l ++ x :: r.
Proof. pose proof (insert_app_r l (y :: r) 0 x) as E. by rewrite Nat.add_0_r in E. Qed.

(** The element of [seq m n] after a prefix [pre] is [m + length pre]. *)
Lemma seq_split_at m n pre x post : seq m n = pre ++ x :: post → x = m + length pre.
Proof.
  intros E. assert (Hx : seq m n !! length pre = Some x) by (rewrite E, lookup_app_r, Nat.sub_diag by lia; done).
  apply lookup_seq in Hx as [-> _]. done.
Qed.

Lemma alter_as_insert {A} (f : A → A) (l : list A) i x : l !! i = Some x → alter f i l = <[i := f x]> l.
Proof. intros Hx. rewrite list_insert_alter. apply list_alter_ext; [|done]. intros y Hy. congruence. Qed.

(** The element at [n] of a list whose first [n] elements are mapped. *)
Lemma lookup_map_take_drop {A} (f : A → A) (l : list A) n x :
  l !! n = Some x → (map f (take n l) ++ drop n l) !! n = Some x.
Proof.
  intros Hx. pose proof (lookup_lt_Some _ _ _ Hx).
  rewrite lookup_app_r by (rewrite length_map, length_take; lia).
  rewrite length_map, length_take, Nat.min_l, Nat.sub_diag, lookup_drop, Nat.add_0_r by lia. done.
Qed.

Lemma concat_map_take_S {A B} (f : A → list B) (l : list A) n x :
  l !! n = Some x → concat (map f (take (S n) l)) = concat (map f (take n l)) ++ f x.
Proof. intros Hx. by rewrite (take_S_r _ _ _ Hx), map_app, concat_app; simpl; rewrite app_nil_r. Qed.

(** The first element of [l] whose image under [g] is not empty. *)
Lemma concat_map_first {A B} (g : A → list B) (l : list A) t r :
  concat (map g l) = t :: r →
  ∃ pre x post r', l = pre ++ x :: post ∧ Forall (λ y, g y = []) pre ∧ g x = t :: r'.
Proof.
  induction l as [|x l IH]; simpl; [done|]. destruct (g x) as [|t' r'] eqn:Hx; simpl.
  - intros H. destruct (IH H) as (pre & y & post & r' & -> & Hpre & Hy).
    exists (x :: pre), y, post, r'. split_and!; [done|by constructor|done].
  - intros [= <- _]. exists [], x, l, r'. split_and!; [done|constructor|done].
Qed.

Lemma concat_map_nil {A B} (g : A → list B) (l : list A) x :
  concat (map g l) = [] → x ∈ l → g x = [].
Proof.
  induction l as [|y l IH]; simpl; [by intros _ ?%not_elem_of_nil|].
  intros [Hy Hl]%app_nil [->|Hx]%elem_of_cons; auto.
Qed.

Lemma seq_app_cons n m k : k < m → seq n m = seq n k ++ (n + k) :: seq (S (n + k)) (m - S k).
Proof.
  intros Hk. replace m with (k + S (m - S k)) at 1 by lia.
  by rewrite seq_app.
Qed.

(** The element at [k] of an update at [k]. *)
Lemma lookup_insert_at {A} (l : list A) k x y : l !! k = Some y → <[k := x]> l !! k = Some x.
Proof. intros Hk. apply list_lookup_insert_eq. by eapply lookup_lt_Some. Qed.

(** The index after a prefix of [seq m n] is below [m + n]. *)
Lemma seq_prefix_lt m n pre j post : seq m n = pre ++ j :: post → length pre < n.
Proof. intros Hs. apply (f_equal length) in Hs. rewrite length_seq, length_app in Hs. simpl in Hs. lia. Qed.

(** Updating the element at the end of a prefix [take j l] of [l]. *)
Lemma insert_map_take_drop {A} (l : list A) (f : A → A) j x :
  l !! j = Some x →
  <[j := f x]> (map f (take j l) ++ drop j l) = map f (take (S j) l) ++ drop (S j) l.
Proof.
  intros Hx. rewrite (take_S_r _ _ _ Hx), map_app, <-app_assoc. simpl.
  rewrite (drop_S _ _ _ Hx). apply lookup_lt_Some in Hx.
  rewrite insert_app_r_alt; rewrite length_map, length_take; [|lia].
  by rewrite Nat.min_l, Nat.sub_diag by lia.
Qed.

#[export] Hint Resolve last_Some_in : gslide.
#[export] Hint Rewrite @last_snoc @length_app @insert_app_length : gslide_rw.
