(* ===== verification/JsString.v ===== *)
(** JavaScript strings as the parser uses them.

    A JS string is a sequence of UTF-16 code units; here a [str] is a
    [list N] of code units.  The file gives the ECMAScript white-space
    class (the set [\s] of regular expressions and of
    [String.prototype.trim]), the line terminators (the characters [.]
    does not match), [trim], [startsWith], [split] on one separator
    character, [replace] of the first occurrence of a literal, and the
    lemmas the parser's proofs share.  [js] turns an ASCII literal into a
    [str] for examples. *)

From S2P Require Import Prelude.
From Stdlib Require String Ascii.
Export (notations) String.

Abbreviation char := N (only parsing).
Abbreviation str := (list char) (only parsing).

(** An ASCII literal as a list of code units. *)
Definition js (s : String.string) : str :=
  map Ascii.N_of_ascii (String.list_ascii_of_string s).

(** ECMAScript WhiteSpace and LineTerminator code points (all in the
    BMP, so one code unit each): TAB, LF, VT, FF, CR, SPACE, NBSP,
    U+1680, U+2000..U+200A, U+2028, U+2029, U+202F, U+205F, U+3000,
    U+FEFF. *)
Definition ws_chars : list char :=
  [9; 10; 11; 12; 13; 32; 160; 5760; 8232; 8233; 8239; 8287; 12288; 65279]%N.

Definition is_ws (c : char) : bool :=
  bool_decide (c ∈ ws_chars) || bool_decide (8192 ≤ c ≤ 8202)%N.

(** LF, CR, LINE SEPARATOR, PARAGRAPH SEPARATOR. *)
Definition is_line_terminator (c : char) : bool :=
  bool_decide (c ∈ [10; 13; 8232; 8233]%N).

Definition LF : char := 10%N.

(** A double quote. *)
Definition DQ : str := [34%N].

(** [s.trimStart()] *)
Fixpoint trim_start (s : str) : str :=
  match s with
  | [] => []
  | c :: r => if is_ws c then trim_start r else s
  end.

(** [s.trimEnd()] *)
Definition trim_end (s : str) : str := rev (trim_start (rev s)).

(** [s.trim()] *)
Definition trim (s : str) : str := trim_end (trim_start s).

(** [s.startsWith(p)] *)
Definition starts_with (s p : str) : bool := bool_decide (p `prefix_of` s).

(** [s.split(sep)] for a one-character separator: always at least one
    piece, [""] gives [[""]]. *)
Fixpoint split_on (sep : char) (s : str) : list str :=
  match s with
  | [] => [[]]
  | c :: r =>
      let pieces := split_on sep r in
      if bool_decide (c = sep) then [] :: pieces
      else match pieces with
           | p :: ps => (c :: p) :: ps
           | [] => [[c]]
           end
  end.

(** [pieces.join(sep)], the inverse of [split_on]. *)
Fixpoint join (sep : char) (ps : list str) : str :=
  match ps with
  | [] => []
  | [p] => p
  | p :: ps => p ++ sep :: join sep ps
  end.

(** [s.replace(pat, rep)] with a string pattern: only the first
    occurrence is replaced. *)
Fixpoint replace_first (pat rep s : str) : str :=
  if starts_with s pat then rep ++ drop (length pat) s
  else match s with
       | [] => []
       | c :: r => c :: replace_first pat rep r
       end.

(** ** Lemmas *)

Definition no_ws (c : char) : Prop := is_ws c = false.

Lemma trim_start_cons_no_ws c r : no_ws c → trim_start (c :: r) = c :: r.
Proof. unfold no_ws. intros H. simpl. by rewrite H. Qed.

Lemma trim_start_idem s : trim_start (trim_start s) = trim_start s.
Proof.
  induction s as [|c r IH]; [done|]. simpl.
  destruct (is_ws c) eqn:E; [exact IH|]. simpl. by rewrite E.
Qed.

Lemma trim_start_app_ws s t :
  Forall (λ c, is_ws c = true) s → trim_start (s ++ t) = trim_start t.
Proof. induction 1 as [|c s Hc _ IH]; [done|]. simpl. by rewrite Hc. Qed.

Lemma trim_start_nil_iff s :
  trim_start s = [] ↔ Forall (λ c, is_ws c = true) s.
Proof.
  induction s as [|c r IH]; simpl; [split; auto|].
  destruct (is_ws c) eqn:E.
  - rewrite IH. split; [by constructor|by inversion 1].
  - split; [done|]. inversion 1; congruence.
Qed.

Lemma rev_nil_iff {A} (l : list A) : rev l = [] ↔ l = [].
Proof. split; [|by intros ->]. destruct l; [done|]. simpl. intros H. by destruct (app_cons_not_nil (rev l) [] a). Qed.

Lemma trim_nil_iff s : trim s = [] ↔ Forall (λ c, is_ws c = true) s.
Proof.
  unfold trim, trim_end. rewrite rev_nil_iff, <- trim_start_nil_iff.
  split; intros H; [|by rewrite H].
  apply trim_start_nil_iff in H. apply Forall_rev in H.
  rewrite rev_involutive in H. apply trim_start_nil_iff in H.
  by rewrite trim_start_idem in H.
Qed.

(** The shape of a trimmed string: it neither starts nor ends with white
    space. *)
Definition trimmed_shape (s : str) : Prop :=
  match s with
  | [] => True
  | c :: _ => no_ws c ∧ ∃ l d, s = l ++ [d] ∧ no_ws d
  end.

Lemma trim_start_rev_snoc l d :
  no_ws d → trim_start (rev (l ++ [d])) = rev (l ++ [d]).
Proof. intros H. rewrite rev_app_distr. simpl. by rewrite H. Qed.

Lemma trim_shape s : trimmed_shape s → trim s = s.
Proof.
  destruct s as [|c r]; [done|]. intros [Hc (l & d & Heq & Hd)].
  unfold trim, trim_end. rewrite trim_start_cons_no_ws by done.
  rewrite Heq, trim_start_rev_snoc by done. apply rev_involutive.
Qed.

Lemma starts_with_app p s : starts_with (p ++ s) p = true.
Proof. unfold starts_with. apply bool_decide_eq_true_2. by exists s. Qed.

Lemma replace_first_at_start pat rep s :
  starts_with s pat = true → replace_first pat rep s = rep ++ drop (length pat) s.
Proof. destruct s; simpl; intros ->; done. Qed.

Lemma split_on_not_nil sep s : split_on sep s ≠ [].
Proof.
  induction s as [|c r IH]; simpl; [done|].
  case_bool_decide; [done|]. destruct (split_on sep r); done.
Qed.

(** [join] undoes [split_on]: the pieces of [s.split(sep)] joined by
    [sep] give [s] back. *)
Lemma join_split_on sep s : join sep (split_on sep s) = s.
Proof.
  induction s as [|c r IH]; [done|]. simpl.
  pose proof (split_on_not_nil sep r) as Hne.
  case_bool_decide as Hc.
  - subst. destruct (split_on sep r) as [|p ps]; [done|].
    destruct ps; simpl in *; congruence.
  - destruct (split_on sep r) as [|p ps]; [done|].
    destruct ps; simpl in *; congruence.
Qed.

(** A string without the separator is one piece. *)
Lemma split_on_single sep s : sep ∉ s → split_on sep s = [s].
Proof.
  induction s as [|c r IH]; [done|]. intros Hs. simpl.
  rewrite bool_decide_eq_false_2 by (intros ->; apply Hs; left).
  rewrite IH; [done|]. intros H. apply Hs. by right.
Qed.

Lemma split_on_app_sep sep x r : sep ∉ x → split_on sep (x ++ sep :: r) = x :: split_on sep r.
Proof.
  induction x as [|c x IH]; intros Hx; simpl.
  - by rewrite bool_decide_eq_true_2.
  - rewrite bool_decide_eq_false_2 by (intros ->; apply Hx; left).
    rewrite IH; [done|]. intros H. apply Hx. by right.
Qed.

(** [split] undoes [join] when no piece holds the separator. *)
Lemma split_on_join sep ps :
  ps ≠ [] → Forall (λ p, sep ∉ p) ps → split_on sep (join sep ps) = ps.
Proof.
  induction ps as [|p [|q ps] IH]; intros Hne Hps; [done| |].
  - inversion Hps. simpl. by apply split_on_single.
  - inversion Hps as [|? ? Hp Hrest]. simpl. rewrite split_on_app_sep by done.
    f_equal. by apply IH.
Qed.

(** No piece of [s.split(sep)] contains [sep]. *)
Lemma split_on_no_sep sep s p : p ∈ split_on sep s → sep ∉ p.
Proof.
  revert p. induction s as [|c r IH]; simpl; intros p Hp.
  - apply list_elem_of_singleton in Hp. subst. apply not_elem_of_nil.
  - pose proof (split_on_not_nil sep r) as Hne.
    case_bool_decide as Hc.
    + apply elem_of_cons in Hp as [->|Hp]; [apply not_elem_of_nil|auto].
    + destruct (split_on sep r) as [|q qs] eqn:E; [done|].
      apply elem_of_cons in Hp as [->|Hp].
      * rewrite elem_of_cons. intros [->|Hq]; [done|].
        by apply (IH q); [left|].
      * apply IH. by right.
Qed.

(** The pieces of [s.split(sep)] keep a character class that every
    character of [s] but the separators has. *)
Lemma split_on_free (P : char → Prop) sep s :
  Forall (λ c, c = sep ∨ P c) s → Forall (Forall P) (split_on sep s).
Proof.
  induction 1 as [|c r Hc _ IH]; simpl; [by repeat constructor|].
  case_bool_decide as Hcs; [by constructor|].
  destruct (split_on sep r) as [|p ps]; [by repeat constructor; destruct Hc|].
  apply Forall_cons in IH as [Hp Hps]. constructor; [|done].
  constructor; [by destruct Hc|done].
Qed.

(** [trim_start] drops a white-space prefix; [trim_end] a white-space
    suffix. *)
Lemma trim_start_split s :
  ∃ w, s = w ++ trim_start s ∧ Forall (λ c, is_ws c = true) w.
Proof.
  induction s as [|c r (w & Hw & Hws)]; [by exists []|]. simpl.
  destruct (is_ws c) eqn:E.
  - exists (c :: w). simpl. rewrite <- Hw. auto.
  - by exists [].
Qed.

Lemma trim_start_head s c r : trim_start s = c :: r → no_ws c.
Proof.
  unfold no_ws. induction s as [|a s IH]; simpl; [done|].
  destruct (is_ws a) eqn:E; [exact IH|]. by intros [= -> _].
Qed.

Lemma trim_end_split s :
  ∃ w, s = trim_end s ++ w ∧ Forall (λ c, is_ws c = true) w.
Proof.
  destruct (trim_start_split (rev s)) as (w & Hw & Hws). exists (rev w).
  split; [|by apply Forall_rev].
  unfold trim_end. rewrite <- rev_app_distr, <- Hw. by rewrite rev_involutive.
Qed.

Lemma trim_end_cons c r :
  no_ws c → ∃ r', trim_end (c :: r) = c :: r' ∧ r' `prefix_of` r.
Proof.
  intros Hc. destruct (trim_end_split (c :: r)) as (w & Hw & Hws).
  destruct (trim_end (c :: r)) as [|d r'].
  - simpl in Hw. subst. inversion Hws. unfold no_ws in Hc. congruence.
  - simpl in Hw. injection Hw as -> ->. exists r'. split; [done|]. by exists w.
Qed.

Lemma trim_end_last s l d : trim_end s = l ++ [d] → no_ws d.
Proof.
  unfold trim_end. intros H. apply (f_equal (@rev _)) in H.
  rewrite rev_involutive, rev_app_distr in H. by apply trim_start_head in H.
Qed.

Lemma trim_is_trimmed s : trimmed_shape (trim s).
Proof.
  destruct (trim s) as [|c r] eqn:E; [done|]. split.
  - unfold trim in E. destruct (trim_start s) as [|a t] eqn:Es.
    + done.
    + destruct (trim_end_split (a :: t)) as (w & Hw & _). rewrite E in Hw.
      injection Hw as -> _. by apply trim_start_head in Es.
  - destruct (exists_last (l:=c :: r)) as (l & d & Hld); [done|].
    exists l, d. split; [done|]. unfold trim in E. rewrite Hld in E.
    by apply trim_end_last in E.
Qed.

Lemma trim_idem s : trim (trim s) = trim s.
Proof. apply trim_shape, trim_is_trimmed. Qed.

(** [s] is its own [trim]: a decidable test. *)
Definition trimmed (s : str) : Prop := trim s = s.

Lemma trimmed_shape_iff s : trimmed s ↔ trimmed_shape s.
Proof.
  split; [|apply trim_shape]. unfold trimmed. intros H. rewrite <- H. apply trim_is_trimmed.
Qed.

(** A string that starts with a non-white-space character keeps it at
    the head of its trimmed form, followed by a prefix of the rest. *)
Lemma trim_app_ws_cons w c r :
  Forall (λ c, is_ws c = true) w → no_ws c →
  ∃ r', trim (w ++ c :: r) = c :: r' ∧ r' `prefix_of` r.
Proof.
  intros Hw Hc. unfold trim. rewrite trim_start_app_ws by done.
  rewrite trim_start_cons_no_ws by done. by apply trim_end_cons.
Qed.

Lemma trimmed_app a p t :
  no_ws a → t ≠ [] → trimmed t → trimmed ((a :: p) ++ t).
Proof.
  rewrite !trimmed_shape_iff.
  destruct t as [|b t]; [done|]. intros Ha _ [_ (l & d & Hl & Hd)]. split; [done|].
  exists (a :: p ++ l), d. split; [|done]. rewrite Hl. simpl. by rewrite app_assoc.
Qed.

Lemma starts_with_nil s : starts_with s [] = true.
Proof. unfold starts_with. apply bool_decide_eq_true_2. by exists s. Qed.

(** ** Trimming around pieces *)

Lemma trim_start_app_nonblank a b : trim_start a ≠ [] → trim_start (a ++ b) = trim_start a ++ b.
Proof.
  induction a as [|c a IH]; [done|]. simpl. destruct (is_ws c); [exact IH|done].
Qed.

Lemma trim_end_nonblank_iff s : trim_end s ≠ [] ↔ trim_start (rev s) ≠ [].
Proof. unfold trim_end. by rewrite rev_nil_iff. Qed.

Lemma trim_end_app_nonblank a b : trim_end b ≠ [] → trim_end (a ++ b) = a ++ trim_end b.
Proof.
  intros Hb%trim_end_nonblank_iff. unfold trim_end.
  by rewrite rev_app_distr, trim_start_app_nonblank, rev_app_distr, rev_involutive.
Qed.

Lemma trim_end_snoc_ws a c : is_ws c = true → trim_end (a ++ [c]) = trim_end a.
Proof. intros Hc. unfold trim_end. rewrite rev_app_distr. simpl. by rewrite Hc. Qed.

Lemma trim_end_idem s : trim_end (trim_end s) = trim_end s.
Proof. unfold trim_end. by rewrite rev_involutive, trim_start_idem. Qed.

Lemma trim_start_trim_end s : trim_start (trim_end s) = trim_end (trim_start s).
Proof.
  destruct (trim_start_split s) as (w & Hs & Hw).
  destruct (trim_start s) as [|c r] eqn:E.
  - rewrite app_nil_r in Hs. subst s. unfold trim_end.
    assert (Hr : trim_start (rev w) = []).
    { rewrite <-(app_nil_r (rev w)), trim_start_app_ws; [done|by apply Forall_rev]. }
    by rewrite Hr.
  - pose proof (trim_start_head _ _ _ E) as Hc.
    destruct (trim_end_cons c r Hc) as (r' & Hr' & _).
    rewrite Hs, trim_end_app_nonblank by (by rewrite Hr').
    by rewrite trim_start_app_ws, Hr', trim_start_cons_no_ws.
Qed.

Lemma trim_trim_start s : trim (trim_start s) = trim s.
Proof. unfold trim. by rewrite trim_start_idem. Qed.

Lemma trim_trim_end s : trim (trim_end s) = trim s.
Proof. unfold trim. by rewrite trim_start_trim_end, trim_end_idem. Qed.

Lemma join_snoc sep ls l : ls ≠ [] → join sep (ls ++ [l]) = join sep ls ++ sep :: l.
Proof.
  induction ls as [|a [|b ls] IH]; intros Hne; [by destruct (Hne eq_refl)|done|].
  change (join sep ((a :: b :: ls) ++ [l])) with (a ++ sep :: join sep ((b :: ls) ++ [l])).
  rewrite IH by done. simpl. by rewrite <-app_assoc.
Qed.

Lemma trim_start_join sep l r :
  trim_start l ≠ [] → trim_start (join sep (l :: r)) = join sep (trim_start l :: r).
Proof. intros Hl. destruct r; [done|]. simpl. by apply trim_start_app_nonblank. Qed.

Lemma trim_end_join sep ls l :
  trim_end l ≠ [] → trim_end (join sep (ls ++ [l])) = join sep (ls ++ [trim_end l]).
Proof.
  intros Hl. destruct ls as [|a ls]; [done|].
  rewrite !join_snoc by done.
  replace (join sep (a :: ls) ++ sep :: l) with ((join sep (a :: ls) ++ [sep]) ++ l)
    by (by rewrite <-app_assoc).
  by rewrite trim_end_app_nonblank, <-app_assoc.
Qed.

Lemma trim_start_prefix_free (P : char → Prop) s : Forall P s → Forall P (trim_start s).
Proof. destruct (trim_start_split s) as (w & Hs & _). intros H. rewrite Hs in H. by apply Forall_app in H as [_ ?]. Qed.

Lemma trim_end_prefix_free (P : char → Prop) s : Forall P s → Forall P (trim_end s).
Proof. destruct (trim_end_split s) as (w & Hs & _). intros H. rewrite Hs in H. by apply Forall_app in H as [? _]. Qed.

Lemma trim_free (P : char → Prop) s : Forall P s → Forall P (trim s).
Proof. intros H. by apply trim_end_prefix_free, trim_start_prefix_free. Qed.

Lemma replace_first_free (P : char → Prop) pat s : Forall P s → Forall P (replace_first pat [] s).
Proof.
  induction s as [|c r IH]; intros Hs; simpl; unfold replace_first; fold replace_first.
  - destruct (starts_with [] pat); [by apply Forall_drop|done].
  - destruct (starts_with (c :: r) pat); [by apply Forall_drop|].
    inversion Hs. constructor; auto.
Qed.

#[export] Hint Resolve split_on_not_nil starts_with_app : gslide.
#[export] Hint Rewrite join_split_on trim_start_idem trim_idem starts_with_nil : gslide_rw.

Arguments replace_first : simpl never.
Arguments trim : simpl never.
Arguments starts_with : simpl never.
