(* ===== verification/Ui.v ===== *)
(** The add-on's user interface ([src/code.js] lines 7-19): [onOpen]
    builds the add-on menu with its one item, which runs [showSidebar];
    [showSidebar] opens [sidebar.html] as a sidebar titled with the
    version, 300 pixels wide.

    The host's UI state is [Ui]: the items of the add-on menu (label and
    function name) and the sidebar shown, if any (file, title, width).
    The page [sidebar.html] is not in the repository's sources; the
    functions it calls on the server are the scripts of the other files. *)

From S2P Require Import Prelude JsString.

Record Ui := mkUi {
  addon_menu : list (str * str);
  sidebar : option (str * str * nat)
}.

(** ['GPTスライド'] *)
Definition MENU_LABEL : str := js "GPT" ++ [12473; 12521; 12452; 12489]%N.

(** [onOpen()]: [createAddonMenu()], [addItem('GPTスライド', 'showSidebar')],
    [addToUi()]: the add-on menu is the new one. *)
Definition onOpen (ui : Ui) : Ui :=
  mkUi [(MENU_LABEL, js "showSidebar")] (sidebar ui).

(** [showSidebar()]: [ver = "(ver:1)"], the HTML output of
    [sidebar.html] with title ['GPTスライド' + ver] and width 300. *)
Definition showSidebar (ui : Ui) : Ui :=
  let ver := js "(ver:1)" in
  mkUi (addon_menu ui) (Some (js "sidebar.html", MENU_LABEL ++ ver, 300)).
