(* ===== verification/StateM.v ===== *)
(** The state-and-exception monad the scripts run in: [StE S A] maps a
    state to an optional result and the state after the run.  An
    exception ([None]) stops the script and keeps the state reached so
    far, as Apps Script does with the host's objects and the log sheet.

    [Host] instantiates it with the presentation ([HostM]), [Logging] with
    the log sheet.  The file holds the monad's operations, its laws as
    rewriting lemmas, and [keeps I m], the statement that a script keeps
    an invariant [I] of its state on every outcome, with the lemmas that
    prove it of a script from its parts. *)

From S2P Require Import Prelude.

Definition StE (S A : Type) : Type := S → option A * S.

#[export] Instance StE_ret S : MRet (StE S) := λ A a s, (Some a, s).
#[export] Instance StE_bind S : MBind (StE S) := λ A B k m s,
  match m s with
  | (Some a, s') => k a s'
  | (None, s') => (None, s')
  end.

(** A read that throws on [None] (a [TypeError] on [undefined]). *)
Definition lift_opt {S A} (o : option A) : StE S A := λ s, (o, s).

Fixpoint forM_ {S A} (l : list A) (f : A → StE S unit) : StE S unit :=
  match l with
  | [] => mret tt
  | x :: r => _ ← f x; forM_ r f
  end.

Fixpoint mapH {S A B} (f : A → StE S B) (l : list A) : StE S (list B) :=
  match l with
  | [] => mret []
  | x :: r => b ← f x; bs ← mapH f r; mret (b :: bs)
  end.

(** A script on one component of a pair of states (the log and the
    presentation), the other left as it is. *)
Definition on_fst {S T A} (m : StE S A) : StE (S * T) A :=
  λ st, ((m st.1).1, ((m st.1).2, st.2)).
Definition on_snd {S T A} (m : StE T A) : StE (S * T) A :=
  λ st, ((m st.2).1, (st.1, (m st.2).2)).

(** [m] keeps [I] on every outcome, an exception included. *)
Definition keeps {S A} (I : S → Prop) (m : StE S A) : Prop := ∀ s, I s → I (m s).2.

(** ** Laws *)

Lemma bind_ret {S A B} (a : A) (k : A → StE S B) s : (mret a ≫= k) s = k a s.
Proof. done. Qed.

Lemma bind_ret_r {S A} (m : StE S A) s : (m ≫= mret) s = m s.
Proof. unfold mbind, StE_bind. by destruct (m s) as [[a|] s']. Qed.

Lemma bind_assoc {S A B C} (m : StE S A) (f : A → StE S B) (g : B → StE S C) s :
  ((m ≫= f) ≫= g) s = (m ≫= λ a, f a ≫= g) s.
Proof. unfold mbind, StE_bind. by destruct (m s) as [[a|] s']. Qed.

Lemma bind_lift_opt {S A B} (o : option A) (k : A → StE S B) s :
  (lift_opt o ≫= k) s = match o with Some a => k a s | None => (None, s) end.
Proof. by destruct o. Qed.

Lemma ste_bind_Some {S A B} (m : StE S A) (k : A → StE S B) s a s' :
  m s = (Some a, s') → (m ≫= k) s = k a s'.
Proof. intros H. unfold mbind, StE_bind. by rewrite H. Qed.

Lemma ste_bind_None {S A B} (m : StE S A) (k : A → StE S B) s s' :
  m s = (None, s') → (m ≫= k) s = (None, s').
Proof. intros H. unfold mbind, StE_bind. by rewrite H. Qed.

Lemma bind_ext {S A B} (m : StE S A) (k1 k2 : A → StE S B) s :
  (∀ a s', k1 a s' = k2 a s') → (m ≫= k1) s = (m ≫= k2) s.
Proof. intros Hk. unfold mbind, StE_bind. destruct (m s) as [[a|] s']; [apply Hk|done]. Qed.

(** ** Loops *)

Lemma forM_app {S A} (l1 l2 : list A) (f : A → StE S unit) s :
  forM_ (l1 ++ l2) f s = (forM_ l1 f ≫= λ _, forM_ l2 f) s.
Proof.
  revert s. induction l1 as [|x l1 IH]; intros s; simpl; [done|].
  rewrite bind_assoc. apply bind_ext. intros _ s'. apply IH.
Qed.


(** A loop runs to its end when each iteration succeeds from a state
    that satisfies the invariant of the iterations done so far. *)
Lemma forM_inv {S A} (l : list A) (f : A → StE S unit) (Inv : list A → S → Prop) s :
  Inv [] s →
  (∀ pre x post s, l = pre ++ x :: post → Inv pre s →
     ∃ s', f x s = (Some tt, s') ∧ Inv (pre ++ [x]) s') →
  ∃ s', forM_ l f s = (Some tt, s') ∧ Inv l s'.
Proof.
  intros H0 Hstep. cut (∀ rest pre s, l = pre ++ rest → Inv pre s →
                          ∃ s', forM_ rest f s = (Some tt, s') ∧ Inv l s').
  { intros H. by apply (H l []). }
  induction rest as [|x rest IH]; intros pre s1 Hl Hs.
  - exists s1. rewrite app_nil_r in Hl. by subst.
  - destruct (Hstep pre x rest s1 Hl Hs) as (s2 & Hf & Hs2). simpl.
    rewrite (ste_bind_Some _ _ _ _ _ Hf). apply (IH (pre ++ [x])); [by rewrite <-app_assoc|done].
Qed.

(** Iterations that leave the state as it is, then one that throws. *)
Lemma forM_skip {S A} (l : list A) (f : A → StE S unit) s :
  (∀ x, x ∈ l → f x s = (Some tt, s)) → forM_ l f s = (Some tt, s).
Proof.
  induction l as [|x l IH]; intros Hl; [done|]. simpl.
  rewrite (ste_bind_Some _ _ _ _ _ (Hl x (list_elem_of_here _ _))). apply IH.
  intros y Hy. apply Hl. by apply list_elem_of_further.
Qed.

Lemma forM_skip_then_fail {S A} (pre post : list A) x (f : A → StE S unit) s s' :
  (∀ y, y ∈ pre → f y s = (Some tt, s)) → f x s = (None, s') →
  forM_ (pre ++ x :: post) f s = (None, s').
Proof.
  induction pre as [|y pre IH]; intros Hpre Hx; simpl; [by rewrite (ste_bind_None _ _ _ _ Hx)|].
  rewrite (ste_bind_Some _ _ _ _ _ (Hpre y (list_elem_of_here _ _))). apply IH; [|done].
  intros z Hz. apply Hpre. by apply list_elem_of_further.
Qed.

(** ** Invariants *)

Section Keeps.
Context {S : Type} (I : S → Prop).

Lemma keeps_ret {A} (a : A) : keeps I (mret a).
Proof. by intros s. Qed.

Lemma keeps_bind {A B} (m : StE S A) (k : A → StE S B) :
  keeps I m → (∀ a, keeps I (k a)) → keeps I (m ≫= k).
Proof.
  intros Hm Hk s Hs. specialize (Hm s Hs). unfold mbind, StE_bind.
  destruct (m s) as [[a|] s']; [by apply Hk|done].
Qed.

Lemma keeps_lift_opt {A} (o : option A) : keeps I (lift_opt o).
Proof. by intros s. Qed.

Lemma keeps_forM {A} (l : list A) (f : A → StE S unit) :
  (∀ a, keeps I (f a)) → keeps I (forM_ l f).
Proof. intros Hf. induction l as [|a l IH]; simpl; [apply keeps_ret|by apply keeps_bind]. Qed.

Lemma keeps_mapH {A B} (f : A → StE S B) (l : list A) :
  (∀ a, keeps I (f a)) → keeps I (mapH f l).
Proof.
  intros Hf. induction l as [|a l IH]; simpl; [apply keeps_ret|].
  apply keeps_bind; [done|]. intros b. apply keeps_bind; [done|]. intros. apply keeps_ret.
Qed.
(** A script on the other component keeps an invariant of this one; a
    script on this one keeps what it keeps. *)
Lemma keeps_on_fst {T A} (m : StE T A) : keeps (λ st : T * S, I st.2) (on_fst m).
Proof. by intros [t s]. Qed.

Lemma keeps_on_snd {T A} (m : StE S A) : keeps I m → keeps (λ st : T * S, I st.2) (on_snd m).
Proof. intros Hm [t s] Hs. by apply Hm. Qed.

End Keeps.
