(* ===== verification/Heap.v ===== *)
(** The store of JavaScript objects the parser allocates.

    The parser of [src/code2.js] builds slide objects with object
    literals ([{ title: ..., points: [] }]) and keeps references to them
    in the array [slides] and in [currentSlide]; pushing to
    [slide.points] or assigning [slide.code] mutates the shared object.
    A reference is an index into a list of objects: allocation appends,
    so references already handed out stay valid, and an update through a
    reference that was never allocated is an error ([None]).  The section
    is generic in the object type. *)

From S2P Require Import Prelude.

Abbreviation loc := nat (only parsing).

Section Store.
Context {A : Type}.
Implicit Types (h : list A) (o : A) (l : loc).

(** An object literal: a fresh reference to a new object. *)
Definition alloc o h : loc * list A := (length h, h ++ [o]).

(** Mutation of the object behind [l] ([l.field = ...],
    [l.points.push(...)]). *)
Definition update (f : A → A) l h : option (list A) :=
  o ← h !! l; Some (<[l := f o]> h).

(** Reading every object of an array of references. *)
Definition deref_all h (ls : list loc) : option (list A) :=
  mapM (λ l, h !! l) ls.

Definition valid h l : Prop := l < length h.

Lemma alloc_lookup_new o h : (alloc o h).2 !! (alloc o h).1 = Some o.
Proof. simpl. rewrite lookup_app_r by lia. by rewrite Nat.sub_diag. Qed.

Lemma alloc_lookup_old o h l : valid h l → (alloc o h).2 !! l = h !! l.
Proof. intros H. simpl. by apply lookup_app_l. Qed.

Lemma alloc_length o h : length (alloc o h).2 = S (length h).
Proof. simpl. rewrite length_app. simpl. lia. Qed.

Lemma update_valid f l h :
  valid h l → ∃ o, h !! l = Some o ∧ update f l h = Some (<[l := f o]> h).
Proof.
  intros H. destruct (lookup_lt_is_Some_2 h l H) as [o Ho].
  exists o. unfold update. by rewrite Ho.
Qed.

Lemma update_Some f l h h' :
  update f l h = Some h' → ∃ o, h !! l = Some o ∧ h' = <[l := f o]> h.
Proof. unfold update. intros H. simpl_bind. eauto. Qed.

Lemma update_length f l h h' : update f l h = Some h' → length h' = length h.
Proof. intros (o & _ & ->)%update_Some. apply length_insert. Qed.

Lemma update_lookup_ne f l l' h h' :
  update f l h = Some h' → l ≠ l' → h' !! l' = h !! l'.
Proof. intros (o & _ & ->)%update_Some ?. by apply list_lookup_insert_ne. Qed.

Lemma update_lookup_eq f l h h' :
  update f l h = Some h' → ∃ o, h !! l = Some o ∧ h' !! l = Some (f o).
Proof.
  intros (o & Ho & ->)%update_Some. exists o. split; [done|].
  apply list_lookup_insert_eq. eapply lookup_lt_Some; eauto.
Qed.

Lemma deref_all_valid h ls :
  Forall (valid h) ls → ∃ os, deref_all h ls = Some os ∧ length os = length ls.
Proof.
  induction 1 as [|l ls Hl _ [os [Hos Hlen]]]; [by exists []|].
  destruct (lookup_lt_is_Some_2 h l Hl) as [o Ho].
  exists (o :: os). unfold deref_all in *. simpl. rewrite Ho, Hos. simpl. auto.
Qed.

Lemma deref_all_lookup h ls os :
  deref_all h ls = Some os → Forall2 (λ l o, h !! l = Some o) ls os.
Proof.
  revert os. induction ls as [|l ls IH]; intros os H.
  - injection H as <-. constructor.
  - unfold deref_all in H. simpl in H. simpl_bind. subst. constructor; auto.
Qed.

(** The objects read through references have every property that all
    objects of the store have. *)
Lemma deref_all_free (P : A → Prop) h ls os :
  Forall P h → deref_all h ls = Some os → Forall P os.
Proof.
  intros Hh H%deref_all_lookup. rewrite Forall_lookup in Hh.
  induction H as [|l o ls os Hlo _ IH]; constructor; [by eapply Hh|done].
Qed.

(** ** Growth of the store

    [store_ext R h1 h2]: every object of [h1] is still in [h2], related
    by [R]. *)
Definition store_ext (R : A → A → Prop) h1 h2 : Prop :=
  length h1 ≤ length h2 ∧
  ∀ l o1, h1 !! l = Some o1 → ∃ o2, h2 !! l = Some o2 ∧ R o1 o2.

Context (R : A → A → Prop) {HR : PreOrder R}.

Lemma store_ext_refl h : store_ext R h h.
Proof using HR. split; [done|]. intros l o Ho. exists o. split; [done|reflexivity]. Qed.

Lemma store_ext_trans h1 h2 h3 :
  store_ext R h1 h2 → store_ext R h2 h3 → store_ext R h1 h3.
Proof using HR.
  intros [L12 H12] [L23 H23]. split; [lia|].
  intros l o1 Ho1. destruct (H12 l o1 Ho1) as (o2 & Ho2 & R12).
  destruct (H23 l o2 Ho2) as (o3 & Ho3 & R23). exists o3.
  split; [done|]. by transitivity o2.
Qed.

Lemma store_ext_alloc o h : store_ext R h (alloc o h).2.
Proof using HR.
  split; [rewrite alloc_length; lia|]. intros l o1 Ho1. exists o1.
  rewrite alloc_lookup_old; [split; [done|reflexivity]|].
  eapply lookup_lt_Some; eauto.
Qed.

Lemma store_ext_update f l h h' :
  (∀ o, R o (f o)) → update f l h = Some h' → store_ext R h h'.
Proof using HR.
  intros Hf Hu. split; [by rewrite (update_length _ _ _ _ Hu)|].
  intros l' o1 Ho1. destruct (decide (l = l')) as [<-|Hne].
  - destruct (update_lookup_eq _ _ _ _ Hu) as (o & Ho & Ho').
    rewrite Ho1 in Ho. injection Ho as <-. eauto.
  - rewrite (update_lookup_ne _ _ _ _ _ Hu Hne). exists o1. split; [done|reflexivity].
Qed.
End Store.

#[export] Hint Resolve store_ext_refl store_ext_alloc : gslide.
