(* ===== verification/LineClassifier.v ===== *)
(** The line classifier of [parseMarkdownToSlides] ([src/code2.js]).

    The loop body (lines 158-232) tests each line in a fixed order: blank
    ([trimmed === ""]), code fence ([trimmed.startsWith("```")]), level-1
    heading, level-2/3 heading, separator ([trimmed === "---"]), bullet
    ([line.match(...)] on the raw line) and otherwise plain text.
    [classify] is that chain of tests with the payload each branch
    computes.  The test on [inCodeBlock] sits between the fence test and
    the heading test in the source; [ModeController.step_line] places it
    there.  The theorems show that the classifier reads back the lines a
    serialiser writes ([## t], [# t], indented [- c]) and that a
    level-1 heading always carries a non-empty text. *)

From S2P Require Import Prelude JsString.

Inductive line_kind :=
| LBlank
| LFence
| LHeading1 (text : str)
| LHeading23 (text : str)
| LSeparator
| LBullet (indent : nat) (content : str)
| LPlain (content : str).

#[export] Instance line_kind_eq_dec : EqDecision line_kind.
Proof. solve_decision. Defined.

Definition FENCE : str := js "```"%string.

(** [[-*]] *)
Definition is_bullet_marker (c : char) : bool := bool_decide (c = 45%N ∨ c = 42%N).

(** The match of group 1, white space at the start of the line: the
    longest white-space prefix. *)
Fixpoint lead_ws (s : str) : str :=
  match s with
  | [] => []
  | c :: r => if is_ws c then c :: lead_ws r else []
  end.

(** The match of group 2, any characters but line terminators: the
    longest prefix without a line terminator. *)
Fixpoint take_line (s : str) : str :=
  match s with
  | [] => []
  | c :: r => if is_line_terminator c then [] else c :: take_line r
  end.

(** [line.match(...)] with the bullet pattern of line 223: white space
    (group 1), a marker [-] or [*], at least one white space, then the
    rest of the line (group 2).  It returns the length of group 1 and
    group 2.  Greedy matching never backtracks here: the characters
    of group 1 are white space, so no shorter group 1 can be followed by
    the marker, and group 2 accepts any start, so [\s+] keeps all the
    white space after the marker. *)
Definition bulletMatch (line : str) : option (nat * str) :=
  match trim_start line with
  | m :: rest =>
      if is_bullet_marker m then
        match rest with
        | c :: _ => if is_ws c then Some (length (lead_ws line), take_line (trim_start rest))
                    else None
        | [] => None
        end
      else None
  | [] => None
  end.

(** [getIndent] (lines 101-104), defined in the source but never called:
    the pattern of line 102 always matches. *)
Definition getIndent (line : str) : nat := length (lead_ws line).

(** [trimmed.startsWith("# ") && !trimmed.startsWith("## ") &&
    !trimmed.startsWith("### ")] *)
Definition is_heading1 (trimmed : str) : bool :=
  starts_with trimmed (js "# "%string) && negb (starts_with trimmed (js "## "%string))
  && negb (starts_with trimmed (js "### "%string)).

(** [trimmed.startsWith("## ") || trimmed.startsWith("### ")] *)
Definition is_heading23 (trimmed : str) : bool :=
  starts_with trimmed (js "## "%string) || starts_with trimmed (js "### "%string).

(** [trimmed.replace(/^#{2,3}\s*/, "")]: three hashes when there are
    three (greedy), else two, then the white space after them. *)
Definition strip_heading_marker (s : str) : str :=
  if starts_with s (js "###"%string) then trim_start (drop 3 s)
  else if starts_with s (js "##"%string) then trim_start (drop 2 s)
  else s.

Definition classify (line : str) : line_kind :=
  let trimmed := trim line in
  if bool_decide (trimmed = []) then LBlank
  else if starts_with trimmed FENCE then LFence
  else if is_heading1 trimmed then LHeading1 (trim (replace_first (js "# "%string) [] trimmed))
  else if is_heading23 trimmed then LHeading23 (trim (strip_heading_marker trimmed))
  else if bool_decide (trimmed = js "---"%string) then LSeparator
  else match bulletMatch line with
       | Some (indent, rest) => LBullet indent (trim rest)
       | None => LPlain trimmed
       end.

(** ** Lemmas *)

Lemma starts_with_cons_ne s p c d :
  c ≠ d → starts_with (c :: s) (d :: p) = false.
Proof.
  intros Hne. unfold starts_with. apply bool_decide_eq_false_2.
  intros [k Hk]. simpl in Hk. congruence.
Qed.

Lemma starts_with_cons s p c :
  starts_with (c :: s) (c :: p) = starts_with s p.
Proof.
  unfold starts_with. apply bool_decide_ext. split.
  - intros [k Hk]. injection Hk as Hk. by exists k.
  - intros [k ->]. by exists k.
Qed.

Lemma lead_ws_app_no_ws w c r :
  Forall (λ c, is_ws c = true) w → no_ws c → lead_ws (w ++ c :: r) = w.
Proof.
  unfold no_ws. induction 1 as [|a w Ha _ IH]; intros Hc; simpl.
  - by rewrite Hc.
  - rewrite Ha. by rewrite IH.
Qed.

Lemma take_line_no_lt s :
  forallb (λ c, negb (is_line_terminator c)) s = true → take_line s = s.
Proof.
  induction s as [|c s IH]; [done|]. simpl. intros [Hc Hs]%andb_prop.
  apply negb_true_iff in Hc. by rewrite Hc, IH.
Qed.

Lemma trimmed_trim_start s : trimmed s → trim_start s = s.
Proof.
  rewrite trimmed_shape_iff. destruct s as [|c r]; [done|]. intros [Hc _].
  by apply trim_start_cons_no_ws.
Qed.

Lemma Forall_ws_replicate n : Forall (λ c, is_ws c = true) (replicate n 32%N).
Proof. apply Forall_replicate. done. Qed.

(** Rewrites [starts_with] on a string whose first characters are known. *)
Ltac starts_with_simpl :=
  repeat first
    [ rewrite starts_with_cons
    | rewrite starts_with_nil
    | rewrite starts_with_cons_ne by discriminate ].

Lemma js_hash2 : js "## " = [35; 35; 32]%N.
Proof. reflexivity. Qed.
Lemma js_hash1 : js "# " = [35; 32]%N.
Proof. reflexivity. Qed.
Lemma js_dash : js "- " = [45; 32]%N.
Proof. reflexivity. Qed.

(** [classify] unfolded on a line whose trimmed form is known. *)
Lemma classify_unfold line t :
  trim line = t →
  classify line =
    if bool_decide (t = []) then LBlank
    else if starts_with t FENCE then LFence
    else if is_heading1 t then LHeading1 (trim (replace_first [35; 32]%N [] t))
    else if is_heading23 t then LHeading23 (trim (strip_heading_marker t))
    else if bool_decide (t = [45; 45; 45]%N) then LSeparator
    else match bulletMatch line with
         | Some (indent, rest) => LBullet indent (trim rest)
         | None => LPlain t
         end.
Proof. intros <-. reflexivity. Qed.

(** A line [## t] with a trimmed, non-empty title [t] is read back as a
    level-2 heading with text exactly [t]. *)
Theorem classify_heading23_line t :
  t ≠ [] → trimmed t → classify (js "## " ++ t) = LHeading23 t.
Proof.
  intros Hne Ht. rewrite js_hash2.
  assert (Htr : trim ([35; 35; 32]%N ++ t) = [35; 35; 32]%N ++ t)
    by (apply trimmed_app; done).
  rewrite (classify_unfold _ _ Htr). simpl.
  unfold FENCE, is_heading1, is_heading23, strip_heading_marker. simpl.
  starts_with_simpl. simpl. rewrite trimmed_trim_start by done.
  by rewrite Ht.
Qed.

(** A line [# t] with a trimmed, non-empty [t] is a level-1 heading [t]. *)
Lemma classify_heading1_line t :
  t ≠ [] → trimmed t → classify (js "# " ++ t) = LHeading1 t.
Proof.
  intros Hne Ht. rewrite js_hash1.
  assert (Htr : trim ([35; 32]%N ++ t) = [35; 32]%N ++ t)
    by (apply trimmed_app; done).
  rewrite (classify_unfold _ _ Htr). simpl.
  unfold FENCE, is_heading1. simpl. starts_with_simpl. simpl.
  rewrite replace_first_at_start by (simpl; starts_with_simpl; done).
  simpl. rewrite drop_0, Ht. done.
Qed.

(** A bullet line [n spaces, "- ", c] with trimmed content [c] free of
    line terminators is read as a bullet of indent [n] and content [c]:
    the indent is the length of the white space before the marker. *)
Theorem classify_bullet_line n c :
  trimmed c → forallb (λ x, negb (is_line_terminator x)) c = true →
  classify (replicate n 32%N ++ js "- " ++ c) = LBullet n c.
Proof.
  intros Hc Hlt. rewrite js_dash.
  destruct (trim_app_ws_cons (replicate n 32%N) 45%N (32%N :: c)
              (Forall_ws_replicate n) eq_refl) as (r' & Hr' & Hpre).
  change ([45; 32]%N ++ c) with (45%N :: 32%N :: c).
  rewrite (classify_unfold _ _ Hr'). simpl.
  unfold FENCE, is_heading1, is_heading23. starts_with_simpl. simpl.
  rewrite bool_decide_eq_false_2.
  2:{ intros Heq. injection Heq as ->. destruct Hpre as [k Hk]. discriminate Hk. }
  unfold bulletMatch. rewrite trim_start_app_ws by apply Forall_ws_replicate.
  simpl. rewrite lead_ws_app_no_ws by (apply Forall_ws_replicate || reflexivity).
  rewrite length_replicate, trimmed_trim_start, take_line_no_lt by done.
  by rewrite Hc.
Qed.

(** The text of a level-1 heading is never empty: after [trim] the line
    ends with a non-white-space character that follows the marker. *)
Lemma classify_heading1_nonempty line t : classify line = LHeading1 t → t ≠ [].
Proof.
  unfold classify. pose proof (trim_is_trimmed line) as Htr.
  destruct (trim line) as [|a T] eqn:E; [done|]. simpl.
  destruct (starts_with (a :: T) FENCE); [done|].
  destruct (is_heading1 (a :: T)) eqn:H1.
  2:{ repeat case_match; done. }
  intros [= <-]. unfold is_heading1 in H1.
  apply andb_prop in H1 as [H1 _]. apply andb_prop in H1 as [H1 _].
  rewrite replace_first_at_start by done. rewrite js_hash1 in *.
  unfold starts_with in H1. apply bool_decide_eq_true_1 in H1 as [R HR].
  rewrite HR. simpl. intros Hnil%trim_nil_iff.
  destruct Htr as [_ (l & d & Hl & Hd)]. rewrite HR in Hl.
  destruct l as [|x l]; [discriminate|]. injection Hl as _ Hl.
  assert (Hin : d ∈ 32%N :: R) by (rewrite Hl; apply elem_of_app; right; left).
  assert (Hws : Forall (λ c, is_ws c = true) (32%N :: R)) by (constructor; done).
  rewrite Forall_forall in Hws. unfold no_ws in Hd. rewrite (Hws d Hin) in Hd. discriminate.
Qed.

#[export] Hint Resolve Forall_ws_replicate : gslide.
#[export] Hint Rewrite starts_with_cons : gslide_rw.

(** ** The classifier returns trimmed sub-strings of the line *)

Lemma take_line_free (P : char → Prop) s : Forall P s → Forall P (take_line s).
Proof.
  induction s as [|c r IH]; intros Hs; [done|]. simpl.
  inversion Hs. destruct (is_line_terminator c); [done|]. constructor; auto.
Qed.

Lemma strip_heading_marker_free (P : char → Prop) s : Forall P s → Forall P (strip_heading_marker s).
Proof.
  intros Hs. unfold strip_heading_marker.
  repeat case_match; try done; apply trim_start_prefix_free, Forall_drop, Hs.
Qed.

Lemma bulletMatch_free (P : char → Prop) line n rest :
  Forall P line → bulletMatch line = Some (n, rest) → Forall P rest.
Proof.
  intros Hl. unfold bulletMatch. pose proof (trim_start_prefix_free P line Hl) as Ht.
  destruct (trim_start line) as [|m r]; [done|]. inversion Ht as [|? ? _ Hr].
  repeat case_match; intros; simplify_eq; try done.
  by apply take_line_free, trim_start_prefix_free.
Qed.

Definition kind_text (k : line_kind) : option str :=
  match k with
  | LHeading1 t | LHeading23 t | LBullet _ t | LPlain t => Some t
  | _ => None
  end.

Lemma classify_text (P : char → Prop) line t :
  Forall P line → kind_text (classify line) = Some t → trim t = t ∧ Forall P t.
Proof.
  intros Hl. pose proof (trim_free P line Hl) as Ht. unfold classify.
  repeat case_match; simpl; intros; simplify_eq; split; try apply trim_idem.
  - by apply trim_free, replace_first_free.
  - by apply trim_free, strip_heading_marker_free.
  - by apply trim_free, (bulletMatch_free P line n).
  - done.
Qed.
