(* ===== verification/ParserState.v ===== *)
(** The data and the state of [parseMarkdownToSlides] ([src/code2.js]).

    A slide object is [{ title, points, code?, sectionHeader? }]; an
    absent [code] is [None] and an absent [sectionHeader] is [false]
    (the post-pass only ever sets it to [true]).  A content item is
    [{ indent, content, isPlainText }] (lines 227 and 230).  The state
    record gathers the [let]s of the function body (lines 85-93) and the
    store of slide objects; [slides] and [currentSlide] hold references.
    The operations below are the store mutations the parser performs:
    [slides.push(ref)], [slides.push({...})], [currentSlide = ...] and
    [slide.points.push(...)]. *)

From S2P Require Import Prelude JsString Heap LineClassifier.

Record Slide := mkSlide {
  s_title : str;
  s_points : list str;
  s_code : option str;
  s_sectionHeader : bool
}.

(** [{ title: t, points: [] }] *)
Definition new_slide (t : str) : Slide := mkSlide t [] None false.

Definition add_points (ps : list str) (s : Slide) : Slide :=
  mkSlide (s_title s) (s_points s ++ ps) (s_code s) (s_sectionHeader s).

Definition set_code (c : str) (s : Slide) : Slide :=
  mkSlide (s_title s) (s_points s) (Some c) (s_sectionHeader s).

(** The post-pass of lines 240-244 on one slide. *)
Definition mark_section_header (s : Slide) : Slide :=
  if bool_decide (s_points s = []) then mkSlide (s_title s) (s_points s) (s_code s) true
  else s.

Record ContentItem := mkItem {
  indent : nat;
  content : str;
  isPlainText : bool
}.

#[export] Instance Slide_eq_dec : EqDecision Slide.
Proof. solve_decision. Defined.
#[export] Instance ContentItem_eq_dec : EqDecision ContentItem.
Proof. solve_decision. Defined.

(** The deck the function returns: [{ title, slides }]. *)
Record Deck := mkDeck {
  deck_title : str;
  deck_slides : list Slide
}.

#[export] Instance Deck_eq_dec : EqDecision Deck.
Proof. solve_decision. Defined.

(** "内容" (U+5185 U+5BB9), the title of a slide opened for content that
    has no heading (lines 132 and 145). *)
Definition PLACEHOLDER_TITLE : str := [20869; 23481]%N.

(** "タイトル" (U+30BF U+30A4 U+30C8 U+30EB), the deck title when no
    level-1 heading was seen (line 246). *)
Definition DEFAULT_TITLE : str := [12479; 12452; 12488; 12523]%N.

Record PState := mkPState {
  title : str;
  slides : list loc;
  currentSlide : option loc;
  inCodeBlock : bool;
  codeBuffer : str;
  contentGroup : list ContentItem;
  store : list Slide
}.

(** [title = ""; slides = []; currentSlide = null; inCodeBlock = false;
    codeBuffer = ""; contentGroup = []] *)
Definition init_state : PState := mkPState [] [] None false [] [] [].

(** ** Field updates *)

Definition set_title t st :=
  mkPState t (slides st) (currentSlide st) (inCodeBlock st) (codeBuffer st) (contentGroup st) (store st).
Definition set_slides ls st :=
  mkPState (title st) ls (currentSlide st) (inCodeBlock st) (codeBuffer st) (contentGroup st) (store st).
Definition set_current c st :=
  mkPState (title st) (slides st) c (inCodeBlock st) (codeBuffer st) (contentGroup st) (store st).
Definition set_inCode b st :=
  mkPState (title st) (slides st) (currentSlide st) b (codeBuffer st) (contentGroup st) (store st).
Definition set_buffer buf st :=
  mkPState (title st) (slides st) (currentSlide st) (inCodeBlock st) buf (contentGroup st) (store st).
Definition set_group g st :=
  mkPState (title st) (slides st) (currentSlide st) (inCodeBlock st) (codeBuffer st) g (store st).
Definition set_store h st :=
  mkPState (title st) (slides st) (currentSlide st) (inCodeBlock st) (codeBuffer st) (contentGroup st) h.

(** ** Store operations of the parser *)

(** [slides.push(ref)] *)
Definition push_ref (l : loc) (st : PState) : PState := set_slides (slides st ++ [l]) st.

(** [slides.push({...})]: allocate the object and push its reference. *)
Definition push_new (o : Slide) (st : PState) : PState :=
  let '(l, h) := alloc o (store st) in push_ref l (set_store h st).

(** [ps.forEach(p => ref.points.push(p))] *)
Definition push_points (l : loc) (ps : list str) (st : PState) : option PState :=
  h ← update (add_points ps) l (store st); Some (set_store h st).

(** The deck as it stands: the objects behind [slides], in order. *)
Definition view (st : PState) : option (list Slide) := deref_all (store st) (slides st).

(** ** Well-formedness: every reference the state holds is allocated. *)
Definition wf (st : PState) : Prop :=
  Forall (valid (store st)) (slides st) ∧
  (∀ l, currentSlide st = Some l → valid (store st) l).

(** [wf] is decidable. *)
Lemma wf_alt st :
  wf st ↔ Forall (valid (store st)) (slides st) ∧
          match currentSlide st with Some l => valid (store st) l | None => True end.
Proof.
  unfold wf. destruct (currentSlide st) as [l|]; split; intros [Hs Hc]; split; auto.
  - intros l' [= <-]. done.
  - done.
Qed.

#[export] Instance wf_dec st : Decision (wf st).
Proof.
  assert (D : Decision (Forall (valid (store st)) (slides st) ∧
                        match currentSlide st with Some l => valid (store st) l | None => True end)).
  { destruct (currentSlide st); unfold valid; apply _. }
  destruct D as [H|H]; [left; by apply wf_alt|right; by rewrite wf_alt].
Defined.

(** Points only grow: the order on slide objects kept by every step. *)
Definition slide_le (s1 s2 : Slide) : Prop :=
  s_title s1 = s_title s2 ∧ s_points s1 `prefix_of` s_points s2.

#[export] Instance slide_le_preorder : PreOrder slide_le.
Proof.
  split.
  - intros s. split; [done|reflexivity].
  - intros s1 s2 s3 [T12 P12] [T23 P23]. split; [congruence|by etransitivity].
Qed.

Lemma add_points_le ps s : slide_le s (add_points ps s).
Proof. split; [done|]. by exists ps. Qed.

Lemma set_code_le c s : slide_le s (set_code c s).
Proof. split; [done|reflexivity]. Qed.

(** ** Lemmas on the store operations *)

Lemma valid_mono (h1 h2 : list Slide) l :
  length h1 ≤ length h2 → valid h1 l → valid h2 l.
Proof. unfold valid. lia. Qed.

Lemma Forall_valid_mono (h1 h2 : list Slide) ls :
  length h1 ≤ length h2 → Forall (valid h1) ls → Forall (valid h2) ls.
Proof. intros Hle H. eapply Forall_impl; [exact H|]. intros l. by apply valid_mono. Qed.

Lemma push_new_wf o st : wf st → wf (push_new o st).
Proof.
  intros [Hs Hc]. unfold push_new, alloc, push_ref, set_store, set_slides, wf. simpl.
  split.
  - apply Forall_snoc. split.
    + eapply Forall_valid_mono; [|done]. rewrite length_app. lia.
    + unfold valid. rewrite length_app. simpl. lia.
  - intros l Hl. eapply valid_mono, Hc; [|done]. rewrite length_app. lia.
Qed.

Lemma push_ref_wf l st : wf st → valid (store st) l → wf (push_ref l st).
Proof.
  intros [Hs Hc] Hl. split; [|done]. simpl. apply Forall_snoc. done.
Qed.

Lemma push_points_some l ps st :
  valid (store st) l → ∃ st', push_points l ps st = Some st'.
Proof.
  intros Hl. destruct (update_valid (add_points ps) l (store st) Hl) as (o & _ & Hu).
  unfold push_points. rewrite Hu. simpl. eauto.
Qed.

Lemma push_points_wf l ps st st' :
  wf st → push_points l ps st = Some st' → wf st'.
Proof.
  intros [Hs Hc] H. unfold push_points in H. simpl_bind. subst.
  apply update_length in E. unfold wf, set_store. simpl.
  split.
  - eapply Forall_valid_mono; [|exact Hs]. lia.
  - intros l' Hl'. eapply valid_mono; [|by apply Hc]. lia.
Qed.

#[export] Hint Resolve push_new_wf push_ref_wf push_points_wf add_points_le set_code_le : gslide.
