(* ===== verification/ContentGroup.v ===== *)
(** [flushContentGroup] of [parseMarkdownToSlides] ([src/code2.js],
    lines 110-156).

    The group is the run of bullet and plain-text items since the last
    structural line.  If some bullet is indented the group is
    hierarchical: each bullet of indent 0 opens a new slide titled by its
    content, every other item becomes a point of the open slide (a
    "内容" slide is opened for items before the first such bullet), and
    the slides are pushed in order.  Otherwise the group is flat: all its
    contents become points of [slides[slides.length - 1]], or of
    [currentSlide] when [slides] is empty, or of a new "内容" slide that
    becomes the current slide and is pushed at once.

    In the hierarchical branch the source pushes each finished slide
    while it walks the group; the walk touches nothing else, so the model
    computes the list of finished slides with [hier_step] and pushes them
    afterwards in the same order.  The variable [foundTitle] of the
    source is written but never read and is not modelled. *)

From S2P Require Import Prelude JsString Heap LineClassifier ParserState.

(** [!item.isPlainText && item.indent === 0] *)
Definition is_head (it : ContentItem) : bool :=
  negb (isPlainText it) && bool_decide (indent it = 0).

(** [contentGroup.some(item => !item.isPlainText && item.indent > 0)] *)
Definition hierarchical (g : list ContentItem) : bool :=
  existsb (λ it, negb (isPlainText it) && bool_decide (0 < indent it)) g.

(** One iteration of the [forEach] of lines 121-136, on the slides
    already finished and [currentBulletSlide]. *)
Definition hier_step (acc : list Slide * option Slide) (it : ContentItem)
    : list Slide * option Slide :=
  let '(finished, cur) := acc in
  if is_head it then (finished ++ option_list cur, Some (new_slide (content it)))
  else
    let s := default (new_slide PLACEHOLDER_TITLE) cur in
    (finished, Some (add_points [content it] s)).

(** The slides the hierarchical branch pushes, in order (lines 118-140). *)
Definition hier_slides (g : list ContentItem) : list Slide :=
  let '(finished, cur) := foldl hier_step ([], None) g in finished ++ option_list cur.

Definition push_all (os : list Slide) (st : PState) : PState :=
  foldl (λ st o, push_new o st) st os.

(** The flat branch (lines 143-152). *)
Definition flush_flat (st : PState) : option PState :=
  let '(st1, target) :=
    match last (slides st) with
    | Some l => (st, l)
    | None =>
        match currentSlide st with
        | Some l => (st, l)
        | None =>
            let '(l, h) := alloc (new_slide PLACEHOLDER_TITLE) (store st) in
            (push_ref l (set_current (Some l) (set_store h st)), l)
        end
    end in
  push_points target (map content (contentGroup st)) st1.

Definition flushContentGroup (st : PState) : option PState :=
  match contentGroup st with
  | [] => Some st
  | g =>
      st' ← (if hierarchical g then Some (push_all (hier_slides g) st) else flush_flat st);
      Some (set_group [] st')
  end.

(** ** Lemmas *)

Lemma push_all_wf os st : wf st → wf (push_all os st).
Proof.
  revert st. induction os as [|o os IH]; intros st H; [done|].
  simpl. apply IH. by apply push_new_wf.
Qed.

Lemma push_all_fields os st :
  title (push_all os st) = title st ∧ currentSlide (push_all os st) = currentSlide st ∧
  inCodeBlock (push_all os st) = inCodeBlock st ∧ codeBuffer (push_all os st) = codeBuffer st ∧
  contentGroup (push_all os st) = contentGroup st.
Proof.
  revert st. induction os as [|o os IH]; intros st; [done|]. simpl.
  destruct (IH (push_new o st)) as (-> & -> & -> & -> & ->). done.
Qed.

(** Pushing new objects keeps every old object and extends [slides]. *)
Lemma push_all_ext os st :
  store_ext slide_le (store st) (store (push_all os st)) ∧
  slides st `prefix_of` slides (push_all os st).
Proof.
  revert st. induction os as [|o os IH]; intros st; simpl.
  - split; [apply store_ext_refl; apply _|reflexivity].
  - destruct (IH (push_new o st)) as [H1 H2]. split.
    + eapply store_ext_trans; [apply _| |exact H1].
      unfold push_new. simpl. apply store_ext_alloc. apply _.
    + etransitivity; [|exact H2]. unfold push_new. simpl. by exists [length (store st)].
Qed.

Lemma push_all_slides_length os st :
  length (slides (push_all os st)) = length (slides st) + length os.
Proof.
  revert st. induction os as [|o os IH]; intros st; simpl; [lia|].
  rewrite IH. unfold push_new. simpl. rewrite length_app. simpl. lia.
Qed.

Lemma flush_flat_some st : wf st → ∃ st', flush_flat st = Some st' ∧ wf st'.
Proof.
  intros Hwf. unfold flush_flat.
  destruct (last (slides st)) as [l|] eqn:El.
  - assert (Hl : valid (store st) l).
    { destruct Hwf as [Hs _]. rewrite Forall_forall in Hs. by apply Hs, last_Some_in. }
    destruct (push_points_some l (map content (contentGroup st)) st Hl) as [st' H].
    exists st'. split; [done|]. by eapply push_points_wf.
  - destruct (currentSlide st) as [l|] eqn:Ec.
    + assert (Hl : valid (store st) l) by (apply Hwf; done).
      destruct (push_points_some l (map content (contentGroup st)) st Hl) as [st' H].
      exists st'. split; [done|]. by eapply push_points_wf.
    + simpl.
      set (st1 := push_ref (length (store st))
                    (set_current (Some (length (store st)))
                       (set_store (store st ++ [new_slide PLACEHOLDER_TITLE]) st))).
      assert (Hv : valid (store st1) (length (store st))).
      { unfold valid. simpl. rewrite length_app. simpl. lia. }
      assert (Hwf1 : wf st1).
      { destruct Hwf as [Hs _]. split.
        - simpl. apply Forall_snoc. split; [|done].
          eapply Forall_valid_mono; [|exact Hs]. rewrite length_app. lia.
        - simpl. intros l [= <-]. done. }
      destruct (push_points_some _ (map content (contentGroup st)) st1 Hv) as [st' H].
      exists st'. split; [done|]. by eapply push_points_wf.
Qed.

(** [flushContentGroup] never fails on a well-formed state, leaves a
    well-formed state with an empty group, and touches neither the
    title, nor the code-block flag, nor the code buffer. *)
Lemma flush_some st :
  wf st →
  ∃ st', flushContentGroup st = Some st' ∧ wf st' ∧ contentGroup st' = [] ∧
    title st' = title st ∧ inCodeBlock st' = inCodeBlock st ∧ codeBuffer st' = codeBuffer st.
Proof.
  intros Hwf. unfold flushContentGroup.
  destruct (contentGroup st) as [|it g] eqn:Eg; [by exists st|].
  destruct (hierarchical (it :: g)).
  - eexists. split; [reflexivity|].
    destruct (push_all_fields (hier_slides (it :: g)) st) as (T & _ & I & B & _).
    unfold set_group. simpl. rewrite T, I, B.
    split; [|done]. destruct (push_all_wf (hier_slides (it :: g)) st Hwf) as [Hs Hc].
    split; [exact Hs|exact Hc].
  - destruct (flush_flat_some st Hwf) as (st' & Hf & Hwf').
    rewrite Hf. simpl. eexists. split; [reflexivity|].
    unfold flush_flat in Hf.
    repeat split; [apply Hwf'|apply Hwf'|..];
      destruct (last (slides st)), (currentSlide st); simpl in Hf;
      unfold push_points in Hf; simpl_bind; subst; done.
Qed.

Lemma hier_step_title fin s it :
  hier_step (fin, Some s) it =
    if is_head it then (fin ++ [s], Some (new_slide (content it)))
    else (fin, Some (add_points [content it] s)).
Proof. reflexivity. Qed.

(** The walk started with an open slide [s]: the titles are those of the
    finished slides, then [s], then one per head; the points are those
    already there followed by the contents of the other items. *)
Lemma hier_fold_open fin s g :
  let '(f, c) := foldl hier_step (fin, Some s) g in
  map s_title (f ++ option_list c) = map s_title fin ++ s_title s :: map content (filter is_head g) ∧
  concat (map s_points (f ++ option_list c)) =
    concat (map s_points fin) ++ s_points s ++ map content (filter (λ it, negb (is_head it)) g).
Proof.
  revert fin s. induction g as [|it g IH]; intros fin s.
  - simpl. rewrite !map_app, concat_app. simpl. rewrite !app_nil_r. done.
  - change (foldl hier_step (fin, Some s) (it :: g))
      with (foldl hier_step (hier_step (fin, Some s) it) g).
    rewrite hier_step_title, !filter_cons. destruct (is_head it) eqn:Eh; simpl.
    + specialize (IH (fin ++ [s]) (new_slide (content it))).
      destruct (foldl hier_step _ g) as [f c]. destruct IH as [IH1 IH2].
      rewrite IH1, IH2, !map_app, concat_app. simpl.
      rewrite <- !app_assoc. simpl. done.
    + specialize (IH fin (add_points [content it] s)).
      destruct (foldl hier_step _ g) as [f c]. destruct IH as [IH1 IH2].
      rewrite IH1, IH2. simpl. rewrite <- app_assoc. done.
Qed.

(** The titles and the points of the slides of the hierarchical branch. *)
Lemma hier_slides_titles_points g :
  map s_title (hier_slides g) =
    match g with
    | [] => []
    | it :: _ => if is_head it then [] else [PLACEHOLDER_TITLE]
    end ++ map content (filter is_head g) ∧
  concat (map s_points (hier_slides g)) = map content (filter (λ it, negb (is_head it)) g).
Proof.
  unfold hier_slides. destruct g as [|it g]; [done|].
  rewrite !filter_cons. simpl. destruct (is_head it) eqn:Eh; simpl.
  - pose proof (hier_fold_open [] (new_slide (content it)) g) as H.
    destruct (foldl hier_step _ g). destruct H as [H1 H2].
    rewrite H1, H2. done.
  - pose proof (hier_fold_open [] (add_points [content it] (new_slide PLACEHOLDER_TITLE)) g) as H.
    destruct (foldl hier_step _ g). destruct H as [H1 H2].
    rewrite H1, H2. done.
Qed.

(** C6: The hierarchical branch pushes one slide per bullet of indent 0,
    titled by its content, preceded by one "内容" slide exactly when the
    group does not start with such a bullet; the points of the pushed
    slides, read in order, are the contents of all the other items in
    source order.  (So the number of slides is the number of indent-0
    bullets plus one when an item precedes the first of them.) *)
Theorem hier_slides_spec g :
  map s_title (hier_slides g) =
    match g with
    | [] => []
    | it :: _ => if is_head it then [] else [PLACEHOLDER_TITLE]
    end ++ map content (filter is_head g) ∧
  concat (map s_points (hier_slides g)) = map content (filter (λ it, negb (is_head it)) g).
Proof. apply hier_slides_titles_points. Qed.

(** [flushContentGroup] only adds: every object keeps its title and the
    points it had as a prefix, and [slides] only grows at its end. *)
Lemma flush_ext st st' :
  flushContentGroup st = Some st' →
  store_ext slide_le (store st) (store st') ∧ slides st `prefix_of` slides st'.
Proof.
  unfold flushContentGroup. destruct (contentGroup st) as [|it g].
  { intros [= <-]. split; [apply store_ext_refl; apply _|reflexivity]. }
  destruct (hierarchical (it :: g)).
  { intros [= <-]. apply push_all_ext. }
  intros H. simpl_bind. subst. simpl. unfold flush_flat in E.
  destruct (last (slides st)); [|destruct (currentSlide st)]; cbn in E;
    unfold push_points in E; simpl_bind; subst; simpl.
  - split; [|reflexivity]. eapply store_ext_update; [apply _| |exact E0]. apply add_points_le.
  - split; [|reflexivity]. eapply store_ext_update; [apply _| |exact E0]. apply add_points_le.
  - split; [|by eexists].
    eapply store_ext_trans; [apply _|apply store_ext_alloc; apply _|].
    eapply store_ext_update; [apply _| |exact E0]. apply add_points_le.
Qed.

(** C7: A flat group lands in the last pushed slide: when [slides] is
    not empty and no bullet of the group is indented, the flush creates
    no slide and appends all the group's contents, in order, to the
    points of [slides[slides.length - 1]], leaving every other object
    unchanged. *)
Theorem flush_flat_last st g l :
  wf st → contentGroup st = g → g ≠ [] → hierarchical g = false →
  last (slides st) = Some l →
  ∃ st', flushContentGroup st = Some st' ∧ slides st' = slides st ∧
    currentSlide st' = currentSlide st ∧
    (∀ s, store st !! l = Some s → store st' !! l = Some (add_points (map content g) s)) ∧
    (∀ l', l' ≠ l → store st' !! l' = store st !! l').
Proof.
  intros Hwf Hg Hne Hh Hl. unfold flushContentGroup. rewrite Hg.
  destruct g as [|it g]; [done|]. rewrite Hh. unfold flush_flat. rewrite Hl, Hg.
  assert (Hv : valid (store st) l).
  { destruct Hwf as [Hs _]. rewrite Forall_forall in Hs. by apply Hs, last_Some_in. }
  destruct (update_valid (add_points (map content (it :: g))) l (store st) Hv) as (o & Ho & Hu).
  unfold push_points. rewrite Hu. simpl. eexists. split; [reflexivity|].
  simpl. split; [done|]. split; [done|]. split.
  - intros s Hs. rewrite Ho in Hs. injection Hs as <-.
    apply list_lookup_insert_eq. exact Hv.
  - intros l' Hne'. by apply list_lookup_insert_ne.
Qed.

Lemma flush_flat_last_witness :
  ∃ st', flushContentGroup
           (mkPState [] [0] None false [] [mkItem 0 (js "b") false] [new_slide (js "S")]) = Some st' ∧
    slides st' = [0] ∧ currentSlide st' = None ∧
    (∀ s, [new_slide (js "S")] !! 0 = Some s →
          store st' !! 0 = Some (add_points (map content [mkItem 0 (js "b") false]) s)) ∧
    (∀ l', l' ≠ 0 → store st' !! l' = [new_slide (js "S")] !! l').
Proof.
  apply (flush_flat_last
           (mkPState [] [0] None false [] [mkItem 0 (js "b") false] [new_slide (js "S")])
           [mkItem 0 (js "b") false] 0);
    [apply (bool_decide_unpack _); vm_compute; exact I|reflexivity|discriminate|reflexivity|reflexivity].
Defined.

(** The flush touches neither the title, nor the code-block flag, nor
    the code buffer, and empties the group. *)
Lemma flush_fields st st' :
  flushContentGroup st = Some st' →
  title st' = title st ∧ inCodeBlock st' = inCodeBlock st ∧
  codeBuffer st' = codeBuffer st ∧ contentGroup st' = [].
Proof.
  unfold flushContentGroup. destruct (contentGroup st) as [|it g] eqn:Eg.
  { intros [= <-]. auto. }
  intros H. simpl_bind. subst. simpl.
  destruct (hierarchical (it :: g)).
  - injection E as <-. destruct (push_all_fields (hier_slides (it :: g)) st) as (-> & _ & -> & -> & _).
    auto.
  - unfold flush_flat in E.
    destruct (last (slides st)); [|destruct (currentSlide st)]; cbn in E;
      unfold push_points in E; simpl_bind; subst; simpl; auto.
Qed.
