(* ===== verification/ModeController.v ===== *)
(** The loop of [parseMarkdownToSlides] ([src/code2.js], lines 84-247).

    [step_line] is the body of the [for] loop (lines 158-232): the blank
    test, the fence toggle with its code assignment, the [inCodeBlock]
    capture, then the heading, separator and content-item branches.
    [run_lines] is the loop over [markdown.split("\n")].

    The code-block flag follows a two-state machine, [mode_step], and
    [step_line_mode] shows that every step of the parser is a step of
    that machine.  The file also proves that no step fails on a
    well-formed state ([step_line_some]) and what the steps inside a
    fenced block do ([run_code_block], [close_fence_without_current]). *)

From S2P Require Import Prelude JsString Heap LineClassifier ParserState ContentGroup.

(** The [if (inCodeBlock) { codeBuffer += line + "\n"; continue; }] test
    of lines 178-181, in front of the branches that follow it. *)
Definition unless_in_code (line : str) (k : PState → option PState) (st : PState)
    : option PState :=
  if inCodeBlock st then Some (set_buffer (codeBuffer st ++ line ++ [LF]) st) else k st.

(** Lines 168-176: flush, toggle, and on a closing fence move the buffer
    to the current slide when there is one and the buffer is not empty. *)
Definition on_fence (st : PState) : option PState :=
  st1 ← flushContentGroup st;
  let st2 := set_inCode (negb (inCodeBlock st1)) st1 in
  if inCodeBlock st2 then Some st2
  else match currentSlide st2 with
       | Some l =>
           if bool_decide (codeBuffer st2 = []) then Some st2
           else h ← update (set_code (trim (codeBuffer st2))) l (store st2);
                Some (set_buffer [] (set_store h st2))
       | None => Some st2
       end.

(** [if (currentSlide) { slides.push(currentSlide); currentSlide = null; }] *)
Definition close_current (st : PState) : PState :=
  match currentSlide st with
  | Some l => set_current None (push_ref l st)
  | None => st
  end.

(** Lines 184-197. *)
Definition on_heading1 (t : str) (st : PState) : option PState :=
  st1 ← flushContentGroup st;
  if bool_decide (title st1 = []) then Some (set_title t st1)
  else
    let st2 := close_current st1 in
    let '(l, h) := alloc (new_slide t) (store st2) in
    Some (set_current (Some l) (set_store h st2)).

(** Lines 200-209. *)
Definition on_heading23 (t : str) (st : PState) : option PState :=
  st1 ← flushContentGroup st;
  Some (push_new (new_slide t) (close_current st1)).

(** Lines 212-220: the current slide is dropped, not pushed. *)
Definition on_separator (st : PState) : option PState :=
  st1 ← flushContentGroup st;
  Some (push_new (new_slide []) (set_current None st1)).

(** Lines 223-231: [contentGroup.push(item)]. *)
Definition on_item (it : ContentItem) (st : PState) : option PState :=
  Some (set_group (contentGroup st ++ [it]) st).

Definition step_line (st : PState) (line : str) : option PState :=
  match classify line with
  | LBlank => Some st
  | LFence => on_fence st
  | LHeading1 t => unless_in_code line (on_heading1 t) st
  | LHeading23 t => unless_in_code line (on_heading23 t) st
  | LSeparator => unless_in_code line on_separator st
  | LBullet n c => unless_in_code line (on_item (mkItem n c false)) st
  | LPlain c => unless_in_code line (on_item (mkItem 0 c true)) st
  end.

Fixpoint run_lines (st : PState) (lines : list str) : option PState :=
  match lines with
  | [] => Some st
  | line :: rest => st' ← step_line st line; run_lines st' rest
  end.

(** ** The code-block mode as a state machine (spec 4.2) *)

Inductive mode := Normal | InCodeBlock.

Definition mode_of (st : PState) : mode := if inCodeBlock st then InCodeBlock else Normal.

Inductive mode_step : mode → line_kind → mode → Prop :=
| ms_blank m : mode_step m LBlank m
| ms_open : mode_step Normal LFence InCodeBlock
| ms_close : mode_step InCodeBlock LFence Normal
| ms_stay m k : k ≠ LBlank → k ≠ LFence → mode_step m k m.

(** ** Lemmas *)

Lemma unless_in_code_code line k st :
  inCodeBlock st = true →
  unless_in_code line k st = Some (set_buffer (codeBuffer st ++ line ++ [LF]) st).
Proof. unfold unless_in_code. by intros ->. Qed.

Lemma close_current_wf st : wf st → wf (close_current st).
Proof.
  intros Hwf. unfold close_current. destruct (currentSlide st) as [l|] eqn:E; [|done].
  pose proof (push_ref_wf l st Hwf (proj2 Hwf l E)) as [Hs _]. split; [exact Hs|done].
Qed.

#[export] Hint Resolve close_current_wf : gslide.

Lemma close_current_inCode st : inCodeBlock (close_current st) = inCodeBlock st.
Proof. unfold close_current. by destruct (currentSlide st). Qed.

Lemma close_current_title st : title (close_current st) = title st.
Proof. unfold close_current. by destruct (currentSlide st). Qed.

Lemma on_fence_inCode st st' : on_fence st = Some st' → inCodeBlock st' = negb (inCodeBlock st).
Proof.
  unfold on_fence. intros H. simpl_bind. destruct (flush_fields _ _ E) as (_ & Hi & _).
  rewrite <- Hi. simpl in H. destruct (negb (inCodeBlock p)) eqn:Ei.
  - injection H as <-. done.
  - repeat case_match; simpl_bind; subst; done.
Qed.

(** The handlers of structural and content lines keep the code-block
    flag; only [on_heading1] may set the title, and only when it is
    still empty. *)
Lemma on_heading1_fields t st st' :
  on_heading1 t st = Some st' →
  inCodeBlock st' = inCodeBlock st ∧
  title st' = if bool_decide (title st = []) then t else title st.
Proof.
  unfold on_heading1. intros H. simpl_bind.
  destruct (flush_fields _ _ E) as (Ht & Hi & _). rewrite <- Ht, <- Hi.
  destruct (bool_decide (title p = [])).
  - injection H as <-. done.
  - simpl in H. injection H as <-. simpl.
    by rewrite close_current_inCode, close_current_title.
Qed.

Lemma on_heading23_fields t st st' :
  on_heading23 t st = Some st' → inCodeBlock st' = inCodeBlock st ∧ title st' = title st.
Proof.
  unfold on_heading23. intros H. simpl_bind. subst.
  destruct (flush_fields _ _ E) as (Ht & Hi & _). simpl.
  by rewrite close_current_inCode, close_current_title.
Qed.

Lemma on_separator_fields st st' :
  on_separator st = Some st' → inCodeBlock st' = inCodeBlock st ∧ title st' = title st.
Proof.
  unfold on_separator. intros H. simpl_bind. subst.
  destruct (flush_fields _ _ E) as (Ht & Hi & _). simpl. done.
Qed.

Lemma on_item_fields it st st' :
  on_item it st = Some st' → inCodeBlock st' = inCodeBlock st ∧ title st' = title st.
Proof. unfold on_item. by intros [= <-]. Qed.

(** The effect of one line on the code-block flag and on the title. *)
Lemma step_line_fields st line st' :
  step_line st line = Some st' →
  inCodeBlock st' = match classify line with
                    | LFence => negb (inCodeBlock st)
                    | _ => inCodeBlock st
                    end ∧
  title st' = match classify line with
              | LHeading1 t =>
                  if inCodeBlock st then title st
                  else if bool_decide (title st = []) then t else title st
              | LFence => title st
              | _ => title st
              end.
Proof.
  unfold step_line. destruct (classify line) as [| |t|t| |n c|c] eqn:Ec.
  3-7: unfold unless_in_code;
    destruct (inCodeBlock st) eqn:Ei;
    [simpl; intros [= <-]; simpl; by rewrite Ei|intros H; simpl in H].
  - by intros [= <-].
  - intros H. split; [by apply on_fence_inCode|].
    unfold on_fence in H. simpl_bind. destruct (flush_fields _ _ E) as (Ht & _).
    rewrite <- Ht. simpl in H. repeat case_match; simpl_bind; subst; done.
  - destruct (on_heading1_fields _ _ _ H) as [-> ->]. by rewrite Ei.
  - destruct (on_heading23_fields _ _ _ H) as [-> ->]. by rewrite Ei.
  - destruct (on_separator_fields _ _ H) as [-> ->]. by rewrite Ei.
  - destruct (on_item_fields _ _ _ H) as [-> ->]. by rewrite Ei.
  - destruct (on_item_fields _ _ _ H) as [-> ->]. by rewrite Ei.
Qed.

(** C5: Every step of the parser is a step of the two-state code-block
    machine of spec 4.2: a blank line never changes the mode, a fence
    line toggles it, and any other line leaves it as it is (inside a
    block it is captured, outside it is dispatched). *)
Theorem step_line_mode st line st' :
  step_line st line = Some st' → mode_step (mode_of st) (classify line) (mode_of st').
Proof.
  intros H. pose proof (step_line_fields _ _ _ H) as [Hi _].
  unfold mode_of. rewrite Hi.
  destruct (classify line) eqn:Ec; simpl.
  2: destruct (inCodeBlock st); constructor.
  1: constructor.
  all: by constructor.
Qed.

Lemma step_line_mode_witness :
  mode_step (mode_of init_state) (classify FENCE) (mode_of (set_inCode true init_state)).
Proof. apply (step_line_mode init_state FENCE). vm_compute. reflexivity. Defined.

(** ** Well-formedness is kept by every step *)

Lemma wf_fields st st' :
  slides st' = slides st → currentSlide st' = currentSlide st → store st' = store st →
  wf st → wf st'.
Proof.
  intros E1 E2 E3 [Hs Hc]. split.
  - rewrite E1, E3. exact Hs.
  - intros l Hl. rewrite E3. apply Hc. by rewrite <- E2.
Qed.

Ltac wf_same := eapply wf_fields; [reflexivity|reflexivity|reflexivity|].

Lemma wf_update f l st h : wf st → update f l (store st) = Some h → wf (set_store h st).
Proof.
  intros [Hs Hc] Hu. apply update_length in Hu. split; simpl.
  - eapply Forall_valid_mono; [|exact Hs]. lia.
  - intros l' Hl'. eapply valid_mono; [|by apply Hc]. lia.
Qed.

Lemma wf_alloc_current o st :
  wf st → wf (set_current (Some (length (store st))) (set_store (store st ++ [o]) st)).
Proof.
  intros [Hs _]. split; simpl.
  - eapply Forall_valid_mono; [|exact Hs]. rewrite length_app. lia.
  - intros l [= <-]. unfold valid. rewrite length_app. simpl. lia.
Qed.

Lemma on_fence_some st : wf st → ∃ st', on_fence st = Some st' ∧ wf st'.
Proof.
  intros Hwf. destruct (flush_some st Hwf) as (st1 & Hf & Hwf1 & _).
  unfold on_fence. rewrite Hf. simpl.
  destruct (negb (inCodeBlock st1)) eqn:Ei; [eexists; split; [done|by wf_same]|].
  destruct (currentSlide st1) as [l|] eqn:Ec; [|eexists; split; [done|by wf_same]].
  case_bool_decide; [eexists; split; [done|by wf_same]|].
  assert (Hl : valid (store st1) l) by (apply Hwf1; done).
  destruct (update_valid (set_code (trim (codeBuffer st1))) l (store st1) Hl) as (o & _ & Hu).
  simpl. rewrite Hu. simpl. eexists. split; [reflexivity|].
  eapply wf_fields; [reflexivity|reflexivity|reflexivity|].
  eapply (wf_update _ _ (set_inCode false st1)); [by wf_same|exact Hu].
Qed.

(** A handler that never fails on a well-formed state. *)
Definition total_handler (k : PState → option PState) : Prop :=
  ∀ st, wf st → ∃ st', k st = Some st' ∧ wf st'.

Lemma unless_in_code_total line k : total_handler k → total_handler (unless_in_code line k).
Proof.
  intros Hk st Hwf. unfold unless_in_code.
  destruct (inCodeBlock st); [|by apply Hk]. eexists. split; [done|by wf_same].
Qed.

Lemma on_heading1_total t : total_handler (on_heading1 t).
Proof.
  intros st Hwf. destruct (flush_some st Hwf) as (st1 & Hf & Hwf1 & _).
  unfold on_heading1. rewrite Hf. simpl.
  case_bool_decide; [eexists; split; [done|by wf_same]|].
  pose proof (close_current_wf st1 Hwf1) as Hwf2.
  eexists. split; [reflexivity|]. by apply wf_alloc_current.
Qed.

Lemma on_heading23_total t : total_handler (on_heading23 t).
Proof.
  intros st Hwf. destruct (flush_some st Hwf) as (st1 & Hf & Hwf1 & _).
  unfold on_heading23. rewrite Hf. simpl.
  eexists. split; [reflexivity|]. by apply push_new_wf, close_current_wf.
Qed.

Lemma on_separator_total : total_handler on_separator.
Proof.
  intros st Hwf. destruct (flush_some st Hwf) as (st1 & Hf & Hwf1 & _).
  unfold on_separator. rewrite Hf. simpl.
  eexists. split; [reflexivity|]. apply push_new_wf.
  destruct Hwf1 as [Hs _]. split; [exact Hs|done].
Qed.

Lemma on_item_total it : total_handler (on_item it).
Proof. intros st Hwf. eexists. split; [done|by wf_same]. Qed.

#[local] Hint Resolve unless_in_code_total on_heading1_total on_heading23_total
  on_separator_total on_item_total : gslide.

Lemma step_line_some st line : wf st → ∃ st', step_line st line = Some st' ∧ wf st'.
Proof.
  intros Hwf. unfold step_line.
  destruct (classify line); [by exists st|by apply on_fence_some|..];
    apply unless_in_code_total; auto with gslide.
Qed.

Lemma run_lines_some st lines :
  wf st → ∃ st', run_lines st lines = Some st' ∧ wf st'.
Proof.
  revert st. induction lines as [|line lines IH]; intros st Hwf; [by exists st|].
  destruct (step_line_some st line Hwf) as (st1 & H1 & Hwf1). simpl. rewrite H1. simpl.
  by apply IH.
Qed.

Lemma run_lines_app st l1 l2 : run_lines st (l1 ++ l2) = run_lines st l1 ≫= λ st', run_lines st' l2.
Proof.
  revert st. induction l1 as [|l l1 IH]; intros st; [done|]. simpl.
  destruct (step_line st l); [apply IH|done].
Qed.

(** ** Code blocks *)

Lemma set_buffer_set_buffer b1 b2 st : set_buffer b2 (set_buffer b1 st) = set_buffer b2 st.
Proof. reflexivity. Qed.

(** A run of lines inside a fenced block. *)
Lemma run_lines_in_code st body :
  inCodeBlock st = true → Forall (λ l, classify l ≠ LFence) body →
  run_lines st body =
    Some (set_buffer (codeBuffer st ++
                      concat (map (λ l, l ++ [LF]) (filter (λ l, classify l ≠ LBlank) body))) st).
Proof.
  intros Hin Hbody. revert st Hin. induction Hbody as [|line body Hl _ IH]; intros st Hin.
  { simpl. rewrite app_nil_r. by destruct st. }
  simpl. unfold step_line. rewrite filter_cons.
  destruct (classify line) eqn:Ec; [|done|..].
  1: { rewrite decide_False by (intros H; by apply H). simpl. by apply IH. }
  all: rewrite decide_True by done; simpl; rewrite unless_in_code_code by done; simpl;
    rewrite IH by done; simpl; by rewrite <- app_assoc.
Qed.

(** C21: Inside a fenced block, the lines up to the closing fence are not
    classified as structure: a line that looks like a heading, a bullet
    or a separator only appends itself and a newline to [codeBuffer],
    nothing else of the state changes; blank lines are skipped (the test
    [trimmed === ""] comes before the [inCodeBlock] test). *)
Theorem run_code_block st body :
  inCodeBlock st = true → Forall (λ l, classify l ≠ LFence) body →
  run_lines st body =
    Some (set_buffer (codeBuffer st ++
                      concat (map (λ l, l ++ [LF]) (filter (λ l, classify l ≠ LBlank) body))) st).
Proof. apply run_lines_in_code. Qed.

Lemma run_code_block_witness :
  run_lines (set_inCode true init_state) [js "# not a heading"; js ""; js "- nor a bullet"] =
  Some (set_buffer ([] ++ concat (map (λ l, l ++ [LF])
          (filter (λ l, classify l ≠ LBlank) [js "# not a heading"; js ""; js "- nor a bullet"])))
        (set_inCode true init_state)).
Proof.
  apply (run_code_block (set_inCode true init_state)); [reflexivity|].
  repeat constructor; vm_compute; discriminate.
Defined.

(** C27: A closing fence with no current slide assigns the captured code
    to no slide and leaves [codeBuffer] as it is: the text is kept and
    prepended to the next block's text (line 171 clears the buffer only
    inside the assignment). *)
Theorem close_fence_without_current st line :
  classify line = LFence → inCodeBlock st = true → contentGroup st = [] →
  currentSlide st = None →
  step_line st line = Some (set_inCode false st).
Proof.
  intros Ec Hin Hg Hc. unfold step_line. rewrite Ec. unfold on_fence, flushContentGroup.
  rewrite Hg. simpl. by rewrite Hin, Hc.
Qed.

Lemma close_fence_without_current_witness :
  step_line (mkPState [] [] None true (js "x
") [] []) FENCE =
  Some (set_inCode false (mkPState [] [] None true (js "x
") [] [])).
Proof. apply close_fence_without_current; reflexivity. Defined.

(** A closing fence with a current slide and a non-empty buffer sets the
    slide's [code] to the trimmed buffer and empties the buffer. *)
Lemma close_fence_with_current st line l o :
  classify line = LFence → inCodeBlock st = true → contentGroup st = [] →
  currentSlide st = Some l → codeBuffer st ≠ [] → store st !! l = Some o →
  step_line st line =
    Some (set_buffer [] (set_store (<[l := set_code (trim (codeBuffer st)) o]> (store st))
                                   (set_inCode false st))).
Proof.
  intros Ec Hin Hg Hc Hb Ho. unfold step_line. rewrite Ec. unfold on_fence, flushContentGroup.
  rewrite Hg. simpl. rewrite Hin, Hc. simpl.
  rewrite bool_decide_eq_false_2 by done. unfold update. by rewrite Ho.
Qed.
