(* ===== verification/DeckAssembler.v ===== *)
(** The deck assembler of [parseMarkdownToSlides] ([src/code2.js],
    lines 84-90 and 233-247): the loop over [markdown.split("\n")],
    then at the end of the input the last flush, the push of
    [currentSlide] guarded by [slides.includes(currentSlide)], the
    [sectionHeader] post-pass and the returned
    [{ title: title || "タイトル", slides }].

    Theorems: the parser is total ([parse_total]) and the deck title is
    the first level-1 heading outside fenced blocks ([parse_title],
    against the reference [first_heading]). *)

From S2P Require Import Prelude JsString Heap LineClassifier ParserState ContentGroup ModeController.

(** Lines 240-244 over the references of [slides], in order. *)
Fixpoint mark_all (ls : list loc) (h : list Slide) : option (list Slide) :=
  match ls with
  | [] => Some h
  | l :: rest => h' ← update mark_section_header l h; mark_all rest h'
  end.

(** Lines 234-246. *)
Definition finish (st : PState) : option Deck :=
  st1 ← flushContentGroup st;
  let st2 :=
    match currentSlide st1 with
    | Some l => if bool_decide (l ∈ slides st1) then st1 else push_ref l st1
    | None => st1
    end in
  h ← mark_all (slides st2) (store st2);
  ss ← deref_all h (slides st2);
  Some (mkDeck (if bool_decide (title st2 = []) then DEFAULT_TITLE else title st2) ss).

Definition parseMarkdownToSlides (markdown : str) : option Deck :=
  st ← run_lines init_state (split_on LF markdown);
  finish st.

Lemma mark_all_some ls h :
  Forall (valid h) ls → ∃ h', mark_all ls h = Some h' ∧ length h' = length h.
Proof.
  revert h. induction ls as [|l ls IH]; intros h Hv; [by exists h|].
  apply Forall_cons in Hv as [Hl Hv].
  destruct (update_valid mark_section_header l h Hl) as (o & _ & Hu).
  simpl. rewrite Hu. simpl.
  destruct (IH (<[l := mark_section_header o]> h)) as (h' & Hm & Hlen).
  { eapply Forall_impl; [exact Hv|]. intros l'. unfold valid. rewrite length_insert. done. }
  exists h'. split; [done|]. by rewrite Hlen, length_insert.
Qed.

Lemma finish_some st : wf st → ∃ d, finish st = Some d.
Proof.
  intros Hwf. destruct (flush_some st Hwf) as (st1 & Hf & Hwf1 & _).
  unfold finish. rewrite Hf. simpl.
  set (st2 := match currentSlide st1 with
              | Some l => if bool_decide (l ∈ slides st1) then st1 else push_ref l st1
              | None => st1 end).
  assert (Hwf2 : wf st2).
  { subst st2. destruct (currentSlide st1) as [l|] eqn:Ec; [|done].
    case_bool_decide; [done|]. apply push_ref_wf; [done|]. by apply Hwf1. }
  destruct (mark_all_some (slides st2) (store st2) (proj1 Hwf2)) as (h & Hm & Hlen).
  rewrite Hm. simpl.
  destruct (deref_all_valid h (slides st2)) as (ss & Hd & _).
  { eapply Forall_impl; [exact (proj1 Hwf2)|]. intros l. unfold valid. lia. }
  rewrite Hd. simpl. eauto.
Qed.

Lemma init_wf : wf init_state.
Proof. split; [constructor|done]. Qed.

(** C1: The parser is total: on every input text it returns a deck.  No
    reference it follows is ever dangling, and no branch raises. *)
Theorem parse_total (markdown : str) : ∃ d, parseMarkdownToSlides markdown = Some d.
Proof.
  destruct (run_lines_some init_state (split_on LF markdown) init_wf) as (st & Hr & Hwf).
  unfold parseMarkdownToSlides. rewrite Hr. simpl. by apply finish_some.
Qed.

(** ** The deck title *)

(** The reference: the text of the first level-1 heading that is not
    inside a fenced block. *)
Fixpoint first_heading (inCode : bool) (lines : list str) : option str :=
  match lines with
  | [] => None
  | line :: rest =>
      match classify line with
      | LFence => first_heading (negb inCode) rest
      | LHeading1 t => if inCode then first_heading inCode rest else Some t
      | _ => first_heading inCode rest
      end
  end.

Lemma first_heading_nonempty b lines t : first_heading b lines = Some t → t ≠ [].
Proof.
  revert b. induction lines as [|line lines IH]; intros b; [done|]. simpl.
  destruct (classify line) eqn:Ec; try apply IH.
  destruct b; [apply IH|]. intros [= <-]. by eapply classify_heading1_nonempty.
Qed.

Lemma run_lines_title st lines st' :
  run_lines st lines = Some st' →
  title st' = if bool_decide (title st = []) then default [] (first_heading (inCodeBlock st) lines)
              else title st.
Proof.
  revert st. induction lines as [|line lines IH]; intros st H.
  { injection H as <-. by case_bool_decide. }
  simpl in H. simpl_bind. apply IH in H. rewrite H.
  destruct (step_line_fields _ _ _ E) as [Hi Ht]. rewrite Hi, Ht. simpl.
  destruct (classify line) eqn:Ec; simpl; try done.
  destruct (inCodeBlock st); [done|].
  case_bool_decide as Hnil.
  - rewrite bool_decide_eq_false_2; [done|]. by eapply classify_heading1_nonempty.
  - by rewrite bool_decide_eq_false_2.
Qed.

Lemma finish_title st d :
  finish st = Some d →
  deck_title d = if bool_decide (title st = []) then DEFAULT_TITLE else title st.
Proof.
  unfold finish. intros H. simpl_bind. destruct (flush_fields _ _ E) as (Ht & _).
  rewrite <- Ht. subst.
  destruct (currentSlide p) as [r|]; [case_bool_decide|]; simpl_bind; subst; done.
Qed.

(** C3: The deck title is the text of the first level-1 heading ([# t])
    that is not inside a fenced code block, and "タイトル" when there is
    none; later level-1 headings never change it. *)
Theorem parse_title markdown d :
  parseMarkdownToSlides markdown = Some d →
  deck_title d = default DEFAULT_TITLE (first_heading false (split_on LF markdown)).
Proof.
  unfold parseMarkdownToSlides. intros H. simpl_bind.
  rewrite (finish_title _ _ H). apply run_lines_title in E. rewrite E. simpl.
  destruct (first_heading false (split_on LF markdown)) as [t|] eqn:Ef; simpl.
  - rewrite bool_decide_eq_false_2; [done|]. by eapply first_heading_nonempty.
  - done.
Qed.

Lemma parse_title_witness :
  deck_title (mkDeck (js "Deck") [mkSlide (js "B") [] None true]) =
  default DEFAULT_TITLE (first_heading false (split_on LF (js "# Deck
# B"))).
Proof. apply parse_title. vm_compute. reflexivity. Defined.

