(* ===== verification/ParserInvariants.v ===== *)
(** Invariants of the slide store along a run of [parseMarkdownToSlides].

    - Section [StoreInvariant]: a property of slide objects that holds of
      every new object and is kept by appending points and by setting the
      code holds of every object of the store after any run of lines.
      Instantiated with "no [sectionHeader] yet", it gives the
      [sectionHeader] invariant of spec 3 for the returned deck
      ([section_header_exact]).
    - Monotonicity: along a run no point is removed, no title changes and
      [slides] only grows at its end ([run_lines_ext]).
    - Reachable states ([reachable]): the initial state and what a line
      makes of a reachable state; by rule induction, inside a fenced
      block the content group is always empty ([reachable_code_group]).
    - An unterminated fence: [finish] ignores the code flag and buffer,
      so the text after a fence that opens a block never reaches the
      deck ([unterminated_fence_ignored]). *)

From S2P Require Import Prelude JsString Heap LineClassifier ParserState ContentGroup ModeController DeckAssembler.

(** The parser states a run of lines can reach. *)
Inductive reachable : PState → Prop :=
| reach_init : reachable init_state
| reach_step st line st' : reachable st → step_line st line = Some st' → reachable st'.

Lemma Forall_update {A} (P : A → Prop) f l (h h' : list A) :
  Forall P h → (∀ o, P o → P (f o)) → update f l h = Some h' → Forall P h'.
Proof.
  intros Hh Hf (o & Ho & ->)%update_Some. apply Forall_insert; [done|].
  apply Hf. rewrite Forall_lookup in Hh. by eapply Hh.
Qed.

Section StoreInvariant.
Context (P : Slide → Prop).
Hypothesis P_new : ∀ t, P (new_slide t).
Hypothesis P_add : ∀ ps s, P s → P (add_points ps s).
Hypothesis P_code : ∀ c s, P s → P (set_code c s).

Definition store_inv (st : PState) : Prop := Forall P (store st).

Lemma push_new_inv t st : store_inv st → store_inv (push_new (new_slide t) st).
Proof using P_new. intros H. unfold push_new, store_inv. simpl. apply Forall_snoc. auto. Qed.

Lemma push_points_inv l ps st st' :
  store_inv st → push_points l ps st = Some st' → store_inv st'.
Proof using P_add.
  unfold push_points, store_inv. intros H Hp. simpl_bind. subst. simpl.
  eapply Forall_update; [exact H|exact (P_add ps)|exact E].
Qed.

Lemma push_all_inv os st :
  Forall P os → store_inv st → store_inv (push_all os st).
Proof.
  intros Hos. revert st. induction Hos as [|o os Ho _ IH]; intros st H; [done|].
  simpl. apply IH. unfold push_new, store_inv. simpl. apply Forall_snoc. auto.
Qed.

Lemma hier_slides_inv g : Forall P (hier_slides g).
Proof using P_new P_add.
  unfold hier_slides.
  cut (∀ acc, Forall P acc.1 → (∀ s, acc.2 = Some s → P s) →
         let '(f, c) := foldl hier_step acc g in Forall P (f ++ option_list c)).
  { intros Hc. specialize (Hc ([], None)). destruct (foldl _ _ g). apply Hc; [constructor|done]. }
  induction g as [|it g IH]; intros [fin cur] Hfin Hcur; simpl in *.
  - apply Forall_app. split; [done|]. destruct cur; simpl; [|done].
    constructor; [by apply Hcur|constructor].
  - apply IH; destruct (is_head it); simpl.
    + apply Forall_app. split; [done|]. destruct cur; simpl; [|done].
      constructor; [by apply Hcur|constructor].
    + exact Hfin.
    + intros s [= <-]. apply P_new.
    + intros s [= <-]. apply P_add. destruct cur; simpl; [by apply Hcur|apply P_new].
Qed.

Lemma flush_inv st st' : store_inv st → flushContentGroup st = Some st' → store_inv st'.
Proof using P_new P_add.
  unfold flushContentGroup. intros H.
  destruct (contentGroup st) as [|it g]; [by intros [= <-]|].
  intros Hf. simpl_bind. subst. unfold store_inv. simpl. destruct (hierarchical (it :: g)).
  - injection E as <-. apply push_all_inv; [apply hier_slides_inv|done].
  - unfold flush_flat in E.
    destruct (last (slides st)); [|destruct (currentSlide st)]; cbn in E;
      eapply push_points_inv; [|exact E| |exact E| |exact E]; try done.
    unfold store_inv. simpl. apply Forall_snoc. auto.
Qed.

Lemma step_line_inv st line st' :
  store_inv st → step_line st line = Some st' → store_inv st'.
Proof using P_new P_add P_code.
  intros H. unfold step_line.
  destruct (classify line); [by intros [= <-]| |..].
  2-6: unfold unless_in_code; destruct (inCodeBlock st); [by intros [= <-]|].
  - unfold on_fence. intros Hf. simpl_bind. apply (flush_inv _ _ H) in E.
    simpl in Hf. repeat case_match; simpl_bind; subst; try done.
    unfold store_inv. simpl. eapply Forall_update; [exact E| |exact E0]. intros o. apply P_code.
  - unfold on_heading1. intros Hh. simpl_bind. apply (flush_inv _ _ H) in E.
    case_bool_decide; simpl_bind; subst; [done|].
    unfold store_inv. simpl. apply Forall_snoc.
    split; [|apply P_new]. unfold close_current. by destruct (currentSlide p).
  - unfold on_heading23. intros Hh. simpl_bind. subst. apply push_new_inv.
    apply (flush_inv _ _ H) in E. unfold close_current. by destruct (currentSlide p).
  - unfold on_separator. intros Hh. simpl_bind. subst. apply push_new_inv.
    by apply (flush_inv _ _ H) in E.
  - by intros [= <-].
  - by intros [= <-].
Qed.

Lemma run_lines_inv st lines st' :
  store_inv st → run_lines st lines = Some st' → store_inv st'.
Proof using P_new P_add P_code.
  revert st. induction lines as [|line lines IH]; intros st H Hr.
  - by injection Hr as <-.
  - simpl in Hr. simpl_bind. eapply IH; [|exact Hr]. by eapply step_line_inv.
Qed.
End StoreInvariant.

(** ** The [sectionHeader] flag *)

(** Before the post-pass no slide object carries the flag. *)
Definition unmarked (s : Slide) : Prop := s_sectionHeader s = false.

(** The flag is set only on slides without points. *)
Definition mark_sound (s : Slide) : Prop := s_sectionHeader s = true → s_points s = [].

(** The flag is set exactly on the slides without points. *)
Definition mark_exact (s : Slide) : Prop := s_sectionHeader s = bool_decide (s_points s = []).

Lemma mark_all_lookup_notin ls h h' l :
  mark_all ls h = Some h' → l ∉ ls → h' !! l = h !! l.
Proof.
  revert h. induction ls as [|l0 ls IH]; intros h Hm Hl; simpl in Hm.
  - by injection Hm as <-.
  - simpl_bind. apply not_elem_of_cons in Hl as [Hne Hl].
    rewrite (IH _ Hm Hl). by eapply update_lookup_ne.
Qed.

(** The post-pass, for any marking that keeps [mark_sound] and makes
    [mark_exact]: the claim below discharges both for
    [mark_section_header]. *)
Section MarkAll.
Hypothesis mark_sound_kept : ∀ s, mark_sound s → mark_sound (mark_section_header s).
Hypothesis mark_exact_made : ∀ s, mark_sound s → mark_exact (mark_section_header s).

Lemma mark_all_spec ls h h' :
  Forall mark_sound h → mark_all ls h = Some h' →
  Forall mark_sound h' ∧ ∀ l o, l ∈ ls → h' !! l = Some o → mark_exact o.
Proof using mark_sound_kept mark_exact_made.
  revert h. induction ls as [|l ls IH]; intros h Hs Hm; simpl in Hm.
  { injection Hm as <-. split; [done|]. intros l o Hl. by apply not_elem_of_nil in Hl. }
  simpl_bind. rename l0 into h1.
  assert (Hs1 : Forall mark_sound h1).
  { eapply Forall_update; [exact Hs|exact mark_sound_kept|exact E]. }
  destruct (IH h1 Hs1 Hm) as [Hs' Hex]. split; [done|].
  intros l' o Hl' Ho. destruct (decide (l' ∈ ls)) as [Hin|Hnin]; [by eapply Hex|].
  apply elem_of_cons in Hl' as [->|]; [|done].
  rewrite (mark_all_lookup_notin _ _ _ _ Hm Hnin) in Ho.
  destruct (update_lookup_eq _ _ _ _ E) as (o0 & Ho0 & Ho1). rewrite Ho in Ho1.
  injection Ho1 as ->. apply mark_exact_made.
  rewrite Forall_lookup in Hs. by eapply Hs.
Qed.
End MarkAll.

Lemma unmarked_new t : unmarked (new_slide t).
Proof. done. Qed.
Lemma unmarked_add ps s : unmarked s → unmarked (add_points ps s).
Proof. done. Qed.
Lemma unmarked_code c s : unmarked s → unmarked (set_code c s).
Proof. done. Qed.

Lemma deref_exact (h : list Slide) ls os :
  (∀ l o, l ∈ ls → h !! l = Some o → mark_exact o) →
  Forall2 (λ l o, h !! l = Some o) ls os → Forall mark_exact os.
Proof.
  intros Hex H. induction H as [|r o rs os Hlo _ IH]; constructor.
  - eapply Hex; [left|exact Hlo].
  - apply IH. intros l o' Hl. apply Hex. by right.
Qed.

Lemma run_lines_unmarked lines st :
  run_lines init_state lines = Some st → Forall unmarked (store st).
Proof.
  exact (run_lines_inv unmarked unmarked_new unmarked_add unmarked_code init_state lines st
           ltac:(constructor)).
Qed.

(** C2: In the returned deck, [sectionHeader] is [true] exactly on the
    slides whose [points] are empty (spec 3), duplicates of one object
    included. *)
Theorem section_header_exact markdown d :
  parseMarkdownToSlides markdown = Some d → Forall mark_exact (deck_slides d).
Proof.
  unfold parseMarkdownToSlides. intros H. simpl_bind. rename p into st.
  apply run_lines_unmarked in E. unfold finish in H. simpl_bind. rename p into st1.
  apply (flush_inv unmarked unmarked_new unmarked_add) in E0; [|done].
  set (st2 := match currentSlide st1 with
              | Some l => if bool_decide (l ∈ slides st1) then st1 else push_ref l st1
              | None => st1 end) in *.
  assert (Hst2 : store st2 = store st1) by (subst st2; repeat case_match; done).
  assert (Hs : Forall mark_sound (store st2)).
  { rewrite Hst2. eapply Forall_impl; [exact E0|]. unfold unmarked, mark_sound. congruence. }
  assert (Hk : ∀ s, mark_sound s → mark_sound (mark_section_header s)).
  { clear. intros s. unfold mark_sound, mark_section_header. by case_bool_decide. }
  assert (Hm : ∀ s, mark_sound s → mark_exact (mark_section_header s)).
  { clear. unfold mark_sound, mark_exact, mark_section_header. intros s Hs'.
    case_bool_decide as Hp; simpl; [by rewrite bool_decide_eq_true_2|].
    rewrite bool_decide_eq_false_2 by done. destruct (s_sectionHeader s); [|done].
    by specialize (Hs' eq_refl). }
  destruct (mark_all_spec Hk Hm _ _ _ Hs E1) as [_ Hex]. subst d. simpl.
  apply deref_all_lookup in E2. exact (deref_exact _ _ _ Hex E2).
Qed.

Lemma section_header_exact_witness :
  Forall mark_exact
    (deck_slides (mkDeck (js "T") [mkSlide (js "Deck") [] None true;
                                   mkSlide (js "A") [js "x"] None false])).
Proof.
  apply (section_header_exact (js "# T
## Deck
## A
- x")).
  vm_compute. reflexivity.
Defined.

(** ** Monotonicity *)

(** [st'] extends [st]: every slide object of [st] is still there with
    the same title and its points as a prefix, and [slides] of [st] is a
    prefix of [slides] of [st']. *)
Definition st_ext (st st' : PState) : Prop :=
  store_ext slide_le (store st) (store st') ∧ slides st `prefix_of` slides st'.

#[export] Instance st_ext_preorder : PreOrder st_ext.
Proof.
  split.
  - intros st. split; [apply store_ext_refl; apply _|reflexivity].
  - intros s1 s2 s3 [H12 P12] [H23 P23]. split.
    + by eapply store_ext_trans; [apply _| |].
    + by etransitivity.
Qed.

Lemma st_ext_same st st' : store st' = store st → slides st' = slides st → st_ext st st'.
Proof. intros E1 E2. split; [rewrite E1; apply store_ext_refl; apply _|rewrite E2; reflexivity]. Qed.

Lemma push_new_ext o st : st_ext st (push_new o st).
Proof.
  split; [apply store_ext_alloc; apply _|]. unfold push_new. simpl. by eexists.
Qed.

Lemma close_current_ext st : st_ext st (close_current st).
Proof.
  unfold close_current. destruct (currentSlide st); [|reflexivity].
  split; [apply store_ext_refl; apply _|]. simpl. by eexists.
Qed.

Lemma alloc_current_ext o st :
  st_ext st (set_current (Some (alloc o (store st)).1) (set_store (alloc o (store st)).2 st)).
Proof. split; [apply store_ext_alloc; apply _|reflexivity]. Qed.

Lemma update_ext f l st h :
  (∀ s, slide_le s (f s)) → update f l (store st) = Some h → st_ext st (set_store h st).
Proof. intros Hf Hu. split; [by eapply store_ext_update; [apply _| |]|reflexivity]. Qed.

Lemma flush_st_ext st st' : flushContentGroup st = Some st' → st_ext st st'.
Proof. apply flush_ext. Qed.

#[local] Hint Resolve push_new_ext close_current_ext alloc_current_ext flush_st_ext : gslide.

Lemma step_line_ext st line st' : step_line st line = Some st' → st_ext st st'.
Proof.
  unfold step_line. destruct (classify line); [intros [= <-]; reflexivity| |..].
  2-6: unfold unless_in_code; destruct (inCodeBlock st);
    [intros [= <-]; by apply st_ext_same|].
  - unfold on_fence. intros Hf. simpl_bind. apply flush_st_ext in E.
    simpl in Hf. repeat case_match; simpl_bind; subst;
      try (etransitivity; [exact E|]; by apply st_ext_same).
    etransitivity; [exact E|].
    eapply (update_ext _ _ (set_inCode false p)); [apply set_code_le|exact E0].
  - unfold on_heading1. intros Hh. simpl_bind. apply flush_st_ext in E.
    case_bool_decide; simpl_bind; subst; [etransitivity; [exact E|]; by apply st_ext_same|].
    etransitivity; [exact E|]. etransitivity; [apply close_current_ext|].
    apply (alloc_current_ext (new_slide _) (close_current p)).
  - unfold on_heading23. intros Hh. simpl_bind. subst. apply flush_st_ext in E.
    etransitivity; [exact E|]. etransitivity; [apply close_current_ext|apply push_new_ext].
  - unfold on_separator. intros Hh. simpl_bind. subst. apply flush_st_ext in E.
    etransitivity; [exact E|]. etransitivity; [|apply push_new_ext]. by apply st_ext_same.
  - intros [= <-]. by apply st_ext_same.
  - intros [= <-]. by apply st_ext_same.
Qed.

(** C20: Along any run of lines nothing is ever taken back: every slide
    object keeps its title and its points as a prefix (points are only
    appended, spec 3), and [slides] only grows at its end. *)
Theorem run_lines_ext st lines st' : run_lines st lines = Some st' → st_ext st st'.
Proof.
  revert st. induction lines as [|line lines IH]; intros st H; simpl in H.
  - injection H as <-. reflexivity.
  - simpl_bind. apply step_line_ext in E. apply IH in H. etransitivity; [exact E|exact H].
Qed.

Lemma run_lines_ext_witness :
  st_ext init_state (default init_state (run_lines init_state (split_on LF (js "## A
- x
- y")))).
Proof.
  apply (run_lines_ext init_state (split_on LF (js "## A
- x
- y"))).
  vm_compute. reflexivity.
Defined.

(** ** Reachable states *)

Lemma reachable_run st lines st' : reachable st → run_lines st lines = Some st' → reachable st'.
Proof.
  revert st. induction lines as [|l lines IH]; intros st Hr H; simpl in H; [by injection H as <-|].
  simpl_bind. eapply IH; [|exact H]. by eapply reach_step.
Qed.

Lemma on_fence_group st st' : on_fence st = Some st' → contentGroup st' = [].
Proof.
  unfold on_fence. intros H. simpl_bind. destruct (flush_fields _ _ E) as (_ & _ & _ & Hg).
  simpl in H. repeat case_match; simpl_bind; subst; done.
Qed.

Lemma step_line_group st line st' :
  (inCodeBlock st = true → contentGroup st = []) → step_line st line = Some st' →
  inCodeBlock st' = true → contentGroup st' = [].
Proof.
  intros Hinv H. pose proof (step_line_fields _ _ _ H) as [Hi _]. revert H Hi.
  unfold step_line. destruct (classify line); intros H Hi;
    [by injection H as <-|by intros; eapply on_fence_group|..];
    unfold unless_in_code in H; destruct (inCodeBlock st) eqn:Ei;
    first [injection H as <-; intros _; exact (Hinv eq_refl) | intros Hc; congruence].
Qed.

(** C22: In every reachable state, inside a fenced block the content
    group is empty: the opening fence flushes it and no line inside the
    block adds to it (spec 3: the group is flushed at a fence). *)
Theorem reachable_code_group st : reachable st → inCodeBlock st = true → contentGroup st = [].
Proof.
  induction 1 as [|st line st' _ IH Hstep]; [done|].
  by apply (step_line_group st line st').
Qed.

Definition after_fence : PState :=
  default init_state (run_lines init_state [js "- a"; FENCE; js "- b"]).

(** The text of [lines], then a fence that is never closed, then [cs]. *)
Definition unterminated_text (lines cs : list str) : str := join LF (lines ++ FENCE :: cs).

Lemma reachable_code_group_witness : contentGroup after_fence = [].
Proof.
  apply reachable_code_group.
  - apply (reachable_run init_state [js "- a"; FENCE; js "- b"]); [constructor|].
    vm_compute. reflexivity.
  - vm_compute. reflexivity.
Defined.

(** ** An unterminated fence *)

Lemma flush_empty_group st : contentGroup st = [] → flushContentGroup st = Some st.
Proof. unfold flushContentGroup. by intros ->. Qed.

(** [finish] reads neither the code-block flag nor the code buffer. *)
Lemma finish_code_fields st b c :
  contentGroup st = [] → finish (set_buffer b (set_inCode c st)) = finish st.
Proof.
  intros Hg. unfold finish. rewrite (flush_empty_group st Hg), flush_empty_group by exact Hg.
  simpl. destruct (currentSlide st) as [l|]; [destruct (bool_decide (l ∈ slides st))|]; reflexivity.
Qed.

Lemma finish_flushed st st1 : flushContentGroup st = Some st1 → finish st = finish st1.
Proof.
  intros Hf. destruct (flush_fields _ _ Hf) as (_ & _ & _ & Hg).
  unfold finish at 1. rewrite Hf. simpl. unfold finish. by rewrite flush_empty_group.
Qed.

Lemma classify_FENCE : classify FENCE = LFence.
Proof. reflexivity. Qed.

(** C23: An unterminated fence drops everything after it (spec 9 leaves
    the case open): when the lines before it leave the parser outside a
    block, a fence followed by lines that hold no fence gives the same
    deck as the text without the fence and those lines. *)
Theorem unterminated_fence_ignored lines cs st :
  Forall (λ l, LF ∉ l) lines → Forall (λ l, (LF ∉ l) ∧ (classify l ≠ LFence)) cs →
  run_lines init_state lines = Some st → inCodeBlock st = false →
  parseMarkdownToSlides (unterminated_text lines cs) = parseMarkdownToSlides (join LF lines).
Proof.
  unfold unterminated_text. intros Hl Hcs Hrun Hin.
  destruct (run_lines_some init_state lines init_wf) as (st0 & Hrun0 & Hwf).
  rewrite Hrun in Hrun0. injection Hrun0 as <-.
  destruct (flush_some st Hwf) as (st1 & Hf & _ & Hg & _ & Hin1 & _).
  unfold parseMarkdownToSlides.
  rewrite split_on_join; [|destruct lines; discriminate|].
  2: { apply Forall_app. split; [done|]. constructor; [apply (bool_decide_unpack _); reflexivity|].
       eapply Forall_impl; [exact Hcs|]. by intros l []. }
  rewrite run_lines_app, Hrun. simpl. unfold step_line at 1. rewrite classify_FENCE.
  unfold on_fence. rewrite Hf. simpl. rewrite Hin1, Hin. simpl.
  rewrite run_lines_in_code; [|done|by eapply Forall_impl; [exact Hcs|]; intros l []].
  cbn [mbind option_bind]. rewrite finish_code_fields by done.
  destruct lines as [|l ls].
  - simpl in Hrun. injection Hrun as <-. simpl. by rewrite (finish_flushed _ _ Hf).
  - rewrite (split_on_join LF (l :: ls)) by done. rewrite Hrun. simpl. by rewrite (finish_flushed _ _ Hf).
Qed.

Lemma unterminated_fence_ignored_witness :
  parseMarkdownToSlides (unterminated_text [js "# Deck"; js "# A"] [js "code"]) =
  parseMarkdownToSlides (join LF [js "# Deck"; js "# A"]).
Proof.
  eapply (unterminated_fence_ignored [js "# Deck"; js "# A"] [js "code"]).
  - apply (bool_decide_unpack _). vm_compute. reflexivity.
  - apply (bool_decide_unpack _). vm_compute. reflexivity.
  - vm_compute. reflexivity.
  - reflexivity.
Defined.

(** ** Type safety of the parser state *)

(** Every reachable state is well typed: the references in [slides]
    and [currentSlide] point into the object store, so no line can make
    a field access on [undefined]: from a reachable state every line
    steps (progress) to a reachable state. *)
Theorem reachable_wf st :
  reachable st → wf st ∧ ∀ line, ∃ st', step_line st line = Some st' ∧ reachable st'.
Proof.
  intros Hr. assert (Hwf : wf st).
  { induction Hr as [|st line st' _ IH Hstep]; [apply init_wf|].
    destruct (step_line_some st line IH) as (st'' & E & Hwf). congruence. }
  split; [done|]. intros line. destruct (step_line_some st line Hwf) as (st' & E & _).
  exists st'. split; [done|]. by eapply reach_step.
Qed.

Lemma reachable_wf_witness :
  wf after_fence ∧ ∀ line, ∃ st', step_line after_fence line = Some st' ∧ reachable st'.
Proof.
  apply reachable_wf. apply (reachable_run init_state [js "- a"; FENCE; js "- b"]); [constructor|].
  vm_compute. reflexivity.
Defined.
