(* ===== verification/ParserExamples.v ===== *)
(** The examples of the spec (section 8) run on the model of
    [parseMarkdownToSlides], and the inputs on which the code does
    something else than the spec or the source's own comments say.

    [md] joins ASCII lines with newlines, as a text area would deliver
    them; each theorem is proved by evaluating the parser. *)

From S2P Require Import Prelude JsString Heap LineClassifier ParserState ContentGroup ModeController DeckAssembler.

Definition md (ls : list String.string) : str := join LF (map js ls).

(** Spec examples 1 to 3 hold: a heading [##] followed by a flat
    bullet list gives one slide holding the bullets as points; an indented
    group makes its indent-0 bullet a slide title and the indented bullets
    its points; a [---] line between two [##] blocks gives an extra slide
    with an empty title and no points, marked as a section header,
    between the two. *)
Theorem spec_examples_1_to_3 :
  parseMarkdownToSlides (md ["# Deck"; "## Intro"; "- a"; "- b"; ""]%string) =
    Some (mkDeck (js "Deck") [mkSlide (js "Intro") [js "a"; js "b"] None false]) ∧
  parseMarkdownToSlides (md ["# Deck"; "- x"; "  - y"; "  - z"; ""]%string) =
    Some (mkDeck (js "Deck") [mkSlide (js "x") [js "y"; js "z"] None false]) ∧
  parseMarkdownToSlides (md ["# Deck"; "## A"; "- a"; "---"; "## B"; "- b"]%string) =
    Some (mkDeck (js "Deck")
            [mkSlide (js "A") [js "a"] None false; mkSlide [] [] None true;
             mkSlide (js "B") [js "b"] None false]).
Proof. split_and!; vm_compute; reflexivity. Qed.

(** Spec example 4 does not hold: a fenced block right after a
    [## Title] heading is not attached to that slide; the code is assigned
    only to [currentSlide], which a [##] heading leaves null. *)
Theorem spec_example4_code_dropped :
  parseMarkdownToSlides (md ["# Deck"; "## Title"; "```"; "print(1)"; "```"]%string) =
  Some (mkDeck (js "Deck") [mkSlide (js "Title") [] None true]).
Proof. vm_compute. reflexivity. Qed.

(** A [---] line drops the slide opened by a level-1 heading: the
    separator branch sets [currentSlide = null] without pushing it, so
    the slide "A" and its point "x" are lost. *)
Theorem separator_drops_current_slide_example :
  parseMarkdownToSlides (md ["# Deck"; "# A"; "- x"; "---"; "# B"]%string) =
  Some (mkDeck (js "Deck") [mkSlide [] [] None true; mkSlide (js "B") [] None true]).
Proof. vm_compute. reflexivity. Qed.

(** A flat group with no slide to land in opens a "内容" slide,
    pushes it and makes it the current slide; the next heading pushes the
    current slide again, so the deck holds the same slide twice. *)
Theorem placeholder_slide_pushed_twice_example :
  parseMarkdownToSlides (md ["# T"; "- a"; "## B"]%string) =
  Some (mkDeck (js "T")
          [mkSlide PLACEHOLDER_TITLE [js "a"] None false;
           mkSlide PLACEHOLDER_TITLE [js "a"] None false;
           mkSlide (js "B") [] None true]).
Proof. vm_compute. reflexivity. Qed.

(** Code leaks from one block into the next: the block under
    [## A] is assigned to no slide and stays in the buffer, so the slide
    "B" gets the text of both blocks. *)
Theorem code_buffer_leaks :
  parseMarkdownToSlides
    (md ["# T"; "## A"; "```"; "x"; "```"; "# B"; "```"; "y"; "```"]%string) =
  Some (mkDeck (js "T")
          [mkSlide (js "A") [] None true;
           mkSlide (js "B") [] (Some (js "x" ++ [LF] ++ js "y")) true]).
Proof. vm_compute. reflexivity. Qed.

(** A flat bullet list right after a level-1 heading does not land
    in that heading's slide when an earlier slide was pushed: it goes to
    [slides[slides.length - 1]] ("S"), and "A" stays without points. *)
Theorem flat_group_goes_to_last_pushed :
  parseMarkdownToSlides (md ["# Deck"; "## S"; "# A"; "- x"]%string) =
  Some (mkDeck (js "Deck") [mkSlide (js "S") [js "x"] None false;
                            mkSlide (js "A") [] None true]).
Proof. vm_compute. reflexivity. Qed.

(** The slides of a hierarchical group are pushed at once, while the
    slide of the level-1 heading before them is pushed only at the next
    heading or at the end: the output order is not the order of the
    headings in the text. *)
Example hierarchical_before_open_heading :
  parseMarkdownToSlides (md ["# Deck"; "# A"; "- x"; "  - y"]%string) =
  Some (mkDeck (js "Deck") [mkSlide (js "x") [js "y"] None false;
                            mkSlide (js "A") [] None true]).
Proof. vm_compute. reflexivity. Qed.
