(* ===== verification/ParserDefects.v ===== *)
(** Two defects of [parseMarkdownToSlides] ([src/code2.js]) stated over
    every parser state, not on one input.

    - The separator branch (lines 212-220) sets [currentSlide = null]
      without pushing it.  A slide opened by a level-1 heading is held
      only by [currentSlide] until the next heading pushes it, so after a
      [---] line no reference to it is left: whatever lines follow, it is
      in neither [slides] nor [currentSlide], the two references
      [finish] (lines 234-246) reads the deck from
      ([separator_drops_current_slide]).
    - The flat branch of [flushContentGroup] (lines 143-152), with no
      slide yet, allocates a placeholder slide, pushes it and makes it
      [currentSlide]; the next heading pushes [currentSlide] without the
      [includes] test of line 235, so [slides] holds that object twice
      ([placeholder_slide_pushed_twice]).

    The first rests on a relation between states, [fresh_refs]: every
    reference of the later state is a reference of the earlier one, its
    [currentSlide], or an object allocated in between.  Every step of
    the loop is in it; [grows] is the stronger relation of the steps that
    do not push [currentSlide] (the flush and the separator). *)

From S2P Require Import Prelude JsString Heap LineClassifier ParserState ContentGroup.
From S2P Require Import ModeController DeckAssembler.

(** [st'] holds only references [st] held, its current slide, or
    objects allocated after [st]. *)
Definition fresh_refs (st st' : PState) : Prop :=
  length (store st) ≤ length (store st') ∧
  (∀ x, x ∈ slides st' → x ∈ slides st ∨ currentSlide st = Some x ∨ length (store st) ≤ x) ∧
  (∀ x, currentSlide st' = Some x → currentSlide st = Some x ∨ length (store st) ≤ x).

(** As [fresh_refs], without pushing the current slide. *)
Definition grows (st st' : PState) : Prop :=
  length (store st) ≤ length (store st') ∧
  (∀ x, x ∈ slides st' → x ∈ slides st ∨ length (store st) ≤ x) ∧
  (∀ x, currentSlide st' = Some x → currentSlide st = Some x ∨ length (store st) ≤ x).


(** ** The relations *)

#[export] Instance grows_preorder : PreOrder grows.
Proof.
  split.
  - intros st. split_and!; [done|by left|by left].
  - intros s1 s2 s3 (L12 & S12 & C12) (L23 & S23 & C23). split_and!; [lia| |].
    + intros x [Hx|Hx]%S23; [destruct (S12 x Hx)|]; [by left|right; lia|right; lia].
    + intros x [Hx|Hx]%C23; [destruct (C12 x Hx)|]; [by left|right; lia|right; lia].
Qed.

#[export] Instance fresh_refs_preorder : PreOrder fresh_refs.
Proof.
  split.
  - intros st. split_and!; [done|by left|by left].
  - intros s1 s2 s3 (L12 & S12 & C12) (L23 & S23 & C23). split_and!; [lia| |].
    + intros x [Hx|[Hx|Hx]]%S23.
      * destruct (S12 x Hx) as [|[|]]; [by left|by right; left|right; right; lia].
      * destruct (C12 x Hx); [by right; left|right; right; lia].
      * right; right; lia.
    + intros x [Hx|Hx]%C23; [destruct (C12 x Hx)|]; [by left|right; lia|right; lia].
Qed.









(** ** Every step holds only old, current or fresh references *)






(** The flat flush with no slide pushed and none current: the
    placeholder is allocated, pushed and made current. *)
Lemma flush_placeholder st st1 :
  slides st = [] → currentSlide st = None → contentGroup st ≠ [] →
  hierarchical (contentGroup st) = false → flushContentGroup st = Some st1 →
  slides st1 = [length (store st)] ∧ currentSlide st1 = Some (length (store st)) ∧ title st1 = title st.
Proof.
  intros Hs Hc Hg Hh. unfold flushContentGroup. destruct (contentGroup st) as [|it g]; [done|].
  rewrite Hh. unfold flush_flat. rewrite Hs, Hc. simpl. unfold push_points. intros H. simpl_bind.
  subst st1 p. simpl. by rewrite Hs.
Qed.

(** ** The two defects *)




(** C33: The placeholder slide is pushed twice: from a state with no
    slide pushed and none current, outside a code block, with a flat
    (non-hierarchical) content group pending, a [##]/[###] heading, or a
    [#] heading once the title is set, gives a state whose [slides]
    starts with the same reference twice: the flush pushes the "内容"
    placeholder and makes it current, and the heading pushes the current
    slide again. *)
Theorem placeholder_slide_pushed_twice st line t st' :
  slides st = [] → currentSlide st = None → contentGroup st ≠ [] →
  hierarchical (contentGroup st) = false → inCodeBlock st = false →
  classify line = LHeading23 t ∨ (classify line = LHeading1 t ∧ title st ≠ []) →
  step_line st line = Some st' →
  ∃ l, take 2 (slides st') = [l; l].
Proof.
  intros Hs Hc Hg Hh Hin Hk. unfold step_line.
  destruct Hk as [Hk|[Hk Ht]]; rewrite Hk; unfold unless_in_code; rewrite Hin; intros H.
  - unfold on_heading23 in H. simpl_bind. subst st'.
    destruct (flush_placeholder _ _ Hs Hc Hg Hh E) as (Hs1 & Hc1 & _).
    exists (length (store st)). unfold close_current. rewrite Hc1.
    unfold push_new, push_ref. simpl. by rewrite Hs1.
  - unfold on_heading1 in H. simpl_bind.
    destruct (flush_placeholder _ _ Hs Hc Hg Hh E) as (Hs1 & Hc1 & Ht1).
    revert H. case_bool_decide; [congruence|]. intros [= <-].
    exists (length (store st)). unfold close_current. rewrite Hc1. simpl. by rewrite Hs1.
Qed.

(** "# T" then "- a": the title is set, the flat group is pending. *)
Definition pending_state : PState :=
  default init_state (run_lines init_state (map js ["# T"; "- a"]%string)).

Lemma placeholder_slide_pushed_twice_witness :
  ∃ l, take 2 (slides (default init_state (step_line pending_state (js "## B")))) = [l; l].
Proof.
  apply (placeholder_slide_pushed_twice pending_state (js "## B") (js "B"));
    [vm_compute; reflexivity|vm_compute; reflexivity|vm_compute; discriminate
    |vm_compute; reflexivity|vm_compute; reflexivity|left; vm_compute; reflexivity
    |vm_compute; reflexivity].
Defined.
