(* ===== verification/ContentDelivery.v ===== *)
(** Delivery of content (a liveness property of [parseMarkdownToSlides],
    [src/code2.js]): the text of every heading, bullet and plain-text
    line read outside a fenced block eventually reaches the returned
    deck, as the title or a point of one of its slides, when no line of
    the text is a [---] separator.  The one exception is the first
    level-1 heading, whose text becomes the deck title.

    [content_items] is the reference: the texts the lines bring, read
    off the text with the code-block mode and whether the title is set.
    The proof follows a text from the moment it is read: it is [held] by
    the state, in [contentGroup] (an item), in an object behind [slides]
    (a level-2 or level-3 heading, a flushed item) or behind
    [currentSlide] (a level-1 heading); every step keeps what is held,
    except a separator, which drops [currentSlide]; the end of input
    ([finish]) pushes [currentSlide] and reads every object behind
    [slides] into the deck.  The counterexample with a separator is
    [ParserExamples.separator_drops_current_slide]. *)

From S2P Require Import Prelude JsString Heap LineClassifier ParserState ContentGroup.
From S2P Require Import ModeController DeckAssembler ParserInvariants ParserExamples.

(** ** The reference and the delivery predicates *)

(** The texts the lines bring outside fenced blocks, in order, for the
    lines read from the code-block mode [inCode], [titled] telling
    whether the deck title is set: the text of every level-2 or level-3
    heading, of every level-1 heading but the one that gives the deck
    its title, and the contents pushed to [contentGroup] (lines
    223-231). *)
Fixpoint content_items (inCode titled : bool) (lines : list str) : list str :=
  match lines with
  | [] => []
  | line :: rest =>
      match classify line with
      | LFence => content_items (negb inCode) titled rest
      | LBlank | LSeparator => content_items inCode titled rest
      | LHeading1 t =>
          if inCode then content_items inCode titled rest
          else if titled then t :: content_items inCode titled rest
          else content_items inCode true rest
      | LHeading23 t | LBullet _ t | LPlain t =>
          if inCode then content_items inCode titled rest else t :: content_items inCode titled rest
      end
  end.

(** The texts a slide shows: its title and its points. *)
Definition slide_texts (s : Slide) : list str := s_title s :: s_points s.

(** The texts of a deck. *)
Definition deck_texts (d : Deck) : list str := concat (map slide_texts (deck_slides d)).

(** The object behind [l] shows [t]. *)
Definition in_obj (h : list Slide) (l : loc) (t : str) : Prop :=
  ∃ s, h !! l = Some s ∧ t ∈ slide_texts s.

(** [t] is in an object behind [slides]. *)
Definition in_slides (st : PState) (t : str) : Prop := ∃ l, l ∈ slides st ∧ in_obj (store st) l t.

(** [t] is in an object the deck will hold: behind [slides] or behind
    [currentSlide]. *)
Definition placed (st : PState) (t : str) : Prop :=
  in_slides st t ∨ (∃ l, currentSlide st = Some l ∧ in_obj (store st) l t).

(** [t] is held by the state: waiting in [contentGroup], or placed. *)
Definition held (st : PState) (t : str) : Prop :=
  t ∈ map content (contentGroup st) ∨ placed st t.

(** The example of the delivery theorems: two level-1 headings, a fenced
    block, a level-2 heading and a hierarchical group. *)
Definition delivery_md : str :=
  md ["# Deck"; "# A"; "- x"; "```"; "code"; "```"; "## B"; "- y"; "  - z"; "plain"]%string.

Definition delivery_deck : Deck :=
  mkDeck (js "Deck")
    [mkSlide (js "A") [js "x"] (Some (js "code")) false; mkSlide (js "B") [] None true;
     mkSlide (js "y") [js "z"; js "plain"] None false].

(** ** Objects only grow *)

Lemma slide_texts_le s s' t : slide_le s s' → t ∈ slide_texts s → t ∈ slide_texts s'.
Proof.
  intros [Ht [ps Hp]]. unfold slide_texts. rewrite Ht, Hp, !elem_of_cons, elem_of_app. tauto.
Qed.

Lemma in_obj_ext h h' l t : store_ext slide_le h h' → in_obj h l t → in_obj h' l t.
Proof.
  intros [_ Hh] (s & Hs & Ht). destruct (Hh l s Hs) as (s' & Hs' & Hle).
  exists s'. split; [done|]. by eapply slide_texts_le.
Qed.

Lemma in_slides_ext st st' t : st_ext st st' → in_slides st t → in_slides st' t.
Proof.
  intros [Hh [ls Hls]] (l & Hl & Ho). exists l.
  split; [rewrite Hls; apply elem_of_app; by left|by eapply in_obj_ext].
Qed.

Lemma placed_ext st st' t :
  st_ext st st' → (currentSlide st' = currentSlide st ∨ currentSlide st = None) →
  placed st t → placed st' t.
Proof.
  intros Hext Hc [Hs|(l & Hcur & Ho)]; [left; by eapply in_slides_ext|].
  destruct Hext as [Hh _]. right. exists l. destruct Hc as [Hc|Hc]; [|congruence]. rewrite Hc. split; [done|by eapply in_obj_ext].
Qed.

Lemma held_same st st' t :
  contentGroup st' = contentGroup st → slides st' = slides st → currentSlide st' = currentSlide st →
  store st' = store st → held st t → held st' t.
Proof. unfold held, placed, in_slides. intros -> -> -> ->. done. Qed.

(** ** The flush places every waiting text *)

Lemma push_all_in os st o t :
  o ∈ os → t ∈ slide_texts o → ∃ l, l ∈ slides (push_all os st) ∧ in_obj (store (push_all os st)) l t.
Proof.
  revert st. induction os as [|o' os IH]; intros st Ho Ht; [by apply not_elem_of_nil in Ho|]. simpl.
  apply elem_of_cons in Ho as [<-|Ho]; [|by apply IH].
  destruct (push_all_ext os (push_new o st)) as [Hh [ls Hls]].
  exists (length (store st)). split.
  - rewrite Hls. apply elem_of_app. left. simpl. apply elem_of_app. right. by left.
  - apply (in_obj_ext (store (push_new o st))); [done|]. exists o. split; [|done].
    simpl. by rewrite lookup_app_r, Nat.sub_diag by lia.
Qed.

Lemma hier_slides_texts g it : it ∈ g → ∃ o, o ∈ hier_slides g ∧ content it ∈ slide_texts o.
Proof.
  intros Hit. destruct (hier_slides_titles_points g) as [Ht Hp].
  destruct (is_head it) eqn:Eh.
  - assert (Hin : In (content it) (map s_title (hier_slides g))).
    { rewrite Ht, in_app_iff. right. apply in_map, list_elem_of_In, list_elem_of_filter. by rewrite Eh. }
    apply in_map_iff in Hin as (o & Ho & Hin). exists o. rewrite list_elem_of_In. split; [done|].
    rewrite <-Ho. left.
  - assert (Hin : In (content it) (concat (map s_points (hier_slides g)))).
    { rewrite Hp. apply in_map, list_elem_of_In, list_elem_of_filter. by rewrite Eh. }
    apply in_concat in Hin as (ps & Hps & Hin). apply in_map_iff in Hps as (o & <- & Ho).
    exists o. rewrite list_elem_of_In. split; [done|]. right. by apply list_elem_of_In.
Qed.

(** The points pushed to [l] are shown by [l]. *)
Lemma push_points_in l ps st st' t :
  push_points l ps st = Some st' → t ∈ ps → in_obj (store st') l t.
Proof.
  unfold push_points. intros H Ht. simpl_bind. subst.
  destruct (update_lookup_eq _ _ _ _ E) as (o & _ & Ho). exists (add_points ps o). split; [done|].
  right. simpl. apply elem_of_app. by right.
Qed.

Lemma push_points_fields l ps st st' :
  push_points l ps st = Some st' → slides st' = slides st ∧ currentSlide st' = currentSlide st.
Proof. unfold push_points. intros H. simpl_bind. by subst. Qed.

Lemma flush_flat_in st st' it :
  flush_flat st = Some st' → it ∈ contentGroup st → placed st' (content it).
Proof.
  intros H Hit. assert (Hc : content it ∈ map content (contentGroup st)).
  { apply list_elem_of_In, in_map. by apply list_elem_of_In. }
  unfold flush_flat in H. destruct (last (slides st)) as [l|] eqn:El; [|destruct (currentSlide st) as [l|] eqn:Ec];
    cbn in H; destruct (push_points_fields _ _ _ _ H) as [Hs Hcur]; simpl in Hs, Hcur.
  - left. exists l. rewrite Hs. split; [by apply last_Some_in|]. by eapply push_points_in.
  - right. exists l. rewrite Hcur. split; [done|]. by eapply push_points_in.
  - left. exists (length (store st)). rewrite Hs. split; [|by eapply push_points_in].
    apply elem_of_app. right. by left.
Qed.

Lemma flush_current st st' :
  flushContentGroup st = Some st' → currentSlide st' = currentSlide st ∨ currentSlide st = None.
Proof.
  unfold flushContentGroup. destruct (contentGroup st) as [|it g]; [intros [= <-]; by left|].
  destruct (hierarchical (it :: g)).
  - intros [= <-]. left. simpl. apply push_all_fields.
  - intros H. simpl_bind. subst. simpl. unfold flush_flat in E.
    destruct (last (slides st)); [|destruct (currentSlide st) eqn:Ec]; cbn in E;
      unfold push_points in E; simpl_bind; subst; simpl; auto.
Qed.

Lemma flush_held st st' t :
  flushContentGroup st = Some st' → held st t →
  placed st' t ∧ (currentSlide st' = currentSlide st ∨ currentSlide st = None).
Proof.
  intros Hf Ht. split; [|by eapply flush_current].
  destruct Ht as [Ht|Ht]; [|eapply placed_ext; [by apply flush_st_ext|by eapply flush_current|done]].
  apply list_elem_of_In, in_map_iff in Ht as (it & <- & Hit). apply list_elem_of_In in Hit.
  unfold flushContentGroup in Hf. destruct (contentGroup st) as [|it0 g] eqn:Eg; [by apply not_elem_of_nil in Hit|].
  destruct (hierarchical (it0 :: g)).
  - injection Hf as <-. destruct (hier_slides_texts _ _ Hit) as (o & Ho & Hin).
    destruct (push_all_in _ st _ _ Ho Hin) as (l & Hl & Hobj). left. by exists l.
  - simpl_bind. subst. exact (flush_flat_in st p it E ltac:(by rewrite Eg)).
Qed.

(** ** Every step keeps what is held, except a separator *)

Lemma close_current_in_slides st t : placed st t → in_slides (close_current st) t.
Proof.
  intros [Hs|(l & Hc & Ho)]; [apply (in_slides_ext st); [apply close_current_ext|done]|].
  unfold close_current. rewrite Hc. exists l. simpl. split; [|done].
  apply elem_of_app. right. by left.
Qed.

Lemma on_fence_held st st' t : on_fence st = Some st' → held st t → held st' t.
Proof.
  unfold on_fence. intros H Ht. simpl_bind. destruct (flush_held _ _ _ E Ht) as [Hp _]. right.
  simpl in H. destruct (negb (inCodeBlock p)); [by injection H as <-|].
  destruct (currentSlide p) as [l|]; [|by injection H as <-].
  case_bool_decide; [by injection H as <-|]. simpl_bind. subst.
  apply (placed_ext (set_inCode false p)); [|by left|exact Hp].
  split; [eapply store_ext_update; [apply _|apply set_code_le|exact E0]|reflexivity].
Qed.

Lemma on_heading1_held t0 st st' t : on_heading1 t0 st = Some st' → held st t → held st' t.
Proof.
  unfold on_heading1. intros H Ht. simpl_bind. destruct (flush_held _ _ _ E Ht) as [Hp _]. right.
  case_bool_decide; [by injection H as <-|]. cbn in H. injection H as <-. left.
  apply (in_slides_ext (close_current p)); [apply (alloc_current_ext (new_slide t0) (close_current p))|].
  by apply close_current_in_slides.
Qed.

Lemma on_heading23_held t0 st st' t : on_heading23 t0 st = Some st' → held st t → held st' t.
Proof.
  unfold on_heading23. intros H Ht. simpl_bind. subst. destruct (flush_held _ _ _ E Ht) as [Hp _].
  right. left. apply (in_slides_ext (close_current p)); [apply push_new_ext|by apply close_current_in_slides].
Qed.

Lemma step_held st line st' t :
  step_line st line = Some st' → classify line ≠ LSeparator → held st t → held st' t.
Proof.
  unfold step_line. intros H Hsep Ht. destruct (classify line); [by injection H as <-|by eapply on_fence_held|..];
    unfold unless_in_code in H; (destruct (inCodeBlock st); [by injection H as <-|]).
  - by eapply on_heading1_held.
  - by eapply on_heading23_held.
  - done.
  - injection H as <-. destruct Ht as [Hg|Hp]; [left|by right].
    simpl. rewrite map_app. apply elem_of_app. by left.
  - injection H as <-. destruct Ht as [Hg|Hp]; [left|by right].
    simpl. rewrite map_app. apply elem_of_app. by left.
Qed.

Lemma on_heading23_new t st st' : on_heading23 t st = Some st' → in_slides st' t.
Proof.
  unfold on_heading23. intros H. simpl_bind. subst. exists (length (store (close_current p))).
  simpl. split; [apply elem_of_app; right; by left|].
  exists (new_slide t). split; [apply (alloc_lookup_new (new_slide t) (store (close_current p)))|by left].
Qed.

Lemma on_heading1_new t st st' : title st ≠ [] → on_heading1 t st = Some st' → placed st' t.
Proof.
  unfold on_heading1. intros Ht H. simpl_bind. destruct (flush_fields _ _ E) as (Ht1 & _).
  rewrite bool_decide_eq_false_2 in H by congruence. cbn in H. injection H as <-.
  right. eexists. split; [reflexivity|]. exists (new_slide t).
  split; [apply (alloc_lookup_new (new_slide t) (store (close_current p)))|by left].
Qed.

(** The text a line brings outside a block is held from then on. *)
Lemma step_new st line st' t :
  step_line st line = Some st' → inCodeBlock st = false →
  (∃ n, classify line = LBullet n t) ∨ classify line = LPlain t ∨ classify line = LHeading23 t ∨
  (classify line = LHeading1 t ∧ title st ≠ []) → held st' t.
Proof.
  unfold step_line, unless_in_code. intros H Hin [[n Ec]|[Ec|[Ec|[Ec Ht]]]]; rewrite Ec, Hin in H.
  1,2: injection H as <-; left; simpl; rewrite map_app; apply elem_of_app; right; by left.
  - right. left. by eapply on_heading23_new.
  - right. by eapply on_heading1_new.
Qed.

Lemma run_held st lines st' :
  run_lines st lines = Some st' → (∀ line, line ∈ lines → classify line ≠ LSeparator) →
  (∀ t, held st t → held st' t) ∧
  (∀ t, t ∈ content_items (inCodeBlock st) (bool_decide (title st ≠ [])) lines → held st' t).
Proof.
  revert st. induction lines as [|line lines IH]; intros st H Hsep; simpl in H.
  { injection H as <-. split; [done|]. intros t Ht. by apply not_elem_of_nil in Ht. }
  simpl_bind. rename p into st1.
  assert (Hs1 : classify line ≠ LSeparator) by (apply Hsep; left).
  destruct (IH st1 H) as [IH1 IH2]; [intros l Hl; apply Hsep; by right|].
  split; [intros t Ht; apply IH1; by eapply step_held|].
  destruct (step_line_fields _ _ _ E) as [Hin Htl].
  intros t Ht. simpl in Ht. destruct (classify line) as [| |t0|t0| |n c|c] eqn:Ec; rewrite Hin, Htl in IH2;
    try (by apply IH2); destruct (inCodeBlock st) eqn:Ei; try (by apply IH2).
  - pose proof (classify_heading1_nonempty _ _ Ec) as Hne.
    destruct (bool_decide (title st ≠ [])) eqn:Eb.
    + apply bool_decide_eq_true in Eb. rewrite (bool_decide_eq_false_2 (title st = [])), (bool_decide_eq_true_2 (title st ≠ [])) in IH2 by done.
      apply elem_of_cons in Ht as [->|Ht]; [|by apply IH2].
      apply IH1, (step_new st line); [done|done|by do 3 right].
    + apply bool_decide_eq_false, dec_stable in Eb. rewrite Eb in IH2.
      rewrite (bool_decide_eq_true_2 ([] = [])), (bool_decide_eq_true_2 (t0 ≠ [])) in IH2 by done.
      by apply IH2.
  - apply elem_of_cons in Ht as [->|Ht]; [|by apply IH2].
    apply IH1, (step_new st line); [done|done|by do 2 right; left].
  - apply elem_of_cons in Ht as [->|Ht]; [|by apply IH2].
    apply IH1, (step_new st line); [done|done|left; by exists n].
  - apply elem_of_cons in Ht as [->|Ht]; [|by apply IH2].
    apply IH1, (step_new st line); [done|done|by right; left].
Qed.

(** ** The end of the document keeps what is held *)

Lemma mark_section_header_le s : slide_le s (mark_section_header s).
Proof. unfold mark_section_header. case_bool_decide; [split; [done|reflexivity]|reflexivity]. Qed.

Lemma mark_all_ext ls h h' : mark_all ls h = Some h' → store_ext slide_le h h'.
Proof.
  revert h. induction ls as [|l ls IH]; intros h H; simpl in H; [injection H as <-; apply store_ext_refl; apply _|].
  simpl_bind. eapply store_ext_trans; [apply _| |by apply IH].
  eapply store_ext_update; [apply _|apply mark_section_header_le|exact E].
Qed.

Lemma deref_all_in (h : list Slide) ls os l s : deref_all h ls = Some os → l ∈ ls → h !! l = Some s → s ∈ os.
Proof.
  intros H%deref_all_lookup Hl Hs. induction H as [|l' o ls os Ho _ IH].
  - by apply not_elem_of_nil in Hl.
  - apply elem_of_cons in Hl as [->|Hl]; [rewrite Hs in Ho; injection Ho as ->; by left|right; auto].
Qed.

Lemma deck_texts_in ss s t : s ∈ ss → t ∈ slide_texts s → t ∈ concat (map slide_texts ss).
Proof.
  intros Hs Ht. apply list_elem_of_In, in_concat. exists (slide_texts s).
  split; apply list_elem_of_In; [|done]. apply list_elem_of_In, in_map, list_elem_of_In, Hs.
Qed.

Lemma finish_held st d t : finish st = Some d → held st t → t ∈ deck_texts d.
Proof.
  unfold finish. intros H Ht. simpl_bind. rename l into h, l0 into ss. subst d.
  destruct (flush_held _ _ _ E Ht) as [Hp _]. clear E Ht.
  set (st2 := match currentSlide p with
              | Some l => if bool_decide (l ∈ slides p) then p else push_ref l p
              | None => p end) in *.
  assert (Hs2 : in_slides st2 t).
  { subst st2. destruct Hp as [Hs|(l & Hc & Ho)]; rewrite ?Hc.
    - destruct (currentSlide p); [|done]. case_bool_decide; [done|].
      destruct Hs as (l' & Hl & Ho). exists l'. split; [apply elem_of_app; by left|done].
    - case_bool_decide; [by exists l|]. exists l. split; [apply elem_of_app; right; by left|done]. }
  unfold deck_texts. simpl. destruct Hs2 as (l & Hl & Ho).
  destruct (in_obj_ext _ _ _ _ (mark_all_ext _ _ _ E0) Ho) as (s & Hs & Hts).
  eapply deck_texts_in; [|exact Hts]. by eapply deref_all_in.
Qed.

(** ** Delivery *)

Lemma parse_delivers markdown d :
  parseMarkdownToSlides markdown = Some d →
  (∀ line, line ∈ split_on LF markdown → classify line ≠ LSeparator) →
  ∀ t, t ∈ content_items false false (split_on LF markdown) → t ∈ deck_texts d.
Proof.
  unfold parseMarkdownToSlides. intros H Hsep t Ht. simpl_bind.
  destruct (run_held _ _ _ E Hsep) as [_ Hn]. by eapply finish_held, Hn.
Qed.

(** C12: No text is lost without a separator: when no line of the
    markdown is a [---] line and the parse succeeds, the text of every
    heading (but the level-1 heading that gives the deck its title), of
    every bullet and of every plain line read outside a fenced block
    reaches the deck, as the title or as a point of one of its slides.  Whatever
    the later lines do (headings close and push slides, groups are
    flushed, fences toggle the block), each text is held in the content
    group, in a pushed slide or in the current slide, until [finish]
    pushes the current slide and reads the references. *)
Theorem content_delivered markdown d :
  parseMarkdownToSlides markdown = Some d →
  (∀ line, line ∈ split_on LF markdown → classify line ≠ LSeparator) →
  ∀ t, t ∈ content_items false false (split_on LF markdown) → t ∈ deck_texts d.
Proof. apply parse_delivers. Qed.

Lemma delivery_md_no_separator line : line ∈ split_on LF delivery_md → classify line ≠ LSeparator.
Proof.
  revert line. apply Forall_forall.
  assert (Hl : split_on LF delivery_md =
    map js ["# Deck"; "# A"; "- x"; "```"; "code"; "```"; "## B"; "- y"; "  - z"; "plain"]%string)
    by (vm_compute; reflexivity).
  rewrite Hl. simpl map. repeat constructor; intros Hc; vm_compute in Hc; discriminate.
Qed.

Lemma content_delivered_witness :
  content_items false false (split_on LF delivery_md) = [js "A"; js "x"; js "B"; js "y"; js "z"; js "plain"] ∧
  ∀ t, t ∈ content_items false false (split_on LF delivery_md) → t ∈ deck_texts delivery_deck.
Proof.
  split; [vm_compute; reflexivity|].
  apply (content_delivered delivery_md delivery_deck); [vm_compute; reflexivity|].
  apply delivery_md_no_separator.
Defined.
