(* ===== verification/Host.v ===== *)
(** The host presentation (Google Slides, through [SlidesApp]) as the
    renderers of the repository use it.

    - [SlideOrder] is the interface the renderers rely on for placing
      slides: the order of the slides and [Slide.move(index)], where the
      index is "based on the slide arrangement before the move" (Apps
      Script reference).  [SlideOrderLaws] states that contract on the
      order of slide ids; [move_all_placement] is proved against it only.
    - [Pres] is a concrete presentation: slides with an id, a layout and
      shapes; a shape holds paragraphs, and the left position and width a
      script set on it ([setLeft], [setWidth]).  A layout comes with a number of
      placeholder shapes, a parameter of the theme ([placeholders]).  A
      read of [getShapes()[i]] past the end is [undefined] in JS; using it
      is a [TypeError], the [None] of the operations below.
    - [HostM] is the state-and-exception monad of a script run: an
      exception stops the script but the host keeps what was done so far.
    - [getSlideIndexByObjectId_] ([src/code.js] lines 152-158).
    - [pres_wf] (distinct slide ids below [next_id]) and [keeps_wf], the
      property of a script that keeps it on every outcome, with the
      [host_wf] hint database that proves it of a script from its
      primitive calls. *)

From S2P Require Import Prelude JsString StateM.

(** ** The slide-order interface *)

(** [insert_at k x l]: [x] put before the element at index [k]. *)
Definition insert_at {A} (k : nat) (x : A) (l : list A) : list A := take k l ++ x :: drop k l.

Fixpoint index_of (x : nat) (l : list nat) : nat :=
  match l with
  | [] => 0
  | y :: r => if bool_decide (x = y) then 0 else S (index_of x r)
  end.

(** [Slide.move(k)] on the order of ids: the slide leaves its place and is
    put before the slide that was at index [k] before the move. *)
Definition move_in_list (x : nat) (k : nat) (l : list nat) : list nat :=
  let i := index_of x l in
  insert_at (if bool_decide (i < k) then k - 1 else k) x (delete i l).

Class SlideOrder (P : Type) := {
  slide_order : P → list nat;
  move_slide : nat → nat → P → P
}.

Class SlideOrderLaws (P : Type) `{SlideOrder P} := {
  move_slide_order x k p :
    x ∈ slide_order p → k ≤ length (slide_order p) →
    slide_order (move_slide x k p) = move_in_list x k (slide_order p)
}.

(** [for (i = added.length - 1; i >= 0; i--) added[i].move(k)] *)
Definition move_all {P} `{SlideOrder P} (added : list nat) (k : nat) (p : P) : P :=
  foldl (λ p x, move_slide x k p) p (rev added).

(** ** A concrete presentation *)

Inductive Layout := TITLE | TITLE_AND_BODY | SECTION_HEADER.

#[export] Instance Layout_eq_dec : EqDecision Layout.
Proof. solve_decision. Defined.

(** The style [insertCodeBlockText_] gives a code paragraph: the
    paragraph style's space below and line spacing (in percent), then
    the text style's font size and font family. *)
Record CodeStyle := mkCodeStyle {
  spaceBelow : nat; lineSpacing : nat; fontSize : nat; fontFamily : str
}.

#[export] Instance CodeStyle_eq_dec : EqDecision CodeStyle.
Proof. solve_decision. Defined.

(** Paragraph styles the scripts apply: none, the bullet preset
    [DISC_CIRCLE_SQUARE], or a code style. *)
Inductive ParaStyle := PlainPara | BulletPara | CodePara (style : CodeStyle).

#[export] Instance ParaStyle_eq_dec : EqDecision ParaStyle.
Proof. solve_decision. Defined.

Record Para := mkPara { ptext : str; pstyle : ParaStyle }.

#[export] Instance Para_eq_dec : EqDecision Para.
Proof. solve_decision. Defined.

(** A shape: its paragraphs, and the left position and width the
    scripts set on it; [None] is the position or width the layout gives
    the placeholder (the theme's, not modelled). *)
Record Shape := mkShape { paras : list Para; sleft : option nat; swidth : option nat }.

#[export] Instance Shape_eq_dec : EqDecision Shape.
Proof. solve_decision. Defined.

(** A shape where the layout put it, holding [ps]. *)
Definition text_shape (ps : list Para) : Shape := mkShape ps None None.

(** The shape [sh] with the paragraphs [ps]. *)
Definition with_paras (ps : list Para) (sh : Shape) : Shape := mkShape ps (sleft sh) (swidth sh).

Record PSlide := mkPSlide { sid : nat; slayout : Layout; sshapes : list Shape }.

#[export] Instance PSlide_eq_dec : EqDecision PSlide.
Proof. solve_decision. Defined.

Record Pres := mkPres { pslides : list PSlide; next_id : nat }.

Section Concrete.
Context (placeholders : Layout → nat).

(** [presentation.appendSlide(layout)]: a new slide at the end with the
    layout's empty placeholders. *)
Definition append_slide (l : Layout) (p : Pres) : nat * Pres :=
  (next_id p,
   mkPres (pslides p ++ [mkPSlide (next_id p) l (replicate (placeholders l) (text_shape []))]) (S (next_id p))).

End Concrete.

(** [slides.findIndex(s => s.getObjectId() === x)], [None] for [-1]. *)
Definition slide_pos (x : nat) (p : Pres) : option nat :=
  let i := index_of x (sid <$> pslides p) in
  if bool_decide (i < length (pslides p)) then Some i else None.

(** The shapes of slide [x]. *)
Definition shapes_of (x : nat) (p : Pres) : option (list Shape) :=
  i ← slide_pos x p; s ← pslides p !! i; Some (sshapes s).

(** Apply [f] to the shapes of slide [x]; [None] when [f] fails. *)
Definition update_shapes (x : nat) (f : list Shape → option (list Shape))
    (p : Pres) : option Pres :=
  i ← slide_pos x p;
  s ← pslides p !! i;
  shs ← f (sshapes s);
  Some (mkPres (<[i := mkPSlide (sid s) (slayout s) shs]> (pslides p)) (next_id p)).

(** The paragraphs of a text: Slides starts a new paragraph at each
    newline. *)
Definition text_paras (t : str) : list Para := map (λ l, mkPara l PlainPara) (split_on LF t).

(** [slide.getShapes()[j].getText().setText(t)] *)
Definition set_text (x j : nat) (t : str) : Pres → option Pres :=
  update_shapes x (λ shs, sh ← shs !! j; Some (<[j := with_paras (text_paras t) sh]> shs)).

(** [slide.getShapes()[j].getText().appendParagraph(t)] with a style. *)
Definition append_para (x j : nat) (para : Para) : Pres → option Pres :=
  update_shapes x (λ shs, sh ← shs !! j; Some (<[j := with_paras (paras sh ++ [para]) sh]> shs)).

(** [slide.getShapes()[j].duplicate()]: a copy of the shape, with its
    text and its place, added to the slide as its last shape. *)
Definition duplicate_shape (x j : nat) : Pres → option Pres :=
  update_shapes x (λ shs, sh ← shs !! j; Some (shs ++ [sh])).

(** [setLeft(v)] on the shape [j] of slide [x]. *)
Definition set_left (x j v : nat) : Pres → option Pres :=
  update_shapes x (λ shs, sh ← shs !! j; Some (<[j := mkShape (paras sh) (Some v) (swidth sh)]> shs)).

(** [setWidth(v)] on the shape [j] of slide [x]. *)
Definition set_width (x j v : nat) : Pres → option Pres :=
  update_shapes x (λ shs, sh ← shs !! j; Some (<[j := mkShape (paras sh) (sleft sh) (Some v)]> shs)).

(** [slide.move(k)] *)
Definition pres_move (x k : nat) (p : Pres) : Pres :=
  match slide_pos x p with
  | Some i =>
      match pslides p !! i with
      | Some s =>
          let rest := delete i (pslides p) in
          mkPres (insert_at (if bool_decide (i < k) then k - 1 else k) s rest) (next_id p)
      | None => p
      end
  | None => p
  end.

#[export] Instance Pres_order : SlideOrder Pres := {
  slide_order p := sid <$> pslides p;
  move_slide := pres_move
}.

(** [getSlideIndexByObjectId_(objectId)]: the index of the first slide
    with that id, [0] when there is none ([findIndex] gives [-1]). *)
Definition getSlideIndexByObjectId_ (p : Pres) (objectId : nat) : nat :=
  default 0 (slide_pos objectId p).

(** ** The script monad: state of the host, and exceptions that stop the
    script and keep the host's state. *)
Abbreviation HostM := (StE Pres).

(** A host operation that fails with a [TypeError]. *)
Definition lift_op (f : Pres → option Pres) : HostM unit :=
  λ p, match f p with Some p' => (Some tt, p') | None => (None, p) end.

Definition get_pres : HostM Pres := λ p, (Some p, p).

Definition modify (f : Pres → Pres) : HostM unit := λ p, (Some tt, f p).

(** Slide ids below the next id, so that [appendSlide] gives a fresh one. *)
Definition fresh_ids (p : Pres) : Prop := ∀ y, y ∈ slide_order p → y < next_id p.

(** The presentation's well-formedness: distinct slide ids, all below
    [next_id]. *)
Definition pres_wf (p : Pres) : Prop := NoDup (slide_order p) ∧ fresh_ids p.

(** A script keeps [pres_wf] on every outcome, an exception included. *)
Definition keeps_wf {A} (m : HostM A) : Prop := keeps pres_wf m.

(** An action that appends exactly one slide, with the next id. *)
Definition appends_one {A} (act : A → HostM nat) : Prop :=
  ∀ a p, fresh_ids p → ∃ l shs,
    act a p = (Some (next_id p), mkPres (pslides p ++ [mkPSlide (next_id p) l shs]) (S (next_id p))).

(** ** Lemmas *)

Lemma index_of_app_notin x l1 l2 :
  x ∉ l1 → index_of x (l1 ++ l2) = length l1 + index_of x l2.
Proof.
  induction l1 as [|y l1 IH]; [done|]. intros Hx. simpl.
  rewrite bool_decide_eq_false_2 by (intros ->; apply Hx; left).
  rewrite IH; [done|]. intros H. apply Hx. by right.
Qed.

Lemma index_of_lt x l : x ∈ l → index_of x l < length l.
Proof.
  induction l as [|y l IH]; [by intros ?%not_elem_of_nil|]. simpl.
  case_bool_decide; [lia|]. intros [->|Hx]%elem_of_cons; [done|]. specialize (IH Hx). lia.
Qed.

Lemma index_of_notin x l : x ∉ l → index_of x l = length l.
Proof.
  induction l as [|y l IH]; [done|]. intros Hx. simpl.
  rewrite bool_decide_eq_false_2 by (intros ->; apply Hx; left).
  rewrite IH; [done|]. intros H. apply Hx. by right.
Qed.

(** No element before [index_of x l] is [x]. *)
Lemma index_of_first x l j : j < index_of x l → l !! j ≠ Some x.
Proof.
  revert j. induction l as [|y l IH]; intros j Hj; simpl in *; [lia|].
  case_bool_decide as Hxy; [lia|]. destruct j as [|j]; simpl; [congruence|]. apply IH. lia.
Qed.

Lemma index_of_lookup x l : x ∈ l → l !! index_of x l = Some x.
Proof.
  induction l as [|y l IH]; [by intros ?%not_elem_of_nil|]. simpl.
  case_bool_decide; [by subst|]. intros [->|Hx]%elem_of_cons; [done|]. by apply IH.
Qed.

Lemma take_drop_perm {A} (old pre post : list A) k :
  take k old ++ post ++ drop k old ++ pre ≡ₚ old ++ pre ++ post.
Proof.
  transitivity (take k old ++ drop k old ++ pre ++ post); [solve_Permutation|].
  by rewrite app_assoc, take_drop.
Qed.

(** The move loop on a list of ids: the added ids, at the end, moved in
    reverse order to index [k], end up in order before the element that
    was at [k]. *)
Lemma move_all_list old pre post k :
  NoDup (old ++ pre ++ post) → k ≤ length old →
  foldl (λ l x, move_in_list x k l) (take k old ++ post ++ drop k old ++ pre) (rev pre) =
  take k old ++ pre ++ post ++ drop k old.
Proof.
  revert post. induction pre as [|a pre IH] using rev_ind; intros post Hnd Hk.
  { simpl. by rewrite app_nil_r. }
  rewrite rev_app_distr. simpl.
  assert (Hlen : length (take k old) = k) by (rewrite length_take; lia).
  assert (Hnd' : NoDup (old ++ pre ++ a :: post)) by by rewrite <-app_assoc in Hnd.
  assert (HaX : a ∉ take k old ++ post ++ drop k old ++ pre).
  { rewrite take_drop_perm.
    rewrite (app_assoc old pre) in Hnd'. apply NoDup_app in Hnd' as (_ & Hdis & Hnd2).
    apply NoDup_cons in Hnd2 as [Hpost _]. intros Ha.
    apply elem_of_app in Ha as [Ha|Ha]; [| apply elem_of_app in Ha as [Ha|Ha]].
    - apply (Hdis a); [apply elem_of_app; by left|left].
    - apply (Hdis a); [apply elem_of_app; by right|left].
    - done. }
  rewrite !(app_assoc _ _ [a]).
  unfold move_in_list at 2. rewrite index_of_app_notin by done. simpl.
  rewrite (bool_decide_eq_true_2 (a = a)), Nat.add_0_r by done.
  rewrite bool_decide_eq_false_2 by (rewrite !length_app; lia).
  rewrite delete_middle, app_nil_r.
  unfold insert_at. rewrite <-!app_assoc.
  rewrite take_app_le, take_take, Nat.min_id, drop_app_length' by lia.
  pose proof (IH (a :: post) Hnd' Hk) as E. simpl in E. rewrite E. done.
Qed.

Lemma insert_at_perm {A} k (x : A) l : insert_at k x l ≡ₚ x :: l.
Proof. unfold insert_at. by rewrite <-Permutation_middle, take_drop. Qed.

Lemma move_in_list_perm x k l : x ∈ l → move_in_list x k l ≡ₚ l.
Proof.
  intros Hx. unfold move_in_list. rewrite insert_at_perm.
  symmetry. by apply delete_Permutation, index_of_lookup.
Qed.

(** ** Updates of the shapes of one slide *)

Lemma slide_pos_insert x p i s shs :
  pslides p !! i = Some s →
  slide_pos x (mkPres (<[i := mkPSlide (sid s) (slayout s) shs]> (pslides p)) (next_id p)) =
  slide_pos x p.
Proof.
  intros Hs. unfold slide_pos. simpl. rewrite list_fmap_insert, length_insert. simpl.
  rewrite list_insert_id; [done|]. by rewrite list_lookup_fmap, Hs.
Qed.

Lemma update_shapes_Some x f p p' :
  update_shapes x f p = Some p' →
  ∃ shs shs', shapes_of x p = Some shs ∧ f shs = Some shs' ∧ shapes_of x p' = Some shs' ∧
              slide_order p' = slide_order p ∧ next_id p' = next_id p.
Proof.
  unfold update_shapes, shapes_of. intros H.
  destruct (slide_pos x p) as [i|] eqn:Hi; [|done]. simpl in *.
  destruct (pslides p !! i) as [s|] eqn:Hs; [|done]. simpl in *.
  destruct (f (sshapes s)) as [shs'|] eqn:Hf; [|done]. simpl in H. injection H as <-.
  exists (sshapes s), shs'. split_and!; [done|done| | |done].
  - rewrite slide_pos_insert, Hi by done. simpl.
    rewrite list_lookup_insert_eq; [done|]. by eapply lookup_lt_Some.
  - simpl. rewrite list_fmap_insert. simpl. rewrite list_insert_id; [done|].
    by rewrite list_lookup_fmap, Hs.
Qed.

Lemma update_shapes_None x f p : shapes_of x p = None → update_shapes x f p = None.
Proof.
  unfold update_shapes, shapes_of. destruct (slide_pos x p); [|done]. simpl.
  by destruct (pslides p !! _).
Qed.

Lemma update_shapes_fail x f p shs :
  shapes_of x p = Some shs → f shs = None → update_shapes x f p = None.
Proof.
  unfold update_shapes, shapes_of. destruct (slide_pos x p); [|done]. simpl.
  destruct (pslides p !! _); [|done]. simpl. intros [= ->] ->. done.
Qed.

Lemma update_shapes_ext x f g p :
  (∀ shs, shapes_of x p = Some shs → f shs = g shs) → update_shapes x f p = update_shapes x g p.
Proof.
  unfold update_shapes, shapes_of. destruct (slide_pos x p); [|done]. simpl.
  destruct (pslides p !! _); [|done]. simpl. intros H. by rewrite H.
Qed.

Lemma update_shapes_id x p shs :
  shapes_of x p = Some shs → update_shapes x (λ _, Some shs) p = Some p.
Proof.
  unfold update_shapes, shapes_of. destruct (slide_pos x p) as [i|]; [|done]. simpl.
  destruct (pslides p !! i) as [[]|] eqn:Hs; [|done]. simpl. intros [= <-].
  rewrite list_insert_id by done. by destruct p.
Qed.

Lemma update_shapes_compose x f g p p1 :
  update_shapes x f p = Some p1 →
  update_shapes x g p1 = update_shapes x (λ shs, f shs ≫= g) p.
Proof.
  unfold update_shapes. intros H.
  destruct (slide_pos x p) as [i|] eqn:Hi; [|done]. simpl in *.
  destruct (pslides p !! i) as [s|] eqn:Hs; [|done]. simpl in *.
  destruct (f (sshapes s)) as [shs'|] eqn:Hf; [|done]. simpl in *. injection H as <-.
  rewrite slide_pos_insert, Hi by done. simpl.
  rewrite list_lookup_insert_eq by (by eapply lookup_lt_Some). simpl.
  destruct (g shs'); [|done]. simpl. by rewrite list_insert_insert_eq.
Qed.

Lemma update_shapes_is_Some x f p shs shs' :
  shapes_of x p = Some shs → f shs = Some shs' →
  ∃ p', update_shapes x f p = Some p' ∧ shapes_of x p' = Some shs' ∧
        slide_order p' = slide_order p ∧ next_id p' = next_id p.
Proof.
  intros Hx Hf. destruct (update_shapes x f p) as [p'|] eqn:E.
  - destruct (update_shapes_Some _ _ _ _ E) as (shs1 & shs1' & H1 & H2 & H3 & H4).
    simplify_eq. by exists p'.
  - exfalso. revert E. unfold update_shapes, shapes_of in *.
    destruct (slide_pos x p); [|done]. simpl in *.
    destruct (pslides p !! _); [|done]. simpl in *. injection Hx as ->. by rewrite Hf.
Qed.

(** ** The script monad *)

Lemma bind_lift_op_Some {B} f (k : unit → HostM B) p p1 :
  f p = Some p1 → (lift_op f ≫= k) p = k tt p1.
Proof. intros H. unfold mbind, StE_bind, lift_op. by rewrite H. Qed.

Lemma bind_lift_op_None {B} f (k : unit → HostM B) p :
  f p = None → (lift_op f ≫= k) p = (None, p).
Proof. intros H. unfold mbind, StE_bind, lift_op. by rewrite H. Qed.

Lemma bind_get_pres {B} (k : Pres → HostM B) p : (get_pres ≫= k) p = k p p.
Proof. done. Qed.

Lemma lift_op_Some f p p1 : f p = Some p1 → lift_op f p = (Some tt, p1).
Proof. unfold lift_op. by intros ->. Qed.

(** The slide appended last, with a fresh id, is the one [x] names. *)
Lemma slide_pos_last old s n :
  sid s ∉ sid <$> old → slide_pos (sid s) (mkPres (old ++ [s]) n) = Some (length old).
Proof.
  intros Hfresh. unfold slide_pos. simpl. rewrite fmap_app, index_of_app_notin by done.
  simpl. rewrite (bool_decide_eq_true_2 (sid s = sid s)) by done. rewrite length_fmap, length_app. simpl.
  rewrite bool_decide_eq_true_2 by lia. by rewrite Nat.add_0_r.
Qed.

Lemma shapes_of_last old x l shs n :
  x ∉ sid <$> old → shapes_of x (mkPres (old ++ [mkPSlide x l shs]) n) = Some shs.
Proof.
  intros Hfresh. unfold shapes_of. rewrite (slide_pos_last _ (mkPSlide x l shs)) by done.
  simpl. by rewrite list_lookup_middle.
Qed.

Lemma update_shapes_last old x l shs shs' n f :
  x ∉ sid <$> old → f shs = Some shs' →
  update_shapes x f (mkPres (old ++ [mkPSlide x l shs]) n) = Some (mkPres (old ++ [mkPSlide x l shs']) n).
Proof.
  intros Hfresh Hf. unfold update_shapes. rewrite (slide_pos_last _ (mkPSlide x l shs)) by done.
  simpl. rewrite list_lookup_middle by done. simpl. rewrite Hf. simpl.
  by rewrite insert_app_length.
Qed.

(** Two updates of one slide in a row, as one. *)
Lemma lift_op_update_compose x f g h p p1 shs :
  update_shapes x f p = Some p1 → shapes_of x p = Some shs →
  is_Some (h shs) → f shs ≫= g = h shs →
  lift_op (update_shapes x g) p1 = lift_op (update_shapes x h) p.
Proof.
  intros Hp1 Hx [shs' Hh] Hfg.
  destruct (update_shapes_is_Some x h p shs shs') as (p2 & Hp2 & _); [done..|].
  rewrite (lift_op_Some _ p p2 Hp2). apply lift_op_Some.
  rewrite (update_shapes_compose _ _ _ _ _ Hp1), <-Hp2. apply update_shapes_ext.
  intros shs1 Hx1. by simplify_eq.
Qed.

(** ** The index of the selected slide *)

Lemma getSlideIndexByObjectId_lt p oid :
  pslides p ≠ [] → getSlideIndexByObjectId_ p oid < length (pslides p).
Proof.
  intros Hne. unfold getSlideIndexByObjectId_, slide_pos.
  case_bool_decide; simpl; [done|]. destruct (pslides p); simpl; [done|lia].
Qed.

(** C26: [getSlideIndexByObjectId_] gives an index of a slide of a
    non-empty presentation: when a slide has the id, the index of the
    first one ([findIndex]: that slide has the id, no slide before it
    has), and [0] otherwise. *)
Theorem getSlideIndexByObjectId_spec p oid :
  pslides p ≠ [] →
  getSlideIndexByObjectId_ p oid < length (pslides p) ∧
  (oid ∈ slide_order p →
     slide_order p !! getSlideIndexByObjectId_ p oid = Some oid ∧
     ∀ j, j < getSlideIndexByObjectId_ p oid → slide_order p !! j ≠ Some oid) ∧
  (oid ∉ slide_order p → getSlideIndexByObjectId_ p oid = 0).
Proof.
  intros Hne. split; [by apply getSlideIndexByObjectId_lt|]. simpl.
  unfold getSlideIndexByObjectId_, slide_pos. case_bool_decide as Hlt; simpl.
  - split; [intros; split; [by apply index_of_lookup|apply index_of_first]|].
    intros Hn. rewrite index_of_notin, length_fmap in Hlt by done. lia.
  - split; [|done]. intros Hin. exfalso. apply Hlt. pose proof (index_of_lt _ _ Hin).
    by rewrite length_fmap in *.
Qed.

Lemma getSlideIndexByObjectId_spec_witness :
  let p := mkPres [mkPSlide 4 TITLE []; mkPSlide 7 TITLE_AND_BODY []; mkPSlide 7 TITLE []] 8 in
  getSlideIndexByObjectId_ p 7 < 3 ∧
  (7 ∈ slide_order p →
     slide_order p !! getSlideIndexByObjectId_ p 7 = Some 7 ∧
     ∀ j, j < getSlideIndexByObjectId_ p 7 → slide_order p !! j ≠ Some 7) ∧
  (7 ∉ slide_order p → getSlideIndexByObjectId_ p 7 = 0).
Proof. intros p. apply (getSlideIndexByObjectId_spec p 7). discriminate. Defined.

(** ** Scripts that append slides *)


Lemma fresh_ids_append p l shs :
  fresh_ids p →
  fresh_ids (mkPres (pslides p ++ [mkPSlide (next_id p) l shs]) (S (next_id p))).
Proof.
  intros Hf y. simpl. rewrite fmap_app, elem_of_app. simpl.
  intros [Hy| ->%list_elem_of_singleton]; [specialize (Hf y Hy); simpl in Hf; lia|lia].
Qed.

Lemma fresh_ids_notin p : fresh_ids p → next_id p ∉ slide_order p.
Proof. intros Hf Hin. specialize (Hf _ Hin). lia. Qed.

Lemma NoDup_app_seq old n k :
  NoDup old → (∀ y, y ∈ old → y < n) → NoDup (old ++ seq n k).
Proof.
  intros Hnd Hlt. apply NoDup_app. split_and!; [done| |apply NoDup_seq].
  intros y Hy Hs. apply elem_of_seq in Hs. specialize (Hlt y Hy). lia.
Qed.

Lemma mapH_appends {A} (act : A → HostM nat) :
  appends_one act → ∀ xs p, fresh_ids p →
  ∃ p', mapH act xs p = (Some (seq (next_id p) (length xs)), p') ∧
        slide_order p' = slide_order p ++ seq (next_id p) (length xs) ∧
        next_id p' = next_id p + length xs ∧ fresh_ids p'.
Proof.
  intros Hact xs. induction xs as [|a xs IH]; intros p Hf.
  { exists p. simpl. by rewrite app_nil_r, Nat.add_0_r. }
  destruct (Hact a p Hf) as (l & shs & Hrun1).
  destruct (IH _ (fresh_ids_append _ l shs Hf)) as (p' & Hrun & Hord & Hnext & Hf').
  exists p'. simpl. rewrite (ste_bind_Some _ _ _ _ _ Hrun1), (ste_bind_Some _ _ _ _ _ Hrun).
  simpl in *. split_and!; [done| |lia|done].
  rewrite Hord, fmap_app, <-app_assoc. done.
Qed.

Section Placement.
Context {P : Type} {HO : SlideOrder P} {HL : SlideOrderLaws P}.

Lemma move_slide_perm x k p :
  x ∈ slide_order p → k ≤ length (slide_order p) →
  slide_order (move_slide x k p) ≡ₚ slide_order p.
Proof using HL. intros. rewrite move_slide_order by done. by apply move_in_list_perm. Qed.

Lemma foldl_move_order k xs p :
  Forall (λ x, x ∈ slide_order p) xs → k ≤ length (slide_order p) →
  slide_order (foldl (λ p x, move_slide x k p) p xs) =
  foldl (λ l x, move_in_list x k l) (slide_order p) xs.
Proof using HL.
  revert p. induction xs as [|x xs IH]; intros p Hxs Hk; [done|].
  apply Forall_cons in Hxs as [Hx Hxs]. simpl.
  pose proof (move_slide_perm x k p Hx Hk) as Hperm.
  rewrite IH, move_slide_order; [done..| |].
  - eapply Forall_impl; [done|]. intros y. by rewrite Hperm.
  - by rewrite Hperm.
Qed.

(** The loop of [createSlidesFromMarkdown] that moves the added
    slides, last first, to the index [k] puts them, in order, at [k]: the
    order becomes the first [k] old slides, the added ones, the rest.
    Proved against the [SlideOrderLaws] contract only. *)
Theorem move_all_placement p old added k :
  slide_order p = old ++ added → NoDup (old ++ added) → k ≤ length old →
  slide_order (move_all added k p) = take k old ++ added ++ drop k old.
Proof using HL.
  intros Hp Hnd Hk. unfold move_all. rewrite foldl_move_order, Hp.
  - pose proof (move_all_list old added [] k) as E. rewrite !app_nil_r in E. simpl in E. rewrite (app_assoc (take k old) (drop k old)), take_drop in E.
    by apply E.
  - rewrite Hp. apply Forall_rev, Forall_forall. intros x Hx. apply elem_of_app. by right.
  - rewrite Hp, length_app. lia.
Qed.

End Placement.

Lemma slide_pos_found x p :
  x ∈ sid <$> pslides p →
  ∃ s, slide_pos x p = Some (index_of x (sid <$> pslides p)) ∧
       pslides p !! index_of x (sid <$> pslides p) = Some s ∧ sid s = x.
Proof.
  intros Hx. pose proof (index_of_lt _ _ Hx) as Hlt. pose proof (index_of_lookup _ _ Hx) as Hl.
  rewrite length_fmap in Hlt. rewrite list_lookup_fmap in Hl.
  destruct (pslides p !! _) as [s|] eqn:E; [|done]. injection Hl as <-.
  exists s. unfold slide_pos. by rewrite bool_decide_eq_true_2.
Qed.

#[export] Instance Pres_order_laws : SlideOrderLaws Pres.
Proof.
  constructor. intros x k p Hx _. simpl in *.
  destruct (slide_pos_found x p Hx) as (s & Hpos & Hs & <-).
  unfold pres_move, move_in_list. rewrite Hpos, Hs. simpl.
  unfold insert_at. by rewrite fmap_app, fmap_cons, fmap_take, fmap_drop, list_fmap_delete.
Qed.

(** ** Well-formedness along a script *)

Create HintDb host_wf discriminated.

Lemma pres_wf_perm p p' :
  slide_order p' ≡ₚ slide_order p → next_id p' = next_id p → pres_wf p → pres_wf p'.
Proof. intros Hp Hn [Hnd Hf]. split; [by rewrite Hp|]. intros y Hy. rewrite Hn. apply Hf. by rewrite <-Hp. Qed.

Lemma pres_wf_append pl l p : pres_wf p → pres_wf (append_slide pl l p).2.
Proof.
  intros [Hnd Hf]. split; [|by apply fresh_ids_append]. simpl. rewrite fmap_app.
  exact (NoDup_app_seq _ _ 1 Hnd Hf).
Qed.

Lemma pres_wf_move x k p : pres_wf p → pres_wf (pres_move x k p).
Proof.
  apply pres_wf_perm; unfold pres_move; destruct (slide_pos x p) as [i|]; try done;
    destruct (pslides p !! i) as [s|] eqn:Hs; try done. simpl.
  rewrite insert_at_perm. f_equiv. symmetry. by apply delete_Permutation.
Qed.

Lemma pres_wf_move_all added k p : pres_wf p → pres_wf (move_all added k p).
Proof.
  unfold move_all. generalize (rev added). intros xs. revert p.
  induction xs as [|x xs IH]; intros p Hp; [done|]. apply IH, pres_wf_move, Hp.
Qed.

Lemma keeps_wf_ret {A} (a : A) : keeps_wf (mret a).
Proof. apply keeps_ret. Qed.

Lemma keeps_wf_bind {A B} (m : HostM A) (k : A → HostM B) :
  keeps_wf m → (∀ a, keeps_wf (k a)) → keeps_wf (m ≫= k).
Proof. apply keeps_bind. Qed.

Lemma keeps_wf_get : keeps_wf get_pres.
Proof. by intros p. Qed.

Lemma keeps_wf_lift_opt {A} (o : option A) : keeps_wf (lift_opt o).
Proof. apply keeps_lift_opt. Qed.

Lemma keeps_wf_modify_move added k : keeps_wf (modify (move_all added k)).
Proof. intros p. apply pres_wf_move_all. Qed.

Lemma keeps_wf_update x f : keeps_wf (lift_op (update_shapes x f)).
Proof.
  intros p Hp. unfold lift_op. destruct (update_shapes x f p) as [p'|] eqn:E; [|done].
  destruct (update_shapes_Some _ _ _ _ E) as (_ & _ & _ & _ & _ & Ho & Hn).
  simpl. by apply (pres_wf_perm p); [rewrite Ho| |].
Qed.

Lemma keeps_wf_set_text x j t : keeps_wf (lift_op (set_text x j t)).
Proof. apply keeps_wf_update. Qed.
Lemma keeps_wf_append_para x j para : keeps_wf (lift_op (append_para x j para)).
Proof. apply keeps_wf_update. Qed.
Lemma keeps_wf_duplicate x j : keeps_wf (lift_op (duplicate_shape x j)).
Proof. apply keeps_wf_update. Qed.

Lemma keeps_wf_forM {A} (l : list A) (f : A → HostM unit) :
  (∀ a, keeps_wf (f a)) → keeps_wf (forM_ l f).
Proof. apply keeps_forM. Qed.

Lemma keeps_wf_mapH {A B} (f : A → HostM B) (l : list A) :
  (∀ a, keeps_wf (f a)) → keeps_wf (mapH f l).
Proof. apply keeps_mapH. Qed.

#[export] Hint Resolve keeps_wf_ret keeps_wf_bind keeps_wf_get keeps_wf_lift_opt
  keeps_wf_modify_move keeps_wf_update keeps_wf_set_text keeps_wf_append_para
  keeps_wf_duplicate keeps_wf_forM keeps_wf_mapH : host_wf.

(** ** [findIndex] as stdpp's [list_find] *)

Lemma slide_pos_find x p : slide_pos x p = fst <$> list_find (λ s, sid s = x) (pslides p).
Proof.
  unfold slide_pos. destruct p as [l n]. simpl. clear n.
  induction l as [|s l IH]; simpl; [done|].
  destruct (decide (sid s = x)) as [<-|Hne].
  - rewrite (bool_decide_eq_true_2 (sid s = sid s)) by done.
    by rewrite bool_decide_eq_true_2 by lia.
  - rewrite (bool_decide_eq_false_2 (x = sid s)) by congruence.
    change (fmap sid l) with (list_fmap PSlide nat sid l) in IH.
    destruct (list_find _ l) as [[i y]|]; simpl in *; revert IH;
      do 2 case_bool_decide; intros IH; simplify_eq; first [done | lia].
Qed.

(** [getSlideIndexByObjectId_] is [slides.findIndex(...)], stdpp's
    [list_find] on the slides, with [-1] (no slide has the id) mapped to
    [0]. *)
Theorem getSlideIndexByObjectId_findIndex p oid :
  getSlideIndexByObjectId_ p oid =
    match list_find (λ s, sid s = oid) (pslides p) with Some (i, _) => i | None => 0 end.
Proof.
  unfold getSlideIndexByObjectId_. rewrite slide_pos_find.
  by destruct (list_find _ _) as [[i y]|].
Qed.
