(* ===== verification/Render.v ===== *)
(** The renderer of the markdown path: [insertCodeBlockText_]
    ([src/code.js] lines 305-327) and [createSlidesFromMarkdown]
    ([src/code2.js] lines 11-65), run in the script monad [HostM] of
    [Host.v] on a concrete presentation.

    The theme's number of placeholders per layout is the section variable
    [placeholders]; the theorems state what they need of it.  Where the
    theme puts the placeholders is not modelled; the left position and
    width the code box gets, and the style of its paragraphs, are. *)

From S2P Require Import Prelude JsString ParserState DeckAssembler StateM Host.
From Stdlib Require Import ZArith.

(** [codeblock.replace(/(\n)+/g, '\n')]: every run of newlines becomes one
    newline; [prev] says the previous character was a newline of the run. *)
Fixpoint collapse_newlines_from (prev : bool) (s : str) : str :=
  match s with
  | [] => []
  | c :: r =>
      if bool_decide (c = LF) then
        if prev then collapse_newlines_from true r else LF :: collapse_newlines_from true r
      else c :: collapse_newlines_from false r
  end.

Definition collapse_newlines (s : str) : str := collapse_newlines_from false s.

(** [code.split("\n")] *)
Definition code_lines (codeblock : str) : list str := split_on LF (collapse_newlines codeblock).

(** [textsLen > 20 ? 8 : 12] *)
Definition code_font_size (n : nat) : nat := if bool_decide (20 < n) then 8 else 12.

(** [getParagraphStyle().setSpaceBelow(0).setLineSpacing(110)] and
    [getTextStyle().setFontSize(fontSize).setFontFamily("Courier")]. *)
Definition code_style (fontSize : nat) : CodeStyle := mkCodeStyle 0 110 fontSize (js "Courier").

(** The number of shapes of slide [x]. *)
Definition shape_count (x : nat) (p : Pres) : option nat := length <$> shapes_of x p.

(** JavaScript truthiness of an optional string: [null] and [""] are
    false. *)
Definition truthy (o : option str) : option str :=
  match o with Some (c :: r) => Some (c :: r) | _ => None end.

(** [insertCodeBlockText_(codeblock, slide)] on the slide with id [x]:
    nothing when the code has at most one line; otherwise the body shape
    ([getShapes()[1]]) is duplicated, the copy (the last shape, index
    [j]) is moved to left 200 and given width 500, and every line is
    appended to it as a paragraph of style [code_style] (Courier of size
    [code_font_size], no space below, line spacing 110). *)
Definition insertCodeBlockText_ (codeblock : str) (x : nat) : HostM unit :=
  let texts := code_lines codeblock in
  if bool_decide (length texts ≤ 1) then mret tt else
  let fontSize := code_font_size (length texts) in
  p ← get_pres;
  j ← lift_opt (shape_count x p);
  _ ← lift_op (duplicate_shape x 1);
  _ ← lift_op (set_left x j 200);
  _ ← lift_op (set_width x j 500);
  forM_ texts (λ text, lift_op (append_para x j (mkPara text (CodePara (code_style fontSize))))).

(** What [insertCodeBlockText_] does to the shapes of a slide, at once. *)
Definition code_box (texts : list str) (fontSize : nat) (shs : list Shape) : option (list Shape) :=
  body ← shs !! 1;
  Some (shs ++ [mkShape (paras body ++ map (λ t, mkPara t (CodePara (code_style fontSize))) texts)
                        (Some 200) (Some 500)]).

(** The paragraphs the renderer gives a slide: the title in shape 0, the
    points as bullets in shape 1, the other placeholders empty, and when the
    code has two lines or more a last shape holding a copy of shape 1
    followed by the code. *)
Definition bullet_paras (ps : list str) : list Para := map (λ t, mkPara t BulletPara) ps.

Definition code_paras (texts : list str) : list Para :=
  map (λ t, mkPara t (CodePara (code_style (code_font_size (length texts))))) texts.

Definition rendered_shapes (n : nat) (sd : Slide) : list Shape :=
  let body := bullet_paras (s_points sd) in
  let base := text_shape (text_paras (s_title sd)) :: text_shape body ::
              replicate (n - 2) (text_shape []) in
  match truthy (s_code sd) with
  | Some c =>
      if bool_decide (length (code_lines c) ≤ 1) then base
      else base ++ [mkShape (body ++ code_paras (code_lines c)) (Some 200) (Some 500)]
  | None => base
  end.

Section Renderer.
Context (placeholders : Layout → nat).

(** [presentation.appendSlide(layout)] in the script monad. *)
Definition host_append (l : Layout) : HostM nat :=
  λ p, let '(x, p') := append_slide placeholders l p in (Some x, p').

(** The layout of a slide: [slideData.sectionHeader ? SECTION_HEADER :
    TITLE_AND_BODY]. *)
Definition layout_of (sd : Slide) : Layout :=
  if s_sectionHeader sd then SECTION_HEADER else TITLE_AND_BODY.

(** The body of [parsedData.slides.forEach(slideData => ...)]: a slide in
    the section-header or title-and-body layout, its title in shape 0, each
    point appended to shape 1 with the bullet preset, then the code if it
    is a non-empty string.  Returns the id of the slide ([addedSlides]). *)
Definition render_slide (sd : Slide) : HostM nat :=
  x ← host_append (layout_of sd);
  _ ← lift_op (set_text x 0 (s_title sd));
  _ ← forM_ (s_points sd) (λ point, lift_op (append_para x 1 (mkPara point BulletPara)));
  _ ← match truthy (s_code sd) with
      | Some c => insertCodeBlockText_ c x
      | None => mret tt
      end;
  mret x.

(** [slideIndex]: the index of the selected page, or when reading the
    selection throws ([None]) the index of the last slide, [-1] for an
    empty presentation. *)
Definition selected_index (sel : option nat) (p : Pres) : Z :=
  match sel with
  | Some oid => Z.of_nat (getSlideIndexByObjectId_ p oid)
  | None => (Z.of_nat (length (pslides p)) - 1)%Z
  end.

(** [createSlidesFromMarkdown(markdown)] with the id of the selected page
    [sel]. *)
Definition createSlidesFromMarkdown (markdown : str) (sel : option nat) : HostM unit :=
  parsedData ← lift_opt (parseMarkdownToSlides markdown);
  p ← get_pres;
  let slideIndex := selected_index sel p in
  titleSlide ← host_append TITLE;
  _ ← lift_op (set_text titleSlide 0 (deck_title parsedData));
  added ← mapH render_slide (deck_slides parsedData);
  modify (move_all (titleSlide :: added) (Z.to_nat (slideIndex + 1))).

End Renderer.

(** ** Inserting paragraphs and code *)

Lemma forM_append_para x j (F : str → Para) ts p shs q :
  shapes_of x p = Some shs → shs !! j = Some q →
  forM_ ts (λ t, lift_op (append_para x j (F t))) p =
  lift_op (update_shapes x (λ shs', Some (<[j := with_paras (paras q ++ map F ts) q]> shs'))) p.
Proof.
  revert p shs q. induction ts as [|t ts IH]; intros p shs q Hx Hq; simpl.
  - symmetry. apply lift_op_Some. rewrite (update_shapes_ext _ _ (λ _, Some shs)).
    + by apply update_shapes_id.
    + intros shs' Hx'. rewrite Hx in Hx'. injection Hx' as <-. rewrite app_nil_r.
      destruct q. by rewrite list_insert_id.
  - set (q1 := with_paras (paras q ++ [F t]) q).
    destruct (update_shapes_is_Some x (λ shs, sh ← shs !! j; Some (<[j := with_paras (paras sh ++ [F t]) sh]> shs))
                p shs (<[j := q1]> shs)) as (p1 & Hp1 & Hx1 & _); [done|by rewrite Hq|].
    rewrite (bind_lift_op_Some (append_para x j (F t)) _ _ p1) by exact Hp1. cbv beta.
    rewrite (IH p1 (<[j := q1]> shs) q1); [|done|].
    + apply (lift_op_update_compose _ _ _ _ _ _ shs Hp1 Hx); [by eexists|].
      rewrite Hq. simpl. by rewrite list_insert_insert_eq, <-app_assoc.
    + apply list_lookup_insert_eq. by eapply lookup_lt_Some.
Qed.

Lemma lift_op_None f p : f p = None → lift_op f p = (None, p).
Proof. unfold lift_op. by intros ->. Qed.

(** [insertCodeBlockText_] on code of at least two lines. *)
Lemma insertCodeBlockText_long c x p :
  1 < length (code_lines c) →
  insertCodeBlockText_ c x p =
  lift_op (update_shapes x (code_box (code_lines c) (code_font_size (length (code_lines c))))) p.
Proof.
  intros Hlen. unfold insertCodeBlockText_. rewrite bool_decide_eq_false_2 by lia.
  rewrite bind_get_pres. unfold shape_count. rewrite bind_lift_opt.
  destruct (shapes_of x p) as [shs|] eqn:Hx; simpl.
  2: { symmetry. by apply lift_op_None, update_shapes_None. }
  destruct (shs !! 1) as [body|] eqn:Hb.
  2: { unfold duplicate_shape. rewrite bind_lift_op_None by (eapply update_shapes_fail; [done|by rewrite Hb]).
       symmetry. apply lift_op_None. eapply update_shapes_fail; [done|]. unfold code_box. by rewrite Hb. }
  destruct (update_shapes_is_Some x (λ shs, sh ← shs !! 1; Some (shs ++ [sh])) p shs (shs ++ [body]))
    as (p1 & Hp1 & Hx1 & _); [done|by rewrite Hb|].
  rewrite (bind_lift_op_Some (duplicate_shape x 1) _ _ p1) by exact Hp1. cbv beta.
  set (box1 := mkShape (paras body) (Some 200) (swidth body)).
  destruct (update_shapes_is_Some x
              (λ s0, sh ← s0 !! length shs; Some (<[length shs := mkShape (paras sh) (Some 200) (swidth sh)]> s0))
              p1 (shs ++ [body]) (shs ++ [box1])) as (p2 & Hp2 & Hx2 & _);
    [done|simpl; rewrite list_lookup_middle by done; simpl; by rewrite insert_app_length|].
  rewrite (bind_lift_op_Some (set_left x (length shs) 200) _ _ p2) by exact Hp2. cbv beta.
  set (box := mkShape (paras body) (Some 200) (Some 500)).
  destruct (update_shapes_is_Some x
              (λ s0, sh ← s0 !! length shs; Some (<[length shs := mkShape (paras sh) (sleft sh) (Some 500)]> s0))
              p2 (shs ++ [box1]) (shs ++ [box])) as (p3 & Hp3 & Hx3 & _);
    [done|simpl; rewrite list_lookup_middle by done; simpl; by rewrite insert_app_length|].
  rewrite (bind_lift_op_Some (set_width x (length shs) 500) _ _ p3) by exact Hp3. cbv beta.
  rewrite (forM_append_para _ _ _ _ _ _ box Hx3) by by rewrite list_lookup_middle.
  unfold lift_op.
  rewrite (update_shapes_compose _ _ _ _ _ Hp3), (update_shapes_compose _ _ _ _ _ Hp2),
    (update_shapes_compose _ _ _ _ _ Hp1).
  erewrite (update_shapes_ext x _ (code_box _ _)).
  - destruct (update_shapes_is_Some x (code_box (code_lines c) (code_font_size (length (code_lines c))))
                p shs (shs ++ [mkShape (paras body ++ map (λ t, mkPara t (CodePara (code_style
                   (code_font_size (length (code_lines c)))))) (code_lines c)) (Some 200) (Some 500)]) Hx)
      as (p4 & Hp4 & _); [unfold code_box; by rewrite Hb|].
    by rewrite Hp4.
  - intros shs' Hx'. rewrite Hx in Hx'. injection Hx' as <-. unfold code_box. simpl. rewrite Hb. simpl.
    rewrite list_lookup_middle by done. simpl. rewrite insert_app_length.
    rewrite list_lookup_middle by done. simpl. rewrite insert_app_length. by rewrite insert_app_length.
Qed.

Lemma collapse_no_lf b s : LF ∉ s → collapse_newlines_from b s = s.
Proof.
  revert b. induction s as [|c r IH]; intros b Hs; [done|]. simpl.
  rewrite bool_decide_eq_false_2 by (intros ->; apply Hs; left).
  rewrite IH; [done|]. intros H. apply Hs. by right.
Qed.

Lemma insertCodeBlockText_short c x p :
  length (code_lines c) ≤ 1 → insertCodeBlockText_ c x p = (Some tt, p).
Proof. intros H. unfold insertCodeBlockText_. by rewrite bool_decide_eq_true_2. Qed.

(** Code without a newline is never rendered. *)
Lemma insertCodeBlockText_one_line c x p :
  LF ∉ c → insertCodeBlockText_ c x p = (Some tt, p).
Proof.
  intros Hc. apply insertCodeBlockText_short.
  unfold code_lines, collapse_newlines. by rewrite collapse_no_lf, split_on_single.
Qed.

(** C9: [insertCodeBlockText_] on code of at least two lines (after
    runs of newlines are collapsed) adds to the slide one shape, at left
    200 with width 500: a copy of the body shape [getShapes()[1]], with
    its paragraphs, followed by the lines as code paragraphs (Courier, size 12, or 8 beyond 20 lines, no
    space below, line spacing 110); it throws, changing nothing, when the slide
    has no shape at index 1.  Code without a newline is never rendered:
    [insertCodeBlockText_] returns at [textsLen <= 1] and the presentation
    is unchanged; the parser stores [codeBuffer.trim()], so a fenced
    block of one line gives such code. *)
Theorem insertCodeBlockText_spec c x p :
  (1 < length (code_lines c) →
   insertCodeBlockText_ c x p =
   lift_op (update_shapes x (code_box (code_lines c) (code_font_size (length (code_lines c))))) p) ∧
  (LF ∉ c → insertCodeBlockText_ c x p = (Some tt, p)).
Proof. split; [apply insertCodeBlockText_long|apply insertCodeBlockText_one_line]. Qed.

(** ** Rendering one slide *)

Lemma bind_host_append {B} pl l (k : nat → HostM B) p :
  (host_append pl l ≫= k) p =
  k (next_id p) (mkPres (pslides p ++ [mkPSlide (next_id p) l (replicate (pl l) (text_shape []))]) (S (next_id p))).
Proof. done. Qed.

Lemma render_slide_run pl sd p :
  2 ≤ pl (layout_of sd) → next_id p ∉ slide_order p →
  render_slide pl sd p =
  (Some (next_id p),
   mkPres (pslides p ++ [mkPSlide (next_id p) (layout_of sd) (rendered_shapes (pl (layout_of sd)) sd)])
          (S (next_id p))).
Proof.
  intros Hpl Hfresh. simpl in Hfresh. unfold render_slide, rendered_shapes.
  rewrite bind_host_append.
  destruct (pl (layout_of sd)) as [|[|m]]; [lia|lia|]. simpl. rewrite Nat.sub_0_r.
  set (L := layout_of sd). set (n := next_id p). set (old := pslides p).
  set (shs1 := text_shape (text_paras (s_title sd)) :: text_shape [] :: replicate m (text_shape [])).
  rewrite (bind_lift_op_Some _ _ _ (mkPres (old ++ [mkPSlide n L shs1]) (S n)))
    by (by apply update_shapes_last). cbv beta.
  set (shs2 := text_shape (text_paras (s_title sd)) :: text_shape (bullet_paras (s_points sd)) ::
              replicate m (text_shape [])).
  rewrite (ste_bind_Some _ _ _ tt (mkPres (old ++ [mkPSlide n L shs2]) (S n))).
  2: { rewrite (forM_append_para _ _ _ _ _ shs1 (text_shape [])); [|by apply shapes_of_last|done].
       by apply lift_op_Some, update_shapes_last. }
  cbv beta. destruct (truthy (s_code sd)) as [c|]; [|done].
  case_bool_decide as Hc.
  - rewrite (ste_bind_Some _ _ _ tt (mkPres (old ++ [mkPSlide n L shs2]) (S n))); [done|].
    by apply insertCodeBlockText_short.
  - rewrite (ste_bind_Some _ _ _ tt (mkPres (old ++ [mkPSlide n L (shs2 ++ [mkShape (bullet_paras (s_points sd) ++ code_paras (code_lines c)) (Some 200) (Some 500)])]) (S n))); [done|].
    rewrite insertCodeBlockText_long by lia. by apply lift_op_Some, update_shapes_last.
Qed.

(** C8: [render_slide] on a layout with at least two placeholders and a
    fresh slide id appends exactly one slide, whose shapes are
    [rendered_shapes]: title, bullets, and for code of two lines or more
    a code box that starts with a copy of the bullets. *)
Theorem render_slide_spec pl sd p :
  2 ≤ pl (layout_of sd) → next_id p ∉ slide_order p →
  render_slide pl sd p =
  (Some (next_id p),
   mkPres (pslides p ++ [mkPSlide (next_id p) (layout_of sd) (rendered_shapes (pl (layout_of sd)) sd)])
          (S (next_id p))).
Proof. apply render_slide_run. Qed.

(** C28: With a theme whose section-header layout has a single
    placeholder, a section-header slide with code of two lines or more
    makes the renderer throw: [insertCodeBlockText_] reads
    [getShapes()[1]], which is [undefined].  The slide already appended,
    with its title, stays in the presentation. *)
Theorem render_section_header_code_throws pl sd c p :
  pl SECTION_HEADER = 1 → s_sectionHeader sd = true → s_points sd = [] →
  s_code sd = Some c → 1 < length (code_lines c) → next_id p ∉ slide_order p →
  render_slide pl sd p =
  (None, mkPres (pslides p ++ [mkPSlide (next_id p) SECTION_HEADER [text_shape (text_paras (s_title sd))]])
                (S (next_id p))).
Proof.
  intros Hpl Hsh Hpts Hcode Hlen Hfresh. simpl in Hfresh.
  unfold render_slide, layout_of. rewrite Hsh, bind_host_append, Hpl, Hpts, Hcode.
  set (p1 := mkPres (pslides p ++ [mkPSlide (next_id p) SECTION_HEADER [text_shape (text_paras (s_title sd))]])
                    (S (next_id p))).
  rewrite (bind_lift_op_Some _ _ _ p1) by (by apply update_shapes_last). cbv beta.
  rewrite (ste_bind_Some _ _ _ tt p1) by done. cbv beta.
  destruct c as [|ch r]; [vm_compute in Hlen; lia|]. simpl.
  rewrite (ste_bind_None _ _ _ p1); [done|].
  rewrite insertCodeBlockText_long by done.
  apply lift_op_None. eapply update_shapes_fail; [by apply shapes_of_last|done].
Qed.

Lemma render_section_header_code_throws_witness :
  let sd := mkSlide (js "B") [] (Some (js "x" ++ [LF] ++ js "y")) true in
  let pl := λ l, match l with SECTION_HEADER => 1 | _ => 2 end in
  render_slide pl sd (mkPres [] 0) =
  (None, mkPres [mkPSlide 0 SECTION_HEADER [text_shape (text_paras (js "B"))]] 1).
Proof.
  intros sd pl. apply (render_section_header_code_throws pl sd (js "x" ++ [LF] ++ js "y") (mkPres [] 0));
    [done|done|done|done|vm_compute; lia|apply not_elem_of_nil].
Defined.

(** ** The whole run *)

Lemma render_slide_appends pl :
  2 ≤ pl TITLE_AND_BODY → 2 ≤ pl SECTION_HEADER → appends_one (render_slide pl).
Proof.
  intros H1 H2 sd p Hf.
  assert (Hl : 2 ≤ pl (layout_of sd)) by (unfold layout_of; by destruct (s_sectionHeader sd)).
  eexists _, _. exact (render_slide_run _ _ _ Hl (fresh_ids_notin _ Hf)).
Qed.

Lemma selected_index_bound sel p :
  pslides p ≠ [] → Z.to_nat (selected_index sel p + 1) ≤ length (pslides p).
Proof.
  intros Hne. destruct sel as [oid|]; simpl.
  - pose proof (getSlideIndexByObjectId_lt p oid Hne). lia.
  - lia.
Qed.



(** The common tail of both renderers: a title slide, one slide per
    item, then the moves to index [k]. *)
Lemma title_slides_then_move {A} pl (act : A → HostM nat) title xs k p :
  appends_one act → 1 ≤ pl TITLE → NoDup (slide_order p) → fresh_ids p → k ≤ length (pslides p) →
  ∃ p', (titleSlide ← host_append pl TITLE;
         _ ← lift_op (set_text titleSlide 0 title);
         added ← mapH act xs;
         modify (move_all (titleSlide :: added) k)) p = (Some tt, p') ∧
    slide_order p' = take k (slide_order p) ++ seq (next_id p) (S (length xs)) ++ drop k (slide_order p).
Proof.
  intros Hact Ht Hnd Hf Hk. rewrite bind_host_append.
  set (n := next_id p). set (shs := <[0 := text_shape (text_paras title)]> (replicate (pl TITLE) (text_shape []))).
  rewrite (bind_lift_op_Some _ _ _ (mkPres (pslides p ++ [mkPSlide n TITLE shs]) (S n))).
  2: { apply update_shapes_last; [by apply fresh_ids_notin|]. by rewrite lookup_replicate_2 by lia. }
  cbv beta.
  destruct (mapH_appends _ Hact xs _ (fresh_ids_append p TITLE shs Hf)) as (p2 & Hrun & Hord & _).
  rewrite (ste_bind_Some _ _ _ _ _ Hrun). eexists. split; [reflexivity|].
  simpl in Hord. rewrite fmap_app, <-app_assoc in Hord. simpl in Hord.
  apply move_all_placement; [exact Hord| |].
  - by apply NoDup_app_seq.
  - simpl. by rewrite length_fmap.
Qed.

(** C4: [createSlidesFromMarkdown] on a theme whose layouts have their
    title and body placeholders, and a presentation with distinct slide
    ids, succeeds and inserts the title slide and one slide per parsed
    slide, in order, right after the selected slide (after the last slide
    when the selection cannot be read); the other slides keep their
    order. *)
Theorem createSlidesFromMarkdown_placement pl md sel p d :
  parseMarkdownToSlides md = Some d →
  1 ≤ pl TITLE → 2 ≤ pl TITLE_AND_BODY → 2 ≤ pl SECTION_HEADER →
  NoDup (slide_order p) → fresh_ids p → pslides p ≠ [] →
  ∃ p', createSlidesFromMarkdown pl md sel p = (Some tt, p') ∧
    slide_order p' =
      take (Z.to_nat (selected_index sel p + 1)) (slide_order p) ++
      seq (next_id p) (S (length (deck_slides d))) ++
      drop (Z.to_nat (selected_index sel p + 1)) (slide_order p).
Proof.
  intros Hd Ht Hb Hs Hnd Hf Hne.
  unfold createSlidesFromMarkdown. rewrite bind_lift_opt, Hd, bind_get_pres.
  apply (title_slides_then_move _ _ _ _ _ _ (render_slide_appends _ Hb Hs)); [done..|].
  by apply selected_index_bound.
Qed.

(** ** Well-formedness *)

Lemma keeps_wf_host_append pl l : keeps_wf (host_append pl l).
Proof. intros p Hp. exact (pres_wf_append pl l p Hp). Qed.

#[export] Hint Resolve keeps_wf_host_append : host_wf.

Lemma keeps_wf_insertCodeBlockText_ c x : keeps_wf (insertCodeBlockText_ c x).
Proof. unfold insertCodeBlockText_. case_bool_decide; eauto 10 with host_wf. Qed.

#[export] Hint Resolve keeps_wf_insertCodeBlockText_ : host_wf.

Lemma keeps_wf_render_slide pl sd : keeps_wf (render_slide pl sd).
Proof. unfold render_slide. destruct (truthy (s_code sd)); eauto 10 with host_wf. Qed.

#[export] Hint Resolve keeps_wf_render_slide : host_wf.

(** [createSlidesFromMarkdown] keeps slide ids distinct and below
    [next_id], when it throws as well. *)
Lemma keeps_wf_createSlidesFromMarkdown pl md sel : keeps_wf (createSlidesFromMarkdown pl md sel).
Proof. unfold createSlidesFromMarkdown. eauto 10 with host_wf. Qed.

(** ** Witnesses *)

Lemma insertCodeBlockText_spec_witness :
  insertCodeBlockText_ (js "a" ++ [LF; LF] ++ js "b") 0 (mkPres [mkPSlide 0 TITLE_AND_BODY [text_shape []; text_shape []]] 1) =
  lift_op (update_shapes 0 (code_box [js "a"; js "b"] 12)) (mkPres [mkPSlide 0 TITLE_AND_BODY [text_shape []; text_shape []]] 1) ∧
  insertCodeBlockText_ (js "print(1)") 0 (mkPres [] 0) = (Some tt, mkPres [] 0).
Proof.
  split.
  - apply (proj1 (insertCodeBlockText_spec (js "a" ++ [LF; LF] ++ js "b") 0 _)). vm_compute. lia.
  - apply (proj2 (insertCodeBlockText_spec (js "print(1)") 0 _)).
    apply (bool_decide_unpack _). vm_compute. exact I.
Defined.

Lemma render_slide_spec_witness :
  let sd := mkSlide (js "A") [js "x"] (Some (js "a" ++ [LF] ++ js "b")) false in
  render_slide (λ _, 2) sd (mkPres [] 0) =
  (Some 0, mkPres [mkPSlide 0 TITLE_AND_BODY (rendered_shapes 2 sd)] 1).
Proof. intros sd. apply (render_slide_spec (λ _, 2) sd (mkPres [] 0)); [done|apply not_elem_of_nil]. Defined.

Lemma createSlidesFromMarkdown_placement_witness :
  let p := mkPres [mkPSlide 0 TITLE_AND_BODY [text_shape []; text_shape []]; mkPSlide 1 TITLE_AND_BODY [text_shape []; text_shape []]] 2 in
  ∃ p', createSlidesFromMarkdown (λ _, 2) (js "# T" ++ [LF] ++ js "## A") (Some 0) p = (Some tt, p') ∧
    slide_order p' =
      take (Z.to_nat (selected_index (Some 0) p + 1)) (slide_order p) ++
      seq (next_id p) (S (length (deck_slides (mkDeck (js "T") [mkSlide (js "A") [] None true])))) ++
      drop (Z.to_nat (selected_index (Some 0) p + 1)) (slide_order p).
Proof.
  intros p. apply createSlidesFromMarkdown_placement.
  - vm_compute. reflexivity.
  - lia.
  - lia.
  - lia.
  - apply (bool_decide_unpack _). vm_compute. exact I.
  - intros y Hy. simpl in *. repeat (apply elem_of_cons in Hy as [->|Hy]; [lia|]).
    by apply not_elem_of_nil in Hy.
  - discriminate.
Defined.
