(* ===== verification/RenderExamples.v ===== *)
(** End-to-end runs of [createSlidesFromMarkdown] on inputs where the
    renderer does something else than its comments say, on a theme whose
    section-header layout holds only a title placeholder
    ([section_title_only]) and a presentation with one slide.  Each
    theorem is proved by evaluating the model. *)

From S2P Require Import Prelude JsString ParserState DeckAssembler ParserExamples StateM Host Render.

(** A theme in which [SECTION_HEADER] has only its title placeholder. *)
Definition section_title_only (l : Layout) : nat :=
  match l with TITLE => 2 | TITLE_AND_BODY => 2 | SECTION_HEADER => 1 end.

Definition one_slide : Pres := mkPres [mkPSlide 0 TITLE_AND_BODY [text_shape []; text_shape []]] 1.

Definition title_para (s : String.string) : Shape := text_shape (text_paras (js s)).

(** A slide with both points and a code block gets a code box that
    repeats its bullet points: [insertCodeBlockText_] duplicates the body
    shape after [createSlidesFromMarkdown] has filled it. *)
Example code_box_repeats_points :
  createSlidesFromMarkdown section_title_only
    (md ["# T"; "# A"; "- x"; "```"; "a"; "b"; "```"]%string) None one_slide =
  (Some tt,
   mkPres [mkPSlide 0 TITLE_AND_BODY [text_shape []; text_shape []];
           mkPSlide 1 TITLE [title_para "T"; text_shape []];
           mkPSlide 2 TITLE_AND_BODY
             [title_para "A"; text_shape [mkPara (js "x") BulletPara];
              mkShape [mkPara (js "x") BulletPara; mkPara (js "a") (CodePara (code_style 12));
                       mkPara (js "b") (CodePara (code_style 12))] (Some 200) (Some 500)]] 3).
Proof. vm_compute. reflexivity. Qed.

(** A section-header slide with code of two lines makes the run
    throw ([getShapes()[1]] is [undefined]); the title slide and the
    section-header slide appended before the exception stay at the end of
    the presentation, not after the selected slide. *)
Example section_header_code_aborts_run :
  createSlidesFromMarkdown section_title_only
    (md ["# T"; "# B"; "```"; "x"; "y"; "```"]%string) (Some 0)
    (mkPres [mkPSlide 0 TITLE_AND_BODY [text_shape []; text_shape []];
            mkPSlide 1 TITLE_AND_BODY [text_shape []; text_shape []]] 2) =
  (None,
   mkPres [mkPSlide 0 TITLE_AND_BODY [text_shape []; text_shape []];
           mkPSlide 1 TITLE_AND_BODY [text_shape []; text_shape []];
           mkPSlide 2 TITLE [title_para "T"; text_shape []];
           mkPSlide 3 SECTION_HEADER [title_para "B"]] 4).
Proof. vm_compute. reflexivity. Qed.

(** A fenced block of one line is parsed into the slide's [code] but
    never reaches the presentation. *)
Example one_line_code_not_rendered :
  parseMarkdownToSlides (md ["# T"; "# A"; "- x"; "```"; "print(1)"; "```"]%string) =
    Some (mkDeck (js "T") [mkSlide (js "A") [js "x"] (Some (js "print(1)")) false]) ∧
  createSlidesFromMarkdown section_title_only
    (md ["# T"; "# A"; "- x"; "```"; "print(1)"; "```"]%string) None one_slide =
  (Some tt,
   mkPres [mkPSlide 0 TITLE_AND_BODY [text_shape []; text_shape []];
           mkPSlide 1 TITLE [title_para "T"; text_shape []];
           mkPSlide 2 TITLE_AND_BODY [title_para "A"; text_shape [mkPara (js "x") BulletPara]]] 3).
Proof. split; vm_compute; reflexivity. Qed.
