(* ===== verification/MarkdownShown.v ===== *)
(** The markdown path end to end: the parser ([code2.js]
    [parseMarkdownToSlides]) composed with the renderer
    [createSlidesFromMarkdown] (lines 11-65).

    [ContentDelivery] shows that every content line of a text without
    [---] lines reaches the deck; [Render] shows which shapes each parsed
    slide gets and that the final moves only reorder the slides.  Together:
    the text of every such line is the text of a paragraph of a slide the
    script added to the presentation. *)

From S2P Require Import Prelude JsString StateM LineClassifier ParserState ModeController.
From S2P Require Import DeckAssembler ContentDelivery Host Render.
From Stdlib Require Import ZArith.

(** The texts of the paragraphs of a slide, shape by shape. *)
Definition para_texts (s : PSlide) : list str := map ptext (concat (map paras (sshapes s))).

(** [t] is shown by a slide added to [p]: a slide of [p'] whose id was
    not yet given out in [p] holds a paragraph of text [t]. *)
Definition shown (p p' : Pres) (t : str) : Prop :=
  ∃ s, s ∈ pslides p' ∧ next_id p ≤ sid s ∧ t ∈ para_texts s.

(** ** The texts of a rendered slide *)

Lemma para_texts_in shs sh q : sh ∈ shs → q ∈ paras sh → ptext q ∈ map ptext (concat (map paras shs)).
Proof.
  intros Hsh Hq. apply list_elem_of_In, in_map, in_concat. exists (paras sh).
  split; [apply in_map|]; by apply list_elem_of_In.
Qed.

Lemma rendered_base n sd sh :
  sh ∈ text_shape (text_paras (s_title sd)) :: text_shape (bullet_paras (s_points sd)) ::
       replicate (n - 2) (text_shape []) →
  sh ∈ rendered_shapes n sd.
Proof.
  unfold rendered_shapes. intros H. destruct (truthy (s_code sd)); [|done].
  case_bool_decide; [done|]. apply elem_of_app. by left.
Qed.

(** The texts the lines bring are pieces of the lines. *)
Lemma content_items_free (P : char → Prop) b tt lines :
  Forall (Forall P) lines → Forall (Forall P) (content_items b tt lines).
Proof.
  revert b tt. induction lines as [|l ls IH]; intros b tt Hl; [constructor|].
  apply Forall_cons in Hl as [Hl0 Hls]. simpl.
  pose proof (classify_text P l) as Hc.
  destruct (classify l); simpl in Hc; repeat case_match; auto; constructor; auto; by apply (Hc _ Hl0).
Qed.

(** A text without newline set by [setText] is one paragraph. *)
Lemma text_paras_one t : LF ∉ t → text_paras t = [mkPara t PlainPara].
Proof. intros Ht. unfold text_paras. by rewrite split_on_single. Qed.

(** The title and every point of a parsed slide, when it holds no
    newline, are paragraphs of the shapes the renderer gives it. *)
Lemma rendered_texts n sd t :
  LF ∉ t → t ∈ slide_texts sd → t ∈ map ptext (concat (map paras (rendered_shapes n sd))).
Proof.
  intros HLF [->|Ht]%elem_of_cons.
  - apply (para_texts_in _ (text_shape (text_paras (s_title sd))) (mkPara (s_title sd) PlainPara));
      [apply rendered_base; by left|simpl; rewrite text_paras_one by done; by left].
  - apply (para_texts_in _ (text_shape (bullet_paras (s_points sd))) (mkPara t BulletPara)).
    + apply rendered_base. right. by left.
    + apply list_elem_of_In, (in_map (λ t, mkPara t BulletPara)), list_elem_of_In, Ht.
Qed.

(** ** The slide loop and the moves *)

Lemma mapH_render_slides pl ss p :
  2 ≤ pl TITLE_AND_BODY → 2 ≤ pl SECTION_HEADER → fresh_ids p →
  ∃ ids p', mapH (render_slide pl) ss p = (Some ids, p') ∧
    (∀ s, s ∈ pslides p → s ∈ pslides p') ∧
    ∀ sd, sd ∈ ss → ∃ s, s ∈ pslides p' ∧ next_id p ≤ sid s ∧
                         sshapes s = rendered_shapes (pl (layout_of sd)) sd.
Proof.
  intros Hb Hs. revert p. induction ss as [|sd ss IH]; intros p Hf.
  { exists [], p. split_and!; [done|done|]. intros sd Hsd. by apply not_elem_of_nil in Hsd. }
  assert (Hl : 2 ≤ pl (layout_of sd)) by (unfold layout_of; by destruct (s_sectionHeader sd)).
  set (s1 := mkPSlide (next_id p) (layout_of sd) (rendered_shapes (pl (layout_of sd)) sd)).
  destruct (IH (mkPres (pslides p ++ [s1]) (S (next_id p)))) as (ids & p' & Hrun & Hold & Hnew).
  { apply fresh_ids_append, Hf. }
  exists (next_id p :: ids), p'. simpl.
  rewrite (ste_bind_Some _ _ _ _ _ (render_slide_run _ _ _ Hl (fresh_ids_notin _ Hf))).
  rewrite (ste_bind_Some _ _ _ _ _ Hrun). split_and!; [done| |].
  - intros s Hs'. apply Hold. simpl. apply elem_of_app. by left.
  - intros sd' [->|Hsd]%elem_of_cons.
    + exists s1. split_and!; [|simpl; lia|done]. apply Hold. simpl. apply elem_of_app. right. by left.
    + destruct (Hnew sd' Hsd) as (s & Hs' & Hid & Hsh). exists s. simpl in Hid. split_and!; [done|lia|done].
Qed.

Lemma pres_move_perm x k p : pslides (pres_move x k p) ≡ₚ pslides p.
Proof.
  unfold pres_move. destruct (slide_pos x p) as [i|]; [|done].
  destruct (pslides p !! i) as [s|] eqn:Hs; [|done]. simpl.
  rewrite insert_at_perm. symmetry. by apply delete_Permutation.
Qed.

Lemma move_all_perm added k p : pslides (move_all added k p) ≡ₚ pslides p.
Proof.
  unfold move_all. generalize (rev added). intros xs. revert p.
  induction xs as [|x xs IH]; intros p; [done|]. simpl.
  etransitivity; [apply IH|apply pres_move_perm].
Qed.

(** ** The composition *)

(** C13: The markdown path shows every content line: on a theme whose
    layouts have their title and body placeholders and a presentation
    whose slide ids are below the next id, [createSlidesFromMarkdown] on a
    text without [---] lines succeeds, and the text of every heading (but
    the one giving the deck title), bullet and plain line outside a
    fenced block is the text of a paragraph (a slide title or a bullet)
    of one of the slides the script added. *)
Theorem createSlidesFromMarkdown_shows_content pl md sel p :
  1 ≤ pl TITLE → 2 ≤ pl TITLE_AND_BODY → 2 ≤ pl SECTION_HEADER → fresh_ids p →
  (∀ line, line ∈ split_on LF md → classify line ≠ LSeparator) →
  ∃ p', createSlidesFromMarkdown pl md sel p = (Some tt, p') ∧
    ∀ t, t ∈ content_items false false (split_on LF md) → shown p p' t.
Proof.
  intros Ht Hb Hs Hf Hsep.
  destruct (run_lines_some init_state (split_on LF md) init_wf) as (st & Hr & Hwf).
  destruct (finish_some st Hwf) as (d & Hfin).
  assert (Hd : parseMarkdownToSlides md = Some d) by (unfold parseMarkdownToSlides; by rewrite Hr).
  unfold createSlidesFromMarkdown. rewrite bind_lift_opt, Hd, bind_get_pres, bind_host_append.
  set (n := next_id p). set (shs := <[0 := text_shape (text_paras (deck_title d))]> (replicate (pl TITLE) (text_shape []))).
  rewrite (bind_lift_op_Some _ _ _ (mkPres (pslides p ++ [mkPSlide n TITLE shs]) (S n))).
  2: { apply update_shapes_last; [by apply fresh_ids_notin|]. by rewrite lookup_replicate_2 by lia. }
  cbv beta.
  destruct (mapH_render_slides pl (deck_slides d) _ Hb Hs (fresh_ids_append p TITLE shs Hf))
    as (ids & p2 & Hrun & _ & Hin).
  rewrite (ste_bind_Some _ _ _ _ _ Hrun). eexists. split; [reflexivity|].
  intros t Ht'. pose proof (parse_delivers md d Hd Hsep t Ht') as Hdt.
  unfold deck_texts in Hdt. apply list_elem_of_In, in_concat in Hdt as (l & Hl & Htl).
  apply in_map_iff in Hl as (sd & <- & Hsd).
  destruct (Hin sd (proj2 (list_elem_of_In _ _) Hsd)) as (s & Hs' & Hid & Hsh).
  exists s. simpl in Hid. split_and!; [by rewrite move_all_perm|lia|].
  unfold para_texts. rewrite Hsh. apply rendered_texts; [|apply list_elem_of_In, Htl].
  assert (Hfree : Forall (Forall (λ c, c ≠ LF)) (content_items false false (split_on LF md))).
  { apply content_items_free, split_on_free, Forall_forall. intros c _. destruct (decide (c = LF)); auto. }
  rewrite Forall_forall in Hfree. intros HL. exact (proj1 (Forall_forall _ t) (Hfree t Ht') LF HL eq_refl).
Qed.

Lemma createSlidesFromMarkdown_shows_content_witness :
  let p := mkPres [mkPSlide 0 TITLE_AND_BODY [text_shape []; text_shape []]] 1 in
  ∃ p', createSlidesFromMarkdown (λ _, 2) delivery_md (Some 0) p = (Some tt, p') ∧
    ∀ t, t ∈ content_items false false (split_on LF delivery_md) → shown p p' t.
Proof.
  intros p. apply createSlidesFromMarkdown_shows_content; [lia|lia|lia| |apply delivery_md_no_separator].
  intros y Hy. simpl in Hy. apply elem_of_cons in Hy as [->|Hy]; [simpl; lia|by apply not_elem_of_nil in Hy].
Defined.
