(* ===== verification/Config.v ===== *)
(** The configuration of the add-on ([src/code.js] lines 1-5) and the
    number conversions the image request applies to it.

    The five constants are read once from the script properties;
    [getProperty] gives [null] for a missing key, and [x || d] falls back
    to [d] on [null] and on [""].  [IMAGE_MAX_WORDS] and
    [IMAGE_TEMPERATURE] stay strings: [getImagePrompt_] converts them with
    [Number.parseInt] and [Number.parseFloat] (lines 356-357), modelled
    here after ECMAScript 2023, 19.2.5 and 19.2.4, and [Math.round].

    A JavaScript number is [jsnum]: [NaN], an infinity or a finite value,
    kept exact as a rational.  The rounding to binary64 is not modelled:
    the model agrees with JavaScript on integers below 2^53 and on the
    decimal literals a temperature is written with. *)

From S2P Require Import Prelude JsString.
From Stdlib Require Import QArith Qround Qcanon Qabs.

(** ** JavaScript numbers *)

Inductive jsnum := JNaN | JInf (neg : bool) | JFin (q : Q).

(** Syntactic equality of rationals (numerator and denominator), not
    [Qeq]: the equality of the values the model computes. *)
#[export] Instance Q_eq_dec : EqDecision Q.
Proof. intros [a b] [c d]. destruct (decide (a = c)), (decide (b = d)); [left|right..]; congruence. Defined.

#[export] Instance jsnum_eq_dec : EqDecision jsnum.
Proof. solve_decision. Defined.

(** [a * b] *)
Definition js_mul (a b : jsnum) : jsnum :=
  match a, b with
  | JNaN, _ | _, JNaN => JNaN
  | JInf s, JInf t => JInf (xorb s t)
  | JInf s, JFin q | JFin q, JInf s =>
      if Qeq_bool q 0%Q then JNaN else JInf (xorb s (negb (Qle_bool 0%Q q)))
  | JFin p, JFin q => JFin (Qred (p * q)%Q)
  end.

(** [Math.round(x)]: the integer closest to [x], halves rounded up. *)
Definition js_round (a : jsnum) : jsnum :=
  match a with
  | JFin q => JFin (inject_Z (Qfloor (q + (1 # 2))%Q))
  | _ => a
  end.

(** ** Script properties *)

(** [PropertiesService.getScriptProperties().getProperty(key)]. *)
Definition Props := str → option str.

(** [v || d] on a string or [null]. *)
Definition or_default (v : option str) (d : str) : str :=
  match v with
  | Some s => if bool_decide (s = []) then d else s
  | None => d
  end.

Record Config := mkConfig {
  OPENAI_API_KEY : option str;
  OPENAI_MODEL : str;
  IMAGE_TEMPERATURE : str;
  IMAGE_MAX_WORDS : str;
  SHEET_ID : option str
}.

(** Lines 1-5. *)
Definition load_config (props : Props) : Config :=
  mkConfig (props (js "OPENAI_API_KEY"))
           (or_default (props (js "OPENAI_MODEL")) (js "gpt-3.5-turbo-16k"))
           (or_default (props (js "IMAGE_TEMPERATURE")) (js "0.5"))
           (or_default (props (js "IMAGE_MAX_WORDS")) (js "40"))
           (props (js "SHEET_ID")).

(** ** [Number.parseInt] *)

(** The value of a digit of radix up to 16: [0-9], [a-f], [A-F]. *)
Definition hex_digit (c : char) : option N :=
  if bool_decide (48 ≤ c ≤ 57)%N then Some (c - 48)%N
  else if bool_decide (97 ≤ c ≤ 102)%N then Some (c - 87)%N
  else if bool_decide (65 ≤ c ≤ 70)%N then Some (c - 55)%N
  else None.

Definition radix_digit (R : N) (c : char) : option N :=
  d ← hex_digit c; if bool_decide (d < R)%N then Some d else None.

(** The values of the longest prefix of radix-[R] digits. *)
Fixpoint take_radix_digits (R : N) (s : str) : list N :=
  match s with
  | [] => []
  | c :: r => match radix_digit R c with Some d => d :: take_radix_digits R r | None => [] end
  end.

(** The mathematical value of a digit sequence. *)
Definition digits_value (R : N) (ds : list N) : N := foldl (λ acc d, acc * R + d)%N 0%N ds.

(** An optional sign: [true] for [-]. *)
Definition parse_sign (s : str) : bool * str :=
  match s with
  | c :: r =>
      if bool_decide (c = 45%N) then (true, r)
      else if bool_decide (c = 43%N) then (false, r) else (false, s)
  | [] => (false, s)
  end.

Definition signed (neg : bool) (n : N) : Z := if neg then (- Z.of_N n)%Z else Z.of_N n.

(** [Number.parseInt(string)] with no radix: white space and a sign are
    skipped, a [0x] or [0X] prefix selects radix 16, and the longest
    prefix of digits is read; no digit gives [NaN].  [-0] is [0]. *)
Definition parseInt (s : str) : jsnum :=
  let '(neg, t) := parse_sign (trim_start s) in
  let '(R, u) := if starts_with t (js "0x") || starts_with t (js "0X")
                 then (16%N, drop 2 t) else (10%N, t) in
  match take_radix_digits R u with
  | [] => JNaN
  | ds => JFin (inject_Z (signed neg (digits_value R ds)))
  end.

(** ** [Number.parseFloat] *)

(** The value of an exponent part [e] or [E], a sign, digits; [0] when
    there is none. *)
Definition parse_exponent (s : str) : Z :=
  match s with
  | c :: r =>
      if bool_decide (c = 101%N ∨ c = 69%N) then
        let '(neg, t) := parse_sign r in
        match take_radix_digits 10 t with
        | [] => 0%Z
        | ds => signed neg (digits_value 10 ds)
        end
      else 0%Z
  | [] => 0%Z
  end.

(** [Number.parseFloat(string)]: the longest prefix that is a
    [StrDecimalLiteral] after the white space: a sign, then [Infinity] or
    digits with an optional fraction and exponent; no digit gives
    [NaN]. *)
Definition parseFloat (s : str) : jsnum :=
  let '(neg, t) := parse_sign (trim_start s) in
  if starts_with t (js "Infinity") then JInf neg else
  let ip := take_radix_digits 10 t in
  let t1 := drop (length ip) t in
  let '(fp, t2) :=
    match t1 with
    | c :: r =>
        if bool_decide (c = 46%N) then
          let f := take_radix_digits 10 r in (f, drop (length f) r)
        else ([], t1)
    | [] => ([], t1)
    end in
  if bool_decide (ip = [] ∧ fp = []) then JNaN
  else JFin (Qred (inject_Z (signed neg (digits_value 10 (ip ++ fp))) *
                   Qpower 10 (parse_exponent t2 - Z.of_nat (length fp))%Z)%Q).

(** ** The numbers of the image request *)

(** [Math.round(Number.parseInt(IMAGE_MAX_WORDS) * 3)] (line 356). *)
Definition image_max_tokens (cfg : Config) : jsnum :=
  js_round (js_mul (parseInt (IMAGE_MAX_WORDS cfg)) (JFin 3%Q)).

(** [Number.parseFloat(IMAGE_TEMPERATURE)] (line 357). *)
Definition image_temperature (cfg : Config) : jsnum := parseFloat (IMAGE_TEMPERATURE cfg).

(** ** A decimal printer, the reference for the round trip *)

(** The digits of [n], most significant first; [fuel] bounds the number
    of divisions, and the number of bits of [n] is enough (a division by
    10 at least halves it). *)
Fixpoint digits_fuel (fuel : nat) (n : N) : list N :=
  match fuel with
  | O => [n]
  | S f => if decide (n < 10)%N then [n] else digits_fuel f (n `div` 10)%N ++ [(n `mod` 10)%N]
  end.

Definition decimal_digits (n : N) : list N := digits_fuel (N.to_nat (N.size n)) n.

(** The decimal numeral of [n], as [String(n)] writes it. *)
Definition decimal (n : N) : str := map (λ d, 48 + d)%N (decimal_digits n).

(** ** [Number::toString] *)

(** The digits of a decimal numeral, as characters. *)
Definition digit_chars (ds : list N) : str := map (λ d, 48 + d)%N ds.

(** The number of zeros at the head of a digit list. *)
Fixpoint lead_zeros (ds : list N) : nat :=
  match ds with
  | d :: r => if bool_decide (d = 0%N) then S (lead_zeros r) else O
  | [] => O
  end.

(** The least [j ≤ fuel] such that [b] divides [a * 10^j]. *)
Fixpoint decimal_shift (fuel : nat) (a : Z) (b : positive) (j : nat) : option nat :=
  if bool_decide ((a * 10 ^ Z.of_nat j) mod Z.pos b = 0)%Z then Some j
  else match fuel with O => None | S f => decimal_shift f a b (S j) end.

(** [x = s × 10^(n - k)] with [s] of [k] digits and no trailing zero: the
    digits of [s] and [n], for a positive [x] with a finite decimal
    expansion (every finite value the model computes has one: the
    denominator of a value read from decimal text divides a power of
    10); [None] otherwise. *)
Definition decimal_form (q : Q) : option (list N * Z) :=
  j ← decimal_shift (Pos.size_nat (Qden q)) (Qnum q) (Qden q) O;
  let m := Z.to_N ((Qnum q * 10 ^ Z.of_nat j) `div` Z.pos (Qden q))%Z in
  let ds := decimal_digits m in
  let z := lead_zeros (rev ds) in
  let s := take (length ds - z) ds in
  Some (s, (Z.of_nat (length s) + Z.of_nat z - Z.of_nat j)%Z).

(** The exponent part [e+n] or [e-n]. *)
Definition exponent_chars (e : Z) : str :=
  js "e" ++ (if bool_decide (0 ≤ e)%Z then js "+" else js "-") ++ digit_chars (decimal_digits (Z.to_N (Z.abs e))).

(** Steps 6 to 10 of [Number::toString] (ECMAScript 6.1.6.1.20) on the
    digits [s] and the position [n] of the decimal point. *)
Definition format_decimal (s : list N) (n : Z) : str :=
  let k := Z.of_nat (length s) in
  if bool_decide (k ≤ n ≤ 21)%Z then digit_chars s ++ replicate (Z.to_nat (n - k)) 48%N
  else if bool_decide (0 < n ≤ 21)%Z then
    digit_chars (take (Z.to_nat n) s) ++ js "." ++ digit_chars (drop (Z.to_nat n) s)
  else if bool_decide (-6 < n ≤ 0)%Z then
    js "0." ++ replicate (Z.to_nat (- n)) 48%N ++ digit_chars s
  else match s with
       | [d] => digit_chars [d] ++ exponent_chars (n - 1)
       | d :: r => digit_chars [d] ++ js "." ++ digit_chars r ++ exponent_chars (n - 1)
       | [] => []
       end.

(** [Number::toString(x)] (radix 10) on the model's numbers. *)
Definition number_to_string (x : jsnum) : str :=
  match x with
  | JNaN => js "NaN"
  | JInf false => js "Infinity"
  | JInf true => js "-Infinity"
  | JFin q =>
      if Qeq_bool q 0 then js "0" else
      let sign := if Qle_bool 0 q then [] else js "-" in
      match decimal_form (Qabs q) with
      | Some (s, n) => sign ++ format_decimal s n
      | None => js "NaN"
      end
  end.

(** ** Lemmas *)

Lemma digits_value_snoc R ds d : digits_value R (ds ++ [d]) = (digits_value R ds * R + d)%N.
Proof. unfold digits_value. by rewrite foldl_app. Qed.

Lemma digits_fuel_value fuel n : digits_value 10 (digits_fuel fuel n) = n.
Proof.
  revert n. induction fuel as [|f IH]; intros n; [done|]. simpl. case_decide; [done|].
  rewrite digits_value_snoc, IH. pose proof (N.div_mod n 10). lia.
Qed.

Lemma decimal_digits_value n : digits_value 10 (decimal_digits n) = n.
Proof. apply digits_fuel_value. Qed.

Lemma digits_fuel_lt fuel n :
  (n < 2 ^ N.of_nat fuel)%N → Forall (λ d, d < 10)%N (digits_fuel fuel n).
Proof.
  revert n. induction fuel as [|f IH]; intros n Hn; simpl.
  - repeat constructor. simpl in Hn. lia.
  - case_decide; [by repeat constructor|]. apply Forall_app. split.
    + apply IH. rewrite Nat2N.inj_succ, N.pow_succ_r' in Hn.
      assert (n `div` 10 ≤ n `div` 2)%N by (apply N.div_le_compat_l; lia).
      assert (n `div` 2 < 2 ^ N.of_nat f)%N by (apply N.Div0.div_lt_upper_bound; lia). lia.
    + constructor; [apply N.mod_lt; lia|constructor].
Qed.

Lemma decimal_digits_lt n : Forall (λ d, d < 10)%N (decimal_digits n).
Proof. apply digits_fuel_lt. rewrite N2Nat.id. apply N.size_gt. Qed.

Lemma decimal_digits_cons n : ∃ d ds, decimal_digits n = d :: ds.
Proof.
  unfold decimal_digits. generalize (N.to_nat (N.size n)). intros fuel. revert n.
  induction fuel as [|f IH]; intros n; simpl; [by eexists _, _|]. case_decide; [by eexists _, _|].
  destruct (IH (n `div` 10)%N) as (d & ds & ->). by eexists _, _.
Qed.

Lemma radix_digit_decimal d : (d < 10)%N → radix_digit 10 (48 + d) = Some d.
Proof.
  intros Hd. unfold radix_digit, hex_digit.
  rewrite bool_decide_eq_true_2 by lia. simpl.
  rewrite bool_decide_eq_true_2 by lia. f_equal. lia.
Qed.

Lemma take_radix_digits_decimal ds :
  Forall (λ d, d < 10)%N ds → take_radix_digits 10 (map (λ d, 48 + d)%N ds) = ds.
Proof.
  induction 1 as [|d ds Hd _ IH]; [done|]. simpl. by rewrite radix_digit_decimal, IH.
Qed.

Lemma is_ws_digit d : (d < 10)%N → is_ws (48 + d) = false.
Proof.
  intros Hd. unfold is_ws. apply orb_false_intro; apply bool_decide_eq_false_2; [|lia].
  intros H. unfold ws_chars in H. repeat (apply elem_of_cons in H as [H|H]; [lia|]).
  by apply not_elem_of_nil in H.
Qed.

(** The shape of a decimal numeral: a first digit, then digits. *)
Lemma decimal_shape n :
  ∃ d ds, decimal n = (48 + d)%N :: map (λ d, 48 + d)%N ds ∧ (d < 10)%N ∧
          Forall (λ d, d < 10)%N ds ∧ decimal_digits n = d :: ds.
Proof.
  destruct (decimal_digits_cons n) as (d & ds & E). pose proof (decimal_digits_lt n) as Hlt.
  rewrite E in Hlt. apply Forall_cons in Hlt as [Hd Hds].
  exists d, ds. unfold decimal. by rewrite E.
Qed.

Lemma starts_with_digit_x d ds x :
  (d < 10)%N → Forall (λ d, d < 10)%N ds → (57 < x)%N →
  starts_with ((48 + d)%N :: map (λ d, 48 + d)%N ds) [48%N; x] = false.
Proof.
  intros Hd Hds Hx. unfold starts_with. apply bool_decide_eq_false_2. intros [k Hk].
  destruct ds as [|d' ds]; simpl in Hk; [discriminate|].
  injection Hk as _ Hk _. apply Forall_cons in Hds as [Hd' _]. lia.
Qed.

(** [parseInt] reads a decimal numeral back: the round trip. *)
Lemma parseInt_decimal n : parseInt (decimal n) = JFin (inject_Z (Z.of_N n)).
Proof.
  destruct (decimal_shape n) as (d & ds & Hs & Hd & Hds & Hdig). unfold parseInt.
  change (js "0x") with [48%N; 120%N]. change (js "0X") with [48%N; 88%N].
  rewrite Hs, trim_start_cons_no_ws by (by apply is_ws_digit). unfold parse_sign.
  rewrite !bool_decide_eq_false_2 by lia.
  rewrite (starts_with_digit_x d ds 120), (starts_with_digit_x d ds 88) by (done || lia). simpl.
  rewrite radix_digit_decimal, take_radix_digits_decimal by done.
  rewrite <-Hdig, decimal_digits_value. done.
Qed.

Lemma round_triple z : js_round (js_mul (JFin (inject_Z z)) (JFin 3%Q)) = JFin (inject_Z (3 * z)).
Proof.
  unfold js_round, js_mul. rewrite Qred_identity by (simpl; apply Z.gcd_1_r).
  do 2 f_equal. unfold Qfloor. simpl. symmetry. apply Z.div_unique with 1%Z; lia.
Qed.

(** ** [Number::toString] on integers *)

Lemma lead_zeros_le r : (lead_zeros r ≤ length r)%nat.
Proof. induction r as [|d r IH]; simpl; [lia|]. case_bool_decide; simpl; lia. Qed.

Lemma lead_zeros_split (r : list N) : r = replicate (lead_zeros r) 0%N ++ drop (lead_zeros r) r.
Proof.
  induction r as [|d r IH]; [done|]. simpl. case_bool_decide as Hd; [|done].
  subst. simpl. f_equal. exact IH.
Qed.

Lemma rev_replicate {A} n (x : A) : rev (replicate n x) = replicate n x.
Proof. induction n as [|n IH]; [done|]. simpl. rewrite IH. by rewrite <-replicate_S_end. Qed.

Lemma map_replicate {A B} (f : A → B) n x : map f (replicate n x) = replicate n (f x).
Proof. induction n as [|n IH]; [done|]. simpl. by rewrite IH. Qed.

(** A digit list is its digits up to the trailing zeros, then the
    zeros. *)
Lemma trailing_zeros_split ds :
  take (length ds - lead_zeros (rev ds))%nat ds ++ replicate (lead_zeros (rev ds)) 0%N = ds.
Proof.
  set (z := lead_zeros (rev ds)). pose proof (lead_zeros_split (rev ds)) as E. fold z in E.
  set (A := rev (drop z (rev ds))).
  assert (Hds : ds = A ++ replicate z 0%N).
  { rewrite <-(rev_involutive ds) at 1. rewrite E at 1. by rewrite rev_app_distr, rev_replicate. }
  rewrite Hds at 1 2 3. by rewrite length_app, length_replicate, Nat.add_sub, take_app_length.
Qed.

Lemma digits_fuel_length fuel n k :
  (n < 10 ^ N.of_nat (S k))%N → (length (digits_fuel fuel n) ≤ S k)%nat.
Proof.
  revert n k. induction fuel as [|f IH]; intros n k Hn; simpl; [lia|]. case_decide; simpl; [lia|].
  destruct k as [|k]; [simpl in Hn; lia|].
  rewrite length_app. simpl. assert (length (digits_fuel f (n `div` 10)) ≤ S k)%nat; [|lia].
  apply IH. apply N.Div0.div_lt_upper_bound. rewrite <-N.pow_succ_r'. by rewrite <-Nat2N.inj_succ.
Qed.

(** [Number::toString] of a positive integer below [10^21] is its
    decimal numeral. *)
Lemma number_to_string_nat n :
  (0 < n)%N → (n < 10 ^ 21)%N → number_to_string (JFin (inject_Z (Z.of_N n))) = decimal n.
Proof.
  intros Hpos Hlt. unfold number_to_string.
  destruct (Qeq_bool _ _) eqn:E0; [apply Qeq_bool_eq in E0; unfold Qeq in E0; simpl in E0; lia|].
  rewrite (proj2 (Qle_bool_iff _ _)) by (unfold Qle; simpl; lia).
  replace (Qabs (inject_Z (Z.of_N n))) with (inject_Z (Z.of_N n))
    by (unfold Qabs, inject_Z; f_equal; lia).
  unfold decimal_form. cbn [Qnum Qden inject_Z Pos.size_nat decimal_shift].
  rewrite bool_decide_eq_true_2 by (by rewrite Z.mod_1_r). simpl.
  rewrite Z.mul_1_r, Z.div_1_r, N2Z.id.
  set (ds := decimal_digits n). set (z := lead_zeros (rev ds)).
  assert (Hz : (z ≤ length ds)%nat) by (subst z; rewrite <-length_rev; apply lead_zeros_le).
  assert (Hds : (length ds ≤ 21)%nat) by (apply (digits_fuel_length _ _ 20); done).
  unfold format_decimal. rewrite length_take, Nat.min_l by lia.
  rewrite bool_decide_eq_true_2 by lia. simpl.
  match goal with |- context [replicate (Z.to_nat ?e) 48%N] => replace (Z.to_nat e) with z by lia end.
  unfold decimal, digit_chars. fold ds. pose proof (trailing_zeros_split ds) as T. fold z in T.
  change (replicate z 48%N) with (replicate z ((λ d, 48 + d)%N 0%N)).
  by rewrite <-map_replicate, <-map_app, T.
Qed.

(** C31: With [IMAGE_MAX_WORDS] the decimal numeral of [n] (unset or
    empty it is ["40"]) and [3 n ≤ 2^53], the image request asks for
    [Math.round(parseInt(IMAGE_MAX_WORDS) * 3)] = [3 n] tokens, and the
    JSON text of the request writes that number as the decimal numeral
    of [3 n].  Below [2^53] every integer is a binary64 value, so
    [parseInt], the product and [Math.round] are exact and the model's
    exact numbers are JavaScript's; above, JavaScript rounds and the
    claim is not made. *)
Theorem image_max_tokens_spec cfg n :
  IMAGE_MAX_WORDS cfg = decimal n → (3 * n ≤ 2 ^ 53)%N →
  image_max_tokens cfg = JFin (inject_Z (Z.of_N (3 * n))) ∧
  number_to_string (image_max_tokens cfg) = decimal (3 * n).
Proof.
  intros Hw Hb. assert (Hv : image_max_tokens cfg = JFin (inject_Z (Z.of_N (3 * n)))).
  { unfold image_max_tokens. by rewrite Hw, parseInt_decimal, round_triple, N2Z.inj_mul. }
  split; [done|]. rewrite Hv. destruct (decide (n = 0%N)) as [->|Hn]; [reflexivity|].
  apply number_to_string_nat; lia.
Qed.

Lemma image_max_tokens_spec_witness :
  (3 * 40 ≤ 2 ^ 53)%N ∧
  image_max_tokens (load_config (λ _, None)) = JFin (inject_Z (Z.of_N (3 * 40))) ∧
  number_to_string (image_max_tokens (load_config (λ _, None))) = decimal (3 * 40).
Proof.
  split; [vm_compute; discriminate|].
  apply image_max_tokens_spec; [reflexivity|vm_compute; discriminate].
Defined.
