(* ===== verification/Logging.v ===== *)
(** The log of the assistant ([log_], [src/code.js] lines 433-437).

    [log_(message)] builds the line [`${new Date().toLocaleString()}:
    ${message}`], writes it to the console, then opens the spreadsheet
    named by [SHEET_ID] and appends the line as a row to its first sheet.
    [SpreadsheetApp.openById] throws on [null] and on an id that names no
    spreadsheet, after the console line is written.

    The state [LogState] holds the console lines, the rows of the first
    sheet of every spreadsheet the script can open (by id), and a clock:
    the number of dates read so far.  The text of a date is a section
    variable [toLocaleString] of the clock, so that two log lines may or
    may not share their date, as in the code. *)

From stdpp Require Import gmap.
From S2P Require Import Prelude JsString StateM Config.

Record LogState := mkLog {
  log_console : list str;
  log_sheets : gmap str (list str);
  log_clock : nat
}.

Abbreviation LogM := (StE LogState).

Section Logging.
Variable cfg : Config.
Variable toLocaleString : nat → str.

(** [`${new Date().toLocaleString()}: ${message}`] at clock [c]. *)
Definition log_line (c : nat) (message : str) : str :=
  toLocaleString c ++ js ": " ++ message.

(** The rows of the log sheet, when [SHEET_ID] names a spreadsheet. *)
Definition sheet_rows (s : LogState) : option (list str) :=
  id ← SHEET_ID cfg; log_sheets s !! id.

(** [log_(message)]: the console line first, then the row, or the
    exception of [openById]. *)
Definition log_ (message : str) : LogM unit := λ s,
  let line := log_line (log_clock s) message in
  let console := log_console s ++ [line] in
  match SHEET_ID cfg with
  | Some id =>
      match log_sheets s !! id with
      | Some rows => (Some tt, mkLog console (<[id := rows ++ [line]]> (log_sheets s)) (S (log_clock s)))
      | None => (None, mkLog console (log_sheets s) (S (log_clock s)))
      end
  | None => (None, mkLog console (log_sheets s) (S (log_clock s)))
  end.

(** The lines [msgs] logged from clock [c] on. *)
Definition log_lines (c : nat) (msgs : list str) : list str :=
  imap (λ i m, log_line (c + i) m) msgs.

(** [s'] is [s] after the lines [msgs] were logged from its clock on:
    on the console, and on the sheet when there is one. *)
Definition logged (s : LogState) (msgs : list str) (s' : LogState) : Prop :=
  log_console s' = log_console s ++ log_lines (log_clock s) msgs ∧
  sheet_rows s' = (λ rows, rows ++ log_lines (log_clock s) msgs) <$> sheet_rows s ∧
  log_clock s' = log_clock s + length msgs.

End Logging.

(** The tag of a log message: [【name】]. *)
Definition tag (name : str) : str := 12304%N :: name ++ [12305%N].

(** ** Lemmas *)

Section LogLemmas.
Context (cfg : Config) (toLocaleString : nat → str).

Lemma log_ok s rows message :
  sheet_rows cfg s = Some rows →
  ∃ s', log_ cfg toLocaleString message s = (Some tt, s') ∧
        sheet_rows cfg s' = Some (rows ++ [log_line toLocaleString (log_clock s) message]) ∧
        log_console s' = log_console s ++ [log_line toLocaleString (log_clock s) message] ∧
        log_clock s' = S (log_clock s).
Proof.
  unfold sheet_rows, log_. destruct (SHEET_ID cfg) as [id|]; [|done]. simpl. intros Hr.
  rewrite Hr. eexists. split; [done|]. simpl. by rewrite lookup_insert_eq.
Qed.

Lemma log_fail s message :
  sheet_rows cfg s = None →
  log_ cfg toLocaleString message s =
    (None, mkLog (log_console s ++ [log_line toLocaleString (log_clock s) message])
                 (log_sheets s) (S (log_clock s))).
Proof.
  unfold sheet_rows, log_. destruct (SHEET_ID cfg) as [id|]; [|done]. simpl. intros Hr. by rewrite Hr.
Qed.

Lemma log_lines_snoc c msgs m :
  log_lines toLocaleString c (msgs ++ [m]) =
    log_lines toLocaleString c msgs ++ [log_line toLocaleString (c + length msgs) m].
Proof. unfold log_lines. rewrite imap_app. simpl. by rewrite Nat.add_0_r. Qed.

Lemma logged_nil s : logged cfg toLocaleString s [] s.
Proof.
  unfold logged, log_lines. simpl. rewrite app_nil_r. split_and!; [done| |lia].
  destruct (sheet_rows cfg s); simpl; by rewrite ?app_nil_r.
Qed.

Lemma logged_app s1 s2 s3 m1 m2 :
  logged cfg toLocaleString s1 m1 s2 → logged cfg toLocaleString s2 m2 s3 →
  logged cfg toLocaleString s1 (m1 ++ m2) s3.
Proof.
  unfold logged, log_lines. intros (Hc1 & Hr1 & Hk1) (Hc2 & Hr2 & Hk2). rewrite imap_app, length_app.
  split_and!; [| |lia].
  - rewrite Hc2, Hc1, <-app_assoc, Hk1. do 2 f_equal. apply imap_ext. intros. f_equal. lia.
  - rewrite Hr2, Hr1. destruct (sheet_rows cfg s1); [|done]. simpl. rewrite <-app_assoc, Hk1.
    do 3 f_equal. apply imap_ext. intros. f_equal. lia.
Qed.

Lemma logged_sheet s msgs s' rows :
  logged cfg toLocaleString s msgs s' → sheet_rows cfg s = Some rows → is_Some (sheet_rows cfg s').
Proof. intros (_ & Hr & _) Hs. rewrite Hr, Hs. by eexists. Qed.

Lemma log_logged s rows message :
  sheet_rows cfg s = Some rows →
  ∃ s', log_ cfg toLocaleString message s = (Some tt, s') ∧ logged cfg toLocaleString s [message] s'.
Proof.
  intros Hr. destruct (log_ok s rows message Hr) as (s' & Hrun & Hr' & Hc & Hk).
  exists s'. split; [done|]. unfold logged, log_lines. simpl. rewrite Nat.add_0_r, Hr, Hr', Hc, Hk.
  split_and!; [done|done|lia].
Qed.

End LogLemmas.
