(* ===== verification/ChatRequest.v ===== *)
(** The requests the add-on sends to the chat-completion endpoint
    ([src/code.js]): the [data] object of [getTextResponse_] (lines
    160-195), [getSlidesResponse_] (232-288) and [getImagePrompt_]
    (338-379).  A request is a record with the fields the code sets:
    model, messages, [max_tokens] when present, temperature, and the
    [response_format] of type [json_object] for the slides.

    [json] and [stringify] model [JSON.stringify] on the values the code
    applies it to: [templateJson], embedded in the system message of
    [getSlidesResponse_], and the [data] object of each request
    ([request_json]), which [log_] records.  Strings get the escapes of
    ECMAScript's [QuoteJSONString], numbers the text of
    [Number::toString], [NaN] and the infinities [null].  The [options]
    object and the HTTP call are in [HttpClient]. *)

From S2P Require Import Prelude JsString Config.
From Stdlib Require Import QArith.

(** ** [JSON.stringify] *)

#[warnings="-register-all"]
Inductive json :=
  | JString (s : str)
  | JNumber (x : jsnum)
  | JArray (vs : list json)
  | JObject (kvs : list (str * json)).

(** The lowercase hexadecimal digit of a value below 16. *)
Definition hex_char (d : N) : char := if bool_decide (d < 10)%N then (48 + d)%N else (87 + d)%N.

(** [\uXXXX] for a code unit. *)
Definition unicode_escape (c : char) : str :=
  [92%N; 117%N; hex_char ((c `div` 4096) `mod` 16); hex_char ((c `div` 256) `mod` 16);
   hex_char ((c `div` 16) `mod` 16); hex_char (c `mod` 16)]%N.

Definition is_high_surrogate (c : char) : bool := bool_decide (55296 ≤ c ≤ 56319)%N.
Definition is_low_surrogate (c : char) : bool := bool_decide (56320 ≤ c ≤ 57343)%N.

(** [QuoteJSONString] without its quotes: the short escapes, [\u] for the
    other control characters and for lone surrogates. *)
Fixpoint quote_units (s : str) : str :=
  match s with
  | [] => []
  | c :: r =>
      if bool_decide (c = 8%N) then [92%N; 98%N] ++ quote_units r
      else if bool_decide (c = 9%N) then [92%N; 116%N] ++ quote_units r
      else if bool_decide (c = 10%N) then [92%N; 110%N] ++ quote_units r
      else if bool_decide (c = 12%N) then [92%N; 102%N] ++ quote_units r
      else if bool_decide (c = 13%N) then [92%N; 114%N] ++ quote_units r
      else if bool_decide (c = 34%N) then [92%N; 34%N] ++ quote_units r
      else if bool_decide (c = 92%N) then [92%N; 92%N] ++ quote_units r
      else if bool_decide (c < 32)%N then unicode_escape c ++ quote_units r
      else if is_high_surrogate c then
        match r with
        | d :: r' => if is_low_surrogate d then c :: d :: quote_units r'
                     else unicode_escape c ++ quote_units r
        | [] => unicode_escape c
        end
      else if is_low_surrogate c then unicode_escape c ++ quote_units r
      else c :: quote_units r
  end.

Definition quote (s : str) : str := DQ ++ quote_units s ++ DQ.

Fixpoint stringify (v : json) : str :=
  match v with
  | JString s => quote s
  | JNumber (JFin q) => number_to_string (JFin q)
  | JNumber _ => js "null"
  | JArray vs => js "[" ++ join 44%N (map stringify vs) ++ js "]"
  | JObject kvs =>
      js "{" ++ join 44%N (map (λ kv, quote kv.1 ++ js ":" ++ stringify kv.2) kvs) ++ js "}"
  end.

(** ** The requests *)

Inductive Role := RSystem | RUser.

Record Message := mkMessage { msg_role : Role; msg_content : str }.

Record ChatRequest := mkRequest {
  rq_model : str;
  rq_messages : list Message;
  rq_max_tokens : option jsnum;
  rq_temperature : jsnum;
  rq_json_object : bool
}.

Definition role_name (r : Role) : str :=
  match r with RSystem => js "system" | RUser => js "user" end.

(** The [data] object of a request, its keys in the order of the object
    literals of lines 168-174, 250-261 and 349-358. *)
Definition request_json (rq : ChatRequest) : json :=
  JObject ([(js "model", JString (rq_model rq));
            (js "messages", JArray (map (λ m, JObject [(js "role", JString (role_name (msg_role m)));
                                                       (js "content", JString (msg_content m))])
                                        (rq_messages rq)))]
           ++ (match rq_max_tokens rq with Some n => [(js "max_tokens", JNumber n)] | None => [] end)
           ++ [(js "temperature", JNumber (rq_temperature rq))]
           ++ (if rq_json_object rq
               then [(js "response_format", JObject [(js "type", JString (js "json_object"))])]
               else [])).

#[export] Instance Role_eq_dec : EqDecision Role.
Proof. solve_decision. Defined.
#[export] Instance Message_eq_dec : EqDecision Message.
Proof. solve_decision. Defined.
#[export] Instance ChatRequest_eq_dec : EqDecision ChatRequest.
Proof. solve_decision. Defined.

(** [creativity === "low" ? 0.0 : creativity === "high" ? 1.0 : 0.5]
    (lines 161-166 and 233-238). *)
Definition temperature (creativity : str) : jsnum :=
  if bool_decide (creativity = js "low") then JFin 0
  else if bool_decide (creativity = js "high") then JFin 1
  else JFin (1 # 2).

(** Lines 167-175. *)
Definition text_request (cfg : Config) (prompt creativity : str) : ChatRequest :=
  mkRequest (OPENAI_MODEL cfg) [mkMessage RUser prompt] (Some (JFin 1000)) (temperature creativity) false.

(** [templateJson] (lines 240-248). *)
Definition templateJson : json :=
  JObject [(js "title", JString [12479; 12452; 12488; 12523]%N);
           (js "slides",
            JArray [JObject [(js "title", JString [12473; 12521; 12452; 12489; 12479; 12452; 12488; 12523]%N);
                             (js "code", JString (js "programing code"));
                             (js "points", JArray [JString [32; 38917; 30446; 32]%N;
                                                   JString [32; 38917; 30446; 32]%N;
                                                   JString [32; 38917; 30446; 32]%N])]])].

(** The system message of line 253, with [${numPages}] the text of
    [numPages]. *)
Definition slides_system (numPages : str) : str :=
  js "Create a detailed outline with titles and bullet points required to explain the topic. you must output the result in the following JSON format. make sure the number of elements in the "
  ++ DQ ++ js "slides" ++ DQ ++ js " array is " ++ numPages
  ++ js ". if you generate source code ,put in the " ++ DQ ++ js "code" ++ DQ
  ++ js " element. you must enclose each JSON element in double quotes (" ++ DQ ++ DQ ++ js ")."
  ++ [LF] ++ js " " ++ stringify templateJson ++ [LF] ++ js " ".

(** Lines 249-262: no [max_tokens] (commented out), [json_object]. *)
Definition slides_request (cfg : Config) (prompt numPages creativity : str) : ChatRequest :=
  mkRequest (OPENAI_MODEL cfg) [mkMessage RSystem (slides_system numPages); mkMessage RUser prompt]
            None (temperature creativity) true.

(** [getPositivePrompt()] (lines 341-345). *)
Definition image_system (maxWords : str) : str :=
  js "Please imagine a common scene from the given text and express it as a detailed prompt in english for image generation AI."
  ++ [LF; LF] ++ js "  rule:" ++ [LF] ++ js "- begin  a sentence with  " ++ DQ ++ js "The prompt is:" ++ DQ
  ++ js "." ++ [LF] ++ js "- without using bullet points." ++ [LF] ++ js "- in the third person."
  ++ [LF] ++ js "- " ++ maxWords ++ js " words." ++ [LF] ++ js "text :".

(** The user message of [getImagePrompt_] (line 354):
    [targetText || 'The message "error" in white wall.']. *)
Definition IMAGE_FALLBACK : str :=
  js "The message " ++ DQ ++ js "error" ++ DQ ++ js " in white wall.".

Definition image_user_content (targetText : str) : str :=
  if bool_decide (targetText = []) then IMAGE_FALLBACK else targetText.

(** Lines 347-358. *)
Definition image_request (cfg : Config) (targetText : str) : ChatRequest :=
  mkRequest (OPENAI_MODEL cfg)
            [mkMessage RSystem (image_system (IMAGE_MAX_WORDS cfg));
             mkMessage RUser (image_user_content targetText)]
            (Some (image_max_tokens cfg)) (image_temperature cfg) false.
