(* ===== verification/Assistant.v ===== *)
(** The text side of the assistant path ([src/code.js]): the clean-up
    of the model's answer ([removeJsonCodeBlock_], with its global replace
    and a fuel-free reference by well-founded recursion), the text answer
    ([getTextResponse_]), the rewriting of the selected elements
    ([generateTextInCurrentElement]), the collection of the slide's text
    ([getAllTextFromActiveSlide_]), which the image path of [ImagePath]
    reads.

    The request functions log through [Logging.log_]: [ask] is their
    shared core.  [generateTextInCurrentElement] runs on the log and the
    selected elements ([TextM]) and writes each answer before the next
    request.  The configuration [cfg], the text of the dates and the chat
    endpoint [chat], from a request ([ChatRequest]) to the content of the
    answer's first choice, are section variables.  The file ends with
    the refinement of the pure rewrite [rewrite_element] by the script
    and its run without a log sheet. *)

From stdpp Require Import gmap.
From S2P Require Import Prelude JsString StateM Config Logging ChatRequest.
From Equations Require Import Equations.

(** ** Global replacement of a literal pattern *)

(** [s.replace(/pat/g, rep)] for a literal, non-empty [pat]: the leftmost
    occurrence is replaced, and the scan resumes after it.  [fuel] bounds
    the number of steps; [replace_all] gives it the length of [s], which
    is enough (each step consumes a character). *)
Fixpoint replace_all_fuel (fuel : nat) (pat rep s : str) : str :=
  match fuel with
  | 0 => s
  | S f =>
      if starts_with s pat then rep ++ replace_all_fuel f pat rep (drop (length pat) s)
      else match s with
           | [] => []
           | c :: r => c :: replace_all_fuel f pat rep r
           end
  end.

Definition replace_all (pat rep s : str) : str := replace_all_fuel (length s) pat rep s.

(** [s.includes(pat)] *)
Fixpoint includes (s pat : str) : bool :=
  starts_with s pat || match s with [] => false | _ :: r => includes r pat end.

Definition FENCE3 : str := js "```".
Definition FENCE_JSON : str := js "```json".

(** The scan of [s.replace(/pat/g, rep)] without fuel, for a pattern
    [p :: ps]: by well-founded recursion on the length of what is left,
    which every step shortens. *)
Equations? replace_all_ref (p : char) (ps rep s : str) : str by wf (length s) lt :=
  replace_all_ref p ps rep [] := [];
  replace_all_ref p ps rep (c :: r) :=
    if starts_with (c :: r) (p :: ps) then rep ++ replace_all_ref p ps rep (drop (length ps) r)
    else c :: replace_all_ref p ps rep r.
Proof. all: rewrite ?length_drop; simpl; lia. Qed.

(** [removeJsonCodeBlock_(inputString)] *)
Definition removeJsonCodeBlock_ (inputString : str) : str :=
  replace_all FENCE3 [] (replace_all FENCE_JSON [] inputString).

(** ** Page elements *)

Inductive ShapeType := TEXT_BOX | OTHER_SHAPE.

#[export] Instance ShapeType_eq_dec : EqDecision ShapeType.
Proof. solve_decision. Defined.

(** The page elements the scripts look at: a shape with its type and
    text, a table with its cells by row, anything else. *)
Inductive PageElement :=
  | EShape (stype : ShapeType) (text : str)
  | ETable (cells : list (list str))
  | EOther.

#[export] Instance PageElement_eq_dec : EqDecision PageElement.
Proof. solve_decision. Defined.

(** [getAllTextFromActiveSlide_()]: the text of each text box of the
    current slide followed by a newline. *)
Definition getAllTextFromActiveSlide_ (pageElements : list PageElement) : str :=
  foldl (λ acc e, match e with
                  | EShape TEXT_BOX t => acc ++ t ++ [LF]
                  | _ => acc
                  end) [] pageElements.

(** The texts of the text boxes, in order. *)
Definition text_boxes (els : list PageElement) : list str :=
  omap (λ e, match e with EShape TEXT_BOX t => Some t | _ => None end) els.

(** The state of [generateTextInCurrentElement]: the log and the elements
    of the selected page-element range, [None] when there is none.  The
    rewrite is in place: an answer is written before the next request,
    so what was written stays when a later request throws. *)
Abbreviation TextM := (StE (LogState * option (list PageElement))).

(** [table.getNumColumns()] *)
Definition num_columns (cells : list (list str)) : nat :=
  match cells with row :: _ => length row | [] => O end.

Section Assistant.
(** The configuration read at load time. *)
Variable cfg : Config.
(** The text of [new Date().toLocaleString()] at each clock value. *)
Variable toLocaleString : nat → str.
(** The chat-completion endpoint: the content of the first choice of the
    answer to a request, [None] when the answer has no choice (an error
    answer, read with [muteHttpExceptions], makes [choices[0]] throw);
    [HttpClient.chat_endpoint] builds it from the HTTP call. *)
Variable chat : ChatRequest → option str.

(** The request-and-log core shared by [getTextResponse_],
    [getSlidesResponse_] and [getImagePrompt_]: [log_] of the request
    tag and [JSON.stringify(data)], the request, the trimmed content of
    the first choice, [log_] of the response tag and the content. *)
Definition ask (req res : str) (data : ChatRequest) : LogM str :=
  log_ cfg toLocaleString (tag req ++ stringify (request_json data));;
  content ← lift_opt (trim <$> chat data);
  log_ cfg toLocaleString (tag res ++ content);;
  mret content.

(** [getTextResponse_(prompt, creativity)] *)
Definition getTextResponse_ (prompt creativity : str) : LogM str :=
  ask (js "REQ_3") (js "RES_3") (text_request cfg prompt creativity).

(** [deepDive + "\n" + currentText] *)
Definition deep_prompt (deepDive currentText : str) : str := deepDive ++ LF :: currentText.

(** The selected elements; no page-element range throws. *)
Definition selected : TextM (list PageElement) := λ st, (st.2, st).

Definition element_at (k : nat) : TextM PageElement := λ st, (st.2 ≫= (.!! k), st).

Definition set_element (k : nat) (e : PageElement) : TextM unit :=
  λ st, (Some tt, (st.1, (λ els, <[k := e]> els) <$> st.2)).

(** [table.getCell(i, j).getText().asString()]: [getCell] throws out of
    range. *)
Definition cell_text (k i j : nat) : TextM str :=
  e ← element_at k;
  match e with ETable cells => lift_opt (cells !! i ≫= (.!! j)) | _ => lift_opt None end.

(** [textRange.setText(newText)] on that cell. *)
Definition set_cell_text (k i j : nat) (t : str) : TextM unit :=
  e ← element_at k;
  match e with
  | ETable cells => set_element k (ETable (alter (λ row, <[j := t]> row) i cells))
  | _ => lift_opt None
  end.

(** The body of the inner loop: read the cell, ask, write the answer. *)
Definition rewrite_cell (deepDive creativity : str) (k i j : nat) : TextM unit :=
  currentText ← cell_text k i j;
  content ← on_fst (getTextResponse_ (deep_prompt deepDive currentText) creativity);
  set_cell_text k i j content.

(** The body of [selectedElements.forEach] on the element at [k]: a
    shape gets the answer for its text ([getText()] is always an object,
    hence truthy); a table, from the row and column counts read first,
    gets the loops over [i] from 1 and [j] from 0; anything else is left. *)
Definition rewrite_element_at (deepDive creativity : str) (k : nat) : TextM unit :=
  e ← element_at k;
  match e with
  | EShape st currentText =>
      content ← on_fst (getTextResponse_ (deep_prompt deepDive currentText) creativity);
      set_element k (EShape st content)
  | ETable cells =>
      forM_ (seq 1 (length cells - 1)) (λ i,
        forM_ (seq 0 (num_columns cells)) (λ j, rewrite_cell deepDive creativity k i j))
  | EOther => mret tt
  end.

(** [generateTextInCurrentElement(deepDive, creativity)] *)
Definition generateTextInCurrentElement (deepDive creativity : str) : TextM unit :=
  els ← selected;
  forM_ (seq 0 (length els)) (rewrite_element_at deepDive creativity).

End Assistant.

(** ** The rewrite as a function of the answers *)

(** The specification of the rewrite: [answer t] for the text [t] of
    each shape and of each cell below row 0. *)
Definition rewrite_table (answer : str → str) (cells : list (list str)) : list (list str) :=
  match cells with
  | [] => []
  | header :: rows => header :: map (map answer) rows
  end.

Definition rewrite_element (answer : str → str) (e : PageElement) : PageElement :=
  match e with
  | EShape st t => EShape st (answer t)
  | ETable cells => ETable (rewrite_table answer cells)
  | EOther => EOther
  end.

(** The texts an element sends, in order. *)
Definition element_texts (e : PageElement) : list str :=
  match e with
  | EShape _ t => [t]
  | ETable (_ :: rows) => concat rows
  | _ => []
  end.

(** The answer to the text [t] and the two lines it logs. *)
Definition text_answer (cfg : Config) (reply : ChatRequest → str) (deepDive creativity t : str) : str :=
  trim (reply (text_request cfg (deep_prompt deepDive t) creativity)).

Definition text_exchange (cfg : Config) (reply : ChatRequest → str) (deepDive creativity t : str) :
    list str :=
  [tag (js "REQ_3") ++ stringify (request_json (text_request cfg (deep_prompt deepDive t) creativity));
   tag (js "RES_3") ++ text_answer cfg reply deepDive creativity t].

(** Every row of a table as long as row 0. *)
Definition rectangular (e : PageElement) : Prop :=
  match e with
  | ETable (header :: rows) => Forall (λ row, length row = length header) rows
  | _ => True
  end.

(** ** Lemmas on [replace_all] *)

Lemma replace_all_fuel_enough pat rep s f1 f2 :
  pat ≠ [] → length s ≤ f1 → length s ≤ f2 →
  replace_all_fuel f1 pat rep s = replace_all_fuel f2 pat rep s.
Proof.
  intros Hpat. revert s f2. induction f1 as [|f1 IH]; intros s f2 H1 H2.
  - destruct s; simpl in *; [|lia]. destruct f2; [done|]. simpl.
    unfold starts_with. case_bool_decide as Hp; [|done].
    apply prefix_nil_inv in Hp. congruence.
  - destruct f2 as [|f2]; [destruct s; simpl in *; [|lia]|].
    + unfold starts_with. case_bool_decide as Hp; [|done].
      apply prefix_nil_inv in Hp. congruence.
    + simpl. destruct (starts_with s pat) eqn:Hs.
      * assert (length pat ≤ length s).
        { apply prefix_length. unfold starts_with in Hs. by apply bool_decide_eq_true in Hs. }
        assert (length pat ≠ 0) by (destruct pat; simpl; [congruence|lia]).
        f_equal. apply IH; rewrite length_drop; lia.
      * destruct s as [|c r]; [done|]. simpl in *. f_equal. apply IH; lia.
Qed.

Lemma replace_all_match pat rep s :
  pat ≠ [] → starts_with s pat = true →
  replace_all pat rep s = rep ++ replace_all pat rep (drop (length pat) s).
Proof.
  intros Hpat Hs. assert (Hl : length pat ≤ length s).
  { apply prefix_length. unfold starts_with in Hs. by apply bool_decide_eq_true in Hs. }
  assert (length pat ≠ 0) by (destruct pat; simpl; [congruence|lia]).
  unfold replace_all. destruct s as [|c r]; [simpl in *; lia|]. simpl. rewrite Hs. f_equal.
  apply replace_all_fuel_enough; [done|..]; rewrite ?length_drop; simpl in *; lia.
Qed.

Lemma replace_all_skip pat rep c r :
  starts_with (c :: r) pat = false →
  replace_all pat rep (c :: r) = c :: replace_all pat rep r.
Proof. intros Hs. unfold replace_all. simpl. by rewrite Hs. Qed.

Lemma replace_all_nil pat rep : pat ≠ [] → replace_all pat rep [] = [].
Proof.
  intros Hpat. unfold replace_all. simpl. done.
Qed.

Lemma starts_with_short s p : length s < length p → starts_with s p = false.
Proof. intros H. apply bool_decide_eq_false_2. intros Hp%prefix_length. lia. Qed.

Section NoTriple.
Context (b : char).

Let out (s : str) : str := replace_all [b; b; b] [] s.

Lemma starts_with_cons_other d t :
  d ≠ b → starts_with (d :: t) [b; b; b] = false.
Proof.
  intros Hd. unfold starts_with. apply bool_decide_eq_false_2.
  intros Hp%prefix_cons_inv_1. congruence.
Qed.

Lemma out_cons_other d t : d ≠ b → out (d :: t) = d :: out t.
Proof using. intros Hd. unfold out. by rewrite replace_all_skip by by apply starts_with_cons_other. Qed.

(** Skipping a character that starts no [bbb] cannot start a new [bb]
    in the output. *)
Lemma out_no_bb_start r :
  starts_with (b :: r) [b; b; b] = false → starts_with (out r) [b; b] = false.
Proof.
  intros Hs. destruct r as [|d r]; [by unfold out; rewrite replace_all_nil|].
  destruct (decide (d = b)) as [->|Hd].
  2: { rewrite out_cons_other by done. apply bool_decide_eq_false_2. intros Hp%prefix_cons_inv_1. congruence. }
  destruct r as [|e r].
  { unfold out. rewrite replace_all_skip, replace_all_nil by (done || (apply starts_with_short; simpl; lia)).
    apply starts_with_short; simpl; lia. }
  destruct (decide (e = b)) as [->|He].
  { unfold starts_with in Hs. rewrite bool_decide_eq_true_2 in Hs; [done|].
    apply prefix_cons, prefix_cons, prefix_cons, prefix_nil. }
  unfold out. rewrite replace_all_skip.
  - fold (out (e :: r)). rewrite out_cons_other by done. apply bool_decide_eq_false_2.
    intros Hp%prefix_cons_inv_2%prefix_cons_inv_1. congruence.
  - apply bool_decide_eq_false_2. intros Hp%prefix_cons_inv_2%prefix_cons_inv_1. congruence.
Qed.

Lemma out_no_triple n s : length s ≤ n → includes (out s) [b; b; b] = false.
Proof.
  revert s. induction n as [|n IH]; intros s Hs.
  { destruct s; [|simpl in *; lia]. unfold out. by rewrite replace_all_nil. }
  destruct s as [|c r]; [unfold out; by rewrite replace_all_nil|].
  destruct (starts_with (c :: r) [b; b; b]) eqn:Hm.
  - unfold out. rewrite replace_all_match by done. simpl. apply IH. rewrite length_drop. simpl in *. lia.
  - unfold out. rewrite replace_all_skip by done. fold (out r). simpl.
    rewrite IH by (simpl in *; lia). rewrite orb_false_r.
    destruct (decide (c = b)) as [->|Hc].
    + pose proof (out_no_bb_start r Hm) as Hbb. unfold starts_with in *.
      apply bool_decide_eq_false_2. intros Hp%prefix_cons_inv_2.
      apply bool_decide_eq_false in Hbb. by apply Hbb.
    + apply bool_decide_eq_false_2. intros Hp%prefix_cons_inv_1. congruence.
Qed.

End NoTriple.

(** C24: The answer cleaned by [removeJsonCodeBlock_] contains no
    triple backtick, whatever the model returned: removing the leftmost
    occurrences one after the other never joins backticks into a new
    one. *)
Theorem removeJsonCodeBlock_no_fence s : includes (removeJsonCodeBlock_ s) FENCE3 = false.
Proof. unfold removeJsonCodeBlock_. exact (out_no_triple 96 _ _ (le_n _)). Qed.

(** [removeJsonCodeBlock_] also removes the fences inside the string
    values of the JSON answer, so a [code] value that holds a fenced block
    loses its fences before [JSON.parse]. *)
Example removeJsonCodeBlock_strips_inside_values :
  removeJsonCodeBlock_ (js "{" ++ DQ ++ js "code" ++ DQ ++ js ":" ++ DQ ++ js "```jsonx```" ++ DQ ++ js "}") =
  js "{" ++ DQ ++ js "code" ++ DQ ++ js ":" ++ DQ ++ js "x" ++ DQ ++ js "}".
Proof. vm_compute. reflexivity. Qed.

(** ** The text of a slide *)

Lemma getAllText_app acc els :
  foldl (λ acc e, match e with EShape TEXT_BOX t => acc ++ t ++ [LF] | _ => acc end) acc els =
  acc ++ concat (map (λ t, t ++ [LF]) (text_boxes els)).
Proof.
  revert acc. induction els as [|e els IH]; intros acc; simpl; [by rewrite app_nil_r|].
  rewrite IH. destruct e as [[] t| |]; simpl; by rewrite ?app_assoc.
Qed.

(** [getAllTextFromActiveSlide_] is the text of the text boxes of the
    slide, in order, each followed by a newline; other shapes and tables
    contribute nothing. *)
Lemma getAllTextFromActiveSlide_spec els :
  getAllTextFromActiveSlide_ els = concat (map (λ t, t ++ [LF]) (text_boxes els)).
Proof. unfold getAllTextFromActiveSlide_. by rewrite getAllText_app. Qed.

(** ** The global replace terminates *)

(** The scan of [s.replace(/pat/g, rep)] ends within its fuel: for
    every non-empty pattern and every input, [replace_all] (fuel: the
    length of the input) computes what the scan without fuel, by
    well-founded recursion on the rest of the input, computes. *)
Theorem replace_all_terminates p ps rep s :
  replace_all (p :: ps) rep s = replace_all_ref p ps rep s.
Proof.
  funelim (replace_all_ref p ps rep s); [done|].
  unfold replace_all in *. simpl. destruct (starts_with _ _) eqn:E.
  - f_equal. match goal with IH : replace_all_fuel _ _ _ (drop _ _) = _ |- _ => rewrite <-IH end.
    apply replace_all_fuel_enough; [done|rewrite length_drop; lia|lia].
  - by f_equal.
Qed.

(** ** The request-and-log core *)

Section Ask.
Context (cfg : Config) (ts : nat → str) (chat : ChatRequest → option str).

Lemma ask_ok req res data s rows c :
  sheet_rows cfg s = Some rows → chat data = Some c →
  ∃ s', ask cfg ts chat req res data s = (Some (trim c), s') ∧
        logged cfg ts s [tag req ++ stringify (request_json data); tag res ++ trim c] s'.
Proof.
  intros Hr Hc. destruct (log_logged cfg ts s rows (tag req ++ stringify (request_json data)) Hr)
    as (s1 & H1 & L1).
  destruct (logged_sheet cfg ts _ _ _ _ L1 Hr) as [rows1 Hr1].
  destruct (log_logged cfg ts s1 rows1 (tag res ++ trim c) Hr1) as (s2 & H2 & L2).
  exists s2. unfold ask. rewrite (ste_bind_Some _ _ _ _ _ H1), bind_lift_opt, Hc. simpl.
  rewrite (ste_bind_Some _ _ _ _ _ H2). split; [done|]. exact (logged_app cfg ts _ _ _ [_] [_] L1 L2).
Qed.

(** An answer without a choice: the request is logged, then the read
    of [choices[0]] throws. *)
Lemma ask_no_answer req res data s rows :
  sheet_rows cfg s = Some rows → chat data = None →
  ∃ s', ask cfg ts chat req res data s = (None, s') ∧
        logged cfg ts s [tag req ++ stringify (request_json data)] s'.
Proof.
  intros Hr Hc. destruct (log_logged cfg ts s rows (tag req ++ stringify (request_json data)) Hr)
    as (s1 & H1 & L1).
  exists s1. unfold ask. rewrite (ste_bind_Some _ _ _ _ _ H1), bind_lift_opt, Hc. done.
Qed.

(** No log sheet: the first [log_] throws, after its console line,
    before the request is sent. *)
Lemma ask_no_sheet req res data s :
  sheet_rows cfg s = None →
  ask cfg ts chat req res data s =
    (None, mkLog (log_console s ++ [log_line ts (log_clock s) (tag req ++ stringify (request_json data))])
                 (log_sheets s) (S (log_clock s))).
Proof. intros Hr. unfold ask. by rewrite (ste_bind_None _ _ _ _ (log_fail cfg ts s _ Hr)). Qed.

End Ask.

(** ** Running the text path *)

Lemma element_at_run k l els e :
  els !! k = Some e → element_at k (l, Some els) = (Some e, (l, Some els)).
Proof. intros Hk. unfold element_at. simpl. by rewrite Hk. Qed.

Lemma cell_text_run k i j l els cells row t :
  els !! k = Some (ETable cells) → cells !! i = Some row → row !! j = Some t →
  cell_text k i j (l, Some els) = (Some t, (l, Some els)).
Proof.
  intros Hk Hi Hj. unfold cell_text. rewrite (ste_bind_Some _ _ _ _ _ (element_at_run _ _ _ _ Hk)).
  simpl. rewrite Hi. simpl. by rewrite Hj.
Qed.

Lemma set_cell_text_run k i j l els cells row c :
  els !! k = Some (ETable cells) → cells !! i = Some row →
  set_cell_text k i j c (l, Some els) =
    (Some tt, (l, Some (<[k := ETable (<[i := <[j := c]> row]> cells)]> els))).
Proof.
  intros Hk Hi. unfold set_cell_text. rewrite (ste_bind_Some _ _ _ _ _ (element_at_run _ _ _ _ Hk)).
  unfold set_element. simpl. by rewrite (alter_as_insert _ _ _ _ Hi).
Qed.

Section TextRun.
Context (cfg : Config) (ts : nat → str) (chat : ChatRequest → option str) (reply : ChatRequest → str)
        (dd cr : str).
Let ans := text_answer cfg reply dd cr.
Let ex := text_exchange cfg reply dd cr.
(** The request for the text [t] is answered with [reply]. *)
Let answered (t : str) : Prop :=
  chat (text_request cfg (deep_prompt dd t) cr) = Some (reply (text_request cfg (deep_prompt dd t) cr)).

Lemma getText_run l rows t (x : option (list PageElement)) :
  sheet_rows cfg l = Some rows → answered t →
  ∃ l', on_fst (getTextResponse_ cfg ts chat (deep_prompt dd t) cr) (l, x) = (Some (ans t), (l', x)) ∧
        logged cfg ts l (ex t) l'.
Proof.
  intros Hr Ht. destruct (ask_ok cfg ts chat (js "REQ_3") (js "RES_3") (text_request cfg (deep_prompt dd t) cr)
                           l rows _ Hr Ht) as (l' & H & L).
  exists l'. unfold on_fst, getTextResponse_. simpl. rewrite H. by split.
Qed.

Lemma rewrite_cell_run k i j l rows els cells row t :
  sheet_rows cfg l = Some rows → els !! k = Some (ETable cells) → cells !! i = Some row →
  row !! j = Some t → answered t →
  ∃ l', rewrite_cell cfg ts chat dd cr k i j (l, Some els) =
          (Some tt, (l', Some (<[k := ETable (<[i := <[j := ans t]> row]> cells)]> els))) ∧
        logged cfg ts l (ex t) l'.
Proof.
  intros Hr Hk Hi Hj Ht. destruct (getText_run l rows t (Some els) Hr Ht) as (l' & Hq & L).
  exists l'. split; [|done]. unfold rewrite_cell.
  rewrite (ste_bind_Some _ _ _ _ _ (cell_text_run _ _ _ _ _ _ _ _ Hk Hi Hj)), (ste_bind_Some _ _ _ _ _ Hq).
  by apply set_cell_text_run.
Qed.

(** The inner loop rewrites every cell of row [i]. *)
Lemma row_run k i l rows els cells row :
  sheet_rows cfg l = Some rows → els !! k = Some (ETable cells) → cells !! i = Some row →
  Forall answered row →
  ∃ l', forM_ (seq 0 (length row)) (λ j, rewrite_cell cfg ts chat dd cr k i j) (l, Some els) =
          (Some tt, (l', Some (<[k := ETable (<[i := map ans row]> cells)]> els))) ∧
        logged cfg ts l (concat (map ex row)) l'.
Proof.
  intros Hr Hk Hi Hans.
  destruct (forM_inv (seq 0 (length row)) (λ j, rewrite_cell cfg ts chat dd cr k i j)
    (λ pre st, st.2 = Some (<[k := ETable (<[i := map ans (take (length pre) row) ++ drop (length pre) row]>
                                              cells)]> els) ∧
               logged cfg ts l (concat (map ex (take (length pre) row))) st.1) (l, Some els))
    as ([l' x] & Hrun & Hx & L).
  - simpl. rewrite drop_0, (list_insert_id cells i row Hi), (list_insert_id els k _ Hk).
    split; [done|apply logged_nil].
  - intros pre j post [l1 x1] Hs [Hx1 L1]. simpl in Hx1, L1. subst x1.
    pose proof (seq_split_at _ _ _ _ _ Hs) as ->. pose proof (seq_prefix_lt _ _ _ _ _ Hs) as Hlt.
    destruct (lookup_lt_is_Some_2 row (length pre) Hlt) as [t Ht].
    destruct (logged_sheet cfg ts _ _ _ _ L1 Hr) as [rows1 Hr1].
    destruct (rewrite_cell_run k i (length pre) l1 rows1 _ _ _ t Hr1 (lookup_insert_at _ _ _ _ Hk)
                (lookup_insert_at _ _ _ _ Hi) (lookup_map_take_drop ans _ _ _ Ht)
                (Forall_lookup_1 _ _ _ _ Hans Ht)) as (l2 & Hrun & L2).
    exists (l2, Some (<[k := ETable (<[i := map ans (take (S (length pre)) row) ++ drop (S (length pre)) row]>
                                       cells)]> els)).
    rewrite length_app, Nat.add_1_r. split_and!.
    + simpl. rewrite Hrun, !list_insert_insert_eq. by rewrite (insert_map_take_drop row ans _ _ Ht).
    + done.
    + rewrite (concat_map_take_S _ _ _ _ Ht). exact (logged_app cfg ts _ _ _ _ _ L1 L2).
  - exists l'. simpl in Hx, L. rewrite length_seq, take_ge, drop_ge, app_nil_r in Hx by lia.
    rewrite length_seq, take_ge in L by lia. by rewrite Hrun, Hx.
Qed.

(** The outer loop rewrites every row but row 0. *)
Lemma table_run k l rows els header rws :
  sheet_rows cfg l = Some rows → els !! k = Some (ETable (header :: rws)) →
  Forall (λ row, length row = length header) rws → Forall answered (concat rws) →
  ∃ l', forM_ (seq 1 (length (header :: rws) - 1))
          (λ i, forM_ (seq 0 (num_columns (header :: rws))) (λ j, rewrite_cell cfg ts chat dd cr k i j))
          (l, Some els) =
          (Some tt, (l', Some (<[k := ETable (rewrite_table ans (header :: rws))]> els))) ∧
        logged cfg ts l (concat (map ex (concat rws))) l'.
Proof.
  intros Hr Hk Hrect Hans. simpl. rewrite Nat.sub_0_r.
  destruct (forM_inv (seq 1 (length rws))
    (λ i, forM_ (seq 0 (length header)) (λ j, rewrite_cell cfg ts chat dd cr k i j))
    (λ pre st, st.2 = Some (<[k := ETable (header :: map (map ans) (take (length pre) rws) ++
                                                       drop (length pre) rws)]> els) ∧
               logged cfg ts l (concat (map ex (concat (take (length pre) rws)))) st.1) (l, Some els))
    as ([l' x] & Hrun & Hx & L).
  - simpl. rewrite drop_0, (list_insert_id els k _ Hk). split; [done|apply logged_nil].
  - intros pre i post [l1 x1] Hs [Hx1 L1]. simpl in Hx1, L1. subst x1.
    pose proof (seq_split_at _ _ _ _ _ Hs) as ->. pose proof (seq_prefix_lt _ _ _ _ _ Hs) as Hlt.
    destruct (lookup_lt_is_Some_2 rws (length pre) Hlt) as [r Hr'].
    pose proof (Forall_lookup_1 _ _ _ _ Hrect Hr') as Hlen. simpl in Hlen.
    destruct (logged_sheet cfg ts _ _ _ _ L1 Hr) as [rows1 Hr1].
    assert (Hr_ans : Forall answered r).
    { apply Forall_concat in Hans. exact (Forall_lookup_1 _ _ _ _ Hans Hr'). }
    destruct (row_run k (S (length pre)) l1 rows1 _
                (header :: map (map ans) (take (length pre) rws) ++ drop (length pre) rws) r Hr1
                (lookup_insert_at _ _ _ _ Hk) (lookup_map_take_drop (map ans) _ _ _ Hr') Hr_ans)
      as (l2 & Hrun & L2).
    exists (l2, Some (<[k := ETable (header :: map (map ans) (take (S (length pre)) rws) ++
                                                drop (S (length pre)) rws)]> els)).
    rewrite length_app, Nat.add_1_r. split_and!.
    + simpl. rewrite <-Hlen, Hrun, list_insert_insert_eq. simpl.
      by rewrite (insert_map_take_drop rws (map ans) _ _ Hr').
    + done.
    + rewrite (take_S_r _ _ _ Hr'), concat_app, map_app, concat_app. simpl. rewrite app_nil_r.
      exact (logged_app cfg ts _ _ _ _ _ L1 L2).
  - exists l'. simpl in Hx, L. rewrite length_seq, take_ge, drop_ge, app_nil_r in Hx by lia.
    rewrite length_seq, take_ge in L by lia. by rewrite Hrun, Hx.
Qed.

(** One iteration of [forEach]. *)
Lemma element_run k l rows els e :
  sheet_rows cfg l = Some rows → els !! k = Some e → rectangular e → Forall answered (element_texts e) →
  ∃ l', rewrite_element_at cfg ts chat dd cr k (l, Some els) =
          (Some tt, (l', Some (<[k := rewrite_element ans e]> els))) ∧
        logged cfg ts l (concat (map ex (element_texts e))) l'.
Proof.
  intros Hr Hk He Hans. unfold rewrite_element_at. rewrite (ste_bind_Some _ _ _ _ _ (element_at_run _ _ _ _ Hk)).
  destruct e as [st t|[|header rws]|].
  - destruct (getText_run l rows t (Some els) Hr (Forall_inv Hans)) as (l' & Hq & L). exists l'.
    rewrite (ste_bind_Some _ _ _ _ _ Hq). split; [done|]. simpl. by rewrite ?app_nil_r.
  - exists l. simpl. rewrite (list_insert_id els k _ Hk). split; [done|apply logged_nil].
  - exact (table_run k l rows els header rws Hr Hk He Hans).
  - exists l. simpl. rewrite (list_insert_id els k _ Hk). split; [done|apply logged_nil].
Qed.

(** The first [n] iterations of the [forEach] over the selected
    elements, when the texts of the first [n] elements are answered. *)
Lemma elements_prefix_run n l rows els :
  sheet_rows cfg l = Some rows → n ≤ length els → Forall rectangular (take n els) →
  Forall answered (concat (map element_texts (take n els))) →
  ∃ l', forM_ (seq 0 n) (rewrite_element_at cfg ts chat dd cr) (l, Some els) =
          (Some tt, (l', Some (map (rewrite_element ans) (take n els) ++ drop n els))) ∧
        logged cfg ts l (concat (map ex (concat (map element_texts (take n els))))) l'.
Proof.
  intros Hr Hn Hrect Hans.
  destruct (forM_inv (seq 0 n) (rewrite_element_at cfg ts chat dd cr)
    (λ pre st, st.2 = Some (map (rewrite_element ans) (take (length pre) els) ++ drop (length pre) els) ∧
               logged cfg ts l (concat (map ex (concat (map element_texts (take (length pre) els))))) st.1)
    (l, Some els)) as ([l' x] & Hrun & Hx & L).
  - simpl. rewrite drop_0. split; [done|apply logged_nil].
  - intros pre k post [l1 x1] Hs [Hx1 L1]. simpl in Hx1, L1. subst x1.
    pose proof (seq_split_at _ _ _ _ _ Hs) as ->. pose proof (seq_prefix_lt _ _ _ _ _ Hs) as Hlt.
    destruct (lookup_lt_is_Some_2 els (length pre)) as [e He]; [lia|].
    assert (Hke : take n els !! length pre = Some e) by (rewrite lookup_take_lt by lia; done).
    destruct (logged_sheet cfg ts _ _ _ _ L1 Hr) as [rows1 Hr1].
    assert (He_ans : Forall answered (element_texts e)).
    { apply Forall_concat in Hans. apply (Forall_lookup_1 _ _ (length pre) _ Hans).
      by rewrite list_lookup_fmap, Hke. }
    destruct (element_run (length pre) l1 rows1 _ e Hr1 (lookup_map_take_drop (rewrite_element ans) _ _ _ He)
                (Forall_lookup_1 _ _ _ _ Hrect Hke) He_ans) as (l2 & Hrun & L2).
    exists (l2, Some (map (rewrite_element ans) (take (S (length pre)) els) ++ drop (S (length pre)) els)).
    rewrite length_app, Nat.add_1_r. split_and!.
    + simpl. by rewrite Hrun, (insert_map_take_drop els (rewrite_element ans) _ _ He).
    + done.
    + rewrite (take_S_r _ _ _ He), map_app, concat_app, map_app, concat_app. simpl. rewrite !app_nil_r.
      exact (logged_app cfg ts _ _ _ _ _ L1 L2).
  - exists l'. simpl in Hx, L. rewrite length_seq in Hx, L. by rewrite Hrun, Hx.
Qed.

Lemma elements_run l rows els :
  sheet_rows cfg l = Some rows → Forall rectangular els →
  Forall answered (concat (map element_texts els)) →
  ∃ l', forM_ (seq 0 (length els)) (rewrite_element_at cfg ts chat dd cr) (l, Some els) =
          (Some tt, (l', Some (map (rewrite_element ans) els))) ∧
        logged cfg ts l (concat (map ex (concat (map element_texts els)))) l'.
Proof.
  intros Hr Hrect Hans. rewrite <-(take_ge els (length els)) in Hrect, Hans by done.
  destruct (elements_prefix_run (length els) l rows els Hr (le_n _) Hrect Hans) as (l' & Hrun & L).
  rewrite take_ge, drop_ge, app_nil_r in Hrun by done. rewrite take_ge in L by done. by exists l'.
Qed.

(** An unanswered request: the request line is logged, then the read
    of [choices[0]] throws. *)
Lemma getText_no_answer l rows t (x : option (list PageElement)) :
  sheet_rows cfg l = Some rows → chat (text_request cfg (deep_prompt dd t) cr) = None →
  ∃ l', on_fst (getTextResponse_ cfg ts chat (deep_prompt dd t) cr) (l, x) = (None, (l', x)) ∧
        logged cfg ts l [tag (js "REQ_3") ++ stringify (request_json (text_request cfg (deep_prompt dd t) cr))] l'.
Proof.
  intros Hr Ht. destruct (ask_no_answer cfg ts chat (js "REQ_3") (js "RES_3") _ l rows Hr Ht) as (l' & H & L).
  exists l'. unfold on_fst, getTextResponse_. simpl. rewrite H. by split.
Qed.

(** The elements before a shape whose request is unanswered are
    rewritten; the run throws at that shape, which keeps its text. *)
Lemma elements_fail_at l rows pre st t post :
  sheet_rows cfg l = Some rows → Forall rectangular pre →
  Forall answered (concat (map element_texts pre)) →
  chat (text_request cfg (deep_prompt dd t) cr) = None →
  ∃ l', forM_ (seq 0 (length (pre ++ EShape st t :: post))) (rewrite_element_at cfg ts chat dd cr)
          (l, Some (pre ++ EShape st t :: post)) =
          (None, (l', Some (map (rewrite_element ans) pre ++ EShape st t :: post))) ∧
        logged cfg ts l (concat (map ex (concat (map element_texts pre))) ++
                         [tag (js "REQ_3") ++ stringify (request_json (text_request cfg (deep_prompt dd t) cr))]) l'.
Proof.
  intros Hr Hrect Hans Ht. set (els := pre ++ EShape st t :: post).
  assert (Htake : take (length pre) els = pre) by apply take_app_length.
  assert (Hdrop : drop (length pre) els = EShape st t :: post) by apply drop_app_length.
  destruct (elements_prefix_run (length pre) l rows els Hr) as (l1 & Hrun1 & L1);
    [subst els; rewrite length_app; lia|by rewrite Htake|by rewrite Htake|].
  rewrite Htake, Hdrop in Hrun1. rewrite Htake in L1.
  destruct (logged_sheet cfg ts _ _ _ _ L1 Hr) as [rows1 Hr1].
  destruct (getText_no_answer l1 rows1 t (Some (map (rewrite_element ans) pre ++ EShape st t :: post)) Hr1 Ht)
    as (l2 & Hq & L2).
  exists l2. split; [|exact (logged_app cfg ts _ _ _ _ _ L1 L2)].
  rewrite (seq_app_cons 0 _ (length pre)) by (subst els; rewrite length_app; simpl; lia).
  rewrite forM_app, (ste_bind_Some _ _ _ _ _ Hrun1). simpl.
  assert (Hk : (map (rewrite_element ans) pre ++ EShape st t :: post) !! length pre = Some (EShape st t)).
  { rewrite lookup_app_r, length_map, Nat.sub_diag by (rewrite length_map; lia). done. }
  erewrite ste_bind_None; [done|]. unfold rewrite_element_at.
  rewrite (ste_bind_Some _ _ _ _ _ (element_at_run _ _ _ _ Hk)). by rewrite (ste_bind_None _ _ _ _ Hq).
Qed.

End TextRun.

(** ** Without a log sheet *)

Section NoSheet.
Context (cfg : Config) (ts : nat → str) (chat : ChatRequest → option str) (dd cr : str).

(** The log after the console line of the first request for [t]. *)
Let first_line (l : LogState) (t : str) : LogState :=
  mkLog (log_console l ++ [log_line ts (log_clock l)
                             (tag (js "REQ_3") ++ stringify (request_json (text_request cfg (deep_prompt dd t) cr)))])
        (log_sheets l) (S (log_clock l)).

Lemma getText_fail l t (x : option (list PageElement)) :
  sheet_rows cfg l = None →
  on_fst (getTextResponse_ cfg ts chat (deep_prompt dd t) cr) (l, x) = (None, (first_line l t, x)).
Proof. intros Hr. unfold on_fst, getTextResponse_. simpl. by rewrite ask_no_sheet. Qed.

(** An element without text makes no request. *)
Lemma element_skip k l els e :
  els !! k = Some e → rectangular e → element_texts e = [] →
  rewrite_element_at cfg ts chat dd cr k (l, Some els) = (Some tt, (l, Some els)).
Proof.
  intros Hk He Ht. unfold rewrite_element_at. rewrite (ste_bind_Some _ _ _ _ _ (element_at_run _ _ _ _ Hk)).
  destruct e as [st t|[|header [|r rws]]|]; try done. simpl in Ht, He.
  apply app_nil in Ht as [-> _]. apply Forall_cons in He as [Hr _]. simpl in Hr.
  apply forM_skip. intros i _. unfold num_columns. by rewrite <-Hr.
Qed.

(** The first request throws, after its console line. *)
Lemma element_fail k l els e t r :
  sheet_rows cfg l = None → els !! k = Some e → rectangular e → element_texts e = t :: r →
  rewrite_element_at cfg ts chat dd cr k (l, Some els) = (None, (first_line l t, Some els)).
Proof.
  intros Hs Hk He Ht. unfold rewrite_element_at. rewrite (ste_bind_Some _ _ _ _ _ (element_at_run _ _ _ _ Hk)).
  destruct e as [st t'|[|header [|r1 rws]]|]; try done; simpl in Ht, He.
  - injection Ht as <- _. by rewrite (ste_bind_None _ _ _ _ (getText_fail _ _ _ Hs)).
  - apply Forall_cons in He as [Hr1 Hrest]. destruct r1 as [|c r1].
    + exfalso. simpl in Ht. rewrite <-Hr1 in Hrest. clear -Ht Hrest.
      induction Hrest as [|x xs Hx _ IH]; [done|]. destruct x; [done|simpl in Hx; lia].
    + injection Ht as <- _. simpl. rewrite <-Hr1. simpl.
      erewrite ste_bind_None; [done|]. erewrite ste_bind_None; [done|].
      unfold rewrite_cell. rewrite (ste_bind_Some _ _ _ _ _ (cell_text_run k 1 0 l els _ (c :: r1) c Hk eq_refl eq_refl)).
      by rewrite (ste_bind_None _ _ _ _ (getText_fail _ _ _ Hs)).
Qed.

Lemma generateText_no_sheet l els :
  sheet_rows cfg l = None → Forall rectangular els →
  generateTextInCurrentElement cfg ts chat dd cr (l, Some els) =
    match concat (map element_texts els) with
    | [] => (Some tt, (l, Some els))
    | t :: _ => (None, (first_line l t, Some els))
    end.
Proof.
  intros Hs Hrect. unfold generateTextInCurrentElement.
  cbv beta. rewrite (ste_bind_Some _ _ (l, Some els) els (l, Some els)) by done.
  destruct (concat (map element_texts els)) as [|t r] eqn:E.
  - apply forM_skip. intros k Hk%elem_of_seq.
    destruct (lookup_lt_is_Some_2 els k) as [e He]; [lia|].
    apply (element_skip _ _ _ e He); [by eapply Forall_lookup_1|].
    apply (concat_map_nil _ _ _ E). by eapply list_elem_of_lookup_2.
  - destruct (concat_map_first _ _ _ _ E) as (pre & e & post & r' & -> & Hpre & He).
    rewrite length_app. simpl. rewrite (seq_app_cons 0 _ (length pre)) by lia. simpl.
    apply forM_skip_then_fail.
    + intros k Hk%elem_of_seq. destruct (lookup_lt_is_Some_2 pre k) as [y Hy]; [lia|].
      apply (element_skip _ _ _ y); [by rewrite lookup_app_l by lia| |exact (Forall_lookup_1 _ _ _ _ Hpre Hy)].
      apply Forall_app in Hrect as [Hrect _]. exact (Forall_lookup_1 _ _ _ _ Hrect Hy).
    + apply (element_fail _ _ _ e _ r' Hs); [by rewrite list_lookup_middle| |done].
      apply Forall_app in Hrect as [_ Hrect]. by apply Forall_cons in Hrect as [? _].
Qed.

End NoSheet.

(** ** The text path *)

(** C11: [generateTextInCurrentElement] refines the rewrite of the
    selected elements by the answers: when the log sheet opens and every
    request is answered, every selected shape gets the trimmed answer for
    [deepDive + "\n" + text], every cell below row 0 of a selected table
    the answer for its own text, and the sheet gets, request after
    request in the order of the loops, the [【REQ_3】] line with the
    request's JSON and the [【RES_3】] line with the answer.  Without a
    page-element range it throws before any request. *)
Theorem generateTextInCurrentElement_refines cfg ts chat reply deepDive creativity els l rows :
  sheet_rows cfg l = Some rows → Forall rectangular els →
  Forall (λ t, chat (text_request cfg (deep_prompt deepDive t) creativity) =
               Some (reply (text_request cfg (deep_prompt deepDive t) creativity)))
         (concat (map element_texts els)) →
  (∃ l', generateTextInCurrentElement cfg ts chat deepDive creativity (l, Some els) =
           (Some tt, (l', Some (map (rewrite_element (text_answer cfg reply deepDive creativity)) els))) ∧
         logged cfg ts l (concat (map (text_exchange cfg reply deepDive creativity)
                                      (concat (map element_texts els)))) l') ∧
  generateTextInCurrentElement cfg ts chat deepDive creativity (l, None) = (None, (l, None)).
Proof.
  intros Hr Hrect Hans. split; [|done].
  destruct (elements_run cfg ts chat reply deepDive creativity l rows els Hr Hrect Hans) as (l' & Hrun & L).
  exists l'. unfold generateTextInCurrentElement. cbv beta.
  by rewrite (ste_bind_Some _ _ (l, Some els) els (l, Some els)), Hrun.
Qed.

Lemma generateTextInCurrentElement_refines_witness :
  let cfg := load_config (λ k, if bool_decide (k = js "SHEET_ID") then Some (js "log") else None) in
  let l := mkLog [] {[js "log" := []]} 0 in
  let els := [EShape TEXT_BOX (js "a"); ETable [[js "h"]; [js "c"]]; EOther] in
  (∃ l', generateTextInCurrentElement cfg (λ _, js "d") (λ _, Some (js " x ")) (js "more") (js "low")
           (l, Some els) =
           (Some tt, (l', Some (map (rewrite_element (text_answer cfg (λ _, js " x ") (js "more") (js "low"))) els))) ∧
         logged cfg (λ _, js "d") l (concat (map (text_exchange cfg (λ _, js " x ") (js "more") (js "low"))
                                                (concat (map element_texts els)))) l') ∧
  generateTextInCurrentElement cfg (λ _, js "d") (λ _, Some (js " x ")) (js "more") (js "low") (l, None) =
    (None, (l, None)).
Proof.
  intros cfg l els.
  apply (generateTextInCurrentElement_refines cfg (λ _, js "d") (λ _, Some (js " x ")) (λ _, js " x ")
           (js "more") (js "low") els l []).
  - reflexivity.
  - repeat constructor.
  - repeat constructor.
Defined.

(** In a selected table row 0 is kept and every cell of the other
    rows, column 0 included, is replaced by the answer for it; the
    comment of the loop says the first column is the header. *)
Theorem generateText_table_cell cfg ts reply deepDive creativity els l rows k cells i j row t :
  sheet_rows cfg l = Some rows → Forall rectangular els →
  els !! k = Some (ETable cells) → cells !! i = Some row → row !! j = Some t →
  ∃ l' els', generateTextInCurrentElement cfg ts (λ rq, Some (reply rq)) deepDive creativity (l, Some els) =
               (Some tt, (l', Some els')) ∧
    (els' !! k ≫= λ e, match e with ETable c => c !! i ≫= (.!! j) | _ => None end) =
      Some (if bool_decide (i = 0) then t else text_answer cfg reply deepDive creativity t).
Proof.
  intros Hr Hrect Hk Hi Hj.
  destruct (elements_run cfg ts (λ rq, Some (reply rq)) reply deepDive creativity l rows els Hr Hrect)
    as (l' & Hrun & _); [by apply Forall_forall|].
  eexists l', _. split.
  { unfold generateTextInCurrentElement. cbv beta. by rewrite (ste_bind_Some _ _ (l, Some els) els (l, Some els)), Hrun. }
  rewrite list_lookup_fmap, Hk. simpl. destruct cells as [|header rws]; [done|].
  destruct i as [|i]; simpl in *.
  - injection Hi as <-. by rewrite Hj.
  - rewrite list_lookup_fmap, Hi. simpl. by rewrite list_lookup_fmap, Hj.
Qed.

Lemma generateText_table_cell_witness :
  let cfg := load_config (λ k, if bool_decide (k = js "SHEET_ID") then Some (js "log") else None) in
  let l := mkLog [] {[js "log" := []]} 0 in
  let els := [ETable [[js "h1"; js "h2"]; [js "a"; js "b"]]] in
  sheet_rows cfg l = Some [] ∧ Forall rectangular els ∧
  ∃ l' els', generateTextInCurrentElement cfg (λ _, js "d") (λ _, Some (js " x ")) (js "more") (js "low")
               (l, Some els) = (Some tt, (l', Some els')) ∧
    (els' !! 0 ≫= λ e, match e with ETable c => c !! 1 ≫= (.!! 0) | _ => None end) =
      Some (if bool_decide (1 = 0) then js "a" else text_answer cfg (λ _, js " x ") (js "more") (js "low") (js "a")).
Proof.
  intros cfg l els. assert (Hr : sheet_rows cfg l = Some []) by reflexivity.
  assert (Hrect : Forall rectangular els) by (repeat constructor).
  split; [done|]. split; [done|].
  exact (generateText_table_cell cfg (λ _, js "d") (λ _, js " x ") (js "more") (js "low") els l [] 0
           _ 1 0 [js "a"; js "b"] (js "a") Hr Hrect eq_refl eq_refl eq_refl).
Defined.

(** C18: The rewrite is written in place, answer after answer: when the
    request for a selected shape gets no answer (its [choices[0]] is
    missing), [generateTextInCurrentElement] throws there, after logging
    that request; the elements before it keep their rewritten text (and
    their requests and answers stay logged), that shape and the elements
    after it keep theirs. *)
Theorem generateText_partial_rewrite cfg ts chat reply deepDive creativity l rows pre st t post :
  sheet_rows cfg l = Some rows → Forall rectangular pre →
  Forall (λ u, chat (text_request cfg (deep_prompt deepDive u) creativity) =
               Some (reply (text_request cfg (deep_prompt deepDive u) creativity)))
         (concat (map element_texts pre)) →
  chat (text_request cfg (deep_prompt deepDive t) creativity) = None →
  ∃ l', generateTextInCurrentElement cfg ts chat deepDive creativity (l, Some (pre ++ EShape st t :: post)) =
          (None, (l', Some (map (rewrite_element (text_answer cfg reply deepDive creativity)) pre ++
                            EShape st t :: post))) ∧
        logged cfg ts l (concat (map (text_exchange cfg reply deepDive creativity)
                                     (concat (map element_texts pre))) ++
                         [tag (js "REQ_3") ++
                          stringify (request_json (text_request cfg (deep_prompt deepDive t) creativity))]) l'.
Proof.
  intros Hr Hrect Hans Ht.
  destruct (elements_fail_at cfg ts chat reply deepDive creativity l rows pre st t post Hr Hrect Hans Ht)
    as (l' & Hrun & L).
  exists l'. split; [|done]. unfold generateTextInCurrentElement. cbv beta.
  by rewrite (ste_bind_Some _ _ (l, Some (pre ++ EShape st t :: post)) (pre ++ EShape st t :: post)
                (l, Some (pre ++ EShape st t :: post))), Hrun.
Qed.

Lemma generateText_partial_rewrite_witness :
  let cfg := load_config (λ k, if bool_decide (k = js "SHEET_ID") then Some (js "log") else None) in
  let l := mkLog [] {[js "log" := []]} 0 in
  let chat := λ rq : ChatRequest,
    if bool_decide (rq = text_request cfg (deep_prompt (js "more") (js "b")) (js "low")) then None
    else Some (js " x ") in
  ∃ l', generateTextInCurrentElement cfg (λ _, js "d") chat (js "more") (js "low")
          (l, Some ([EShape TEXT_BOX (js "a")] ++ EShape TEXT_BOX (js "b") :: [EShape TEXT_BOX (js "c")])) =
          (None, (l', Some (map (rewrite_element (text_answer cfg (λ _, js " x ") (js "more") (js "low")))
                              [EShape TEXT_BOX (js "a")] ++ EShape TEXT_BOX (js "b") :: [EShape TEXT_BOX (js "c")]))) ∧
        logged cfg (λ _, js "d") l
          (concat (map (text_exchange cfg (λ _, js " x ") (js "more") (js "low"))
                       (concat (map element_texts [EShape TEXT_BOX (js "a")]))) ++
           [tag (js "REQ_3") ++
            stringify (request_json (text_request cfg (deep_prompt (js "more") (js "b")) (js "low")))]) l'.
Proof.
  intros cfg l chat.
  apply (generateText_partial_rewrite cfg (λ _, js "d") chat (λ _, js " x ") (js "more") (js "low") l []).
  - reflexivity.
  - repeat constructor.
  - repeat constructor.
  - unfold chat. by rewrite bool_decide_eq_true_2.
Defined.
