(* ===== verification/JsonRender.v ===== *)
(** The renderer of the assistant path: [createSlidesInCurrentPresentation]
    ([src/code.js] lines 36-87).  It asks [getSlidesResponse_] (lines
    232-288) for the deck: the request and the answer logged
    ([Assistant.ask]), the answer trimmed, its fences removed
    ([Assistant.removeJsonCodeBlock_]) and parsed, a parse error logged
    and rethrown.  The chat endpoint [chat] and [JSON_parse] are section
    variables (HTTP and a library); [render_json_deck] is the part from
    line 40 on.  The script runs on the log and the presentation: the
    request on the first, the rendering on the second.

    A point of the JSON is a string or an object; [point.code] is read on
    both, so a string point is appended as a bullet and an object with a
    truthy [code] is inserted as a code block.  An object without a truthy
    [code] is passed to [appendParagraph], which receives its string form
    [OBJECT_TEXT] ("[object Object]").

    The file ends with [scripts_keep_wf]: both renderers keep the
    presentation well formed ([Host.pres_wf]), whether they finish or
    throw; and with the run on an answer without a [slides] array, which
    throws after the title slide is appended
    ([json_without_slides_leaves_title_slide]). *)

From stdpp Require Import gmap.
From S2P Require Import Prelude JsString StateM Host Render Config Logging ChatRequest Assistant.

Inductive JPoint := JText (text : str) | JObj (code : option str).

Record JSlide := mkJSlide { jtitle : str; jcode : option str; jpoints : option (list JPoint) }.

(** The parsed answer: [json.title] and [json.slides], [None] when the
    answer has no [slides] array. *)
Record JDeck := mkJDeck { jdtitle : str; jdslides : option (list JSlide) }.

Definition OBJECT_TEXT : str := js "[object Object]".

(** The body of [for (const point of slideData.points)]. *)
Definition json_point (x : nat) (point : JPoint) : HostM unit :=
  match point with
  | JText t => lift_op (append_para x 1 (mkPara t BulletPara))
  | JObj code =>
      match truthy code with
      | Some c => insertCodeBlockText_ c x
      | None => lift_op (append_para x 1 (mkPara OBJECT_TEXT BulletPara))
      end
  end.

Section JsonRenderer.
Context (placeholders : Layout → nat).

(** The body of [slides.forEach((slideData, index) => ...)]: a
    title-and-body slide, its title, then the code, then the points. *)
Definition render_json_slide (sd : JSlide) : HostM nat :=
  x ← host_append placeholders TITLE_AND_BODY;
  _ ← lift_op (set_text x 0 (jtitle sd));
  _ ← match truthy (jcode sd) with
      | Some c => insertCodeBlockText_ c x
      | None => mret tt
      end;
  _ ← match jpoints sd with
      | Some pts => forM_ pts (json_point x)
      | None => mret tt
      end;
  mret x.

(** [createSlidesInCurrentPresentation] from line 40 on, on the parsed
    answer [json], with the id of the selected page; reading it throws
    when there is no current page ([None]), and [slides.forEach] throws
    when the answer has no [slides] array, after the title slide is
    appended. *)
Definition render_json_deck (json : JDeck) (sel : option nat) : HostM unit :=
  slideObjectId ← lift_opt sel;
  p ← get_pres;
  let slideIndex := getSlideIndexByObjectId_ p slideObjectId in
  titleSlide ← host_append placeholders TITLE;
  _ ← lift_op (set_text titleSlide 0 (jdtitle json));
  slides ← lift_opt (jdslides json);
  added ← mapH render_json_slide slides;
  modify (move_all (titleSlide :: added) (slideIndex + 1)).

(** The configuration, the dates and the chat-completion endpoint, as
    in [Assistant]. *)
Variable cfg : Config.
Variable toLocaleString : nat → str.
Variable chat : ChatRequest → option str.

(** [JSON.parse] of the cleaned answer with the reads of [title] and
    [slides]; [inl e] with the text of the error when it throws. *)
Variable JSON_parse : str → str + JDeck.

(** [getSlidesResponse_(prompt, numPages, creativity)] (lines 232-288):
    the request and its log lines, then the answer's content, trimmed,
    fences removed, parsed; a parse error is logged as [【ERR_1】] and
    rethrown. *)
Definition getSlidesResponse_ (prompt numPages creativity : str) : LogM JDeck :=
  content ← ask cfg toLocaleString chat (js "REQ_1") (js "RES_1") (slides_request cfg prompt numPages creativity);
  match JSON_parse (removeJsonCodeBlock_ content) with
  | inr json => mret json
  | inl e => log_ cfg toLocaleString (tag (js "ERR_1") ++ e);; lift_opt None
  end.

(** [createSlidesInCurrentPresentation(inputText, numPages, creativity)]:
    the answer first (line 38), with the log, then the slides. *)
Definition createSlidesInCurrentPresentation (inputText numPages creativity : str)
    (sel : option nat) : StE (LogState * Pres) unit :=
  json ← on_fst (getSlidesResponse_ inputText numPages creativity);
  on_snd (render_json_deck json sel).

End JsonRenderer.

(** ** The effect on the shapes of the new slide *)

(** What [insertCodeBlockText_] does to the shapes of a slide. *)
Definition code_effect (c : str) (shs : list Shape) : option (list Shape) :=
  if bool_decide (length (code_lines c) ≤ 1) then Some shs
  else code_box (code_lines c) (code_font_size (length (code_lines c))) shs.

Definition append_effect (para : Para) (shs : list Shape) : option (list Shape) :=
  sh ← shs !! 1; Some (<[1 := with_paras (paras sh ++ [para]) sh]> shs).

Definition json_point_effect (point : JPoint) : list Shape → option (list Shape) :=
  match point with
  | JText t => append_effect (mkPara t BulletPara)
  | JObj code =>
      match truthy code with
      | Some c => code_effect c
      | None => append_effect (mkPara OBJECT_TEXT BulletPara)
      end
  end.

Fixpoint json_points_effect (pts : list JPoint) (shs : list Shape) : option (list Shape) :=
  match pts with
  | [] => Some shs
  | pt :: r => json_point_effect pt shs ≫= json_points_effect r
  end.

(** The shapes of a new slide of the JSON path. *)
Definition json_slide_shapes (n : nat) (sd : JSlide) : option (list Shape) :=
  let shs0 := <[0 := text_shape (text_paras (jtitle sd))]> (replicate n (text_shape [])) in
  shs1 ← match truthy (jcode sd) with Some c => code_effect c shs0 | None => Some shs0 end;
  match jpoints sd with Some pts => json_points_effect pts shs1 | None => Some shs1 end.


(** ** Lemmas *)

Section LastSlide.
Context (old : list PSlide) (x : nat) (l : Layout) (m : nat).
Hypothesis Hfresh : x ∉ sid <$> old.

Let at_last (shs : list Shape) : Pres := mkPres (old ++ [mkPSlide x l shs]) m.

Lemma lift_op_last f shs shs' :
  f shs = Some shs' → lift_op (update_shapes x f) (at_last shs) = (Some tt, at_last shs').
Proof using Hfresh. intros Hf. apply lift_op_Some. by apply update_shapes_last. Qed.

Lemma code_last c shs shs' :
  code_effect c shs = Some shs' → insertCodeBlockText_ c x (at_last shs) = (Some tt, at_last shs').
Proof using Hfresh.
  unfold code_effect. case_bool_decide as Hc.
  - intros [= <-]. by apply insertCodeBlockText_short.
  - intros H. rewrite insertCodeBlockText_long by lia. by apply lift_op_last.
Qed.

Lemma json_point_last pt shs shs' :
  json_point_effect pt shs = Some shs' → json_point x pt (at_last shs) = (Some tt, at_last shs').
Proof using Hfresh.
  destruct pt as [t|code]; simpl; [apply lift_op_last|].
  destruct (truthy code); [apply code_last|apply lift_op_last].
Qed.

Lemma json_points_last pts shs shs' :
  json_points_effect pts shs = Some shs' → forM_ pts (json_point x) (at_last shs) = (Some tt, at_last shs').
Proof using Hfresh.
  revert shs. induction pts as [|pt pts IH]; intros shs; simpl; [by intros [= <-]|].
  destruct (json_point_effect pt shs) as [shs1|] eqn:E; [|done]. simpl. intros H.
  rewrite (ste_bind_Some _ _ _ _ _ (json_point_last _ _ _ E)). by apply IH.
Qed.

End LastSlide.

(** Every effect keeps at least two shapes, so none fails. *)
Lemma json_point_effect_some pt shs :
  2 ≤ length shs → ∃ shs', json_point_effect pt shs = Some shs' ∧ 2 ≤ length shs'.
Proof.
  intros Hl. destruct (lookup_lt_is_Some_2 shs 1) as [body Hb]; [lia|].
  assert (Happ : ∀ para, ∃ shs', append_effect para shs = Some shs' ∧ 2 ≤ length shs').
  { intros para. unfold append_effect. rewrite Hb. simpl. eexists. split; [done|]. by rewrite length_insert. }
  destruct pt as [t|code]; simpl; [apply Happ|]. destruct (truthy code) as [c|]; [|apply Happ].
  unfold code_effect, code_box. case_bool_decide; [by eexists|]. rewrite Hb. simpl.
  eexists. split; [done|]. rewrite length_app. lia.
Qed.

Lemma json_points_effect_some pts shs :
  2 ≤ length shs → ∃ shs', json_points_effect pts shs = Some shs'.
Proof.
  revert shs. induction pts as [|pt pts IH]; intros shs Hl; simpl; [by eexists|].
  destruct (json_point_effect_some pt shs Hl) as (shs1 & -> & Hl1). simpl. by apply IH.
Qed.

Lemma json_slide_shapes_some n sd : 2 ≤ n → ∃ shs, json_slide_shapes n sd = Some shs.
Proof.
  intros Hn. unfold json_slide_shapes.
  set (shs0 := <[0 := text_shape (text_paras (jtitle sd))]> (replicate n (text_shape []))).
  assert (H0 : 2 ≤ length shs0) by (subst shs0; by rewrite length_insert, length_replicate).
  destruct (json_point_effect_some (JObj (jcode sd)) shs0 H0) as (shs1 & Hs1 & Hl1).
  simpl in Hs1. destruct (truthy (jcode sd)) as [c|]; rewrite ?Hs1; simpl;
    destruct (jpoints sd); try (by eexists); by apply json_points_effect_some.
Qed.

Lemma render_json_slide_run pl sd p shs :
  1 ≤ pl TITLE_AND_BODY → json_slide_shapes (pl TITLE_AND_BODY) sd = Some shs →
  next_id p ∉ slide_order p →
  render_json_slide pl sd p =
  (Some (next_id p), mkPres (pslides p ++ [mkPSlide (next_id p) TITLE_AND_BODY shs]) (S (next_id p))).
Proof.
  intros Hpl Hshs Hfresh. simpl in Hfresh. unfold render_json_slide, json_slide_shapes in *.
  rewrite bind_host_append.
  set (shs0 := <[0 := text_shape (text_paras (jtitle sd))]> (replicate (pl TITLE_AND_BODY) (text_shape []))) in *.
  rewrite (bind_lift_op_Some _ _ _ (mkPres (pslides p ++ [mkPSlide (next_id p) TITLE_AND_BODY shs0]) (S (next_id p)))).
  2: { apply update_shapes_last; [done|]. by rewrite lookup_replicate_2 by lia. }
  cbv beta.
  destruct (match truthy (jcode sd) with Some c => code_effect c shs0 | None => Some shs0 end)
    as [shs1|] eqn:E1; [|done]. simpl in Hshs.
  rewrite (ste_bind_Some _ _ _ tt (mkPres (pslides p ++ [mkPSlide (next_id p) TITLE_AND_BODY shs1]) (S (next_id p)))).
  2: { destruct (truthy (jcode sd)); [by apply code_last|]. by injection E1 as <-. }
  cbv beta. destruct (jpoints sd) as [pts|].
  - by rewrite (ste_bind_Some _ _ _ tt _ (json_points_last _ _ _ _ Hfresh _ _ _ Hshs)).
  - injection Hshs as <-. done.
Qed.

(** C25: [render_json_slide] appends one title-and-body slide with the
    next id whose shapes are [json_slide_shapes]: the title, then the code
    box (a copy of the still empty body), then the points in order, a code
    object among them getting a box that copies the bullets before it. *)
Theorem render_json_slide_spec pl sd p shs :
  1 ≤ pl TITLE_AND_BODY → json_slide_shapes (pl TITLE_AND_BODY) sd = Some shs →
  next_id p ∉ slide_order p →
  render_json_slide pl sd p =
  (Some (next_id p), mkPres (pslides p ++ [mkPSlide (next_id p) TITLE_AND_BODY shs]) (S (next_id p))).
Proof. apply render_json_slide_run. Qed.

Lemma render_json_slide_appends pl : 2 ≤ pl TITLE_AND_BODY → appends_one (render_json_slide pl).
Proof.
  intros Hpl sd p Hf. destruct (json_slide_shapes_some (pl TITLE_AND_BODY) sd Hpl) as [shs Hshs].
  eexists _, _. apply render_json_slide_run; [lia|done|by apply fresh_ids_notin].
Qed.

Lemma render_json_deck_placement pl title xs oid p :
  1 ≤ pl TITLE → 2 ≤ pl TITLE_AND_BODY →
  NoDup (slide_order p) → fresh_ids p → pslides p ≠ [] →
  ∃ p', render_json_deck pl (mkJDeck title (Some xs)) (Some oid) p = (Some tt, p') ∧
    slide_order p' =
      take (S (getSlideIndexByObjectId_ p oid)) (slide_order p) ++
      seq (next_id p) (S (length xs)) ++
      drop (S (getSlideIndexByObjectId_ p oid)) (slide_order p).
Proof.
  intros Ht Hb Hnd Hf Hne. unfold render_json_deck.
  rewrite bind_lift_opt, bind_get_pres. rewrite Nat.add_1_r.
  exact (title_slides_then_move pl (render_json_slide pl) title xs _ p
           (render_json_slide_appends _ Hb) Ht Hnd Hf (getSlideIndexByObjectId_lt p oid Hne)).
Qed.

(** The script runs the request on the log, then the renderer on the
    presentation. *)
Lemma create_run pl cfg ts chat JSON_parse inputText numPages creativity sel l l' p json :
  getSlidesResponse_ cfg ts chat JSON_parse inputText numPages creativity l = (Some json, l') →
  createSlidesInCurrentPresentation pl cfg ts chat JSON_parse inputText numPages creativity sel (l, p) =
    ((render_json_deck pl json sel p).1, (l', (render_json_deck pl json sel p).2)).
Proof.
  intros Hr. unfold createSlidesInCurrentPresentation. cbv beta.
  by rewrite (ste_bind_Some _ _ _ json (l', p)) by (unfold on_fst; simpl; by rewrite Hr).
Qed.

Lemma create_fail pl cfg ts chat JSON_parse inputText numPages creativity sel l l' p :
  getSlidesResponse_ cfg ts chat JSON_parse inputText numPages creativity l = (None, l') →
  createSlidesInCurrentPresentation pl cfg ts chat JSON_parse inputText numPages creativity sel (l, p) =
    (None, (l', p)).
Proof.
  intros Hr. unfold createSlidesInCurrentPresentation. cbv beta.
  by rewrite (ste_bind_None _ _ _ (l', p)) by (unfold on_fst; simpl; by rewrite Hr).
Qed.

(** C10: [createSlidesInCurrentPresentation], when the answer parses into
    a title and a [slides] array and there is a current page, on a theme
    with title and body placeholders succeeds and puts the title slide
    and one slide per JSON slide, in order, right after the selected
    slide (after the first slide when the selected page is not a
    slide); the log is the one the request left. *)
Theorem createSlidesInCurrentPresentation_placement pl cfg ts chat JSON_parse
    inputText numPages creativity l l' title xs oid p :
  getSlidesResponse_ cfg ts chat JSON_parse inputText numPages creativity l =
    (Some (mkJDeck title (Some xs)), l') →
  1 ≤ pl TITLE → 2 ≤ pl TITLE_AND_BODY →
  NoDup (slide_order p) → fresh_ids p → pslides p ≠ [] →
  ∃ p', createSlidesInCurrentPresentation pl cfg ts chat JSON_parse inputText numPages creativity
          (Some oid) (l, p) = (Some tt, (l', p')) ∧
    slide_order p' =
      take (S (getSlideIndexByObjectId_ p oid)) (slide_order p) ++
      seq (next_id p) (S (length xs)) ++
      drop (S (getSlideIndexByObjectId_ p oid)) (slide_order p).
Proof.
  intros Hr Ht Hb Hnd Hf Hne.
  destruct (render_json_deck_placement pl title xs oid p Ht Hb Hnd Hf Hne) as (p' & Hp & Ho).
  exists p'. by rewrite (create_run _ _ _ _ _ _ _ _ _ _ _ _ _ Hr), Hp.
Qed.

Lemma createSlidesInCurrentPresentation_placement_witness :
  let cfg := load_config (λ k, if bool_decide (k = js "SHEET_ID") then Some (js "log") else None) in
  let l := mkLog [] {[js "log" := []]} 0 in
  let p := mkPres [mkPSlide 0 TITLE_AND_BODY [text_shape []; text_shape []]; mkPSlide 1 TITLE_AND_BODY [text_shape []; text_shape []]] 2 in
  let xs := [mkJSlide (js "A") None (Some [JText (js "a")])] in
  let parse := λ _ : str, inr (mkJDeck (js "T") (Some xs)) : str + JDeck in
  let l' := (getSlidesResponse_ cfg (λ _, js "d") (λ _, Some (js "{}")) parse (js "topic") (js "1") (js "low") l).2 in
  ∃ p', createSlidesInCurrentPresentation (λ _, 2) cfg (λ _, js "d") (λ _, Some (js "{}")) parse
          (js "topic") (js "1") (js "low") (Some 0) (l, p) = (Some tt, (l', p')) ∧
    slide_order p' =
      take (S (getSlideIndexByObjectId_ p 0)) (slide_order p) ++
      seq (next_id p) (S (length xs)) ++
      drop (S (getSlideIndexByObjectId_ p 0)) (slide_order p).
Proof.
  intros cfg l p xs parse l'. apply (createSlidesInCurrentPresentation_placement _ _ _ _ _ _ _ _ _ _ (js "T")).
  - vm_compute. reflexivity.
  - lia.
  - lia.
  - apply (bool_decide_unpack _). vm_compute. exact I.
  - intros y Hy. simpl in *. repeat (apply elem_of_cons in Hy as [->|Hy]; [lia|]).
    by apply not_elem_of_nil in Hy.
  - discriminate.
Defined.

Lemma render_json_slide_spec_witness :
  let sd := mkJSlide (js "A") (Some (js "a" ++ [LF] ++ js "b")) (Some [JText (js "x")]) in
  render_json_slide (λ _, 2) sd (mkPres [] 0) =
  (Some 0, mkPres [mkPSlide 0 TITLE_AND_BODY
                     [text_shape (text_paras (js "A")); text_shape [mkPara (js "x") BulletPara];
                      mkShape [mkPara (js "a") (CodePara (code_style 12)); mkPara (js "b") (CodePara (code_style 12))]
                        (Some 200) (Some 500)]] 1).
Proof.
  intros sd. apply (render_json_slide_spec (λ _, 2) sd (mkPres [] 0)).
  - lia.
  - vm_compute. reflexivity.
  - apply not_elem_of_nil.
Defined.

(** ** Well-formedness of the presentation *)

Lemma keeps_wf_json_point x pt : keeps_wf (json_point x pt).
Proof. destruct pt as [t|code]; simpl; [|destruct (truthy code)]; eauto with host_wf. Qed.

#[export] Hint Resolve keeps_wf_json_point : host_wf.

Lemma keeps_wf_render_json_slide pl sd : keeps_wf (render_json_slide pl sd).
Proof. unfold render_json_slide. destruct (truthy (jcode sd)), (jpoints sd); eauto 10 with host_wf. Qed.

#[export] Hint Resolve keeps_wf_render_json_slide : host_wf.

Lemma keeps_wf_render_json_deck pl json sel : keeps_wf (render_json_deck pl json sel).
Proof. unfold render_json_deck. eauto 10 with host_wf. Qed.

#[export] Hint Resolve keeps_wf_render_json_deck : host_wf.

Lemma keeps_wf_createSlidesInCurrentPresentation pl cfg ts chat JSON_parse inputText numPages
    creativity sel :
  keeps (λ st : LogState * Pres, pres_wf st.2)
    (createSlidesInCurrentPresentation pl cfg ts chat JSON_parse inputText numPages creativity sel).
Proof.
  unfold createSlidesInCurrentPresentation. apply keeps_bind; [apply keeps_on_fst|].
  intros json. apply keeps_on_snd, keeps_wf_render_json_deck.
Qed.

(** The run on an answer without a [slides] array. *)
Lemma render_json_deck_no_slides pl title oid p :
  1 ≤ pl TITLE → fresh_ids p →
  render_json_deck pl (mkJDeck title None) (Some oid) p =
  (None, mkPres (pslides p ++ [mkPSlide (next_id p) TITLE
                                 (<[0 := text_shape (text_paras title)]> (replicate (pl TITLE) (text_shape [])))])
                (S (next_id p))).
Proof.
  intros Ht Hf. unfold render_json_deck.
  rewrite bind_lift_opt, bind_get_pres, bind_host_append.
  rewrite (bind_lift_op_Some _ _ _ (mkPres (pslides p ++ [mkPSlide (next_id p) TITLE
             (<[0 := text_shape (text_paras title)]> (replicate (pl TITLE) (text_shape [])))]) (S (next_id p)))); [done|].
  apply update_shapes_last; [by apply fresh_ids_notin|]. by rewrite lookup_replicate_2 by lia.
Qed.

(** Both scripts keep the presentation well formed, whatever the
    input and whether they finish or throw: slide ids stay distinct and
    below [next_id], so the hypotheses of the placement theorems hold
    again for the next run. *)
Theorem scripts_keep_wf pl md sel cfg ts chat JSON_parse inputText numPages creativity sel' l p :
  pres_wf p →
  pres_wf (createSlidesFromMarkdown pl md sel p).2 ∧
  pres_wf (createSlidesInCurrentPresentation pl cfg ts chat JSON_parse inputText numPages
             creativity sel' (l, p)).2.2.
Proof.
  intros Hp. split; [by apply keeps_wf_createSlidesFromMarkdown|].
  by apply (keeps_wf_createSlidesInCurrentPresentation _ _ _ _ _ _ _ _ _ (l, p)).
Qed.

Lemma scripts_keep_wf_witness :
  let p := mkPres [mkPSlide 0 TITLE_AND_BODY [text_shape []; text_shape []]; mkPSlide 3 TITLE [text_shape []]] 4 in
  pres_wf (createSlidesFromMarkdown (λ _, 2) (js "# T") (Some 3) p).2 ∧
  pres_wf (createSlidesInCurrentPresentation (λ _, 2) (load_config (λ _, None)) (λ _, js "d") (λ _, None)
             (λ _, inr (mkJDeck (js "T") None)) (js "topic") (js "2") (js "high") (Some 3)
             (mkLog [] ∅ 0, p)).2.2.
Proof.
  intros p. apply scripts_keep_wf. split.
  - apply (bool_decide_unpack _). vm_compute. reflexivity.
  - intros y Hy. vm_compute in Hy. repeat (apply elem_of_cons in Hy as [->|Hy]; [vm_compute; lia|]).
    by apply not_elem_of_nil in Hy.
Defined.

(** ** An answer without slides *)

(** C29: When the answer parses but has no [slides] array,
    [createSlidesInCurrentPresentation] throws at [slides.forEach] after
    it has appended the title slide with the answer's title: that slide
    stays at the end of the presentation instead of after the selected
    slide. *)
Theorem json_without_slides_leaves_title_slide pl cfg ts chat JSON_parse inputText numPages
    creativity l l' title oid p :
  getSlidesResponse_ cfg ts chat JSON_parse inputText numPages creativity l =
    (Some (mkJDeck title None), l') →
  1 ≤ pl TITLE → fresh_ids p →
  createSlidesInCurrentPresentation pl cfg ts chat JSON_parse inputText numPages creativity
    (Some oid) (l, p) =
  (None, (l', mkPres (pslides p ++ [mkPSlide (next_id p) TITLE
                                      (<[0 := text_shape (text_paras title)]> (replicate (pl TITLE) (text_shape [])))])
                     (S (next_id p)))).
Proof.
  intros Hr Ht Hf. by rewrite (create_run _ _ _ _ _ _ _ _ _ _ _ _ _ Hr), render_json_deck_no_slides.
Qed.

Lemma json_without_slides_leaves_title_slide_witness :
  let cfg := load_config (λ k, if bool_decide (k = js "SHEET_ID") then Some (js "log") else None) in
  let l := mkLog [] {[js "log" := []]} 0 in
  let parse := λ _ : str, inr (mkJDeck (js "T") None) : str + JDeck in
  let l' := (getSlidesResponse_ cfg (λ _, js "d") (λ _, Some (js "{}")) parse (js "topic") (js "3") (js "low") l).2 in
  createSlidesInCurrentPresentation (λ _, 2) cfg (λ _, js "d") (λ _, Some (js "{}")) parse
    (js "topic") (js "3") (js "low") (Some 0) (l, mkPres [mkPSlide 0 TITLE_AND_BODY [text_shape []; text_shape []]] 1) =
  (None, (l', mkPres ([mkPSlide 0 TITLE_AND_BODY [text_shape []; text_shape []]] ++
                      [mkPSlide 1 TITLE (<[0 := text_shape (text_paras (js "T"))]> (replicate 2 (text_shape [])))]) 2)).
Proof.
  intros cfg l parse l'.
  apply (json_without_slides_leaves_title_slide (λ _, 2) _ _ _ _ _ _ _ _ _ _ _
           (mkPres [mkPSlide 0 TITLE_AND_BODY [text_shape []; text_shape []]] 1)).
  - vm_compute. reflexivity.
  - lia.
  - intros y Hy. simpl in Hy. apply elem_of_cons in Hy as [->|Hy]; [simpl; lia|].
    by apply not_elem_of_nil in Hy.
Defined.

(** ** The request of the slides *)

(** Without a log sheet the script throws at the first [log_], before the
    request, and the presentation is as it was. *)
Lemma createSlides_no_sheet pl cfg ts chat JSON_parse inputText numPages creativity sel l p :
  sheet_rows cfg l = None →
  createSlidesInCurrentPresentation pl cfg ts chat JSON_parse inputText numPages creativity sel (l, p) =
    (None, (mkLog (log_console l ++
                     [log_line ts (log_clock l)
                        (tag (js "REQ_1") ++
                         stringify (request_json (slides_request cfg inputText numPages creativity)))])
                  (log_sheets l) (S (log_clock l)), p)).
Proof.
  intros Hr. apply create_fail. unfold getSlidesResponse_.
  by rewrite (ste_bind_None _ _ _ _ (ask_no_sheet cfg ts chat _ _ _ l Hr)).
Qed.

(** C17: [getSlidesResponse_], with a log sheet and an answer [c] to the
    slides request, logs the [【REQ_1】] line with the request's JSON and
    the [【RES_1】] line with the trimmed answer; it returns the parse of
    the answer without its fences, or, when the parse throws, logs the
    [【ERR_1】] line with the error and rethrows. *)
Theorem getSlidesResponse_spec cfg ts chat JSON_parse prompt numPages creativity l rows c :
  sheet_rows cfg l = Some rows → chat (slides_request cfg prompt numPages creativity) = Some c →
  ∃ l', getSlidesResponse_ cfg ts chat JSON_parse prompt numPages creativity l =
          (match JSON_parse (removeJsonCodeBlock_ (trim c)) with inr d => Some d | inl _ => None end, l') ∧
        logged cfg ts l
          ([tag (js "REQ_1") ++ stringify (request_json (slides_request cfg prompt numPages creativity));
            tag (js "RES_1") ++ trim c] ++
           match JSON_parse (removeJsonCodeBlock_ (trim c)) with
           | inr _ => []
           | inl e => [tag (js "ERR_1") ++ e]
           end) l'.
Proof.
  intros Hr Hc. destruct (ask_ok cfg ts chat (js "REQ_1") (js "RES_1") _ l rows c Hr Hc) as (l1 & H1 & L1).
  unfold getSlidesResponse_. rewrite (ste_bind_Some _ _ _ _ _ H1).
  destruct (JSON_parse _) as [e|d].
  - destruct (logged_sheet cfg ts _ _ _ _ L1 Hr) as [rows1 Hr1].
    destruct (log_logged cfg ts l1 rows1 (tag (js "ERR_1") ++ e) Hr1) as (l2 & H2 & L2).
    exists l2. rewrite (ste_bind_Some _ _ _ _ _ H2). split; [done|]. exact (logged_app cfg ts _ _ _ _ _ L1 L2).
  - exists l1. rewrite app_nil_r. by split.
Qed.

Lemma getSlidesResponse_spec_witness :
  let cfg := load_config (λ k, if bool_decide (k = js "SHEET_ID") then Some (js "log") else None) in
  let l := mkLog [] {[js "log" := []]} 0 in
  let parse := λ s : str, if bool_decide (s = js "{}") then inr (mkJDeck (js "T") None) else inl (js "SyntaxError") in
  ∃ l', getSlidesResponse_ cfg (λ _, js "d") (λ _, Some (js " ```{}``` ")) parse (js "topic") (js "3") (js "low") l =
          (match parse (removeJsonCodeBlock_ (trim (js " ```{}``` "))) with inr d => Some d | inl _ => None end, l') ∧
        logged cfg (λ _, js "d") l
          ([tag (js "REQ_1") ++ stringify (request_json (slides_request cfg (js "topic") (js "3") (js "low")));
            tag (js "RES_1") ++ trim (js " ```{}``` ")] ++
           match parse (removeJsonCodeBlock_ (trim (js " ```{}``` "))) with
           | inr _ => []
           | inl e => [tag (js "ERR_1") ++ e]
           end) l'.
Proof.
  intros cfg l parse. apply (getSlidesResponse_spec cfg (λ _, js "d") (λ _, Some (js " ```{}``` ")) parse
                               (js "topic") (js "3") (js "low") l []); reflexivity.
Defined.
