(* ===== verification/ImagePath.v ===== *)
(** The image path of the assistant ([src/code.js]):
    [generateImageInCurrentSlide] (lines 97-103) reads the text of the
    current slide ([Assistant.getAllTextFromActiveSlide_]), asks the chat
    endpoint for an image prompt ([getImagePrompt_], 338-379), asks the
    image endpoint for an image ([generateImageFromDallE_], 395-423) and
    inserts it on the current slide ([insertImageBlobToActiveSlide_],
    425-431).

    The chat endpoint [chat] and the image endpoint [generate_image] (the
    generation request, then the download of the URL it answers) are
    section variables, built from the HTTP calls in
    [HttpClient.chat_endpoint] and [HttpClient.image_endpoint]; the blob is an abstract type.  The script runs on
    the log and the images already on the slides, a list of placed
    images: the model of [slide.insertImage(blob).setLeft(200).setTop(10)]
    appends one.  The file ends with the run of the three assistant
    scripts without a log sheet. *)

From stdpp Require Import gmap.
From S2P Require Import Prelude JsString StateM Config Logging ChatRequest Assistant Host Render JsonRender.

(** The prompt [generateImageFromDallE_] sends: [prompt + " " + imageCaption]. *)
Definition dalle_prompt (prompt imageCaption : str) : str := prompt ++ [32%N] ++ imageCaption.

(** The payload of [generateImageFromDallE_] (lines 409-415). *)
Record ImageGenRequest := mkImageGen {
  ig_model : str;
  ig_prompt : str;
  ig_size : str;
  ig_quality : str;
  ig_response_format : str
}.

Definition dalle_request (prompt imageCaption : str) : ImageGenRequest :=
  mkImageGen (js "dall-e-3") (dalle_prompt prompt imageCaption) (js "1024x1024") (js "hd") (js "url").

Section ImagePath.
Variable cfg : Config.
Variable toLocaleString : nat → str.
Variable chat : ChatRequest → option str.
Variable Blob : Type.
(** The image endpoint: the generation request, then
    [UrlFetchApp.fetch(imageUrl).getBlob()] of the URL it answers;
    [None] when the answer has no [data[0].url] and the read throws. *)
Variable generate_image : ImageGenRequest → option Blob.

(** An image on a page: the page's id, the blob, its left and top. *)
Record PlacedImage := mkPlaced { img_page : nat; img_blob : Blob; img_left : nat; img_top : nat }.

(** [getImagePrompt_(targetText)]: the request, its log lines, the
    trimmed answer. *)
Definition getImagePrompt_ (targetText : str) : LogM str :=
  ask cfg toLocaleString chat (js "REQ_2") (js "RES_2") (image_request cfg targetText).

(** [generateImageFromDallE_(prompt, imageCaption)] *)
Definition generateImageFromDallE_ (prompt imageCaption : str) : option Blob :=
  generate_image (dalle_request prompt imageCaption).

(** [insertImageBlobToActiveSlide_(blob)]: on the current page, at
    (200, 10); no current page is a [TypeError]. *)
Definition insertImageBlobToActiveSlide_ (page : option nat) (blob : Blob) : StE (list PlacedImage) unit :=
  λ imgs, match page with
          | Some pid => (Some tt, imgs ++ [mkPlaced pid blob 200 10])
          | None => (None, imgs)
          end.

(** [generateImageInCurrentSlide(imageCaption)] with the current page,
    its id and its elements, [None] when there is none: reading its
    elements throws first, before any request.  The state is the log and
    the images placed on the slides. *)
Definition generateImageInCurrentSlide (current : option (nat * list PageElement))
    (imageCaption : str) : StE (LogState * list PlacedImage) unit :=
  '(pid, els) ← lift_opt current;
  prompt ← on_fst (getImagePrompt_ (getAllTextFromActiveSlide_ els));
  blob ← lift_opt (generateImageFromDallE_ prompt imageCaption);
  on_snd (insertImageBlobToActiveSlide_ (fst <$> current) blob).

End ImagePath.

(** ** Lemmas *)

(** The user message of the image request: the slide's text, or the
    fallback exactly when the slide has no text box. *)
Lemma image_user_content_text els :
  image_user_content (getAllTextFromActiveSlide_ els) =
    match text_boxes els with
    | [] => IMAGE_FALLBACK
    | ts => concat (map (λ t, t ++ [LF]) ts)
    end.
Proof.
  unfold image_user_content, getAllTextFromActiveSlide_. rewrite getAllText_app. simpl.
  destruct (text_boxes els) as [|t ts]; [done|].
  rewrite bool_decide_eq_false_2; [done|]. simpl. by destruct t.
Qed.


Lemma image_request_text cfg els :
  image_request cfg (getAllTextFromActiveSlide_ els) =
    mkRequest (OPENAI_MODEL cfg)
      [mkMessage RSystem (image_system (IMAGE_MAX_WORDS cfg));
       mkMessage RUser (match text_boxes els with
                        | [] => IMAGE_FALLBACK
                        | ts => concat (map (λ t, t ++ [LF]) ts)
                        end)]
      (Some (image_max_tokens cfg)) (image_temperature cfg) false.
Proof. unfold image_request. by rewrite image_user_content_text. Qed.

(** C30: With a current page, a log sheet, an answer [c] to the image
    request and an image [b] for the generation request,
    [generateImageInCurrentSlide] adds exactly [b] to that page, at
    (200, 10), and logs the [【REQ_2】] and [【RES_2】] lines.  The image
    request carries the configured model, the system prompt of
    [getPositivePrompt], [max_tokens] and temperature from the
    configuration, and as user message the text of the slide's text
    boxes, each followed by a newline, or the fallback sentence exactly
    when the slide has no text box (a text box with an empty text still
    sends a newline); the generation request asks [dall-e-3] for a
    1024x1024 [hd] image of the trimmed answer, a space and the caption.
    Without a current page nothing is requested and nothing changes. *)
Theorem generateImageInCurrentSlide_spec cfg ts chat Blob generate_image pid els imageCaption l rows imgs c b :
  let rq := mkRequest (OPENAI_MODEL cfg)
              [mkMessage RSystem (image_system (IMAGE_MAX_WORDS cfg));
               mkMessage RUser (match text_boxes els with
                                | [] => IMAGE_FALLBACK
                                | ts => concat (map (λ t, t ++ [LF]) ts)
                                end)]
              (Some (image_max_tokens cfg)) (image_temperature cfg) false in
  sheet_rows cfg l = Some rows → chat rq = Some c →
  generate_image (mkImageGen (js "dall-e-3") (trim c ++ [32%N] ++ imageCaption)
                             (js "1024x1024") (js "hd") (js "url")) = Some b →
  (∃ l', generateImageInCurrentSlide cfg ts chat Blob generate_image (Some (pid, els)) imageCaption (l, imgs) =
           (Some tt, (l', imgs ++ [mkPlaced Blob pid b 200 10])) ∧
         logged cfg ts l [tag (js "REQ_2") ++ stringify (request_json rq); tag (js "RES_2") ++ trim c] l') ∧
  generateImageInCurrentSlide cfg ts chat Blob generate_image None imageCaption (l, imgs) = (None, (l, imgs)).
Proof.
  intros rq Hr Hc Hb. split; [|done].
  destruct (ask_ok cfg ts chat (js "REQ_2") (js "RES_2") (image_request cfg (getAllTextFromActiveSlide_ els))
              l rows c Hr) as (l' & Ha & L); [by rewrite image_request_text|].
  rewrite image_request_text in Ha, L. exists l'. split; [|done].
  unfold generateImageInCurrentSlide. cbv beta. rewrite bind_lift_opt. simpl.
  rewrite (ste_bind_Some _ _ _ _ (l', imgs)) by (unfold on_fst, getImagePrompt_; simpl; by rewrite image_request_text, Ha).
  rewrite bind_lift_opt. unfold generateImageFromDallE_, dalle_request, dalle_prompt. by rewrite Hb.
Qed.

Lemma generateImageInCurrentSlide_spec_witness :
  let cfg := load_config (λ k, if bool_decide (k = js "SHEET_ID") then Some (js "log") else None) in
  let l := mkLog [] {[js "log" := []]} 0 in
  let rq := mkRequest (OPENAI_MODEL cfg)
              [mkMessage RSystem (image_system (IMAGE_MAX_WORDS cfg)); mkMessage RUser IMAGE_FALLBACK]
              (Some (image_max_tokens cfg)) (image_temperature cfg) false in
  (∃ l', generateImageInCurrentSlide cfg (λ _, js "d") (λ _, Some (js "a cat")) nat (λ _, Some 7)
           (Some (3, [EOther])) (js "anime") (l, []) = (Some tt, (l', [mkPlaced nat 3 7 200 10])) ∧
         logged cfg (λ _, js "d") l [tag (js "REQ_2") ++ stringify (request_json rq); tag (js "RES_2") ++ trim (js "a cat")] l') ∧
  generateImageInCurrentSlide cfg (λ _, js "d") (λ _, Some (js "a cat")) nat (λ _, Some 7) None (js "anime") (l, []) =
    (None, (l, [])).
Proof.
  intros cfg l rq.
  exact (generateImageInCurrentSlide_spec cfg (λ _, js "d") (λ _, Some (js "a cat")) nat (λ _, Some 7) 3 [EOther]
           (js "anime") l [] [] (js "a cat") 7 eq_refl eq_refl eq_refl).
Defined.

(** ** Without a log sheet *)

Lemma image_no_sheet cfg ts chat Blob generate_image pid els imageCaption l imgs :
  sheet_rows cfg l = None →
  generateImageInCurrentSlide cfg ts chat Blob generate_image (Some (pid, els)) imageCaption (l, imgs) =
    (None, (mkLog (log_console l ++
                     [log_line ts (log_clock l)
                        (tag (js "REQ_2") ++
                         stringify (request_json (image_request cfg (getAllTextFromActiveSlide_ els))))])
                  (log_sheets l) (S (log_clock l)), imgs)).
Proof.
  intros Hr. unfold generateImageInCurrentSlide. cbv beta. rewrite bind_lift_opt. simpl.
  erewrite ste_bind_None; [done|].
  unfold on_fst, getImagePrompt_. simpl. by rewrite (ask_no_sheet cfg ts chat _ _ _ l Hr).
Qed.

(** C19: Without a log sheet ([SHEET_ID] unset, or naming no spreadsheet
    the script can open) every script of the assistant throws at its
    first [log_], after the console line of its first request and before
    sending it, and leaves the slides as they were:
    [generateTextInCurrentElement] changes no element (it runs through
    only on a selection without text), [createSlidesInCurrentPresentation]
    adds no slide, and [generateImageInCurrentSlide] adds no image.  The
    configuration treats [SHEET_ID] as optional (it has no default). *)
Theorem assistant_scripts_without_log_sheet cfg ts chat JSON_parse Blob generate_image
    pl deepDive creativity els inputText numPages sel p pid pels imageCaption imgs l :
  sheet_rows cfg l = None → Forall rectangular els →
  generateTextInCurrentElement cfg ts chat deepDive creativity (l, Some els) =
    match concat (map element_texts els) with
    | [] => (Some tt, (l, Some els))
    | t :: _ =>
        (None, (mkLog (log_console l ++
                         [log_line ts (log_clock l)
                            (tag (js "REQ_3") ++
                             stringify (request_json (text_request cfg (deep_prompt deepDive t) creativity)))])
                      (log_sheets l) (S (log_clock l)), Some els))
    end ∧
  createSlidesInCurrentPresentation pl cfg ts chat JSON_parse inputText numPages creativity sel (l, p) =
    (None, (mkLog (log_console l ++
                     [log_line ts (log_clock l)
                        (tag (js "REQ_1") ++
                         stringify (request_json (slides_request cfg inputText numPages creativity)))])
                  (log_sheets l) (S (log_clock l)), p)) ∧
  generateImageInCurrentSlide cfg ts chat Blob generate_image (Some (pid, pels)) imageCaption (l, imgs) =
    (None, (mkLog (log_console l ++
                     [log_line ts (log_clock l)
                        (tag (js "REQ_2") ++
                         stringify (request_json (image_request cfg (getAllTextFromActiveSlide_ pels))))])
                  (log_sheets l) (S (log_clock l)), imgs)).
Proof.
  intros Hr Hrect. split_and!.
  - by apply generateText_no_sheet.
  - by apply createSlides_no_sheet.
  - by apply image_no_sheet.
Qed.

Lemma assistant_scripts_without_log_sheet_witness :
  let cfg := load_config (λ _, None) in
  let l := mkLog [] ∅ 0 in
  let els := [EOther; EShape TEXT_BOX (js "a")] in
  sheet_rows cfg l = None ∧ Forall rectangular els ∧
  generateTextInCurrentElement cfg (λ _, js "d") (λ _, Some (js "x")) (js "more") (js "low") (l, Some els) =
    (None, (mkLog ([] ++ [log_line (λ _, js "d") 0
                            (tag (js "REQ_3") ++
                             stringify (request_json (text_request cfg (deep_prompt (js "more") (js "a")) (js "low"))))])
                  ∅ 1, Some els)) ∧
  createSlidesInCurrentPresentation (λ _, 2) cfg (λ _, js "d") (λ _, Some (js "x")) (λ _, inl [])
      (js "topic") (js "3") (js "low") (Some 0) (l, mkPres [] 0) =
    (None, (mkLog ([] ++ [log_line (λ _, js "d") 0
                            (tag (js "REQ_1") ++
                             stringify (request_json (slides_request cfg (js "topic") (js "3") (js "low"))))])
                  ∅ 1, mkPres [] 0)) ∧
  generateImageInCurrentSlide cfg (λ _, js "d") (λ _, Some (js "x")) nat (λ _, Some 7) (Some (0, els))
      (js "anime") (l, []) =
    (None, (mkLog ([] ++ [log_line (λ _, js "d") 0
                            (tag (js "REQ_2") ++
                             stringify (request_json (image_request cfg (getAllTextFromActiveSlide_ els))))])
                  ∅ 1, [])).
Proof.
  intros cfg l els. assert (Hr : sheet_rows cfg l = None) by reflexivity.
  assert (Hrect : Forall rectangular els) by (repeat constructor).
  split; [done|]. split; [done|].
  exact (assistant_scripts_without_log_sheet cfg (λ _, js "d") (λ _, Some (js "x")) (λ _, inl []) nat (λ _, Some 7)
           (λ _, 2) (js "more") (js "low") els (js "topic") (js "3") (Some 0) (mkPres [] 0) 0 els (js "anime")
           [] l Hr Hrect).
Defined.
