(* ===== verification/HttpClient.v ===== *)
(** The HTTP layer of the language-model and image clients
    ([src/code.js]): the [options] object of [UrlFetchApp.fetch] in
    [getTextResponse_] (lines 178-192), [getSlidesResponse_] (265-279),
    [getImagePrompt_] (360-374) and [generateImageFromDallE_] (395-423),
    and the reads of the answer: [JSON.parse(response.getContentText())],
    then [jsonResponse.choices[0].message.content] (or
    [jsonResponse.data[0].url]).

    [Assistant], [JsonRender] and [ImagePath] take the chat endpoint as a
    section variable [chat : ChatRequest -> option str].  Here it is
    built from its parts, [chat_endpoint]: [UrlFetchApp.fetch] and
    [JSON.parse] are section variables (the network and a library), and
    the property reads are JavaScript's on the value [JSON.parse]
    returns: reading a property of [undefined] or [null] is a
    [TypeError] ([None]), a missing property is [undefined], [trim] exists
    only on strings.  Only own properties are modelled: the keys the code
    reads ([choices], [0], [message], [content], [data], [url]) name no
    property of the prototypes.

    The theorems compose the endpoint with [ask]: the request [log_]
    records is the payload sent, and an error answer of the API (an
    object without [choices], read with [muteHttpExceptions: true]) makes
    the script throw a [TypeError] without logging anything of it. *)

From stdpp Require Import gmap.
From S2P Require Import Prelude JsString StateM Config Logging ChatRequest Assistant ImagePath.
From Stdlib Require Import QArith.

(** ** Values and property reads *)

(** The values [JSON.parse] returns. *)
#[warnings="-register-all"]
Inductive jvalue :=
  | VNull
  | VBool (b : bool)
  | VNum (x : jsnum)
  | VStr (s : str)
  | VArr (vs : list jvalue)
  | VObj (kvs : list (str * jvalue)).

(** The result of a property read: [undefined] or a value. *)
Inductive jsval := Undefined | Val (v : jvalue).

Definition of_option (o : option jvalue) : jsval :=
  match o with Some v => Val v | None => Undefined end.

(** The value of key [k] in an object [JSON.parse] built: the last one
    when the text repeats the key. *)
Fixpoint lookup_last (k : str) (kvs : list (str * jvalue)) : option jvalue :=
  match kvs with
  | [] => None
  | (k', v) :: r =>
      match lookup_last k r with
      | Some w => Some w
      | None => if bool_decide (k = k') then Some v else None
      end
  end.

Fixpoint digits_value (acc : nat) (k : str) : option nat :=
  match k with
  | [] => Some acc
  | c :: r => if bool_decide (48 ≤ c ≤ 57)%N then digits_value (acc * 10 + N.to_nat (c - 48))%nat r else None
  end.

(** A key that is an array index: ["0"], or digits not starting with
    [0]. *)
Definition array_index (k : str) : option nat :=
  match k with
  | [] => None
  | [48%N] => Some 0%nat
  | 48%N :: _ => None
  | _ => digits_value 0%nat k
  end.

Definition length_value (n : nat) : jsval := Val (VNum (JFin (inject_Z (Z.of_nat n)))).

(** [o[k]]: [None] is the [TypeError] of a read on [undefined] or
    [null]. *)
Definition get_prop (o : jsval) (k : str) : option jsval :=
  match o with
  | Undefined | Val VNull => None
  | Val (VObj kvs) => Some (of_option (lookup_last k kvs))
  | Val (VArr vs) =>
      Some (match array_index k with
            | Some i => of_option (vs !! i)
            | None => if bool_decide (k = js "length") then length_value (length vs) else Undefined
            end)
  | Val (VStr s) =>
      Some (match array_index k with
            | Some i => of_option ((λ c, VStr [c]) <$> s !! i)
            | None => if bool_decide (k = js "length") then length_value (length s) else Undefined
            end)
  | Val (VNum _) | Val (VBool _) => Some Undefined
  end.

(** A value the code calls a string method on ([trim]) or passes as a
    URL: anything but a string throws. *)
Definition as_string (v : jsval) : option str :=
  match v with Val (VStr s) => Some s | _ => None end.

(** [jsonResponse.choices[0].message.content], as a string ([.trim()]
    follows). *)
Definition choice_content (j : jvalue) : option str :=
  c ← get_prop (Val j) (js "choices");
  c0 ← get_prop c (js "0");
  m ← get_prop c0 (js "message");
  ct ← get_prop m (js "content");
  as_string ct.

(** [jsonResponse.data[0].url] *)
Definition image_url (j : jvalue) : option str :=
  d ← get_prop (Val j) (js "data");
  d0 ← get_prop d (js "0");
  u ← get_prop d0 (js "url");
  as_string u.

(** ** The requests *)

(** The [options] of [UrlFetchApp.fetch]; [muteHttpExceptions] is
    [false] when the object does not set it. *)
Record FetchOptions := mkFetch {
  f_method : str;
  f_headers : list (str * str);
  f_payload : str;
  f_mute : bool
}.

(** ["Bearer " + OPENAI_API_KEY]: a missing property is [null]. *)
Definition bearer (key : option str) : str := js "Bearer " ++ default (js "null") key.

Definition CHAT_URL : str := js "https://api.openai.com/v1/chat/completions".

(** Lines 178-186 (and 265-273, 360-368). *)
Definition chat_options (key : option str) (data : ChatRequest) : FetchOptions :=
  mkFetch (js "post")
          [(js "Authorization", bearer key); (js "Content-Type", js "application/json")]
          (stringify (request_json data)) true.

Definition IMAGE_URL : str := js "https://api.openai.com/v1/images/generations".

(** The payload of [generateImageFromDallE_] (lines 409-415). *)
Definition image_gen_json (r : ImageGenRequest) : json :=
  JObject [(js "model", JString (ig_model r)); (js "prompt", JString (ig_prompt r));
           (js "size", JString (ig_size r)); (js "quality", JString (ig_quality r));
           (js "response_format", JString (ig_response_format r))].

(** Lines 403-416: the headers in the other order, no
    [muteHttpExceptions]. *)
Definition image_options (key : option str) (r : ImageGenRequest) : FetchOptions :=
  mkFetch (js "post")
          [(js "Content-Type", js "application/json"); (js "Authorization", bearer key)]
          (stringify (image_gen_json r)) false.

Section Endpoints.
(** [UrlFetchApp.fetch(url, options).getContentText()]: [None] when the
    call throws (a network failure, or an HTTP error code without
    [muteHttpExceptions]). *)
Variable fetch : str → FetchOptions → option str.
(** [JSON.parse]: [None] is its [SyntaxError]. *)
Variable JSON_parse : str → option jvalue.
Variable Blob : Type.
(** [UrlFetchApp.fetch(imageUrl).getBlob()] *)
Variable fetch_blob : str → option Blob.

(** The chat endpoint the three request functions call (lines 190-192,
    277-279, 372-374): the content of the first choice, untrimmed. *)
Definition chat_endpoint (key : option str) (data : ChatRequest) : option str :=
  text ← fetch CHAT_URL (chat_options key data);
  j ← JSON_parse text;
  choice_content j.

(** [generateImageFromDallE_]'s two calls (lines 419-422). *)
Definition image_endpoint (key : option str) (r : ImageGenRequest) : option Blob :=
  text ← fetch IMAGE_URL (image_options key r);
  j ← JSON_parse text;
  u ← image_url j;
  fetch_blob u.

End Endpoints.

(** Two answers of the chat endpoint: a completion whose first choice
    holds [c], and the error answer the API gives a request whose key
    is ["null"]. *)
Definition completion (c : str) : jvalue :=
  VObj [(js "id", VStr (js "chatcmpl-1"));
        (js "choices", VArr [VObj [(js "index", VNum (JFin 0));
                                   (js "message", VObj [(js "role", VStr (js "assistant"));
                                                        (js "content", VStr c)])]])].

Definition error_answer : jvalue :=
  VObj [(js "error", VObj [(js "message", VStr (js "Incorrect API key provided: null."));
                           (js "type", VStr (js "invalid_request_error"))])].

(** The configuration of the examples: a log sheet, no API key. *)
Definition http_cfg : Config :=
  load_config (λ k, if bool_decide (k = js "SHEET_ID") then Some (js "log") else None).

(** ** Lemmas *)

(** An object without the key [choices] has no first choice:
    [jsonResponse.choices] is [undefined] and [[0]] throws. *)
Lemma choice_content_no_choices kvs :
  lookup_last (js "choices") kvs = None → choice_content (VObj kvs) = None.
Proof. unfold choice_content. simpl. by intros ->. Qed.

Section OverHttp.
Context (cfg : Config) (ts : nat → str) (fetch : str → FetchOptions → option str)
        (JSON_parse : str → option jvalue).

(** The chat endpoint of the development, from the key of the
    configuration. *)
Let chat := chat_endpoint fetch JSON_parse (OPENAI_API_KEY cfg).

Lemma chat_endpoint_run data text j :
  fetch CHAT_URL (chat_options (OPENAI_API_KEY cfg) data) = Some text → JSON_parse text = Some j →
  chat data = choice_content j.
Proof. intros Hf Hp. unfold chat, chat_endpoint. by rewrite Hf; simpl; rewrite Hp. Qed.

(** C16: [ask] over HTTP: when the log sheet opens, the request is sent
    with the options of lines 178-186 and its answer parses, the line
    [log_] records for the request is the tag followed by exactly the
    payload sent; then, when [choices[0].message.content] of the answer
    is a string [c], [ask] returns [c.trim()] and logs it, and otherwise
    (no choice, no message, a content that is not a string) it throws
    after the request line, logging nothing of the answer. *)
Theorem ask_over_http req res data s rows text j :
  sheet_rows cfg s = Some rows →
  fetch CHAT_URL (chat_options (OPENAI_API_KEY cfg) data) = Some text → JSON_parse text = Some j →
  match choice_content j with
  | Some c => ∃ s', ask cfg ts chat req res data s = (Some (trim c), s') ∧
      logged cfg ts s [tag req ++ f_payload (chat_options (OPENAI_API_KEY cfg) data); tag res ++ trim c] s'
  | None => ∃ s', ask cfg ts chat req res data s = (None, s') ∧
      logged cfg ts s [tag req ++ f_payload (chat_options (OPENAI_API_KEY cfg) data)] s'
  end.
Proof.
  intros Hr Hf Hp. pose proof (chat_endpoint_run data text j Hf Hp) as Hc.
  destruct (choice_content j) as [c|]; [by apply ask_ok with rows|by apply ask_no_answer with rows].
Qed.

(** An error answer of the API is lost: with [muteHttpExceptions:
    true] an HTTP error comes back as a body such as
    [{"error": {"message": ...}}], an object without [choices]; [ask]
    then logs the request, throws the [TypeError] of [choices[0]], and
    the console and the sheet get nothing of the answer, whatever its
    message. *)
Theorem error_answer_not_logged req res data s rows text kvs :
  sheet_rows cfg s = Some rows →
  fetch CHAT_URL (chat_options (OPENAI_API_KEY cfg) data) = Some text →
  JSON_parse text = Some (VObj kvs) → lookup_last (js "choices") kvs = None →
  ∃ s', ask cfg ts chat req res data s = (None, s') ∧
    log_console s' = log_console s ++ [log_line ts (log_clock s) (tag req ++ stringify (request_json data))] ∧
    sheet_rows cfg s' = Some (rows ++ [log_line ts (log_clock s) (tag req ++ stringify (request_json data))]).
Proof.
  intros Hr Hf Hp Hn. pose proof (chat_endpoint_run data text _ Hf Hp) as Hc.
  rewrite choice_content_no_choices in Hc by done.
  destruct (ask_no_answer cfg ts chat req res data s rows Hr Hc) as (s' & Hrun & Hc' & Hs' & _).
  exists s'. split; [done|]. unfold log_lines in Hc', Hs'. simpl in Hc', Hs'.
  rewrite Hr in Hs'. simpl in Hs'. rewrite Nat.add_0_r in Hc', Hs'. split; [done|by rewrite Hs'].
Qed.

End OverHttp.

Lemma ask_over_http_witness :
  let l := mkLog [] {[js "log" := []]} 0 in
  let data := text_request http_cfg (js "hello") (js "low") in
  match choice_content (completion (js " hi ")) with
  | Some c => ∃ s', ask http_cfg (λ _, js "d")
                      (chat_endpoint (λ _ _, Some (js "{}")) (λ _, Some (completion (js " hi "))) (OPENAI_API_KEY http_cfg))
                      (js "REQ_3") (js "RES_3") data l = (Some (trim c), s') ∧
      logged http_cfg (λ _, js "d") l
        [tag (js "REQ_3") ++ f_payload (chat_options (OPENAI_API_KEY http_cfg) data); tag (js "RES_3") ++ trim c] s'
  | None => ∃ s', ask http_cfg (λ _, js "d")
                    (chat_endpoint (λ _ _, Some (js "{}")) (λ _, Some (completion (js " hi "))) (OPENAI_API_KEY http_cfg))
                    (js "REQ_3") (js "RES_3") data l = (None, s') ∧
      logged http_cfg (λ _, js "d") l [tag (js "REQ_3") ++ f_payload (chat_options (OPENAI_API_KEY http_cfg) data)] s'
  end.
Proof.
  intros l data. apply (ask_over_http http_cfg (λ _, js "d") (λ _ _, Some (js "{}")) (λ _, Some (completion (js " hi ")))
                          (js "REQ_3") (js "RES_3") data l [] (js "{}")); reflexivity.
Defined.

Lemma error_answer_not_logged_witness :
  let l := mkLog [] {[js "log" := []]} 0 in
  let data := text_request http_cfg (js "hello") (js "low") in
  let chat := chat_endpoint (λ _ _, Some (js "{}")) (λ _, Some error_answer) (OPENAI_API_KEY http_cfg) in
  bearer (OPENAI_API_KEY http_cfg) = js "Bearer null" ∧
  ∃ s', ask http_cfg (λ _, js "d") chat (js "REQ_3") (js "RES_3") data l = (None, s') ∧
    log_console s' = log_console l ++ [log_line (λ _, js "d") (log_clock l) (tag (js "REQ_3") ++ stringify (request_json data))] ∧
    sheet_rows http_cfg s' = Some ([] ++ [log_line (λ _, js "d") (log_clock l) (tag (js "REQ_3") ++ stringify (request_json data))]).
Proof.
  intros l data chat. split; [reflexivity|].
  apply (error_answer_not_logged http_cfg (λ _, js "d") (λ _ _, Some (js "{}")) (λ _, Some error_answer)
           (js "REQ_3") (js "RES_3") data l [] (js "{}")
           [(js "error", VObj [(js "message", VStr (js "Incorrect API key provided: null."));
                               (js "type", VStr (js "invalid_request_error"))])]); reflexivity.
Defined.
