(* ===== verification/Roundtrip.v ===== *)
(** Re-serialising a deck and parsing it again (spec 8, idempotence).

    [serialize] writes a deck the way the spec describes: the title as a
    level-1 heading, each slide as a [##] heading, its points as [- ]
    bullets and its code in a fenced block.  [parse_serialize] shows that
    parsing the text back gives the same title, the same slides with the
    same titles and points, [sectionHeader] recomputed, and no code: a
    fenced block after a [##] heading is never attached (spec example 4
    does not hold, see [ParserExamples]).  The hypotheses are those of
    [serializable]: non-empty trimmed titles without newline, trimmed
    points without line terminator, code without a fence line.
    [roundtrip_breaks_on_separator] shows that the empty title of a
    [---] slide breaks the property.

    The proof follows the run with the simulation [RT]: on a serialised
    text the parser never opens a current slide, so its state is
    determined by the slides pushed so far (which are the whole store, in
    order), the pending bullets and the code-block flag. *)

From S2P Require Import Prelude JsString Heap LineClassifier ParserState ContentGroup ModeController DeckAssembler.

(** ** Serialisation *)

Definition serialize_slide (s : Slide) : list str :=
  (js "## " ++ s_title s) :: map (λ p, js "- " ++ p) (s_points s) ++
  match s_code s with
  | Some c => FENCE :: split_on LF c ++ [FENCE]
  | None => []
  end.

Definition serialize_lines (d : Deck) : list str :=
  (js "# " ++ deck_title d) :: concat (map serialize_slide (deck_slides d)).

Definition serialize (d : Deck) : str := join LF (serialize_lines d).

(** What the parser gives back for a slide. *)
Definition reparsed (s : Slide) : Slide :=
  mkSlide (s_title s) (s_points s) None (bool_decide (s_points s = [])).

(** ** The decks the property is about *)

Definition title_ok (t : str) : bool :=
  bool_decide (t ≠ []) && bool_decide (trim t = t) && bool_decide (LF ∉ t).

Definition point_ok (p : str) : bool :=
  bool_decide (trim p = p) && forallb (λ x, negb (is_line_terminator x)) p.

Definition code_ok (c : option str) : bool :=
  match c with
  | Some c => forallb (λ l, negb (starts_with (trim l) FENCE)) (split_on LF c)
  | None => true
  end.

Definition serializable (d : Deck) : bool :=
  title_ok (deck_title d) &&
  forallb (λ s, title_ok (s_title s) && forallb point_ok (s_points s) && code_ok (s_code s))
          (deck_slides d).

(** ** The simulation *)

Definition bullet_item (p : str) : ContentItem := mkItem 0 p false.

(** The state of a run on a serialised text: title [T], the slides [V]
    (the whole store, pushed in order), the pending bullets [P] and the
    code-block flag [m]; [P] is empty when no slide was pushed. *)
Definition RT (T : str) (V : list Slide) (P : list str) (m : bool) (st : PState) : Prop :=
  (∃ buf, st = mkPState T (seq 0 (length V)) None m buf (map bullet_item P) V) ∧
  (P ≠ [] → V ≠ []).

(** The slides once the pending bullets are flushed into the last one. *)
Definition pend (V : list Slide) (P : list str) : list Slide :=
  match P with
  | [] => V
  | _ => match V !! pred (length V) with
         | Some s => <[pred (length V) := add_points P s]> V
         | None => V
         end
  end.

(** ** Lemmas on the store *)

Lemma deref_all_seq (a b : list Slide) : deref_all (a ++ b) (seq (length a) (length b)) = Some b.
Proof.
  revert a. induction b as [|o b IH]; intros a; [done|].
  unfold deref_all in *. simpl. rewrite list_lookup_middle by done. simpl.
  specialize (IH (a ++ [o])). rewrite <-app_assoc, length_app, Nat.add_1_r in IH. simpl in IH.
  by rewrite IH.
Qed.

Lemma mark_all_seq (a b : list Slide) :
  mark_all (seq (length a) (length b)) (a ++ b) = Some (a ++ map mark_section_header b).
Proof.
  revert a. induction b as [|o b IH]; intros a; simpl; [by rewrite app_nil_r|].
  unfold update. rewrite list_lookup_middle by done. simpl.
  rewrite insert_app_length.
  specialize (IH (a ++ [mark_section_header o])). rewrite <-!app_assoc, length_app, Nat.add_1_r in IH.
  simpl in IH. by rewrite IH.
Qed.

Lemma lookup_last_index {A} (V : list A) : V ≠ [] → is_Some (V !! pred (length V)).
Proof. intros Hne. apply lookup_lt_is_Some_2. destruct V; [done|simpl; lia]. Qed.

Lemma pend_snoc V s P : P ≠ [] → pend (V ++ [s]) P = V ++ [add_points P s].
Proof.
  intros HP. destruct P as [|p P]; [done|]. unfold pend.
  rewrite length_app, Nat.add_1_r. simpl. rewrite list_lookup_middle by done.
  by rewrite insert_app_length.
Qed.

Lemma content_bullets P : map content (map bullet_item P) = P.
Proof. induction P as [|p P IH]; [done|]. simpl. by rewrite IH. Qed.

Lemma hierarchical_bullets P : hierarchical (map bullet_item P) = false.
Proof. induction P as [|p P IH]; [done|]. simpl. by rewrite IH. Qed.

(** Flushing the pending bullets. *)
Lemma RT_flush T V P m st :
  RT T V P m st → ∃ st', flushContentGroup st = Some st' ∧ RT T (pend V P) [] m st'.
Proof.
  intros [[buf ->] HV]. destruct P as [|p P].
  { exists (mkPState T (seq 0 (length V)) None m buf [] V). split; [done|]. split; [by exists buf|done]. }
  destruct (lookup_last_index V) as [s Hs]; [by apply HV|].
  pose proof (hierarchical_bullets (p :: P) : hierarchical (bullet_item p :: map bullet_item P) = false) as Hh.
  unfold flushContentGroup. cbn [contentGroup map]. rewrite Hh. unfold flush_flat. cbn [slides].
  assert (Hlen : pred (length V) < length V).
  { destruct V; [by destruct (HV ltac:(done))|simpl; lia]. }
  rewrite last_lookup, length_seq, lookup_seq_lt by done. simpl.
  unfold push_points. simpl store. unfold update. rewrite Hs. simpl.
  eexists. split; [reflexivity|]. split; [|done]. exists buf. unfold set_group, set_store. simpl.
  by rewrite length_insert, content_bullets.
Qed.

(** Pushing a new slide. *)
Lemma RT_push T V m st s :
  RT T V [] m st → RT T (V ++ [s]) [] m (push_new s st).
Proof.
  intros [[buf ->] _]. split; [|done]. exists buf. unfold push_new, push_ref, alloc. simpl.
  by rewrite length_app, Nat.add_1_r, seq_S.
Qed.

(** ** The lines of a serialised deck *)

Lemma title_ok_spec t : title_ok t = true → t ≠ [] ∧ trimmed t ∧ LF ∉ t.
Proof.
  unfold title_ok. intros [[H1 H2]%andb_prop H3]%andb_prop.
  apply bool_decide_eq_true in H1, H2, H3. done.
Qed.

Lemma point_ok_spec p :
  point_ok p = true → trimmed p ∧ forallb (λ x, negb (is_line_terminator x)) p = true.
Proof. unfold point_ok. by intros [?%bool_decide_eq_true ?]%andb_prop. Qed.

Lemma classify_fence : classify FENCE = LFence.
Proof. reflexivity. Qed.

Lemma classify_not_fence l : starts_with (trim l) FENCE = false → classify l ≠ LFence.
Proof.
  intros Hl. unfold classify. rewrite Hl.
  case_bool_decide; [done|]. repeat case_match; congruence.
Qed.

Section Steps.
Context (T : str).

Lemma RT_heading23 V P st t :
  RT T V P false st → title_ok t = true →
  ∃ st', step_line st (js "## " ++ t) = Some st' ∧ RT T (pend V P ++ [new_slide t]) [] false st'.
Proof.
  intros Hrt Ht. apply title_ok_spec in Ht as (Hne & Htr & _).
  unfold step_line. rewrite classify_heading23_line by done.
  destruct (RT_flush _ _ _ _ _ Hrt) as (st1 & Hf & Hrt1).
  pose proof Hrt as [[buf ->] _]. unfold unless_in_code, on_heading23. simpl. rewrite Hf. simpl.
  eexists. split; [reflexivity|]. destruct Hrt1 as [[buf1 ->] _]. by apply RT_push; split; [exists buf1|].
Qed.

Lemma RT_bullet V P st p :
  RT T V P false st → V ≠ [] → point_ok p = true →
  ∃ st', step_line st (js "- " ++ p) = Some st' ∧ RT T V (P ++ [p]) false st'.
Proof.
  intros [[buf ->] _] HV Hp. apply point_ok_spec in Hp as [Hp Hlt].
  pose proof (classify_bullet_line 0 p Hp Hlt) as Hc. cbn [replicate app] in Hc.
  unfold step_line. rewrite Hc. simpl.
  eexists. split; [reflexivity|]. split; [|done]. exists buf. unfold set_group. simpl.
  by rewrite map_app.
Qed.

Lemma RT_fence_open V P st :
  RT T V P false st → ∃ st', step_line st FENCE = Some st' ∧ RT T (pend V P) [] true st'.
Proof.
  intros Hrt. destruct (RT_flush _ _ _ _ _ Hrt) as (st1 & Hf & [[buf1 ->] _]).
  unfold step_line. rewrite classify_fence. unfold on_fence. rewrite Hf. simpl.
  eexists. split; [reflexivity|]. split; [by exists buf1|done].
Qed.

Lemma RT_code_line V st l :
  RT T V [] true st → starts_with (trim l) FENCE = false →
  ∃ st', step_line st l = Some st' ∧ RT T V [] true st'.
Proof.
  intros [[buf ->] _] Hl. pose proof (classify_not_fence l Hl) as Hc.
  unfold step_line. destruct (classify l) eqn:E; try done;
    (eexists; split; [reflexivity|]); split; try done; eexists; reflexivity.
Qed.

Lemma RT_fence_close V st :
  RT T V [] true st → ∃ st', step_line st FENCE = Some st' ∧ RT T V [] false st'.
Proof.
  intros [[buf ->] _]. unfold step_line. rewrite classify_fence. unfold on_fence. simpl.
  eexists. split; [reflexivity|]. split; [by exists buf|done].
Qed.

End Steps.

Definition slide_ok (s : Slide) : bool :=
  title_ok (s_title s) && forallb point_ok (s_points s) && code_ok (s_code s).

Lemma pend_new_slide V t ps : pend (V ++ [new_slide t]) ps = V ++ [mkSlide t ps None false].
Proof. destruct ps as [|p ps]; [done|]. by rewrite pend_snoc. Qed.

Section Runs.
Context (T : str).

Lemma RT_bullets V P st ps :
  RT T V P false st → V ≠ [] → forallb point_ok ps = true →
  ∃ st', run_lines st (map (λ p, js "- " ++ p) ps) = Some st' ∧ RT T V (P ++ ps) false st'.
Proof.
  revert P st. induction ps as [|p ps IH]; intros P st Hrt HV Hps.
  { exists st. by rewrite app_nil_r. }
  apply andb_prop in Hps as [Hp Hps].
  destruct (RT_bullet T V P st p Hrt HV Hp) as (st1 & Hs1 & Hrt1).
  destruct (IH _ _ Hrt1 HV Hps) as (st2 & Hs2 & Hrt2).
  exists st2. cbn -[js]. rewrite Hs1. cbn -[js]. rewrite Hs2. by rewrite <-app_assoc in Hrt2.
Qed.

Lemma RT_code_lines V st ls :
  RT T V [] true st → forallb (λ l, negb (starts_with (trim l) FENCE)) ls = true →
  ∃ st', run_lines st ls = Some st' ∧ RT T V [] true st'.
Proof.
  revert st. induction ls as [|l ls IH]; intros st Hrt Hls; [by exists st|].
  apply andb_prop in Hls as [Hl%negb_true_iff Hls].
  destruct (RT_code_line T V st l Hrt Hl) as (st1 & Hs1 & Hrt1).
  destruct (IH _ Hrt1 Hls) as (st2 & Hs2 & Hrt2). exists st2. simpl. by rewrite Hs1.
Qed.

Lemma RT_slide V P st s :
  RT T V P false st → slide_ok s = true →
  ∃ st' V' P', run_lines st (serialize_slide s) = Some st' ∧ RT T V' P' false st' ∧
               pend V' P' = pend V P ++ [mkSlide (s_title s) (s_points s) None false].
Proof.
  intros Hrt [[Ht Hps]%andb_prop Hc]%andb_prop.
  destruct (RT_heading23 T V P st (s_title s) Hrt Ht) as (st1 & Hs1 & Hrt1).
  destruct (RT_bullets _ _ _ (s_points s) Hrt1) as (st2 & Hs2 & Hrt2); [by destruct (pend V P)|done|].
  unfold serialize_slide. cbn -[js]. rewrite Hs1. cbn -[js]. rewrite run_lines_app, Hs2. cbn -[js].
  rewrite <-pend_new_slide. destruct (s_code s) as [c|].
  - destruct (RT_fence_open T _ _ _ Hrt2) as (st3 & Hs3 & Hrt3).
    destruct (RT_code_lines _ _ (split_on LF c) Hrt3 Hc) as (st4 & Hs4 & Hrt4).
    destruct (RT_fence_close T _ _ Hrt4) as (st5 & Hs5 & Hrt5).
    exists st5, (pend (pend V P ++ [new_slide (s_title s)]) (s_points s)), []. cbn -[js FENCE]. rewrite Hs3. cbn -[js FENCE]. rewrite run_lines_app, Hs4. cbn -[js FENCE]. rewrite Hs5.
    by split_and!.
  - by exists st2, (pend V P ++ [new_slide (s_title s)]), (s_points s).
Qed.

Lemma RT_slides V P st ss :
  RT T V P false st → forallb slide_ok ss = true →
  ∃ st' V' P', run_lines st (concat (map serialize_slide ss)) = Some st' ∧ RT T V' P' false st' ∧
               pend V' P' = pend V P ++ map (λ s, mkSlide (s_title s) (s_points s) None false) ss.
Proof.
  revert V P st. induction ss as [|s ss IH]; intros V P st Hrt Hss.
  { exists st, V, P. by rewrite app_nil_r. }
  apply andb_prop in Hss as [Hs Hss].
  destruct (RT_slide V P st s Hrt Hs) as (st1 & V1 & P1 & Hs1 & Hrt1 & Hp1).
  destruct (IH _ _ _ Hrt1 Hss) as (st2 & V2 & P2 & Hs2 & Hrt2 & Hp2).
  exists st2, V2, P2. cbn [map concat]. rewrite run_lines_app, Hs1. simpl. split_and!; [done|done|].
  by rewrite Hp2, Hp1, <-app_assoc.
Qed.

End Runs.

Lemma RT_start T :
  title_ok T = true →
  step_line init_state (js "# " ++ T) = Some (mkPState T [] None false [] [] []).
Proof.
  intros (Hne & Htr & _)%title_ok_spec. unfold step_line.
  rewrite classify_heading1_line by done. reflexivity.
Qed.

Lemma RT_finish T V P st :
  RT T V P false st → T ≠ [] →
  finish st = Some (mkDeck T (map mark_section_header (pend V P))).
Proof.
  intros Hrt HT. destruct (RT_flush _ _ _ _ _ Hrt) as (st1 & Hf & [[buf ->] _]).
  unfold finish. rewrite Hf. simpl.
  pose proof (mark_all_seq [] (pend V P)) as Hm. simpl in Hm. rewrite Hm. simpl.
  pose proof (deref_all_seq [] (map mark_section_header (pend V P))) as Hd.
  rewrite length_map in Hd. simpl in Hd. rewrite Hd. simpl.
  by rewrite bool_decide_eq_false_2.
Qed.

Lemma mark_reparsed s :
  mark_section_header (mkSlide (s_title s) (s_points s) None false) = reparsed s.
Proof. unfold mark_section_header, reparsed. simpl. by case_bool_decide. Qed.

Lemma serialize_lines_no_LF d :
  serializable d = true → Forall (λ l, LF ∉ l) (serialize_lines d).
Proof.
  intros [HT Hss]%andb_prop. apply title_ok_spec in HT as (_ & _ & HT).
  assert (Hjs : ∀ a t, bool_decide (LF ∈ js a) = false → LF ∉ t → LF ∉ js a ++ t).
  { intros a t Ha%bool_decide_eq_false Ht Hin. apply elem_of_app in Hin as [?|?]; auto. }
  constructor; [by apply Hjs; [vm_compute|]|]. apply Forall_concat, Forall_forall. intros ls Hls.
  apply list_elem_of_fmap in Hls as (s & -> & Hs).
  apply (forallb_elem _ _ s) in Hss; [|done].
  apply andb_prop in Hss as [[Ht Hps]%andb_prop Hc].
  apply title_ok_spec in Ht as (_ & _ & Ht).
  unfold serialize_slide. constructor; [by apply Hjs; [vm_compute|]|]. apply Forall_app. split.
  - apply Forall_forall. intros l (p & -> & Hp)%list_elem_of_fmap. apply Hjs; [by vm_compute|].
    apply (forallb_elem _ _ p) in Hps; [|done].
    apply point_ok_spec in Hps as [_ Hlt]. intros Hin.
    by pose proof (forallb_elem _ _ _ Hlt Hin).
  - assert (HF : LF ∉ FENCE) by (apply (bool_decide_unpack _); vm_compute; exact I).
    destruct (s_code s) as [c|]; [|done]. constructor; [done|]. apply Forall_app.
    split; [|by repeat constructor].
    apply Forall_forall. intros l Hl. by apply (split_on_no_sep LF c).
Qed.

(** The round trip on serialisable decks, shared by the claims on it. *)
Lemma serialize_reparse d :
  serializable d = true →
  parseMarkdownToSlides (serialize d) = Some (mkDeck (deck_title d) (map reparsed (deck_slides d))).
Proof.
  intros Hd. pose proof (serialize_lines_no_LF d Hd) as Hlf.
  apply andb_prop in Hd as [HT Hss].
  unfold parseMarkdownToSlides, serialize. rewrite split_on_join by (done || discriminate).
  unfold serialize_lines. cbn [run_lines]. rewrite RT_start by done. cbn [mbind option_bind].
  assert (Hrt0 : RT (deck_title d) [] [] false (mkPState (deck_title d) [] None false [] [] [])).
  { split; [by exists []|done]. }
  destruct (RT_slides _ _ _ _ _ Hrt0 Hss) as (st & V & P & Hrun & Hrt & Hp).
  rewrite Hrun. simpl. rewrite (RT_finish _ _ _ _ Hrt) by (by apply title_ok_spec in HT as []).
  rewrite Hp. simpl. rewrite map_map. f_equal. f_equal. apply map_ext. intros s. apply mark_reparsed.
Qed.

(** C14: Parsing the serialisation of a deck whose titles are non-empty,
    trimmed and on one line, whose points are trimmed and on one line and
    whose code has no fence line gives back the same title and the same
    slides, titles and points, with [sectionHeader] recomputed and no
    code: the fenced blocks come after a [##] heading, with no current
    slide to receive them. *)
Theorem parse_serialize d :
  serializable d = true →
  parseMarkdownToSlides (serialize d) = Some (mkDeck (deck_title d) (map reparsed (deck_slides d))).
Proof. exact (serialize_reparse d). Qed.

Lemma parse_serialize_witness :
  let d := mkDeck (js "Deck")
             [mkSlide (js "A") [js "a"; js "b"] (Some (js "x" ++ [LF] ++ js "y")) false;
              mkSlide (js "B") [] None true] in
  parseMarkdownToSlides (serialize d) = Some (mkDeck (deck_title d) (map reparsed (deck_slides d))).
Proof. intros d. apply parse_serialize. vm_compute. reflexivity. Defined.

(** The idempotence of spec 8 fails on the deck of spec example 3:
    its [---] slide has an empty title, serialised as the line [## ],
    which trims to [##], is no heading and becomes a point of the slide
    before; the re-parsed deck has two slides instead of three. *)
Theorem roundtrip_breaks_on_separator :
  parseMarkdownToSlides (join LF (map js ["# Deck"; "## A"; "- a"; "---"; "## B"; "- b"]%string)) =
    Some (mkDeck (js "Deck") [mkSlide (js "A") [js "a"] None false; mkSlide [] [] None true;
                              mkSlide (js "B") [js "b"] None false]) ∧
  parseMarkdownToSlides
    (serialize (mkDeck (js "Deck") [mkSlide (js "A") [js "a"] None false; mkSlide [] [] None true;
                                    mkSlide (js "B") [js "b"] None false])) =
    Some (mkDeck (js "Deck") [mkSlide (js "A") [js "a"; js "##"] None false;
                              mkSlide (js "B") [js "b"] None false]).
Proof. split; vm_compute; reflexivity. Qed.
