(* ===== verification/ParsedRoundtrip.v ===== *)
(** The round trip of spec 8 on the decks the parser itself returns.

    A text invariant of the parser ([text_inv]): every title, point and
    content item is trimmed and free of a character class [P] that the
    input lines avoid, and the code buffer is a sequence of non-blank,
    non-fence lines, each followed by a newline, so that a slide's code
    has no fence line.  With [P] the line terminators, an input that ends
    its lines with [\n] only gives a deck that [serialize] writes back
    faithfully; [parse_idempotent] then re-parses it into itself, without
    its code, when all its slides have a title. *)

From S2P Require Import Prelude JsString Heap LineClassifier ParserState ContentGroup ModeController DeckAssembler ParserInvariants ParserExamples Roundtrip.

(** Characters that are no line terminator. *)
Definition no_lt (c : char) : Prop := is_line_terminator c = false.

Definition text_ok (t : str) : Prop := trim t = t ∧ Forall no_lt t.

Definition code_text_ok (c : str) : Prop :=
  Forall (λ p, starts_with (trim p) FENCE = false) (split_on LF c).

Definition slide_text_ok (s : Slide) : Prop :=
  text_ok (s_title s) ∧ Forall text_ok (s_points s) ∧ (∀ c, s_code s = Some c → code_text_ok c).

(** A line the code buffer received: not blank, not a fence. *)
Definition code_line_ok (l : str) : Prop :=
  Forall no_lt l ∧ trim l ≠ [] ∧ starts_with (trim l) FENCE = false.

Definition buffer_of (ls : list str) : str := concat (map (λ l, l ++ [LF]) ls).

Definition text_inv (st : PState) : Prop :=
  text_ok (title st) ∧ Forall slide_text_ok (store st) ∧
  Forall (λ it, text_ok (content it)) (contentGroup st) ∧
  ∃ ls, codeBuffer st = buffer_of ls ∧ Forall code_line_ok ls.

(** ** The code buffer *)

Lemma no_lt_LF l : Forall no_lt l → LF ∉ l.
Proof. intros H Hin. rewrite Forall_forall in H. specialize (H _ Hin). by compute in H. Qed.

Lemma trim_nonblank_start s : trim s ≠ [] → trim_start s ≠ [].
Proof. unfold trim. intros H E. rewrite E in H. done. Qed.

Lemma trim_nonblank_end s : trim s ≠ [] → trim_end s ≠ [].
Proof. unfold trim. rewrite <-trim_start_trim_end. intros H E. rewrite E in H. done. Qed.

Lemma buffer_of_join ls : ls ≠ [] → buffer_of ls = join LF ls ++ [LF].
Proof.
  induction ls as [|l [|l' ls] IH]; intros Hne;
    [by destruct (Hne eq_refl)|unfold buffer_of; simpl; by rewrite app_nil_r|].
  unfold buffer_of in *. cbn [map concat join] in *. rewrite IH by done. by rewrite <-!app_assoc.
Qed.

Lemma trim_buffer l ls :
  trim l ≠ [] → trim (buffer_of (l :: ls)) = trim (join LF (l :: ls)).
Proof.
  intros Hl. rewrite buffer_of_join by done. unfold trim.
  rewrite trim_start_app_nonblank, trim_end_snoc_ws; [done|done|].
  rewrite trim_start_join by (by apply trim_nonblank_start). destruct ls; simpl.
  - by apply trim_nonblank_start.
  - pose proof (trim_nonblank_start _ Hl). by destruct (trim_start l).
Qed.

Lemma code_line_pieces ls :
  Forall code_line_ok ls → code_text_ok (trim (buffer_of ls)).
Proof.
  intros Hls. destruct ls as [|l1 rest]; [constructor; [reflexivity|constructor]|].
  apply Forall_cons in Hls as [(Hf1 & Hn1 & Hs1) Hrest].
  rewrite trim_buffer by done. unfold code_text_ok.
  destruct rest as [|l2 rest'] using rev_ind.
  { rewrite split_on_single by (by apply no_lt_LF, trim_free). constructor; [|done].
    by rewrite trim_idem. }
  clear IHrest'. apply Forall_app in Hrest as [Hmid Hln]. apply Forall_cons in Hln as [(Hfn & Hnn & Hsn) _].
  assert (E : trim (join LF (l1 :: rest' ++ [l2])) = join LF ((trim_start l1 :: rest') ++ [trim_end l2])).
  { unfold trim. rewrite trim_start_join by (by apply trim_nonblank_start).
    change (trim_start l1 :: rest' ++ [l2]) with ((trim_start l1 :: rest') ++ [l2]).
    by rewrite trim_end_join by (by apply trim_nonblank_end). }
  rewrite E, split_on_join; [|done|].
  2: { apply Forall_app. split; [constructor|constructor; [|done]].
       - by apply no_lt_LF, trim_start_prefix_free.
       - eapply Forall_impl; [exact Hmid|]. intros l (? & _ & _). by apply no_lt_LF.
       - by apply no_lt_LF, trim_end_prefix_free. }
  apply Forall_app. split; [constructor|constructor; [|done]].
  - by rewrite trim_trim_start.
  - eapply Forall_impl; [exact Hmid|]. by intros l (_&_&?).
  - by rewrite trim_trim_end.
Qed.

(** ** The invariant is kept by every handler *)

Lemma text_ok_nil : text_ok [].
Proof. split; [done|constructor]. Qed.

Lemma text_ok_placeholder : text_ok PLACEHOLDER_TITLE.
Proof. split; [reflexivity|repeat constructor]. Qed.

Lemma new_slide_text t : text_ok t → slide_text_ok (new_slide t).
Proof. intros Ht. split_and!; [done|constructor|done]. Qed.

Lemma add_points_text ps s : Forall text_ok ps → slide_text_ok s → slide_text_ok (add_points ps s).
Proof. intros Hps (Ht & Hp & Hc). split_and!; [done| |done]. simpl. by apply Forall_app. Qed.

Lemma set_code_text c s : code_text_ok c → slide_text_ok s → slide_text_ok (set_code c s).
Proof. intros Hc (Ht & Hp & _). split_and!; [done|done|]. by intros c' [= <-]. Qed.

Lemma mark_text s : slide_text_ok s → slide_text_ok (mark_section_header s).
Proof. unfold mark_section_header. by case_bool_decide. Qed.

Lemma hier_slides_text g : Forall (λ it, text_ok (content it)) g → Forall slide_text_ok (hier_slides g).
Proof.
  unfold hier_slides. intros Hg.
  cut (∀ acc, Forall slide_text_ok acc.1 → (∀ s, acc.2 = Some s → slide_text_ok s) →
         let '(f, c) := foldl hier_step acc g in Forall slide_text_ok (f ++ option_list c)).
  { intros Hc. specialize (Hc ([], None)). destruct (foldl _ _ g). apply Hc; [constructor|done]. }
  induction Hg as [|it g Hit _ IH]; intros [fin cur] Hfin Hcur; simpl in *.
  - apply Forall_app. split; [done|]. destruct cur; simpl; [|done]. constructor; [by apply Hcur|constructor].
  - apply IH; destruct (is_head it); simpl.
    + apply Forall_app. split; [done|]. destruct cur; simpl; [|done]. constructor; [by apply Hcur|constructor].
    + exact Hfin.
    + intros s [= <-]. by apply new_slide_text.
    + intros s [= <-]. apply add_points_text; [constructor; [exact Hit|constructor]|].
      destruct cur; simpl; [by apply Hcur|apply new_slide_text, text_ok_placeholder].
Qed.

Lemma push_all_store os st : store (push_all os st) = store st ++ os.
Proof.
  revert st. induction os as [|o os IH]; intros st; simpl; [by rewrite app_nil_r|].
  rewrite IH. unfold push_new, push_ref, alloc. simpl. by rewrite <-app_assoc.
Qed.

Lemma push_points_text l ps st st' :
  Forall slide_text_ok (store st) → Forall text_ok ps → push_points l ps st = Some st' →
  Forall slide_text_ok (store st').
Proof.
  intros Hs Hps. unfold push_points. destruct (update _ _ _) as [h|] eqn:Eu; [|done].
  intros [= <-]. eapply Forall_update; [exact Hs| |exact Eu]. intros o. by apply add_points_text.
Qed.

Lemma flush_text st st' : text_inv st → flushContentGroup st = Some st' → text_inv st'.
Proof.
  intros Hi Hf. pose proof (flush_fields _ _ Hf) as (Ht & _ & Hb & Hg).
  destruct Hi as (Htt & Hs & Hgr & Hbuf). unfold text_inv. rewrite Ht, Hb, Hg.
  split_and!; [done| |constructor|done]. revert Hf. unfold flushContentGroup.
  destruct (contentGroup st) as [|it g] eqn:Eg; [by intros [= <-]|].
  intros Hf. simpl_bind. subst. simpl. destruct (hierarchical (it :: g)).
  - injection E as <-. rewrite push_all_store. apply Forall_app. split; [done|]. by apply hier_slides_text.
  - assert (Hc : Forall text_ok (map content (it :: g))) by (by apply Forall_fmap).
    unfold flush_flat in E. rewrite Eg in E.
    destruct (last (slides st)); [|destruct (currentSlide st)]; cbn in E;
      (eapply push_points_text; [|exact Hc|exact E]); [done|done|].
    simpl. apply Forall_snoc. split; [done|]. apply new_slide_text, text_ok_placeholder.
Qed.

Lemma close_current_text st : text_inv st → text_inv (close_current st).
Proof. unfold close_current. by destruct (currentSlide st). Qed.

Lemma push_new_text o st : text_inv st → slide_text_ok o → text_inv (push_new o st).
Proof. intros (? & Hs & ? & ?) Ho. split_and!; try done. simpl. by apply Forall_snoc. Qed.

Lemma classify_content_line line :
  classify line ≠ LBlank → classify line ≠ LFence →
  trim line ≠ [] ∧ starts_with (trim line) FENCE = false.
Proof.
  unfold classify. case_bool_decide; [done|]. intros _.
  destruct (starts_with (trim line) FENCE); [done|]. done.
Qed.

Lemma buffer_of_snoc ls l : buffer_of (ls ++ [l]) = buffer_of ls ++ l ++ [LF].
Proof. unfold buffer_of. by rewrite map_app, concat_app; simpl; rewrite app_nil_r. Qed.

Lemma unless_in_code_text line k st st' :
  text_inv st → Forall no_lt line → classify line ≠ LBlank → classify line ≠ LFence →
  (inCodeBlock st = false → k st = Some st' → text_inv st') →
  unless_in_code line k st = Some st' → text_inv st'.
Proof.
  intros (Ht & Hs & Hg & ls & Hb & Hls) Hl Hnb Hnf Hk. unfold unless_in_code.
  destruct (inCodeBlock st); [|by apply Hk]. intros [= <-].
  destruct (classify_content_line line Hnb Hnf) as [Hne Hnf'].
  split_and!; try done. exists (ls ++ [line]). simpl. rewrite buffer_of_snoc, Hb.
  split; [done|]. apply Forall_app. split; [done|]. by repeat constructor.
Qed.

Lemma on_fence_text st st' : text_inv st → on_fence st = Some st' → text_inv st'.
Proof.
  unfold on_fence. intros Hi H. simpl_bind. pose proof (flush_text _ _ Hi E) as Hi1.
  simpl in H. repeat case_match; simpl_bind; subst; try exact Hi1.
  destruct Hi1 as (Ht & Hs & Hg & ls & Hb & Hls).
  split_and!; try done; [|by exists []]. simpl.
  eapply Forall_update; [exact Hs| |exact E0]. intros o. apply set_code_text.
  rewrite Hb. by apply code_line_pieces.
Qed.

Lemma step_line_text st line st' :
  text_inv st → Forall no_lt line → step_line st line = Some st' → text_inv st'.
Proof.
  intros Hi Hl. unfold step_line. destruct (classify line) as [| |t|t| |n c|c] eqn:Ec; [by intros [= <-]|by apply on_fence_text|..];
    (apply unless_in_code_text; [done|done|by rewrite Ec|by rewrite Ec|]); intros _ Hk.
  - pose proof (classify_text no_lt line t Hl) as Htt. rewrite Ec in Htt. specialize (Htt eq_refl).
    unfold on_heading1 in Hk. simpl_bind. pose proof (flush_text _ _ Hi E) as Hi1.
    case_bool_decide; simpl_bind; subst.
    + destruct Hi1 as (_ & ? & ? & ?). by split_and!.
    + apply close_current_text in Hi1. destruct Hi1 as (? & ? & ? & ?).
      split_and!; try done. simpl. apply Forall_snoc. split; [done|]. by apply new_slide_text.
  - pose proof (classify_text no_lt line t Hl) as Htt. rewrite Ec in Htt. specialize (Htt eq_refl).
    unfold on_heading23 in Hk. simpl_bind. subst.
    apply push_new_text; [apply close_current_text; by eapply flush_text|by apply new_slide_text].
  - unfold on_separator in Hk. simpl_bind. subst.
    apply push_new_text; [|apply new_slide_text, text_ok_nil].
    destruct (flush_text _ _ Hi E) as (? & ? & ? & ?). by split_and!.
  - pose proof (classify_text no_lt line c Hl) as Htt. rewrite Ec in Htt. specialize (Htt eq_refl).
    injection Hk as <-. destruct Hi as (? & ? & ? & ?). split_and!; try done. simpl.
    apply Forall_app. split; [done|]. constructor; [exact Htt|constructor].
  - pose proof (classify_text no_lt line c Hl) as Htt. rewrite Ec in Htt. specialize (Htt eq_refl).
    injection Hk as <-. destruct Hi as (? & ? & ? & ?). split_and!; try done. simpl.
    apply Forall_app. split; [done|]. constructor; [exact Htt|constructor].
Qed.

Lemma run_lines_text st lines st' :
  text_inv st → Forall (Forall no_lt) lines → run_lines st lines = Some st' → text_inv st'.
Proof.
  intros Hi Hl. revert st Hi. induction Hl as [|l ls Hl _ IH]; intros st Hi H; simpl in H.
  - by injection H as <-.
  - simpl_bind. eapply IH; [|exact H]. by eapply step_line_text.
Qed.

Lemma mark_all_text ls h h' :
  Forall slide_text_ok h → mark_all ls h = Some h' → Forall slide_text_ok h'.
Proof.
  revert h. induction ls as [|l ls IH]; intros h Hh H; simpl in H; [by injection H as <-|].
  simpl_bind. eapply IH; [|exact H]. eapply Forall_update; [exact Hh|exact mark_text|exact E].
Qed.

Lemma text_ok_default : text_ok DEFAULT_TITLE.
Proof. split; [reflexivity|repeat constructor]. Qed.

(** What [finish] returns from a state with the invariant: a non-empty
    deck title and slides whose texts are trimmed and on one line. *)
Lemma finish_text st d :
  text_inv st → finish st = Some d →
  text_ok (deck_title d) ∧ deck_title d ≠ [] ∧ Forall slide_text_ok (deck_slides d).
Proof.
  unfold finish. intros Hi H. simpl_bind. destruct (flush_text _ _ Hi E) as (Ht & Hs & _).
  match type of E0 with mark_all _ (store ?s) = _ => set (st2 := s) in * end.
  assert (Hst : store st2 = store p ∧ title st2 = title p) by (subst st2; repeat case_match; done).
  destruct Hst as [Hs2 Ht2]. subst d. simpl. rewrite Ht2.
  split_and!; [case_bool_decide; [apply text_ok_default|done]|case_bool_decide; [discriminate|done]|].
  eapply deref_all_free; [|exact E1]. eapply mark_all_text; [|exact E0]. by rewrite Hs2.
Qed.

Lemma forallb_negb_Forall {A} (f : A → bool) l :
  Forall (λ x, f x = false) l → forallb (λ x, negb (f x)) l = true.
Proof. induction 1 as [|x l Hx _ IH]; [done|]. simpl. by rewrite Hx, IH. Qed.

Lemma text_title_ok t : text_ok t → t ≠ [] → title_ok t = true.
Proof.
  intros [Ht Hf] Hne. unfold title_ok. rewrite !bool_decide_eq_true_2; [done| |done|done].
  by apply no_lt_LF.
Qed.

Lemma text_point_ok p : text_ok p → point_ok p = true.
Proof. intros [Ht Hf]. unfold point_ok. rewrite bool_decide_eq_true_2 by done. by apply forallb_negb_Forall. Qed.

Lemma text_serializable d :
  text_ok (deck_title d) → deck_title d ≠ [] → Forall slide_text_ok (deck_slides d) →
  Forall (λ s, s_title s ≠ []) (deck_slides d) → serializable d = true.
Proof.
  intros Ht Hne Hs Hne'. unfold serializable. rewrite text_title_ok by done. simpl.
  apply forallb_forall. intros s Hin%list_elem_of_In.
  rewrite Forall_forall in Hs, Hne'. destruct (Hs s Hin) as (Hst & Hsp & Hsc).
  rewrite text_title_ok by auto. simpl. apply andb_true_intro. split.
  - apply forallb_forall. intros p Hp%list_elem_of_In. apply text_point_ok.
    rewrite Forall_forall in Hsp. auto.
  - unfold code_ok. destruct (s_code s) as [c|]; [|done]. by apply forallb_negb_Forall, Hsc.
Qed.

Lemma init_text : text_inv init_state.
Proof. split_and!; [apply text_ok_nil|constructor|constructor|by exists []]. Qed.

(** C15: Spec 8 on the decks the parser returns: when the markdown ends
    its lines with [\n] and no other line terminator, and every slide of
    the parsed deck has a title, serialising the deck and parsing it
    again gives its title and slides back, without their code and with
    [sectionHeader] recomputed from the points. *)
Theorem parse_idempotent md d :
  Forall (λ c, c = LF ∨ no_lt c) md → parseMarkdownToSlides md = Some d →
  Forall (λ s, s_title s ≠ []) (deck_slides d) →
  parseMarkdownToSlides (serialize d) = Some (mkDeck (deck_title d) (map reparsed (deck_slides d))).
Proof.
  intros Hmd Hp Hne. apply serialize_reparse. unfold parseMarkdownToSlides in Hp. simpl_bind.
  destruct (finish_text p d) as (Ht & Htne & Hs); [|done|by apply text_serializable].
  eapply run_lines_text; [exact init_text|by apply split_on_free|exact E].
Qed.

Lemma parse_idempotent_witness :
  let s1 := mkSlide PLACEHOLDER_TITLE [js "a"; js "b"] (Some (js "x" ++ [LF] ++ js "y")) false in
  let d := mkDeck (js "Deck") [s1; s1; mkSlide (js "B") [js "text"] None false] in
  parseMarkdownToSlides (serialize d) = Some (mkDeck (deck_title d) (map reparsed (deck_slides d))).
Proof.
  intros s1 d.
  apply (parse_idempotent (md ["# Deck"; "- a"; "- b"; "```"; "x"; "y"; "```"; "## B"; "text"]%string) d).
  - vm_compute. repeat (constructor; [first [by left | by right]|]). constructor.
  - vm_compute. reflexivity.
  - repeat constructor; vm_compute; discriminate.
Defined.
